(* ===== verification/_CoqProject ===== *)
-Q . S2P
Prelude.v
Bpf.v
BpfModel.v
History.v
Hooks.v
IosnoopFmt.v
IosnoopBpf.v
IosnoopProbes.v
IosnoopSpec.v
IosnoopTrace.v
IosnoopFilter.v
IosnoopDemo.v
Interleave.v
IosnoopMicro.v
IosnoopHistory.v
IoslowerBpf.v
IoslowerProbes.v
IoslowerSpec.v
IoslowerTrace.v
IoslowerDemo.v
IoslowerMicro.v
IoslowerHistory.v
AodEvent.v
SmbslowerBpf.v
SmbslowerTrace.v
SmbiosnoopBpf.v
NfsiosnoopBpf.v
NfsslowerBpf.v
CLib.v
TraceHelpers.v
Sysmacros.v
IosnoopUser.v
FdCacheHeap.v
IosnoopEnd.v
HookSelect.v
HookHost.v
LowerFilter.v
NfsslowerMain.v
SmbslowerMain.v
LowerOptions.v
SmbslowerEnd.v
SmbslowerMicro.v
SmbslowerHistory.v
NfsslowerEnd.v
NfsslowerHistory.v
ModuleHost.v
StopLoop.v
Allowlist.v
SmbiosnoopUser.v
NfsiosnoopUser.v
RingbufShim.v
ShimStream.v
PyText.v
Consumer.v
PyMain.v
Pipeline.v
IoslowerUser.v
IoMain.v
