(* ===== verification/Prelude.v ===== *)
(** * monitoring_tools: a verification library

    The repository holds six tracing tools for Linux.  Each is an eBPF program
    that runs in the kernel (src/bpf/<tool>.bpf.c) and a loader that runs in
    user space (src/user/<tool>.c): the loader reads the command line, chooses
    the kernel programs that fit the running kernel, writes the configuration
    into their constants and maps, attaches them, and (iosnoop, ioslower)
    prints the events of their ring buffer.  The ring of the four smb and nfs
    tools is pinned and read by other processes, the Python consumers of
    src/common, with libbpf or through src/ringbuf_shim.c.
    The loaders share src/common/trace_helpers.c.

    ** How the code is modelled

    A C integer is a [Z]; every narrowing, sign change and arithmetic that can
    overflow is written out with [u8] .. [u64], [s32], [s64] below.  A
    character is its code, a buffer a list of its bytes, and a store outside a
    buffer is [None]: a theorem that an operation returns [Some] is memory
    safety.  A kernel program is a function from its environment (clock,
    thread, kernel memory), the arguments of the hooked function and the state
    of its maps to the new state; an execution is the list of the firings of
    programs in the order in which they happen, over all threads.  Each firing
    comes with its own environment and kernel memory, so that the address of a
    kernel object can be reused for another one with other contents.  The
    firings of such a list are atomic.  IosnoopMicro, IoslowerMicro and
    SmbslowerMicro run the VFS probes of iosnoop and ioslower and the programs
    of smbslower helper call by helper call, in any order that a scheduler can
    choose, and [probes_atomic], [slow_run_atomic] and [smb_run_atomic] reduce
    such executions to lists of firings; the argument they share is
    [Interleave.run_linear].  One thread runs one probe at a time; likewise the
    programs of one smb command or entry follow one another: the kernel starts a
    command before it completes it, and runs the release program of an entry
    before it frees the entry.  For smbslower nothing else is asked of a schedule.
    For iosnoop and ioslower no two probes may be at the same element of
    vma_dev_map at a time ([undisturbed], a test of the schedule): the probe at vm_munmap looks its element up and deletes it in
    two steps, and [IoslowerMicro.racing_unmaps] is a schedule outside of the
    condition that ends as no list of firings does.  nfsslower is not atomic:
    [NfsslowerBpf.nfs_command_race] is about the place.  A loader's [main] is a
    function of the command line and of what the system calls and libbpf return.

    The BPF helpers, libbpf, the kernel's memory and the C library's calendar
    are not code of the repository.  They are parameters: the class
    [BpfRuntime] with the laws [BpfRuntimeLaws] and [env_ok] (Bpf.v), the class
    [RingBuffer] (RingbufShim.v), the records [system], [kernel], [world] and
    the arguments of the loaders and consumers.  [gmap_runtime] (BpfModel.v)
    satisfies the laws, and the witness of every theorem with hypotheses evaluates
    the programs on it.

    ** Files

    Shared: Prelude (this file: integers, C strings, bounded buffers), Bpf and
    BpfModel (the kernel's interface and a concrete one), History (what a map
    holds as a function of what happened), Hooks (the kernel
    functions that iosnoop and ioslower hook, with their arguments), Interleave
    (a scheduler of probes and when its executions are linear), CLib (the
    C library functions the loaders call) and Sysmacros (device numbers of user
    space).

    - iosnoop, kernel side, src/bpf/iosnoop.bpf.c: IosnoopFmt (the formatting
      of argument texts), IosnoopBpf (records, maps, mount filter, readers,
      emission), IosnoopProbes (one definition for each SEC program).
      IosnoopSpec says without buffers and positions what an entry records;
      IosnoopTrace and IosnoopFilter hold the theorems, IosnoopDemo their
      witnesses.  IosnoopMicro has the probes as sequences of helper calls, and
      IosnoopHistory the ring as a function of the history.
    - ioslower, kernel side, src/bpf/ioslower.bpf.c: IoslowerBpf,
      IoslowerProbes, IoslowerSpec, IoslowerTrace, IoslowerDemo, IoslowerMicro,
      IoslowerHistory, likewise.
    - the event record of the smb and nfs tools, src/common/aod_diag.h:
      AodEvent.
    - smbslower, smbiosnoop, nfsiosnoop and nfsslower, kernel side: SmbslowerBpf
      with SmbslowerTrace and SmbslowerMicro, SmbiosnoopBpf, NfsiosnoopBpf,
      NfsslowerBpf.
    - src/common/trace_helpers.c: TraceHelpers; src/ringbuf_shim.c: RingbufShim,
      and ShimStream for what a consumer receives that polls it in a loop.
    - the consumers src/common/sample_consumer.py and shim_consumer.py: PyText
      (what they use of Python's text and numbers), Consumer (layouts, lines and
      loops) and PyMain (detach, options and main).  Pipeline puts smbslower's
      loader, its programs, the ring and a consumer together.
    - loaders of iosnoop and ioslower, src/user/iosnoop.c and ioslower.c:
      IosnoopUser and IoslowerUser (the printers), IosnoopEnd (from the kernel
      to the printed line), FdCacheHeap (the descriptor cache as linked memory
      with calloc and free), HookSelect and HookHost (the choice of the programs,
      and on a kernel with given symbols and BTF), IoMain (options and main).
    - the other loaders: LowerFilter (options and lists of smbslower.c and
      nfsslower.c) with LowerOptions (what a whole command line means),
      SmbslowerMain, NfsslowerMain, Allowlist (the loop shared by the next two),
      SmbiosnoopUser, NfsiosnoopUser, and StopLoop (the wait for a signal at the
      end of all four).  SmbslowerEnd and NfsslowerEnd put loader and kernel
      program together, SmbslowerHistory and NfsslowerHistory give their rings as
      functions of the command line and the history, ModuleHost puts the choice
      of the programs and the helpers that inspect the kernel together;
      SmbiosnoopUser and NfsiosnoopUser contain their composition.

    Definitions have the names of the C functions, records those of the C
    structs; a field that the code does not read back is kept when it is part
    of a layout and dropped otherwise.

    ** What the theorems show

    - Memory safety and refinement: whatever the interleaving of entries and
      returns on whatever kernel memory, no probe of iosnoop or ioslower writes
      outside its buffers, and the records and events are those of a
      specification without buffers ([exec_refines], [slow_exec_refines]).
      Both hook families, fentry/fexit and kprobe/kretprobe, refine the one
      specification.
    - The ring as a function of the history: without maps, and for every run of
      any length, which events the ring holds ([iosnoop_history],
      [ioslower_history], [smbslower_history], [nfsslower_history]); a returning
      call looks back in the history for the entry it ends.  The one condition is
      that the maps have room for what is in flight at a time.
    - Atomicity: when the helper calls of concurrent iosnoop probes interleave,
      no two of which are at the same mapping at a time, the maps and, up to
      their order, the events are those of the probes one after the other in
      the order in which they finish ([probes_atomic]); so for ioslower.  For
      smbslower, whose completions send their event after they have deleted
      their record, there is no such condition; an event has its place in the
      ring from its reservation on.  With the history theorems this says what
      concurrent probes report ([concurrent_history], [slow_concurrent_history],
      [smb_concurrent_history]).
    - Pairing: an entry and its return, with anything of other threads or other
      codes in between, give one event with the data of both
      ([enter_leave_event]); calls that the filter rejects and returns without
      an entry give none; no execution has more events than entries.  For the
      latency tools an operation is reported exactly when its latency reaches
      the limit ([slow_event_latency], [smb_mid_latency], and [smb_trace_latency]
      and [nfs_task_latency]).  ioslower keys operations by the thread alone:
      [slow_nested_loses_outer] and [slow_nested_misattributed] say what a
      nested call costs.
    - Invariants of the reachable states: every record in flight and every
      event fits its C types, strings are terminated, denied commands and fast
      operations are not reported ([reachable_inv], [slow_reachable_inv],
      [smb_reachable_inv]).
    - From the command line to the ring: which commands smbslower and nfsslower
      report and after which time, which errors smbiosnoop and nfsiosnoop report,
      which devices the mount filter lets pass ([smbslower_command_line],
      [nfsslower_command_line], [smbiosnoop_command_line],
      [nfsiosnoop_command_line], [mount_path_filters]).
    - The choice of the programs: which are loaded on which kernel, and that what
      is put on a function takes the parameters that the function has, but for
      one kind of kernel on which the program hooks a function that does not
      exist ([hooked_once], [selection_exact], [cifs_probes_fit]).
    - From the ring to the reader: both consumers read every member of the record
      where the kernel program has put it, a consumer that polls in a loop
      receives the events in order and loses one at most for each poll that does
      not fit its buffer, and each event of iosnoop and ioslower prints one line
      that carries its data
      ([consumers_read], [shim_stream], [printed_line], [slow_printed_line]).  The
      consumer that libbpf calls loses none ([sample_stream]); both print the
      same line but for numbers they read at different widths
      ([consumers_print]), with the latency to a hundredth of a millisecond
      ([latency_printed]); and detaching removes what it is given and no more
      ([detach_spec]).
    - The whole of smbslower: from the command line through interleaved programs
      to the lines that the consumer prints ([smb_pipeline]).
    - Resources: the descriptor cache of iosnoop never touches memory that is not
      allocated and is freed completely ([fd_cache_memory]), and the helpers that
      inspect the kernel give back every descriptor and BTF object
      ([fentry_attach_spec]).
    - Termination: the polling loop stops at a signal, an error or the deadline
      and only then ([trace_loop_stops]); a loader that waits for a signal ends for
      one that does not fall between its test and its call ([signals_stop]).
    - Behaviour that deviates from what comments or documents say: programs
      that pass wakeup flags to a reservation report nothing, an exit status of
      0 after some failures, a status of 1 after some regular stops, colliding
      keys of the table of mappings, unmappings that race and are both reported,
      a key with bytes that nothing initialises ([smb_padding_loses]), a release
      program for a function that the kernel does not have, a leaked descriptor,
      a negative error printed as a large number, a ring that is unpinned while a
      link remains.  Each is a theorem.

    ** Fuel and bounds

    Loops over data are structural on that data or bounded like the C loop: 40
    characters of a literal and 20 digits in IosnoopFmt (the largest 64-bit
    number has 20 digits; the digit loops are given 21 rounds and run out of
    them never, [append_u64_dec_spec]), the number of elements of an array in
    [bsearch], the length of a file in [fgets_lines] and in the scan of
    /proc/kallsyms, the number of allocated entries and one in FdCacheHeap
    ([repr_fuel]).  The polling loop, which has no bound, is given the rounds
    that it goes through, and answers [None] while it runs; so are a consumer's
    loop in ShimStream and Consumer, and a schedule in Interleave is a list of
    actions.  The quotient that the consumers print is given for a numerator below
    2^64; the bound on its rounding is for those below 2^53, which a float holds
    exactly.

    ** Not modelled

    vmlinux.h and cifs_btf.h, which are generated dumps of kernel types, and
    bpf_endian_le.h, of which the programs use one macro; the tests and build
    files; output to the error stream and libbpf's log callbacks; what Python
    does with its standard output; the verifier's view of the programs.  The argp
    library is the list of keys and arguments that it passes to [parse_arg].  The
    helper calls of the programs of nfsslower (beyond [nfs_command_race]),
    smbiosnoop and nfsiosnoop do not interleave in the model; those of the last
    two keep nothing from one firing to the next. *)

From Stdlib Require Export ZArith Lia.
From Stdlib Require Ascii String.
From stdpp Require Export base tactics option list gmap strings numbers.
#[global] Set Default Goal Selector "!".

Declare Scope mon_scope.
Delimit Scope mon_scope with mon.
#[global] Open Scope Z_scope.

(** ** Machine integers

    A C integer of width [w] is a [Z]; every assignment to a narrower or
    unsigned type goes through the wrap-around of that type. *)

Definition wrapu (w z : Z) : Z := z mod 2 ^ w.
Definition wraps (w z : Z) : Z := (z + 2 ^ (w - 1)) mod 2 ^ w - 2 ^ (w - 1).

Abbreviation u8 := (wrapu 8).
Abbreviation u16 := (wrapu 16).
Abbreviation u32 := (wrapu 32).
Abbreviation u64 := (wrapu 64).
Abbreviation s32 := (wraps 32).
Abbreviation s64 := (wraps 64).

Definition fits_u (w z : Z) : Prop := 0 <= z < 2 ^ w.
Definition fits_s (w z : Z) : Prop := - 2 ^ (w - 1) <= z < 2 ^ (w - 1).

Lemma wrapu_range w z : 0 <= w -> fits_u w (wrapu w z).
Proof. intros Hw. apply Z.mod_pos_bound. lia. Qed.

Lemma wrapu_small w z : fits_u w z -> wrapu w z = z.
Proof. intros H. by apply Z.mod_small. Qed.

Lemma wraps_small w z : 0 < w -> fits_s w z -> wraps w z = z.
Proof.
  unfold wraps, fits_s. intros Hw Hz.
  assert (2 ^ w = 2 * 2 ^ (w - 1)) as Hp.
  { rewrite <- Z.pow_succ_r by lia. f_equal. lia. }
  rewrite Z.mod_small by lia. lia.
Qed.

Lemma wraps_range w z : 0 < w -> fits_s w (wraps w z).
Proof.
  unfold wraps, fits_s. intros Hw.
  assert (2 ^ w = 2 * 2 ^ (w - 1)) as Hp.
  { rewrite <- Z.pow_succ_r by lia. f_equal. lia. }
  pose proof (Z.mod_pos_bound (z + 2 ^ (w - 1)) (2 ^ w) ltac:(lia)). lia.
Qed.

(** Wrapping at a width, then reading the low bits at a narrower one. *)
Lemma wrapu_wraps w z : 0 < w -> wrapu w (wraps w z) = wrapu w z.
Proof.
  intros Hw. unfold wraps, wrapu.
  rewrite Zminus_mod_idemp_l. f_equal. lia.
Qed.

Lemma wraps_wrapu w z : 0 < w -> wraps w (wrapu w z) = wraps w z.
Proof. intros Hw. unfold wraps, wrapu. by rewrite Zplus_mod_idemp_l. Qed.

(** ** The option monad: [None] is a memory fault (an out-of-bounds access) *)

Notation "'guard!' b ';;' k" := (if (b : bool) then k else None)
  (at level 20, b at level 100, k at level 200, right associativity) : mon_scope.

(** ** C buffers

    A [char] buffer is a list of byte values.  [load] and [store] fail when
    the index is out of the buffer: a C program that gets there reads or
    writes outside its object. *)

Definition load (buf : list Z) (i : Z) : option Z :=
  if bool_decide (0 <= i) then buf !! Z.to_nat i else None.

Definition store (buf : list Z) (i v : Z) : option (list Z) :=
  if bool_decide (0 <= i < Z.of_nat (length buf))
  then Some (<[Z.to_nat i := v]> buf) else None.

(** The C string a buffer holds: the bytes before its first NUL. *)
Fixpoint cstr (buf : list Z) : list Z :=
  match buf with
  | [] => []
  | c :: t => if c =? 0 then [] else c :: cstr t
  end.

(** A buffer that holds a NUL, so that reading it as a string ends in it. *)
Definition nul_terminated (buf : list Z) : Prop := In 0 buf.

(** [pad n t] is the [n]-byte buffer holding the text [t] and zeroes. *)
Definition pad (n : nat) (t : list Z) : list Z := t ++ replicate (n - length t) 0.

(** The bytes of a source literal, without and with the final NUL. *)
Definition bytes (s : string) : list Z :=
  map (fun a => Z.of_N (Ascii.N_of_ascii a)) (String.list_ascii_of_string s).
Definition lit (s : string) : list Z := bytes s ++ [0].

Definition no_nul (t : list Z) : Prop := Forall (fun c => c <> 0) t.

Lemma no_nul_app t1 t2 : no_nul (t1 ++ t2) <-> no_nul t1 /\ no_nul t2.
Proof. apply Forall_app. Qed.

Lemma no_nul_take n t : no_nul t -> no_nul (take n t).
Proof. apply Forall_take. Qed.

Lemma cstr_no_nul buf : no_nul (cstr buf).
Proof.
  induction buf as [|c t IH]; simpl; [constructor|].
  destruct (Z.eqb_spec c 0); constructor; auto.
Qed.

Lemma cstr_length buf : (length (cstr buf) <= length buf)%nat.
Proof. induction buf as [|c t IH]; simpl; [lia|]. destruct (c =? 0); simpl; lia. Qed.

Lemma cstr_app_nul t rest : no_nul t -> cstr (t ++ 0 :: rest) = t.
Proof.
  induction 1 as [|c t Hc Ht IH]; simpl; [done|].
  destruct (Z.eqb_spec c 0); [done|]. by rewrite IH.
Qed.

(** The string of a terminated buffer is not changed by what follows it. *)
Lemma cstr_app_terminated buf rest :
  nul_terminated buf -> cstr (buf ++ rest) = cstr buf.
Proof.
  unfold nul_terminated. induction buf as [|c t IH]; simpl; [done|].
  intros [->|H]; [done|]. destruct (c =? 0); [done|]. by rewrite IH.
Qed.

Lemma cstr_all t : no_nul t -> cstr t = t.
Proof.
  induction 1 as [|c t Hc Ht IH]; simpl; [done|].
  destruct (Z.eqb_spec c 0); [done|]. by rewrite IH.
Qed.

Lemma cstr_lit s : no_nul (bytes s) -> cstr (lit s) = bytes s.
Proof. intros H. by apply cstr_app_nul. Qed.

(** A NUL-terminated buffer is its string, a NUL and whatever follows. *)
Lemma nul_terminated_split buf :
  nul_terminated buf -> exists rest, buf = cstr buf ++ 0 :: rest.
Proof.
  unfold nul_terminated. induction buf as [|c t IH]; simpl; [done|].
  intros H. destruct (Z.eqb_spec c 0) as [->|Hc]; [by exists t|].
  destruct H as [H|H]; [done|]. destruct (IH H) as [rest Hr].
  exists rest. simpl. by rewrite <- Hr.
Qed.

Lemma length_pad n t : (length t <= n)%nat -> length (pad n t) = n.
Proof. intros H. unfold pad. rewrite length_app, length_replicate. lia. Qed.

Lemma pad_split n t :
  (length t < n)%nat -> pad n t = t ++ 0 :: replicate (n - length t - 1) 0.
Proof.
  intros H. unfold pad. f_equal.
  replace (n - length t)%nat with (S (n - length t - 1)) by lia.
  simpl. do 2 f_equal. lia.
Qed.

Lemma cstr_pad n t : no_nul t -> (length t < n)%nat -> cstr (pad n t) = t.
Proof. intros Ht Hl. rewrite pad_split by done. by apply cstr_app_nul. Qed.

Lemma nul_terminated_pad n t : (length t < n)%nat -> nul_terminated (pad n t).
Proof.
  intros Hl. unfold nul_terminated. rewrite pad_split by done.
  apply in_app_iff. right. by left.
Qed.

Lemma load_Some buf i c :
  load buf i = Some c <-> 0 <= i /\ buf !! Z.to_nat i = Some c.
Proof. unfold load. case_bool_decide; naive_solver. Qed.

Lemma load_app_mid t c rest : load (t ++ c :: rest) (Z.of_nat (length t)) = Some c.
Proof.
  apply load_Some. split; [lia|]. rewrite Nat2Z.id. by apply list_lookup_middle.
Qed.

(** Appending one byte to the text of a padded buffer. *)
Lemma store_pad n t v :
  (length t < n)%nat ->
  store (pad n t) (Z.of_nat (length t)) v = Some (pad n (t ++ [v])).
Proof.
  intros Hl. unfold store. rewrite length_pad by lia.
  rewrite bool_decide_eq_true_2 by lia. f_equal. rewrite Nat2Z.id.
  rewrite (pad_split n t) by done. unfold pad. rewrite length_app. simpl.
  rewrite insert_app_r_alt, Nat.sub_diag by lia. simpl.
  rewrite <- app_assoc. simpl. do 2 f_equal. f_equal. lia.
Qed.

(** Writing the terminating NUL after the text leaves the buffer as it is. *)
Lemma store_pad_nul n t :
  (length t < n)%nat ->
  store (pad n t) (Z.of_nat (length t)) 0 = Some (pad n t).
Proof.
  intros Hl. rewrite store_pad by done. f_equal. unfold pad.
  rewrite length_app, <- app_assoc. simpl. f_equal.
  by replace (n - length t)%nat with (S (n - (length t + 1))) by lia.
Qed.

Lemma take_take_app {A} n (x y : list A) :
  take n (take n x ++ y) = take n (x ++ y).
Proof.
  destruct (decide (length x <= n)%nat) as [H|H].
  - by rewrite (take_ge x n) by lia.
  - rewrite !(take_app_le _ _ n); rewrite ?length_take; try lia.
    by rewrite take_take, Nat.min_id.
Qed.

(** Results of a functional relation on the elements of a list. *)
Lemma Forall2_In_iff {A B} (R : A -> B -> Prop) l k y :
  (forall a b b', R a b -> R a b' -> b = b') -> Forall2 R l k ->
  In y k <-> exists a, In a l /\ R a y.
Proof.
  intros Hfun. induction 1 as [|a b l k Hab Hlk IH]; cbn [In].
  - split; [done|]. by intros [? [? ?]].
  - rewrite IH. split; [naive_solver|].
    intros (a' & [<-|Hin] & Ha'); [left; by apply Hfun with a|right; eauto].
Qed.

(** ** Automation *)

Create HintDb mon.
Create Rewrite HintDb mon_rw.
#[export] Hint Resolve wrapu_range wraps_range : mon.
#[export] Hint Resolve cstr_no_nul no_nul_take nul_terminated_pad : mon.
#[export] Hint Rewrite length_pad cstr_pad using (first [lia | auto with mon]) : mon_rw.

(** Case analysis on the first stuck [match] of the goal. *)
Ltac break_match :=
  match goal with
  | |- context [match ?x with _ => _ end] => destruct x eqn:?
  end.

(** Evaluation of a closed goal in a witness. *)
Ltac run := vm_compute; repeat split; try reflexivity; try congruence.
