(* ===== verification/Bpf.v ===== *)
(** * The BPF runtime the kernel programs call

    The kernel's map, ring buffer, clock and memory helpers are not part of
    this repository.  They are an interface here: the class [BpfRuntime]
    holds the map operations, the records [kmem] and [kenv] what one probe
    invocation reads from the kernel, and the laws of [BpfRuntimeLaws] and
    [env_ok] the documented behaviour (bpf(2), bpf-helpers(7)) that the
    theorems rely on.  [gmap_runtime] is a concrete runtime that satisfies
    the laws: the witnesses evaluate the programs on it. *)

From S2P Require Import Prelude.

(** ** Hash maps *)

Definition BPF_ANY : Z := 0.
Definition BPF_NOEXIST : Z := 1.

(** Flags of the ring buffer helpers, from the UAPI header. *)
Definition BPF_RB_NO_WAKEUP : Z := 1.
Definition BPF_RB_FORCE_WAKEUP : Z := 2.

(** The operations on a BPF map of type HASH (or on the single-element
    ARRAY maps, whose element 0 always exists).  [map_view] is the set of
    elements that iterating over the map would list and [map_max] its
    [max_entries]; no program calls them, the laws are stated with them. *)
Class BpfRuntime := {
  hmap : forall (K V : Type) `{Countable K}, Type;
  map_create : forall {K V : Type} `{Countable K}, nat -> hmap K V;
  bpf_map_lookup_elem : forall {K V : Type} `{Countable K}, hmap K V -> K -> option V;
  bpf_map_update_elem : forall {K V : Type} `{Countable K},
    hmap K V -> K -> V -> Z -> Z * hmap K V;
  bpf_map_delete_elem : forall {K V : Type} `{Countable K}, hmap K V -> K -> Z * hmap K V;
  map_view : forall {K V : Type} `{Countable K}, hmap K V -> gmap K V;
  map_max : forall {K V : Type} `{Countable K}, hmap K V -> nat;
}.

Class BpfRuntimeLaws (RT : BpfRuntime) : Prop := {
  view_create : forall (K V : Type) `{Countable K} n,
    map_view (map_create (K := K) (V := V) n) = ∅;
  max_create : forall (K V : Type) `{Countable K} n,
    map_max (map_create (K := K) (V := V) n) = n;
  lookup_view : forall (K V : Type) `{Countable K} (m : hmap K V) k,
    bpf_map_lookup_elem m k = map_view m !! k;
  (** An update either succeeds and sets the element, or fails with a
      negative code and leaves the map alone. *)
  update_cases : forall (K V : Type) `{Countable K} (m : hmap K V) k v fl,
    let '(r, m') := bpf_map_update_elem m k v fl in
    map_max m' = map_max m /\
    ((r = 0 /\ map_view m' = <[k := v]> (map_view m)) \/
     (r < 0 /\ map_view m' = map_view m));
  (** BPF_ANY succeeds when the element exists or there is room for it. *)
  update_any_ok : forall (K V : Type) `{Countable K} (m : hmap K V) k v,
    is_Some (map_view m !! k) \/ (size (map_view m) < map_max m)%nat ->
    fst (bpf_map_update_elem m k v BPF_ANY) = 0;
  (** BPF_NOEXIST succeeds when the element is absent and there is room. *)
  update_noexist_ok : forall (K V : Type) `{Countable K} (m : hmap K V) k v,
    map_view m !! k = None -> (size (map_view m) < map_max m)%nat ->
    fst (bpf_map_update_elem m k v BPF_NOEXIST) = 0;
  (** BPF_NOEXIST fails when the element exists. *)
  update_noexist_exists : forall (K V : Type) `{Countable K} (m : hmap K V) k v,
    is_Some (map_view m !! k) ->
    fst (bpf_map_update_elem m k v BPF_NOEXIST) < 0;
  delete_view : forall (K V : Type) `{Countable K} (m : hmap K V) k,
    map_view (snd (bpf_map_delete_elem m k)) = delete k (map_view m);
  delete_max : forall (K V : Type) `{Countable K} (m : hmap K V) k,
    map_max (snd (bpf_map_delete_elem m k)) = map_max m;
}.

(** The programs ignore the return codes of updates and deletes. *)
Definition update_elem `{BpfRuntime} {K V} `{Countable K}
    (m : hmap K V) (k : K) (v : V) (fl : Z) : hmap K V :=
  snd (bpf_map_update_elem m k v fl).
Definition delete_elem `{BpfRuntime} {K V} `{Countable K}
    (m : hmap K V) (k : K) : hmap K V :=
  snd (bpf_map_delete_elem m k).

(** There is an element under [k] already, or room for one more. *)
Definition has_room `{BpfRuntime} {K V} `{Countable K} (m : hmap K V) (k : K) : Prop :=
  is_Some (map_view m !! k) \/ (size (map_view m) < map_max m)%nat.

Section MapLemmas.
Context {RT : BpfRuntime} {RL : BpfRuntimeLaws RT} {K V : Type} `{Countable K}.
Implicit Types (m : hmap K V) (k : K) (v : V).

Lemma update_elem_max m k v fl : map_max (update_elem m k v fl) = map_max m.
Proof.
  unfold update_elem. pose proof (update_cases K V m k v fl) as Hc.
  destruct (bpf_map_update_elem _ _ _ _) as [r m']. by destruct Hc.
Qed.

Lemma update_elem_view m k v fl :
  map_view (update_elem m k v fl) = <[k := v]> (map_view m) \/
  map_view (update_elem m k v fl) = map_view m.
Proof.
  unfold update_elem. pose proof (update_cases K V m k v fl) as Hc.
  destruct (bpf_map_update_elem _ _ _ _) as [r m']. naive_solver.
Qed.

Lemma update_any_view m k v :
  has_room m k -> map_view (update_elem m k v BPF_ANY) = <[k := v]> (map_view m).
Proof.
  intros Hr. unfold update_elem.
  pose proof (update_any_ok K V m k v Hr) as H0.
  pose proof (update_cases K V m k v BPF_ANY) as Hc.
  destruct (bpf_map_update_elem _ _ _ _) as [r m']. simpl in *.
  destruct Hc as [_ [[_ ?]|[? _]]]; [done|lia].
Qed.

Lemma update_noexist_view m k v :
  map_view m !! k = None -> (size (map_view m) < map_max m)%nat ->
  map_view (update_elem m k v BPF_NOEXIST) = <[k := v]> (map_view m).
Proof.
  intros Hn Hr. unfold update_elem.
  pose proof (update_noexist_ok K V m k v Hn Hr) as H0.
  pose proof (update_cases K V m k v BPF_NOEXIST) as Hc.
  destruct (bpf_map_update_elem _ _ _ _) as [r m']. simpl in *.
  destruct Hc as [_ [[_ ?]|[? _]]]; [done|lia].
Qed.

Lemma update_noexist_keeps m k v :
  is_Some (map_view m !! k) -> map_view (update_elem m k v BPF_NOEXIST) = map_view m.
Proof.
  intros He. unfold update_elem.
  pose proof (update_noexist_exists K V m k v He) as H0.
  pose proof (update_cases K V m k v BPF_NOEXIST) as Hc.
  destruct (bpf_map_update_elem _ _ _ _) as [r m']. simpl in *.
  destruct Hc as [_ [[? _]|[_ ?]]]; [lia|done].
Qed.

Lemma lookup_update_any m k v :
  has_room m k -> bpf_map_lookup_elem (update_elem m k v BPF_ANY) k = Some v.
Proof. intros Hr. rewrite lookup_view, update_any_view by done. apply lookup_insert_eq. Qed.

Lemma lookup_update_ne m k k' v fl :
  k <> k' -> bpf_map_lookup_elem (update_elem m k v fl) k' = bpf_map_lookup_elem m k'.
Proof.
  intros Hk. rewrite !lookup_view.
  destruct (update_elem_view m k v fl) as [-> | ->]; [|done]. by rewrite lookup_insert_ne.
Qed.

Lemma lookup_update_inv m k k' v w fl :
  bpf_map_lookup_elem (update_elem m k v fl) k' = Some w ->
  (k' = k /\ w = v) \/ bpf_map_lookup_elem m k' = Some w.
Proof.
  rewrite !lookup_view.
  destruct (update_elem_view m k v fl) as [-> | ->]; [|by right].
  rewrite lookup_insert_Some. naive_solver.
Qed.

Lemma lookup_delete_elem m k k' :
  bpf_map_lookup_elem (delete_elem m k) k' =
  if decide (k = k') then None else bpf_map_lookup_elem m k'.
Proof.
  unfold delete_elem. rewrite !lookup_view, delete_view. rewrite lookup_delete. done.
Qed.

Lemma lookup_delete_inv m k k' w :
  bpf_map_lookup_elem (delete_elem m k) k' = Some w ->
  k' <> k /\ bpf_map_lookup_elem m k' = Some w.
Proof. rewrite lookup_delete_elem. case_decide; naive_solver. Qed.

Lemma lookup_create n k :
  bpf_map_lookup_elem (map_create (K := K) (V := V) n) k = None.
Proof. by rewrite lookup_view, view_create, lookup_empty. Qed.
End MapLemmas.

(** ** What one probe invocation reads from the kernel

    [kmem] is kernel memory as the probes read it: each field is the value
    that the read leaves in its destination, which is 0 when the address
    faults.  Addresses are 64-bit integers and 0 is NULL. *)
Record kmem := {
  path_dentry : Z -> Z;               (* path->dentry *)
  file_path_dentry : Z -> Z;          (* file->f_path.dentry *)
  file_f_inode : Z -> Z;              (* file->f_inode *)
  file_f_flags : Z -> Z;              (* file->f_flags, u32 *)
  dentry_d_sb : Z -> Z;               (* dentry->d_sb *)
  dentry_d_name : Z -> Z;             (* dentry->d_name.name *)
  inode_i_sb : Z -> Z;                (* inode->i_sb *)
  sb_s_dev : Z -> Z;                  (* super_block->s_dev, u32 *)
  rd_new_dentry : Z -> Z;             (* renamedata->new_dentry *)
  rd_has_new_parent : bool;           (* bpf_core_field_exists(rd->new_parent) *)
  rd_new_parent : Z -> Z;             (* renamedata->new_parent *)
  rd_legacy_new_dir : Z -> Z;         (* renamedata___legacy->new_dir *)
  path_copy : Z -> Z;                 (* local copy that probe_read makes of a struct path *)
  loff_at : Z -> Z;                   (* the loff_t read from an address *)
  kernel_str : Z -> Z -> option (list Z);  (* the string at an address, cut to a size *)
  user_str : Z -> Z -> option (list Z);
  (** bpf_probe_read_{kernel,user}_str: destination buffer, size, address
      to return value and new destination *)
  probe_read_kernel_str : list Z -> Z -> Z -> Z * list Z;
  probe_read_user_str : list Z -> Z -> Z -> Z * list Z;
}.

(** The environment of one invocation; [E] is the ring buffer record type.
    [ktime n] and [rb_avail n] are the results of the [n]-th calls of
    bpf_ktime_get_ns and bpf_ringbuf_query, [reserve fl] the record that
    bpf_ringbuf_reserve returns for flags [fl], with the contents the ring
    memory happens to have, and [stack] the contents of an uninitialised
    local buffer. *)
Record kenv (E : Type) := {
  pid_tgid : Z;
  uid_gid : Z;
  comm : list Z;
  ktime : nat -> Z;
  rb_avail : nat -> Z;
  reserve : Z -> option E;
  stack : list Z;
  mem : kmem;
}.
Arguments pid_tgid {E}. Arguments uid_gid {E}. Arguments comm {E}.
Arguments ktime {E}. Arguments rb_avail {E}. Arguments reserve {E}.
Arguments stack {E}. Arguments mem {E}.

(** The documented result of the string readers, for a destination that has
    the size asked for: reading the string [t] returns its size with the NUL
    and writes it with its NUL, leaving the rest of the destination alone; a
    fault returns an error and zeroes the destination. *)
Definition str_reader_ok (str : Z -> Z -> option (list Z))
    (rd : list Z -> Z -> Z -> Z * list Z) : Prop :=
  forall dst sz a, 0 < sz <= Z.of_nat (length dst) ->
    match str a sz with
    | Some t =>
        no_nul t /\ Z.of_nat (length t) < sz /\
        rd dst sz a = (Z.of_nat (length t) + 1, t ++ 0 :: drop (S (length t)) dst)
    | None =>
        fst (rd dst sz a) < 0 /\
        snd (rd dst sz a) = replicate (Z.to_nat sz) 0 ++ drop (Z.to_nat sz) dst
    end.

Record kmem_ok (m : kmem) : Prop := {
  kernel_str_ok : str_reader_ok (kernel_str m) (probe_read_kernel_str m);
  user_str_ok : str_reader_ok (user_str m) (probe_read_user_str m);
  dev_u32 : forall p, fits_u 32 (sb_s_dev m p);
  flags_u32 : forall p, fits_u 32 (file_f_flags m p);
  loff_s64 : forall p, fits_s 64 (loff_at m p);
  path_copy_ok : forall p, path_copy m p <> 0 /\ path_dentry m (path_copy m p) = path_dentry m p;
}.

Record env_ok {E} (e : kenv E) : Prop := {
  pid_tgid_u64 : fits_u 64 (pid_tgid e);
  uid_gid_u64 : fits_u 64 (uid_gid e);
  comm_ok : length (comm e) = 16%nat /\ nul_terminated (comm e);
  stack_ok : length (stack e) = 64%nat;
  ktime_u64 : forall n, fits_u 64 (ktime e n);
  ktime_mono : forall n, ktime e n <= ktime e (S n);
  (** bpf-helpers(7): the flags of bpf_ringbuf_reserve must be 0 *)
  reserve_flags : forall fl, fl <> 0 -> reserve e fl = None;
  mem_ok : kmem_ok (mem e);
}.

(** The thread id and the process id a probe computes from pid_tgid. *)
Definition tgid_of (id : Z) : Z := Z.shiftr id 32.

Lemma tgid_of_range id : fits_u 64 id -> fits_u 32 (tgid_of id).
Proof.
  unfold fits_u, tgid_of. intros H. rewrite Z.shiftr_div_pow2 by lia. split.
  - apply Z.div_pos; lia.
  - apply Z.div_lt_upper_bound; lia.
Qed.

(** ** Device numbers and bit fields *)

(** The kernel's device number of a major and a minor. *)
Definition mkdev (major minor : Z) : Z := major * 2 ^ 20 + minor.

(** Splitting a device number. *)
Lemma dev_split dev :
  Z.shiftr dev 20 = dev / 2 ^ 20 /\ Z.land dev (Z.shiftl 1 20 - 1) = dev mod 2 ^ 20.
Proof.
  split; [by apply Z.shiftr_div_pow2|].
  change (Z.shiftl 1 20 - 1) with (Z.ones 20). by apply Z.land_ones.
Qed.

Lemma mkdev_eq dev major minor :
  fits_u 20 minor ->
  (major = dev / 2 ^ 20 /\ minor = dev mod 2 ^ 20) <-> dev = mkdev major minor.
Proof.
  unfold fits_u, mkdev. intros Hm. pose proof (Z.div_mod dev (2 ^ 20)).
  split; [lia|]. intros ->.
  split; [apply Z.div_unique_pos with minor|apply Z.mod_unique_pos with major]; lia.
Qed.

(** Placing [a] above the [n] low bits of [b]. *)
Lemma lor_shiftl_add a b n :
  0 <= n -> fits_u n b -> Z.lor (Z.shiftl a n) b = a * 2 ^ n + b.
Proof.
  unfold fits_u. intros Hn Hb. rewrite Z.shiftl_mul_pow2, <- Z.add_lor_land by done.
  assert (Z.land (a * 2 ^ n) b = 0) as ->; [|lia].
  rewrite <- Z.shiftl_mul_pow2 by done. apply Z.bits_inj'. intros i Hi.
  rewrite Z.land_spec, Z.bits_0. destruct (Z.ltb_spec i n).
  - by rewrite Z.shiftl_spec_low.
  - destruct (Z.eq_dec b 0) as [->|]; [by rewrite Z.bits_0, andb_false_r|].
    rewrite (Z.bits_above_log2 b i), andb_false_r; [done|lia|].
    apply Z.lt_le_trans with n; [apply Z.log2_lt_pow2; lia|lia].
Qed.
