(* ===== verification/BpfModel.v ===== *)
(** * A concrete BPF runtime

    [gmap_runtime] keeps a map as a finite map with a capacity, updates it the
    way bpf(2) describes and satisfies [BpfRuntimeLaws]; [demo_env] builds the
    environment of one invocation over a small kernel memory.  Nothing here
    models a file of the repository: the witnesses of the theorems, which are
    stated for every runtime, evaluate the programs on it. *)

From S2P Require Import Prelude Bpf.

Record bmap (K V : Type) `{Countable K} := BMap { bm_max : nat; bm_tbl : gmap K V }.
Arguments BMap {K V _ _}. Arguments bm_max {K V _ _}. Arguments bm_tbl {K V _ _}.

Definition E2BIG : Z := 7.
Definition EEXIST : Z := 17.
Definition ENOENT : Z := 2.

Definition bmap_update {K V} `{Countable K} (m : bmap K V) (k : K) (v : V) (fl : Z)
  : Z * bmap K V :=
  match bm_tbl m !! k with
  | Some _ =>
      if fl =? BPF_NOEXIST then (- EEXIST, m)
      else (0, BMap (bm_max m) (<[k := v]> (bm_tbl m)))
  | None =>
      if bool_decide (size (bm_tbl m) < bm_max m)%nat
      then (0, BMap (bm_max m) (<[k := v]> (bm_tbl m))) else (- E2BIG, m)
  end.

Definition bmap_delete {K V} `{Countable K} (m : bmap K V) (k : K) : Z * bmap K V :=
  (if bool_decide (is_Some (bm_tbl m !! k)) then 0 else - ENOENT,
   BMap (bm_max m) (delete k (bm_tbl m))).

#[export] Instance gmap_runtime : BpfRuntime := {
  hmap K V _ _ := bmap K V;
  map_create K V _ _ n := BMap n ∅;
  bpf_map_lookup_elem K V _ _ m k := bm_tbl m !! k;
  bpf_map_update_elem K V _ _ m k v fl := bmap_update m k v fl;
  bpf_map_delete_elem K V _ _ m k := bmap_delete m k;
  map_view K V _ _ m := bm_tbl m;
  map_max K V _ _ m := bm_max m;
}.

#[export] Instance gmap_runtime_laws : BpfRuntimeLaws gmap_runtime.
Proof.
  split; try done.
  - intros K V ? ? m k v fl. simpl. unfold bmap_update, EEXIST, E2BIG.
    destruct (bm_tbl m !! k); [destruct (fl =? BPF_NOEXIST)|case_bool_decide];
      simpl; split; auto; right; split; (lia || done).
  - intros K V ? ? m k v. simpl. unfold bmap_update.
    intros [[w ->]|Hr]; simpl; [done|].
    destruct (bm_tbl m !! k); [done|]. by rewrite bool_decide_eq_true_2.
  - intros K V ? ? m k v. simpl. unfold bmap_update.
    intros -> Hr. by rewrite bool_decide_eq_true_2.
  - intros K V ? ? m k v. simpl. unfold bmap_update, EEXIST. intros [w ->]. simpl. lia.
Qed.

(** The string [t] that memory holds, cut to [sz] bytes with its NUL. *)
Definition str_model (t : option (list Z)) (sz : Z) : option (list Z) :=
  (fun t => take (Z.to_nat (sz - 1)) (cstr t)) <$> t.

Definition read_str_model (t : option (list Z)) (dst : list Z) (sz : Z) : Z * list Z :=
  match str_model t sz with
  | Some t => (Z.of_nat (length t) + 1, t ++ 0 :: drop (S (length t)) dst)
  | None => (-14, replicate (Z.to_nat sz) 0 ++ drop (Z.to_nat sz) dst)
  end.

Lemma read_str_model_ok (str_at : Z -> option (list Z)) :
  str_reader_ok (fun a sz => str_model (str_at a) sz)
    (fun dst sz a => read_str_model (str_at a) dst sz).
Proof.
  intros dst sz a Hsz. unfold read_str_model, str_model.
  destruct (str_at a) as [t|]; simpl; [|by split; [lia|]].
  split_and!; [|rewrite length_take; lia|done].
  apply no_nul_take, cstr_no_nul.
Qed.

(** A kernel memory in which every object lives on one device and the string
    at address [a] is [str_at a]: the pointer fields are found at fixed
    distances from the address of their object. *)
Definition demo_mem (dev : Z) (str_at : Z -> option (list Z)) : kmem := {|
  path_dentry p := if p <=? 0 then 0 else p + 1;
  file_path_dentry f := f + 1;
  file_f_inode f := f + 2;
  file_f_flags _ := 32768;
  dentry_d_sb d := d + 100;
  dentry_d_name d := d + 1000;
  inode_i_sb i := i + 100;
  sb_s_dev _ := u32 dev;
  rd_new_dentry rd := rd + 3;
  rd_has_new_parent := true;
  rd_new_parent rd := rd + 4;
  rd_legacy_new_dir rd := rd + 5;
  path_copy p := if p =? 0 then -1 else p;
  loff_at p := s64 p;
  kernel_str a sz := str_model (str_at a) sz;
  user_str a sz := str_model (str_at a) sz;
  probe_read_kernel_str dst sz a := read_str_model (str_at a) dst sz;
  probe_read_user_str dst sz a := read_str_model (str_at a) dst sz;
|}.

Lemma demo_mem_ok dev str_at : kmem_ok (demo_mem dev str_at).
Proof.
  split; simpl.
  - apply read_str_model_ok.
  - apply read_str_model_ok.
  - intros _. apply wrapu_range. lia.
  - intros _. unfold fits_u. lia.
  - intros p. apply wraps_range. lia.
  - intros p. destruct (Z.eqb_spec p 0) as [->|Hp]; split; (lia || done).
Qed.

(** The environment of one invocation by thread [id] at time [t]. *)
Definition demo_env {E} (rec : E) (id t : Z) (m : kmem) : kenv E := {|
  pid_tgid := u64 id;
  uid_gid := 0;
  comm := pad 16 (bytes "demo");
  ktime n := u64 t;
  rb_avail n := 0;
  reserve fl := if fl =? 0 then Some rec else None;
  stack := replicate 64 170;
  mem := m;
|}.

Lemma demo_env_ok {E} (rec : E) id t m : kmem_ok m -> env_ok (demo_env rec id t m).
Proof.
  intros Hm. split; simpl.
  - apply wrapu_range. lia.
  - unfold fits_u. lia.
  - split; [done|]. unfold nul_terminated. simpl. tauto.
  - done.
  - intros _. apply wrapu_range. lia.
  - intros _. lia.
  - intros fl Hfl. by apply Z.eqb_neq in Hfl as ->.
  - done.
Qed.
