(* ===== verification/History.v ===== *)
(** * Maps as functions of the history

    The latency tools keep what is in flight in a map.  Here is what such a map
    holds without speaking of maps: each firing has an effect on one key, and
    [pending] finds in the list of the effects, newest first, what is in flight
    under a key.  [follows] relates a map to the history; its lemmas are what
    the programs do to the map. *)

From S2P Require Import Prelude Bpf.

Lemma omap_length_le {A B} (f : A -> option B) l : (length (omap f l) <= length l)%nat.
Proof. induction l as [|x l IH]; cbn; [done|]. destruct (f x); cbn; lia. Qed.

Section History.
Context {RT : BpfRuntime} {RL : BpfRuntimeLaws RT} {K V : Type} `{Countable K}.
Implicit Types (m : hmap K V) (k : K) (v : V).

(** A firing opens an operation, opens one unless there is one, closes it, or
    does nothing to it. *)
Inductive effect := Open (v : V) | OpenNew (v : V) | Close | Keep.

Abbreviation history := (list (K * effect)).

Fixpoint pending (k : K) (h : history) : option V :=
  match h with
  | [] => None
  | (k', x) :: h =>
      if decide (k' = k) then
        match x with
        | Open v => Some v
        | OpenNew v => Some (default v (pending k h))
        | Close => None
        | Keep => pending k h
        end
      else pending k h
  end.

(** The keys under which something is in flight. *)
Definition in_flight (h : history) : gset K :=
  filter (fun k => is_Some (pending k h)) (list_to_set (map fst h)).

(** There was room for one more whenever something happened. *)
Fixpoint within (n : nat) (h : history) : Prop :=
  match h with
  | [] => True
  | _ :: h => (size (in_flight h) < n)%nat /\ within n h
  end.

Lemma within_app n h1 h2 : within n (h1 ++ h2) -> within n h2.
Proof. induction h1 as [|x h1 IH]; [done|]. cbn. naive_solver. Qed.

Lemma pending_In k h : is_Some (pending k h) -> k ∈ map fst h.
Proof.
  induction h as [|[k' x] h IH]; cbn [pending map fst]; [by intros [? ?]|].
  rewrite elem_of_cons. case_decide; [by left|]. intros Hp. right. by apply IH.
Qed.

Lemma elem_of_in_flight k h : k ∈ in_flight h <-> is_Some (pending k h).
Proof.
  unfold in_flight. rewrite elem_of_filter, elem_of_list_to_set. split; [tauto|].
  intros Hp. split; [done|]. by apply pending_In.
Qed.

(** A history that is not longer than the map is within it. *)
Lemma in_flight_length h : (size (in_flight h) <= length h)%nat.
Proof.
  induction h as [|[k x] h IH]; [done|]. cbn [length].
  etransitivity; [apply (subseteq_size _ ({[k]} ∪ in_flight h))|].
  - intros k'. rewrite elem_of_in_flight, elem_of_union, elem_of_singleton, elem_of_in_flight.
    cbn [pending]. case_decide; [by left|by right].
  - pose proof (size_union_alt {[k]} (in_flight h)) as ->. rewrite size_singleton.
    pose proof (subseteq_size (in_flight h ∖ {[k]}) (in_flight h) ltac:(set_solver)). lia.
Qed.

Lemma within_length n h : (length h <= n)%nat -> within n h.
Proof.
  induction h as [|x h IH]; [done|]. cbn [length within]. intros Hn.
  pose proof (in_flight_length h). split; [lia|apply IH; lia].
Qed.

Record follows (m : hmap K V) (n : nat) (h : history) : Prop := {
  follows_max : map_max m = n;
  follows_lookup : forall k, bpf_map_lookup_elem m k = pending k h;
}.

Lemma follows_size m n h : follows m n h -> size (map_view m) = size (in_flight h).
Proof.
  intros [_ Hl]. rewrite <- size_dom. f_equal. apply set_eq. intros k.
  by rewrite elem_of_dom, elem_of_in_flight, <- Hl, lookup_view.
Qed.

Lemma follows_create n : follows (map_create n) n [].
Proof. split; [apply max_create|intros k; apply lookup_create]. Qed.

Lemma follows_open m n h k v :
  follows m n h -> within n ((k, Open v) :: h) ->
  follows (update_elem m k v BPF_ANY) n ((k, Open v) :: h).
Proof.
  intros Hf [Hn _]. rewrite <- (follows_size m n h Hf) in Hn. destruct Hf as [Hm Hl].
  split; [by rewrite update_elem_max|].
  intros k'. cbn [pending]. case_decide as Hk; [subst; apply lookup_update_any; right; lia|].
  by rewrite lookup_update_ne.
Qed.

Lemma follows_open_new m n h k v :
  follows m n h -> within n ((k, OpenNew v) :: h) ->
  follows (update_elem m k v BPF_NOEXIST) n ((k, OpenNew v) :: h).
Proof.
  intros Hf [Hn _]. rewrite <- (follows_size m n h Hf) in Hn. destruct Hf as [Hm Hl].
  split; [by rewrite update_elem_max|].
  intros k'. cbn [pending]. case_decide as Hk; [subst k'|by rewrite lookup_update_ne].
  rewrite <- Hl, !lookup_view. destruct (map_view m !! k) as [w|] eqn:Hw.
  - by rewrite update_noexist_keeps, Hw by eauto.
  - rewrite update_noexist_view by (done || lia). apply lookup_insert_eq.
Qed.

Lemma follows_close m n h k :
  follows m n h -> follows (delete_elem m k) n ((k, Close) :: h).
Proof.
  intros [Hm Hl]. split; [unfold delete_elem; by rewrite delete_max|].
  intros k'. rewrite lookup_delete_elem. cbn [pending]. by case_decide.
Qed.

(** Closing where nothing is open need not touch the map. *)
Lemma follows_absent m n h k :
  follows m n h -> pending k h = None -> follows m n ((k, Close) :: h).
Proof.
  intros [Hm Hl] Hk. split; [done|]. intros k'. rewrite Hl. cbn [pending].
  case_decide as Hd; [|done]. by subst.
Qed.

Lemma follows_keep m n h k : follows m n h -> follows m n ((k, Keep) :: h).
Proof.
  intros [Hm Hl]. split; [done|]. intros k'. rewrite Hl. cbn [pending]. by case_decide.
Qed.
End History.
Arguments effect : clear implicits.
