(* ===== verification/Hooks.v ===== *)
(** * The kernel functions that iosnoop and ioslower hook

    [kcall] lists them with their arguments; [call_ok] bounds the arguments by
    their C types.  The last part gives the names of kernel objects as strings:
    what the name readers of both programs find. *)

From S2P Require Import Prelude Bpf.

(** ** Hooked kernel functions *)

(** [VfsCreate4] and [VfsRename6] are the legacy prototypes of [vfs_create]
    and [vfs_rename]. *)
Inductive kcall :=
| VfsOpen (path file : Z)
| VfsRead (file buf count pos : Z)
| VfsWrite (file buf count pos : Z)
| VfsCreate (idmap dir dentry mode : Z) (want_excl : bool)
| VfsCreate4 (idmap dir dentry mode : Z)
| VfsMkdir (idmap dir dentry mode : Z)
| VfsRmdir (idmap dir dentry : Z)
| VfsSymlink (idmap dir dentry oldname : Z)
| VfsRename (rd : Z)
| VfsRename6 (old_dir old_dentry new_dir new_dentry : Z)
| VfsGetattr (path stat request_mask query_flags : Z)
| VfsTruncate (path length : Z)
| VfsFchmod (file mode : Z)
| VfsReadlink (dentry buffer buflen : Z)
| VfsReadv (file vec vlen pos flags : Z)
| VfsWritev (file vec vlen pos flags : Z)
| VfsUnlink (idmap dir dentry delegated_inode : Z)
| VfsLink (old_dentry idmap dir new_dentry delegated_inode : Z)
| VfsFallocate (file mode offset len : Z)
| IterateDir (file dctx : Z)
| DoMmap (file addr len prot flags : Z)
| VmMunmap (start len : Z)
| VfsLockFile (filp cmd fl conf : Z).

(** The arguments that the probes print fit their C types; the unsigned ones
    are at most 64 bits wide. *)
Definition call_ok (c : kcall) : Prop :=
  match c with
  | VfsRead _ _ count _ | VfsWrite _ _ count _ => fits_u 64 count
  | VfsCreate _ _ _ mode _ | VfsCreate4 _ _ _ mode | VfsMkdir _ _ _ mode
  | VfsFchmod _ mode => fits_u 16 mode
  | VfsGetattr _ _ mask qflags => fits_u 32 mask /\ fits_u 32 qflags
  | VfsReadv _ _ vlen _ flags | VfsWritev _ _ vlen _ flags =>
      fits_u 64 vlen /\ fits_u 32 flags
  | VfsTruncate _ length => fits_s 64 length
  | VfsFallocate _ _ offset len => fits_s 64 offset /\ fits_s 64 len
  | DoMmap _ _ len prot _ => fits_u 64 len /\ fits_u 64 prot
  | VmMunmap start len => fits_u 64 start /\ fits_u 64 len
  | VfsLockFile _ cmd _ _ => fits_u 32 cmd
  | _ => True
  end.

(** Functions that return [int] return a 32-bit value. *)
Definition ret_ok (c : kcall) (ret : Z) : Prop :=
  match c with
  | DoMmap _ _ _ _ _ => fits_u 64 ret
  | VfsRead _ _ _ _ | VfsWrite _ _ _ _ | VfsReadv _ _ _ _ _ | VfsWritev _ _ _ _ _ =>
      fits_s 64 ret
  | _ => fits_s 32 ret
  end.

(** ** Names of kernel objects *)

(** The string that reading at [a] into [sz] bytes gives; empty on a fault. *)
Definition kstring (m : kmem) (a sz : Z) : list Z := default [] (kernel_str m a sz).

Definition dentry_name (m : kmem) (dentry sz : Z) : list Z :=
  if (dentry =? 0) || (dentry_d_name m dentry =? 0) then []
  else kstring m (dentry_d_name m dentry) sz.

Definition file_name (m : kmem) (file : Z) : list Z :=
  if file =? 0 then [] else dentry_name m (file_path_dentry m file) 96.

Definition path_name (m : kmem) (path : Z) : list Z :=
  if path =? 0 then [] else dentry_name m (path_dentry m path) 96.
