(* ===== verification/IosnoopFmt.v ===== *)
(** * iosnoop: formatting the argument text of an event in the kernel

    Models [append_lit], [append_u64_dec] and [append_s64_dec] of
    src/bpf/iosnoop.bpf.c.  They write into a fixed buffer [dst] of [max]
    bytes at position [pos] and return the new position.  The model stores
    through [store], which fails outside the buffer, so that a [Some] result
    is memory safety.  [text n t] is the specification: a buffer of [n] bytes
    whose text is [t], cut to the [n - 1] bytes that leave room for the NUL. *)

From S2P Require Import Prelude.

(** ** The code *)

(** The loop of [append_lit]; its bound, 40, is the loop's own. *)
Fixpoint append_lit_loop (n : nat) (i : Z) (dst : list Z) (pos max : Z) (lit : list Z)
  : option (list Z * Z) :=
  match n with
  | O => Some (dst, pos)
  | S n =>
      if max - 1 <=? pos then Some (dst, pos)
      else
        c ← load lit i;
        if c =? 0 then Some (dst, pos)
        else
          dst ← store dst pos c;
          append_lit_loop n (i + 1) dst (pos + 1) max lit
  end.

Definition append_lit (dst : list Z) (pos max : Z) (lit : list Z) : option (list Z * Z) :=
  '(dst, pos) ← append_lit_loop 40 0 dst pos max lit;
  dst ← store dst pos 0;
  Some (dst, pos).

(** [while (v && i < 20) { tmp[i++] = '0' + v % 10; v /= 10; }] *)
Fixpoint digits_loop (fuel : nat) (tmp : list Z) (i v : Z) : option (list Z * Z) :=
  match fuel with
  | O => None
  | S fuel =>
      if negb (v =? 0) && (i <? 20) then
        tmp ← store tmp i (48 + v mod 10);
        digits_loop fuel tmp (i + 1) (v / 10)
      else Some (tmp, i)
  end.

(** [while (i--) { if (pos >= max - 1) break; dst[pos++] = tmp[i]; }] *)
Fixpoint emit_loop (fuel : nat) (dst : list Z) (pos max : Z) (tmp : list Z) (i : Z)
  : option (list Z * Z) :=
  match fuel with
  | O => None
  | S fuel =>
      if i =? 0 then Some (dst, pos)
      else
        let i := i - 1 in
        if max - 1 <=? pos then Some (dst, pos)
        else
          c ← load tmp i;
          dst ← store dst pos c;
          emit_loop fuel dst (pos + 1) max tmp i
  end.

(** Both loops run at most 20 times: 21 units of fuel reach their exit.  The
    21 bytes of [tmp] start uninitialised in C; the second loop reads only
    the bytes that the first has written. *)
Definition append_u64_dec (dst : list Z) (pos max v : Z) : option (list Z * Z) :=
  let tmp := replicate 21 0 in
  if max - 1 <=? pos then Some (dst, pos)
  else if v =? 0 then
    dst ← store dst pos 48;
    let pos := pos + 1 in
    dst ← store dst pos 0;
    Some (dst, pos)
  else
    '(tmp, i) ← digits_loop 21 tmp 0 v;
    '(dst, pos) ← emit_loop 21 dst pos max tmp i;
    dst ← store dst pos 0;
    Some (dst, pos).

(** [v = -v] wraps at INT64_MIN, and the cast to [__u64] recovers 2^63. *)
Definition append_s64_dec (dst : list Z) (pos max v : Z) : option (list Z * Z) :=
  '(dst, pos, v) ←
    (if v <? 0 then
       '(dst, pos) ←
         (if pos <? max - 1 then
            dst ← store dst pos 45; Some (dst, pos + 1)
          else Some (dst, pos));
       Some (dst, pos, s64 (- v))
     else Some (dst, pos, v));
  append_u64_dec dst pos max (u64 v).

(** ** The specification: decimal numerals and bounded text *)

(** The digits of [v], least significant first. *)
Fixpoint digits_le (fuel : nat) (v : Z) : list Z :=
  match fuel with
  | O => []
  | S fuel => if v =? 0 then [] else (48 + v mod 10) :: digits_le fuel (v / 10)
  end.

Definition dec (v : Z) : list Z := if v =? 0 then [48] else rev (digits_le 20 v).
Definition sdec (v : Z) : list Z := if v <? 0 then 45 :: dec (- v) else dec v.

(** The number a string of decimal digits denotes. *)
Definition undec (t : list Z) : Z := fold_left (fun a c => 10 * a + (c - 48)) t 0.

Definition is_digit (c : Z) : Prop := 48 <= c <= 57.

(** The buffer and position for the text [t] in an [n]-byte buffer. *)
Definition text (n : nat) (t : list Z) : list Z * Z :=
  (pad n (take (n - 1) t), Z.of_nat (length (take (n - 1) t))).

(** ** Numerals *)

Lemma digits_le_spec k v :
  0 <= v < 10 ^ Z.of_nat k ->
  fold_right (fun c a => 10 * a + (c - 48)) 0 (digits_le k v) = v.
Proof.
  revert v. induction k as [|k IH]; intros v Hv.
  - simpl in *. lia.
  - simpl. destruct (Z.eqb_spec v 0) as [->|Hv0]; [done|]. simpl.
    rewrite IH.
    + pose proof (Z.div_mod v 10). lia.
    + rewrite Nat2Z.inj_succ, Z.pow_succ_r in Hv by lia.
      split; [apply Z.div_pos; lia|apply Z.div_lt_upper_bound; lia].
Qed.

Lemma digits_le_digits k v : 0 <= v -> Forall is_digit (digits_le k v).
Proof.
  revert v. induction k as [|k IH]; intros v Hv; simpl; [constructor|].
  destruct (v =? 0); constructor.
  - unfold is_digit. pose proof (Z.mod_pos_bound v 10). lia.
  - apply IH. apply Z.div_pos; lia.
Qed.

Lemma digits_le_length k v : (length (digits_le k v) <= k)%nat.
Proof.
  revert v. induction k as [|k IH]; intros v; simpl; [lia|].
  destruct (v =? 0); simpl; [lia|]. specialize (IH (v / 10)). lia.
Qed.

Lemma digits_no_nul t : Forall is_digit t -> no_nul t.
Proof. apply Forall_impl. unfold is_digit. intros c Hc. lia. Qed.

Lemma dec_digits v : 0 <= v -> Forall is_digit (dec v).
Proof.
  intros Hv. unfold dec. destruct (v =? 0).
  - repeat constructor; lia.
  - by apply Forall_rev, digits_le_digits.
Qed.

Lemma dec_no_nul v : 0 <= v -> no_nul (dec v).
Proof. intros Hv. by apply digits_no_nul, dec_digits. Qed.

Lemma sdec_no_nul v : no_nul (sdec v).
Proof.
  unfold sdec. destruct (Z.ltb_spec v 0).
  - constructor; [lia|]. apply dec_no_nul. lia.
  - apply dec_no_nul. lia.
Qed.

Lemma dec_length_le v : (length (dec v) <= 20)%nat.
Proof.
  unfold dec. destruct (v =? 0); [simpl; lia|].
  rewrite length_rev. apply digits_le_length.
Qed.

Lemma sdec_length_le v : (length (sdec v) <= 21)%nat.
Proof.
  unfold sdec. pose proof (dec_length_le v). pose proof (dec_length_le (- v)).
  destruct (v <? 0); simpl; lia.
Qed.

Lemma undec_dec v : fits_u 64 v -> undec (dec v) = v.
Proof.
  unfold fits_u. intros Hv. unfold dec, undec.
  destruct (Z.eqb_spec v 0) as [->|Hv0]; [done|].
  rewrite <- (fold_left_rev_right (fun c a => 10 * a + (c - 48))), rev_involutive.
  apply digits_le_spec. change (Z.of_nat 20) with 20. lia.
Qed.

Lemma undec_zeros k t : undec (replicate k 48 ++ t) = undec t.
Proof. unfold undec. induction k as [|k IH]; [done|]. exact IH. Qed.

Lemma digits_le_pow fuel k v : 0 <= v < 10 ^ Z.of_nat k -> (length (digits_le fuel v) <= k)%nat.
Proof.
  revert k v. induction fuel as [|fuel IH]; intros k v Hv; cbn [digits_le]; [cbn; lia|].
  destruct (Z.eqb_spec v 0) as [->|Hv0]; [cbn; lia|]. destruct k as [|k]; [cbn in Hv; lia|].
  cbn [length]. apply le_n_S, IH. rewrite Nat2Z.inj_succ, Z.pow_succ_r in Hv by lia.
  split; [apply Z.div_pos; lia|apply Z.div_lt_upper_bound; lia].
Qed.

Lemma dec_length_pow k v : (0 < k)%nat -> 0 <= v < 10 ^ Z.of_nat k -> (length (dec v) <= k)%nat.
Proof.
  intros Hk Hv. unfold dec. destruct (v =? 0); [done|]. rewrite length_rev. by apply digits_le_pow.
Qed.

Lemma digits_le_S k v :
  v <> 0 -> digits_le (S k) v = (48 + v mod 10) :: digits_le k (v / 10).
Proof. intros Hv. simpl. by apply Z.eqb_neq in Hv as ->. Qed.

#[global] Arguments digits_le : simpl never.

(** ** The loops *)

Section Text.
Variable n : nat.
Hypothesis Hn : (0 < n)%nat.

(** Appending one byte to a text that has room for it. *)
Lemma text_snoc t c :
  (length t < n - 1)%nat ->
  store (pad n t) (Z.of_nat (length t)) c = Some (pad n (t ++ [c])).
Proof. intros Hl. apply store_pad. lia. Qed.

(** A text is unchanged by the check [pos >= max - 1] exactly when full. *)
Lemma full_spec (t : list Z) :
  (length t <= n - 1)%nat ->
  (Z.of_nat n - 1 <=? Z.of_nat (length t)) = bool_decide (length t = n - 1)%nat.
Proof. intros Hl. case_bool_decide; [apply Z.leb_le|apply Z.leb_gt]; lia. Qed.

Lemma take_full (t u : list Z) :
  length t = (n - 1)%nat -> take (n - 1) (t ++ u) = t.
Proof. intros <-. apply take_app_length. Qed.

Lemma append_lit_loop_spec k i t lit s :
  (length t <= n - 1)%nat -> nul_terminated (drop i lit) -> s = cstr (drop i lit) ->
  append_lit_loop k (Z.of_nat i) (pad n t) (Z.of_nat (length t)) (Z.of_nat n) lit =
  Some (text n (t ++ take k s)).
Proof.
  unfold text. revert i t s. induction k as [|k IH]; intros i t s Hl Hnul ->; simpl.
  - rewrite app_nil_r, (take_ge t) by lia. done.
  - rewrite full_spec by done. case_bool_decide as Hfull.
    { rewrite take_full by done. done. }
    destruct (drop i lit) as [|c rest] eqn:Hd; [done|].
    assert (load lit (Z.of_nat i) = Some c) as Hc.
    { apply load_Some. split; [lia|]. rewrite Nat2Z.id.
      rewrite <- (Nat.add_0_r i), <- lookup_drop, Hd. done. }
    rewrite Hc. simpl. destruct (Z.eqb_spec c 0) as [->|Hc0].
    { rewrite take_nil, app_nil_r, (take_ge t) by lia. done. }
    rewrite text_snoc by lia. simpl.
    replace (Z.of_nat i + 1) with (Z.of_nat (S i)) by lia.
    replace (Z.of_nat (length t) + 1) with (Z.of_nat (length (t ++ [c])))
      by (rewrite length_app; simpl; lia).
    assert (drop (S i) lit = rest) as Hd'.
    { replace (S i) with (i + 1)%nat by lia. by rewrite <- drop_drop, Hd. }
    rewrite (IH (S i) (t ++ [c]) (cstr rest)).
    + by rewrite <- app_assoc.
    + rewrite length_app. simpl. lia.
    + rewrite Hd'. destruct Hnul as [?|?]; [congruence|done].
    + by rewrite Hd'.
Qed.

Lemma digits_loop_spec fuel ds rest v :
  (length ds + length rest = 21)%nat -> (length ds <= 20)%nat ->
  (20 - length ds < fuel)%nat ->
  exists rest', digits_loop fuel (ds ++ rest) (Z.of_nat (length ds)) v =
    Some (ds ++ digits_le (20 - length ds) v ++ rest',
          Z.of_nat (length (ds ++ digits_le (20 - length ds) v))) /\
    (length (ds ++ digits_le (20 - length ds) v) <= 20)%nat.
Proof.
  revert ds rest v. induction fuel as [|fuel IH]; intros ds rest v Hlen Hi Hf; [lia|].
  simpl. destruct (Z.eqb_spec v 0) as [->|Hv]; simpl.
  { exists rest. destruct (20 - length ds)%nat; cbn; rewrite ?app_nil_r; auto. }
  destruct (Z.ltb_spec (Z.of_nat (length ds)) 20) as [Hlt|Hge].
  2: { exists rest. replace (20 - length ds)%nat with 0%nat by lia. cbn.
       rewrite app_nil_r. auto. }
  destruct rest as [|r rest]; [simpl in *; lia|].
  unfold store. rewrite bool_decide_eq_true_2 by (rewrite length_app; simpl; lia).
  rewrite Nat2Z.id, insert_app_r_alt, Nat.sub_diag by lia. simpl.
  replace (Z.of_nat (length ds) + 1)
    with (Z.of_nat (length (ds ++ [48 + v mod 10]))) by (rewrite length_app; simpl; lia).
  destruct (IH (ds ++ [48 + v mod 10]) rest (v / 10)) as (rest' & He & Hb);
    [rewrite ?length_app; simpl in *; lia ..|].
  exists rest'. rewrite <- app_assoc in He. simpl in He. rewrite He.
  replace (20 - length ds)%nat with (S (20 - length (ds ++ [48 + v mod 10])))
    by (rewrite length_app; simpl; lia).
  rewrite digits_le_S by done. rewrite <- app_assoc in Hb. split; [|exact Hb].
  rewrite <- !app_assoc. done.
Qed.

Lemma digits_loop_start v : exists rest,
  digits_loop 21 (replicate 21 0) 0 v =
  Some (digits_le 20 v ++ rest, Z.of_nat (length (digits_le 20 v))).
Proof.
  destruct (digits_loop_spec 21 [] (replicate 21 0) v) as (rest & Hd & _);
    [simpl; lia ..|].
  by exists rest.
Qed.

Lemma emit_loop_spec fuel t ds rest :
  (length t <= n - 1)%nat -> (length ds < fuel)%nat ->
  emit_loop fuel (pad n t) (Z.of_nat (length t)) (Z.of_nat n)
    (ds ++ rest) (Z.of_nat (length ds)) =
  Some (text n (t ++ rev ds)).
Proof.
  unfold text. revert t ds rest.
  induction fuel as [|fuel IH]; intros t ds rest Hl Hf; [lia|].
  simpl. destruct ds as [|d ds _] using rev_ind; simpl.
  { rewrite app_nil_r, take_ge by lia. done. }
  rewrite length_app in *. simpl in *.
  destruct (Z.eqb_spec (Z.of_nat (length ds + 1)) 0) as [?|_]; [lia|].
  rewrite full_spec by done. case_bool_decide as Hfull.
  { rewrite take_full by done. done. }
  replace (Z.of_nat (length ds + 1) - 1) with (Z.of_nat (length ds)) by lia.
  rewrite <- app_assoc. simpl. rewrite load_app_mid. simpl.
  rewrite text_snoc by lia. simpl.
  replace (Z.of_nat (length t) + 1) with (Z.of_nat (length (t ++ [d])))
    by (rewrite length_app; simpl; lia).
  rewrite IH; [|rewrite length_app; simpl; lia|lia].
  rewrite rev_unit, <- app_assoc. done.
Qed.

(** ** The three routines *)

(** Every routine maps the text [t] to [t] and what it prints, cut to the
    buffer: [t] is any text that the buffer holds. *)
Lemma append_lit_spec t lit :
  (length t <= n - 1)%nat -> nul_terminated lit ->
  append_lit (pad n t) (Z.of_nat (length t)) (Z.of_nat n) lit =
  Some (text n (t ++ take 40 (cstr lit))).
Proof.
  intros Hl Hlit. unfold append_lit.
  pose proof (append_lit_loop_spec 40 0 t lit (cstr lit) Hl Hlit eq_refl) as He.
  change (Z.of_nat 0) with 0 in He. rewrite He.
  unfold text. simpl. rewrite store_pad_nul; [done|]. rewrite length_take. lia.
Qed.

Lemma append_u64_dec_spec t v :
  (length t <= n - 1)%nat ->
  append_u64_dec (pad n t) (Z.of_nat (length t)) (Z.of_nat n) v =
  Some (text n (t ++ dec v)).
Proof.
  intros Hl. unfold append_u64_dec, text.
  rewrite full_spec by done. case_bool_decide as Hfull.
  { rewrite take_full by done. done. }
  unfold dec. destruct (Z.eqb_spec v 0) as [->|Hv].
  { rewrite text_snoc by lia. simpl.
    replace (Z.of_nat (length t) + 1) with (Z.of_nat (length (t ++ [48])))
      by (rewrite length_app; simpl; lia).
    rewrite store_pad_nul by (rewrite length_app; simpl; lia). simpl.
    rewrite (take_ge (t ++ [48])) by (rewrite length_app; simpl; lia). done. }
  destruct (digits_loop_start v) as [rest Hd]. rewrite Hd.
  unfold mbind, option_bind.
  rewrite (emit_loop_spec 21 t (digits_le 20 v) rest);
    [|done|pose proof (digits_le_length 20 v); lia].
  unfold text. rewrite store_pad_nul; [reflexivity|]. rewrite length_take. lia.
Qed.

Lemma append_s64_dec_spec t v :
  (length t <= n - 1)%nat -> fits_s 64 v ->
  append_s64_dec (pad n t) (Z.of_nat (length t)) (Z.of_nat n) v =
  Some (text n (t ++ sdec v)).
Proof.
  intros Hl Hv. unfold append_s64_dec, sdec, fits_s in *. simpl in Hv.
  destruct (Z.ltb_spec v 0) as [Hneg|Hpos].
  2: { simpl. rewrite (wrapu_small 64 v) by (unfold fits_u; lia).
       by apply append_u64_dec_spec. }
  assert (u64 (s64 (- v)) = - v) as Hu.
  { rewrite wrapu_wraps by lia. apply wrapu_small. unfold fits_u. lia. }
  destruct (Z.ltb_spec (Z.of_nat (length t)) (Z.of_nat n - 1)) as [Hroom|Hroom].
  - rewrite text_snoc by lia. simpl. rewrite Hu.
    replace (Z.of_nat (length t) + 1) with (Z.of_nat (length (t ++ [45])))
      by (rewrite length_app; simpl; lia).
    rewrite append_u64_dec_spec by (rewrite length_app; simpl; lia).
    by rewrite <- app_assoc.
  - simpl. rewrite Hu, append_u64_dec_spec by done. unfold text.
    by rewrite !take_full by lia.
Qed.
End Text.

(** Chaining: appending to a text that was cut is appending to the text. *)
Lemma text_take n t u :
  text n (take (n - 1) t ++ u) = text n (t ++ u).
Proof. unfold text. by rewrite !take_take_app. Qed.

Lemma text_nil n : text n [] = (pad n [], 0).
Proof. unfold text. by rewrite take_nil. Qed.

(** What a C program sees of a text buffer. *)
Lemma cstr_text n t :
  (0 < n)%nat -> no_nul t -> cstr (fst (text n t)) = take (n - 1) t.
Proof.
  intros Hn Ht. simpl. apply cstr_pad; [by apply no_nul_take|].
  rewrite length_take. lia.
Qed.
