(* ===== verification/IosnoopBpf.v ===== *)
(** * iosnoop: data, filters and core operations of the kernel program

    Models src/bpf/iosnoop.bpf.c up to its probes: the event codes, the
    records, the four maps (the record [st]), the mount filter, the device and
    name readers, and [emit_event], [submit_or_drop], [submit_syscall_event]
    and [finish_event].  A function that can only fault by a wild store
    returns an [option]; the others are total. *)

From S2P Require Import Prelude Bpf IosnoopFmt.

(** ** Event codes *)

Definition IO_OPEN : Z := 1.
Definition IO_OPENAT : Z := 2.
Definition IO_READ : Z := 3.
Definition IO_WRITE : Z := 4.
Definition IO_STAT : Z := 6.
Definition IO_MKDIR : Z := 9.
Definition IO_RMDIR : Z := 11.
Definition IO_UNLINK : Z := 12.
Definition IO_RENAME : Z := 14.
Definition IO_FCHMOD : Z := 20.
Definition IO_TRUNCATE : Z := 23.
Definition IO_LINK : Z := 25.
Definition IO_SYMLINK : Z := 27.
Definition IO_READLINK : Z := 29.
Definition IO_READV : Z := 33.
Definition IO_WRITEV : Z := 34.
Definition IO_MMAP : Z := 45.
Definition IO_MUNMAP : Z := 47.
Definition IO_CREATE : Z := 48.
Definition IO_FALLOCATE : Z := 49.
Definition IO_GETDENTS : Z := 50.
Definition IO_LOCK_FCNTL : Z := 51.

(** ** Records *)

(** The ring buffer record.  [ev_pad1..3] are padding that no code writes. *)
Record iosnoop_event := IosnoopEvent {
  ev_ts : Z; ev_pid : Z; ev_uid : Z; ev_gid : Z; ev_type : Z;
  ev_pad1 : Z; ev_pad2 : Z; ev_ret : Z; ev_pad3 : Z;
  ev_comm : list Z;   (* char[16] *)
  ev_fname : list Z;  (* char[256] *)
  ev_args : list Z;   (* char[256] *)
}.

Record mount_filter_cfg := MountFilterCfg {
  enabled : Z; dev_major : Z; dev_minor : Z;
}.

(** The padding members of [op_ctx] and [op_key] are zeroed by the
    initialisers of the program and never read: they are left out. *)
Record op_ctx := OpCtx {
  op_type : Z; op_dev : Z;
  op_fname : list Z;  (* char[96] *)
  op_args : list Z;   (* char[128] *)
}.

Record op_key := OpKey { ok_id : Z; ok_type : Z }.

#[export] Instance op_key_eq_dec : EqDecision op_key.
Proof. solve_decision. Defined.

#[export] Instance op_key_countable : Countable op_key.
Proof.
  apply (inj_countable' (fun k => (ok_id k, ok_type k)) (fun '(i, t) => OpKey i t)).
  by intros [].
Defined.

Definition sizeof_fname : Z := 96.
Definition sizeof_args : Z := 128.

(** [struct op_ctx op = {}]: the zeroed buffers every probe starts from. *)
Definition fname_zero : list Z := pad 96 [].
Definition args_zero : list Z := pad 128 [].

Section Program.
Context {RT : BpfRuntime}.

(** The maps of the program; [events] lists the submitted records, oldest
    first. *)
Record st := St {
  events : list iosnoop_event;
  cfg_map : hmap Z mount_filter_cfg;
  op_state : hmap op_key op_ctx;
  vma_dev_map : hmap Z Z;
}.

Definition set_events (s : st) (x : list iosnoop_event) : st :=
  St x (cfg_map s) (op_state s) (vma_dev_map s).
Definition set_op_state (s : st) (x : hmap op_key op_ctx) : st :=
  St (events s) (cfg_map s) x (vma_dev_map s).
Definition set_vma_dev_map (s : st) (x : hmap Z Z) : st :=
  St (events s) (cfg_map s) (op_state s) x.

(** ** The mount filter *)

Definition pass_mount_filter (s : st) (dev : Z) : bool :=
  match bpf_map_lookup_elem (cfg_map s) 0 with
  | None => true
  | Some cfg =>
      if enabled cfg =? 0 then true
      else if dev =? 0 then true
      else
        let major := Z.shiftr dev 20 in
        let minor := Z.land dev (Z.shiftl 1 20 - 1) in
        (dev_major cfg =? major) && (dev_minor cfg =? minor)
  end.

Definition configured_mount_dev (s : st) : Z :=
  match bpf_map_lookup_elem (cfg_map s) 0 with
  | None => 0
  | Some cfg =>
      if enabled cfg =? 0 then 0
      else Z.lor (u32 (Z.shiftl (dev_major cfg) 20)) (dev_minor cfg)
  end.

(** ** Readers of kernel objects *)

Definition dev_from_path (m : kmem) (path : Z) : Z :=
  if path =? 0 then 0
  else
    let dentry := path_dentry m path in
    if dentry =? 0 then 0
    else
      let sb := dentry_d_sb m dentry in
      if sb =? 0 then 0 else sb_s_dev m sb.

Definition dev_from_file (m : kmem) (file : Z) : Z :=
  if file =? 0 then 0
  else
    let dentry := file_path_dentry m file in
    if dentry =? 0 then 0
    else
      let sb := dentry_d_sb m dentry in
      if sb =? 0 then 0 else sb_s_dev m sb.

Definition dev_from_dentry (m : kmem) (dentry : Z) : Z :=
  if dentry =? 0 then 0
  else
    let sb := dentry_d_sb m dentry in
    if sb =? 0 then 0 else sb_s_dev m sb.

Definition dev_from_inode (m : kmem) (inode : Z) : Z :=
  if inode =? 0 then 0
  else
    let sb := inode_i_sb m inode in
    if sb =? 0 then 0 else sb_s_dev m sb.

Definition read_dentry_name (m : kmem) (dentry : Z) (dst : list Z) (dst_sz : Z)
  : option (list Z) :=
  if (dentry =? 0) || (dst_sz <=? 0) then store dst 0 0
  else
    let name := dentry_d_name m dentry in
    if name =? 0 then store dst 0 0
    else
      let '(r, dst) := probe_read_kernel_str m dst dst_sz name in
      if r <? 0 then store dst 0 0 else Some dst.

Definition read_path_name (m : kmem) (path : Z) (dst : list Z) (dst_sz : Z)
  : option (list Z) :=
  if path =? 0 then store dst 0 0
  else read_dentry_name m (path_dentry m path) dst dst_sz.

Definition read_file_name (m : kmem) (file : Z) (dst : list Z) (dst_sz : Z)
  : option (list Z) :=
  if file =? 0 then store dst 0 0
  else read_dentry_name m (file_path_dentry m file) dst dst_sz.

(** ** Emitting and recording *)

(** memset of 256 zero bytes, then memcpy of the shorter buffer. *)
Definition copy_into_256 (src : list Z) : list Z :=
  src ++ drop (length src) (replicate 256 0).

Definition emit_event (e : kenv iosnoop_event) (op : op_ctx) (ret : Z) (s : st) : st :=
  match reserve e 0 with
  | None => s
  | Some slot =>
      let ev := {|
        ev_ts := ktime e 0;
        ev_pid := u32 (Z.shiftr (pid_tgid e) 32);
        ev_uid := u32 (Z.land (uid_gid e) 0xffffffff);
        ev_gid := u32 (Z.shiftr (uid_gid e) 32);
        ev_type := op_type op;
        ev_pad1 := ev_pad1 slot; ev_pad2 := ev_pad2 slot;
        ev_ret := ret;
        ev_pad3 := ev_pad3 slot;
        ev_comm := comm e;
        ev_fname := copy_into_256 (op_fname op);
        ev_args := copy_into_256 (op_args op) |} in
      set_events s (events s ++ [ev])
  end.

Definition submit_or_drop (id : Z) (op : op_ctx) (s : st) : st :=
  let key := OpKey id (op_type op) in
  if negb (pass_mount_filter s (op_dev op)) then s
  else set_op_state s (update_elem (op_state s) key op BPF_ANY).

Definition submit_syscall_event (e : kenv iosnoop_event) (type path : Z) (s : st) : st :=
  let dev := configured_mount_dev s in
  let fname :=
    if path =? 0 then fname_zero
    else snd (probe_read_user_str (mem e) fname_zero sizeof_fname path) in
  let op := OpCtx type dev fname args_zero in
  if negb (pass_mount_filter s dev) then s else emit_event e op 0 s.

Definition finish_event (e : kenv iosnoop_event) (id type ret : Z) (s : st) : st :=
  let key := OpKey id type in
  match bpf_map_lookup_elem (op_state s) key with
  | None => s
  | Some op =>
      let s := emit_event e op ret s in
      set_op_state s (delete_elem (op_state s) key)
  end.
End Program.
