(* ===== verification/IosnoopProbes.v ===== *)
(** * iosnoop: the probes of the kernel program

    One definition per SEC program of src/bpf/iosnoop.bpf.c, in the order of
    the file, named as there.  A probe maps its environment, the arguments of
    the hooked function and the state to the new state; [None] would be a
    wild memory access.  Every program returns 0, which is left out.  Function
    arguments arrive as values of their C types; a return value that the
    program passes on as a 32-bit [ret] is cut with [s32]. *)

From S2P Require Import Prelude Bpf IosnoopFmt IosnoopBpf.

Section Probes.
Context {RT : BpfRuntime}.
Abbreviation env := (kenv iosnoop_event).

(** ** Syscall probes: the entry emits at once, the exit ends a VFS record *)

Definition trace_sys_open_entry (e : env) (pathname flags mode : Z) (s : st) : option st :=
  Some (submit_syscall_event e IO_OPEN pathname s).
Definition trace_sys_open_exit (e : env) (ret : Z) (s : st) : option st :=
  Some (finish_event e (pid_tgid e) IO_OPEN (s32 ret) s).

Definition trace_sys_openat_entry (e : env) (dfd pathname flags mode : Z) (s : st) : option st :=
  Some (submit_syscall_event e IO_OPENAT pathname s).
Definition trace_sys_openat_exit (e : env) (ret : Z) (s : st) : option st :=
  Some (finish_event e (pid_tgid e) IO_OPENAT (s32 ret) s).

Definition trace_sys_read_entry (e : env) (fd buf count : Z) (s : st) : option st :=
  Some (submit_syscall_event e IO_READ 0 s).
Definition trace_sys_read_exit (e : env) (ret : Z) (s : st) : option st :=
  Some (finish_event e (pid_tgid e) IO_READ (s32 ret) s).

Definition trace_sys_write_entry (e : env) (fd buf count : Z) (s : st) : option st :=
  Some (submit_syscall_event e IO_WRITE 0 s).
Definition trace_sys_write_exit (e : env) (ret : Z) (s : st) : option st :=
  Some (finish_event e (pid_tgid e) IO_WRITE (s32 ret) s).

Definition trace_sys_mkdir_entry (e : env) (pathname mode : Z) (s : st) : option st :=
  Some (submit_syscall_event e IO_MKDIR pathname s).
Definition trace_sys_mkdir_exit (e : env) (ret : Z) (s : st) : option st :=
  Some (finish_event e (pid_tgid e) IO_MKDIR (s32 ret) s).

Definition trace_sys_enter_mkdir (e : env) (args : Z -> Z) (s : st) : option st :=
  let path := args 0 in
  Some (submit_syscall_event e IO_MKDIR path s).
Definition trace_sys_exit_mkdir (e : env) (args_ret : Z) (s : st) : option st :=
  Some (finish_event e (pid_tgid e) IO_MKDIR (s32 args_ret) s).

Definition trace_sys_unlink_entry (e : env) (pathname : Z) (s : st) : option st :=
  Some (submit_syscall_event e IO_UNLINK pathname s).
Definition trace_sys_unlink_exit (e : env) (ret : Z) (s : st) : option st :=
  Some (finish_event e (pid_tgid e) IO_UNLINK (s32 ret) s).

Definition trace_sys_enter_unlink (e : env) (args : Z -> Z) (s : st) : option st :=
  let path := args 0 in
  Some (submit_syscall_event e IO_UNLINK path s).
Definition trace_sys_exit_unlink (e : env) (args_ret : Z) (s : st) : option st :=
  Some (finish_event e (pid_tgid e) IO_UNLINK (s32 args_ret) s).

Definition trace_sys_rename_entry (e : env) (oldpath newpath : Z) (s : st) : option st :=
  Some (submit_syscall_event e IO_RENAME newpath s).
Definition trace_sys_rename_exit (e : env) (ret : Z) (s : st) : option st :=
  Some (finish_event e (pid_tgid e) IO_RENAME (s32 ret) s).

Definition trace_sys_enter_rename (e : env) (args : Z -> Z) (s : st) : option st :=
  let path := args 1 in
  Some (submit_syscall_event e IO_RENAME path s).
Definition trace_sys_exit_rename (e : env) (args_ret : Z) (s : st) : option st :=
  Some (finish_event e (pid_tgid e) IO_RENAME (s32 args_ret) s).

Definition trace_sys_link_entry (e : env) (oldpath newpath : Z) (s : st) : option st :=
  Some (submit_syscall_event e IO_LINK newpath s).
Definition trace_sys_link_exit (e : env) (ret : Z) (s : st) : option st :=
  Some (finish_event e (pid_tgid e) IO_LINK (s32 ret) s).

Definition trace_sys_enter_link (e : env) (args : Z -> Z) (s : st) : option st :=
  let path := args 1 in
  Some (submit_syscall_event e IO_LINK path s).
Definition trace_sys_exit_link (e : env) (args_ret : Z) (s : st) : option st :=
  Some (finish_event e (pid_tgid e) IO_LINK (s32 args_ret) s).

Definition trace_sys_symlink_entry (e : env) (target linkpath : Z) (s : st) : option st :=
  Some (submit_syscall_event e IO_SYMLINK linkpath s).
Definition trace_sys_symlink_exit (e : env) (ret : Z) (s : st) : option st :=
  Some (finish_event e (pid_tgid e) IO_SYMLINK (s32 ret) s).

Definition trace_sys_enter_symlink (e : env) (args : Z -> Z) (s : st) : option st :=
  let path := args 1 in
  Some (submit_syscall_event e IO_SYMLINK path s).
Definition trace_sys_exit_symlink (e : env) (args_ret : Z) (s : st) : option st :=
  Some (finish_event e (pid_tgid e) IO_SYMLINK (s32 args_ret) s).

Definition trace_sys_readlink_entry (e : env) (pathname buf bufsiz : Z) (s : st) : option st :=
  Some (submit_syscall_event e IO_READLINK pathname s).
Definition trace_sys_readlink_exit (e : env) (ret : Z) (s : st) : option st :=
  Some (finish_event e (pid_tgid e) IO_READLINK (s32 ret) s).

Definition trace_sys_truncate_entry (e : env) (path length : Z) (s : st) : option st :=
  Some (submit_syscall_event e IO_TRUNCATE path s).
Definition trace_sys_truncate_exit (e : env) (ret : Z) (s : st) : option st :=
  Some (finish_event e (pid_tgid e) IO_TRUNCATE (s32 ret) s).

Definition trace_sys_enter_truncate (e : env) (args : Z -> Z) (s : st) : option st :=
  let path := args 0 in
  Some (submit_syscall_event e IO_TRUNCATE path s).
Definition trace_sys_exit_truncate (e : env) (args_ret : Z) (s : st) : option st :=
  Some (finish_event e (pid_tgid e) IO_TRUNCATE (s32 args_ret) s).

Definition trace_sys_mmap_entry (e : env) (addr len prot flags fd pgoff : Z) (s : st) : option st :=
  Some (submit_syscall_event e IO_MMAP 0 s).
Definition trace_sys_mmap_exit (e : env) (ret : Z) (s : st) : option st :=
  Some (finish_event e (pid_tgid e) IO_MMAP (s32 ret) s).

(** ** VFS probes: the entry records the operation, the exit emits it *)

Definition trace_vfs_open_enter (e : env) (path file : Z) (s : st) : option st :=
  let id := pid_tgid e in
  let dev := dev_from_path (mem e) path in
  fname ← read_path_name (mem e) path fname_zero sizeof_fname;
  let flags := if file =? 0 then 0 else file_f_flags (mem e) file in
  '(args, pos) ← append_lit args_zero 0 sizeof_args (lit "flags=");
  '(args, _) ← append_u64_dec args pos sizeof_args flags;
  Some (submit_or_drop id (OpCtx IO_OPEN dev fname args) s).

Definition trace_vfs_open_exit (e : env) (path file ret : Z) (s : st) : option st :=
  Some (finish_event e (pid_tgid e) IO_OPEN ret s).

Definition trace_vfs_read_enter (e : env) (file buf count pos : Z) (s : st)
  : option st :=
  let id := pid_tgid e in
  let off := if pos =? 0 then -1 else loff_at (mem e) pos in
  let dev := dev_from_file (mem e) file in
  fname ← read_file_name (mem e) file fname_zero sizeof_fname;
  '(args, p) ← append_lit args_zero 0 sizeof_args (lit "count=");
  '(args, p) ← append_u64_dec args p sizeof_args count;
  '(args, p) ← append_lit args p sizeof_args (lit " pos=");
  '(args, _) ← append_s64_dec args p sizeof_args off;
  Some (submit_or_drop id (OpCtx IO_READ dev fname args) s).

Definition trace_vfs_read_exit (e : env) (file buf count pos ret : Z) (s : st)
  : option st :=
  Some (finish_event e (pid_tgid e) IO_READ (s32 ret) s).

Definition trace_vfs_write_enter (e : env) (file buf count pos : Z) (s : st)
  : option st :=
  let id := pid_tgid e in
  let off := if pos =? 0 then -1 else loff_at (mem e) pos in
  let dev := dev_from_file (mem e) file in
  fname ← read_file_name (mem e) file fname_zero sizeof_fname;
  '(args, p) ← append_lit args_zero 0 sizeof_args (lit "count=");
  '(args, p) ← append_u64_dec args p sizeof_args count;
  '(args, p) ← append_lit args p sizeof_args (lit " pos=");
  '(args, _) ← append_s64_dec args p sizeof_args off;
  Some (submit_or_drop id (OpCtx IO_WRITE dev fname args) s).

Definition trace_vfs_write_exit (e : env) (file buf count pos ret : Z) (s : st)
  : option st :=
  Some (finish_event e (pid_tgid e) IO_WRITE (s32 ret) s).

Definition trace_vfs_create_enter (e : env) (idmap dir dentry mode : Z)
    (want_excl : bool) (s : st) : option st :=
  let id := pid_tgid e in
  let dev := dev_from_inode (mem e) dir in
  fname ← read_dentry_name (mem e) dentry fname_zero sizeof_fname;
  '(args, p) ← append_lit args_zero 0 sizeof_args (lit "mode=");
  '(args, p) ← append_u64_dec args p sizeof_args mode;
  '(args, p) ← append_lit args p sizeof_args (lit " excl=");
  '(args, _) ← append_u64_dec args p sizeof_args (if want_excl then 1 else 0);
  Some (submit_or_drop id (OpCtx IO_CREATE dev fname args) s).

Definition trace_vfs_create_exit (e : env) (idmap dir dentry mode : Z)
    (want_excl : bool) (ret : Z) (s : st) : option st :=
  Some (finish_event e (pid_tgid e) IO_CREATE ret s).

Definition trace_vfs_mkdir_enter (e : env) (idmap dir dentry mode : Z) (s : st)
  : option st :=
  let id := pid_tgid e in
  let dev := dev_from_inode (mem e) dir in
  fname ← read_dentry_name (mem e) dentry fname_zero sizeof_fname;
  '(args, p) ← append_lit args_zero 0 sizeof_args (lit "mode=");
  '(args, _) ← append_u64_dec args p sizeof_args mode;
  Some (submit_or_drop id (OpCtx IO_MKDIR dev fname args) s).

Definition trace_vfs_mkdir_exit (e : env) (idmap dir dentry mode ret : Z) (s : st)
  : option st :=
  Some (finish_event e (pid_tgid e) IO_MKDIR ret s).

Definition trace_vfs_rmdir_enter (e : env) (idmap dir dentry : Z) (s : st)
  : option st :=
  let id := pid_tgid e in
  let dev := dev_from_inode (mem e) dir in
  fname ← read_dentry_name (mem e) dentry fname_zero sizeof_fname;
  args ← store args_zero 0 0;
  Some (submit_or_drop id (OpCtx IO_RMDIR dev fname args) s).

Definition trace_vfs_rmdir_exit (e : env) (idmap dir dentry ret : Z) (s : st)
  : option st :=
  Some (finish_event e (pid_tgid e) IO_RMDIR ret s).

Definition trace_vfs_symlink_enter (e : env) (idmap dir dentry oldname : Z) (s : st)
  : option st :=
  let id := pid_tgid e in
  let dev := dev_from_inode (mem e) dir in
  fname ← read_dentry_name (mem e) dentry fname_zero sizeof_fname;
  target ← store (stack e) 0 0;
  let target :=
    if oldname =? 0 then target
    else snd (probe_read_kernel_str (mem e) target 64 oldname) in
  '(args, p) ← append_lit args_zero 0 sizeof_args (lit "target=");
  '(args, _) ← append_lit args p sizeof_args target;
  Some (submit_or_drop id (OpCtx IO_SYMLINK dev fname args) s).

Definition trace_vfs_symlink_exit (e : env) (idmap dir dentry oldname ret : Z) (s : st)
  : option st :=
  Some (finish_event e (pid_tgid e) IO_SYMLINK ret s).

Definition trace_vfs_rename_enter (e : env) (rd : Z) (s : st) : option st :=
  let id := pid_tgid e in
  if rd =? 0 then Some s
  else
    let new_dentry := rd_new_dentry (mem e) rd in
    let dev :=
      if rd_has_new_parent (mem e)
      then dev_from_dentry (mem e) (rd_new_parent (mem e) rd)
      else dev_from_inode (mem e) (rd_legacy_new_dir (mem e) rd) in
    fname ← read_dentry_name (mem e) new_dentry fname_zero sizeof_fname;
    args ← store args_zero 0 0;
    Some (submit_or_drop id (OpCtx IO_RENAME dev fname args) s).

Definition trace_vfs_rename_exit (e : env) (rd ret : Z) (s : st) : option st :=
  Some (finish_event e (pid_tgid e) IO_RENAME ret s).

Definition trace_vfs_getattr_enter (e : env)
    (path stat request_mask query_flags : Z) (s : st) : option st :=
  let id := pid_tgid e in
  if path =? 0 then Some s
  else
    let pth := path_copy (mem e) path in
    let dev := dev_from_path (mem e) pth in
    fname ← read_path_name (mem e) pth fname_zero sizeof_fname;
    '(args, p) ← append_lit args_zero 0 sizeof_args (lit "mask=");
    '(args, p) ← append_u64_dec args p sizeof_args request_mask;
    '(args, p) ← append_lit args p sizeof_args (lit " qflags=");
    '(args, _) ← append_u64_dec args p sizeof_args query_flags;
    Some (submit_or_drop id (OpCtx IO_STAT dev fname args) s).

Definition trace_vfs_getattr_exit (e : env)
    (path stat request_mask query_flags ret : Z) (s : st) : option st :=
  Some (finish_event e (pid_tgid e) IO_STAT ret s).

Definition trace_vfs_truncate_enter (e : env) (path length : Z) (s : st) : option st :=
  let id := pid_tgid e in
  if path =? 0 then Some s
  else
    let pth := path_copy (mem e) path in
    let dev := dev_from_path (mem e) pth in
    fname ← read_path_name (mem e) pth fname_zero sizeof_fname;
    '(args, p) ← append_lit args_zero 0 sizeof_args (lit "length=");
    '(args, _) ← append_s64_dec args p sizeof_args length;
    Some (submit_or_drop id (OpCtx IO_TRUNCATE dev fname args) s).

Definition trace_vfs_truncate_exit (e : env) (path length ret : Z) (s : st)
  : option st :=
  Some (finish_event e (pid_tgid e) IO_TRUNCATE ret s).

Definition trace_vfs_fchmod_enter (e : env) (file mode : Z) (s : st) : option st :=
  let id := pid_tgid e in
  let dev := dev_from_file (mem e) file in
  fname ← read_file_name (mem e) file fname_zero sizeof_fname;
  '(args, p) ← append_lit args_zero 0 sizeof_args (lit "mode=");
  '(args, _) ← append_u64_dec args p sizeof_args mode;
  Some (submit_or_drop id (OpCtx IO_FCHMOD dev fname args) s).

Definition trace_vfs_fchmod_exit (e : env) (file mode ret : Z) (s : st) : option st :=
  Some (finish_event e (pid_tgid e) IO_FCHMOD ret s).

Definition trace_vfs_readlink_enter (e : env) (dentry buffer buflen : Z) (s : st)
  : option st :=
  let id := pid_tgid e in
  let dev := dev_from_dentry (mem e) dentry in
  fname ← read_dentry_name (mem e) dentry fname_zero sizeof_fname;
  '(args, p) ← append_lit args_zero 0 sizeof_args (lit "buflen=");
  '(args, _) ← append_u64_dec args p sizeof_args (u64 buflen);
  Some (submit_or_drop id (OpCtx IO_READLINK dev fname args) s).

Definition trace_vfs_readlink_exit (e : env) (dentry buffer buflen ret : Z) (s : st)
  : option st :=
  Some (finish_event e (pid_tgid e) IO_READLINK ret s).

Definition trace_vfs_readv_enter (e : env) (file vec vlen pos flags : Z) (s : st)
  : option st :=
  let id := pid_tgid e in
  let dev := dev_from_file (mem e) file in
  fname ← read_file_name (mem e) file fname_zero sizeof_fname;
  '(args, p) ← append_lit args_zero 0 sizeof_args (lit "vlen=");
  '(args, p) ← append_u64_dec args p sizeof_args vlen;
  '(args, p) ← append_lit args p sizeof_args (lit " flags=");
  '(args, _) ← append_u64_dec args p sizeof_args flags;
  Some (submit_or_drop id (OpCtx IO_READV dev fname args) s).

Definition trace_vfs_readv_exit (e : env) (file vec vlen pos flags ret : Z) (s : st)
  : option st :=
  Some (finish_event e (pid_tgid e) IO_READV (s32 ret) s).

Definition trace_vfs_writev_enter (e : env) (file vec vlen pos flags : Z) (s : st)
  : option st :=
  let id := pid_tgid e in
  let dev := dev_from_file (mem e) file in
  fname ← read_file_name (mem e) file fname_zero sizeof_fname;
  '(args, p) ← append_lit args_zero 0 sizeof_args (lit "vlen=");
  '(args, p) ← append_u64_dec args p sizeof_args vlen;
  '(args, p) ← append_lit args p sizeof_args (lit " flags=");
  '(args, _) ← append_u64_dec args p sizeof_args flags;
  Some (submit_or_drop id (OpCtx IO_WRITEV dev fname args) s).

Definition trace_vfs_writev_exit (e : env) (file vec vlen pos flags ret : Z) (s : st)
  : option st :=
  Some (finish_event e (pid_tgid e) IO_WRITEV (s32 ret) s).

(** ** Function probes that have no fentry variant, and the rest of the file *)

Definition trace_vfs_unlink_kp (e : env) (idmap dir dentry delegated_inode : Z)
    (s : st) : option st :=
  let id := pid_tgid e in
  let dev := dev_from_inode (mem e) dir in
  fname ← read_dentry_name (mem e) dentry fname_zero sizeof_fname;
  args ← store args_zero 0 0;
  Some (submit_or_drop id (OpCtx IO_UNLINK dev fname args) s).

Definition trace_vfs_unlink_krp (e : env) (ret : Z) (s : st) : option st :=
  Some (finish_event e (pid_tgid e) IO_UNLINK (s32 ret) s).

Definition trace_vfs_link_kp (e : env)
    (old_dentry idmap dir new_dentry delegated_inode : Z) (s : st) : option st :=
  let id := pid_tgid e in
  let dev := dev_from_inode (mem e) dir in
  fname ← read_dentry_name (mem e) new_dentry fname_zero sizeof_fname;
  old_name ← read_dentry_name (mem e) old_dentry (stack e) 64;
  '(args, p) ← append_lit args_zero 0 sizeof_args (lit "old=");
  '(args, _) ← append_lit args p sizeof_args old_name;
  Some (submit_or_drop id (OpCtx IO_LINK dev fname args) s).

Definition trace_vfs_link_krp (e : env) (ret : Z) (s : st) : option st :=
  Some (finish_event e (pid_tgid e) IO_LINK (s32 ret) s).

Definition trace_vfs_fallocate_kp (e : env) (file mode offset len : Z) (s : st)
  : option st :=
  let id := pid_tgid e in
  let dev := dev_from_file (mem e) file in
  fname ← read_file_name (mem e) file fname_zero sizeof_fname;
  '(args, p) ← append_lit args_zero 0 sizeof_args (lit "offset=");
  '(args, p) ← append_s64_dec args p sizeof_args offset;
  '(args, p) ← append_lit args p sizeof_args (lit " len=");
  '(args, _) ← append_s64_dec args p sizeof_args len;
  Some (submit_or_drop id (OpCtx IO_FALLOCATE dev fname args) s).

Definition trace_vfs_fallocate_krp (e : env) (ret : Z) (s : st) : option st :=
  Some (finish_event e (pid_tgid e) IO_FALLOCATE (s32 ret) s).

Definition trace_iterate_dir_enter (e : env) (file dctx : Z) (s : st) : option st :=
  let id := pid_tgid e in
  let dev := dev_from_file (mem e) file in
  fname ← read_file_name (mem e) file fname_zero sizeof_fname;
  args ← store args_zero 0 0;
  Some (submit_or_drop id (OpCtx IO_GETDENTS dev fname args) s).

Definition trace_iterate_dir_exit (e : env) (file dctx ret : Z) (s : st) : option st :=
  Some (finish_event e (pid_tgid e) IO_GETDENTS ret s).

Definition trace_do_mmap_kp (e : env) (file addr len prot flags : Z) (s : st)
  : option st :=
  let id := pid_tgid e in
  if file =? 0 then Some s
  else
    let dev := dev_from_file (mem e) file in
    fname ← read_file_name (mem e) file fname_zero sizeof_fname;
    '(args, p) ← append_lit args_zero 0 sizeof_args (lit "len=");
    '(args, p) ← append_u64_dec args p sizeof_args len;
    '(args, p) ← append_lit args p sizeof_args (lit " prot=");
    '(args, _) ← append_u64_dec args p sizeof_args prot;
    Some (submit_or_drop id (OpCtx IO_MMAP dev fname args) s).

(** [((__u64)pid << 32) | (addr >> 12)] *)
Definition vma_key (id addr : Z) : Z :=
  let pid := u32 (Z.shiftr id 32) in
  Z.lor (u64 (Z.shiftl pid 32)) (Z.shiftr addr 12).

(** [ret] is an [unsigned long]; [(long)ret] is its signed reading. *)
Definition trace_do_mmap_krp (e : env) (ret : Z) (s : st) : option st :=
  let id := pid_tgid e in
  let opk := OpKey id IO_MMAP in
  let s :=
    match bpf_map_lookup_elem (op_state s) opk with
    | Some op =>
        if 0 <? s64 ret then
          let dev := op_dev op in
          set_vma_dev_map s (update_elem (vma_dev_map s) (vma_key id ret) dev BPF_ANY)
        else s
    | None => s
    end in
  Some (finish_event e id IO_MMAP (if 0 <? s64 ret then 0 else s32 (s64 ret)) s).

Definition trace_vm_munmap_kp (e : env) (start len : Z) (s : st) : option st :=
  let id := pid_tgid e in
  let key := vma_key id start in
  let dev :=
    match bpf_map_lookup_elem (vma_dev_map s) key with
    | Some dev => dev
    | None => 0
    end in
  let s := set_vma_dev_map s (delete_elem (vma_dev_map s) key) in
  '(args, p) ← append_lit args_zero 0 sizeof_args (lit "len=");
  '(args, _) ← append_u64_dec args p sizeof_args len;
  fname ← store fname_zero 0 0;
  Some (submit_or_drop id (OpCtx IO_MUNMAP dev fname args) s).

Definition trace_vm_munmap_krp (e : env) (ret : Z) (s : st) : option st :=
  Some (finish_event e (pid_tgid e) IO_MUNMAP (s32 ret) s).

Definition trace_vfs_lock_file_enter (e : env) (filp cmd fl conf : Z) (s : st)
  : option st :=
  let id := pid_tgid e in
  let dev := dev_from_file (mem e) filp in
  fname ← read_file_name (mem e) filp fname_zero sizeof_fname;
  '(args, p) ← append_lit args_zero 0 sizeof_args (lit "cmd=");
  '(args, _) ← append_u64_dec args p sizeof_args cmd;
  Some (submit_or_drop id (OpCtx IO_LOCK_FCNTL dev fname args) s).

Definition trace_vfs_lock_file_exit (e : env) (filp cmd fl conf ret : Z) (s : st)
  : option st :=
  Some (finish_event e (pid_tgid e) IO_LOCK_FCNTL ret s).

(** ** kprobe and kretprobe fallbacks *)

(** The macro DEFINE_KRETPROBE_FALLBACK, and its uses. *)
Definition kretprobe_fallback (type : Z) (e : env) (ret : Z) (s : st) : option st :=
  Some (finish_event e (pid_tgid e) type (s32 ret) s).

Definition trace_vfs_open_kprobe_fallback (e : env) (path file : Z) :=
  trace_vfs_open_enter e path file.
Definition trace_vfs_open_kretprobe_fallback := kretprobe_fallback IO_OPEN.

Definition trace_vfs_read_kprobe_fallback (e : env) (file buf count pos : Z) :=
  trace_vfs_read_enter e file buf count pos.
Definition trace_vfs_read_kretprobe_fallback := kretprobe_fallback IO_READ.

Definition trace_vfs_write_kprobe_fallback (e : env) (file buf count pos : Z) :=
  trace_vfs_write_enter e file buf count pos.
Definition trace_vfs_write_kretprobe_fallback := kretprobe_fallback IO_WRITE.

Definition trace_vfs_create_kprobe_fallback (e : env) (idmap dir dentry mode : Z)
    (want_excl : bool) :=
  trace_vfs_create_enter e idmap dir dentry mode want_excl.
Definition trace_vfs_create_legacy_fallback (e : env) (idmap dir dentry mode : Z) :=
  trace_vfs_create_enter e idmap dir dentry mode false.
Definition trace_vfs_create_kretprobe_fallback := kretprobe_fallback IO_CREATE.

Definition trace_vfs_mkdir_kprobe_fallback (e : env) (idmap dir dentry mode : Z) :=
  trace_vfs_mkdir_enter e idmap dir dentry mode.
Definition trace_vfs_mkdir_kretprobe_fallback := kretprobe_fallback IO_MKDIR.

Definition trace_vfs_rmdir_kprobe_fallback (e : env) (idmap dir dentry : Z) :=
  trace_vfs_rmdir_enter e idmap dir dentry.
Definition trace_vfs_rmdir_kretprobe_fallback := kretprobe_fallback IO_RMDIR.

Definition trace_vfs_symlink_kprobe_fallback (e : env) (idmap dir dentry oldname : Z) :=
  trace_vfs_symlink_enter e idmap dir dentry oldname.
Definition trace_vfs_symlink_kretprobe_fallback := kretprobe_fallback IO_SYMLINK.

Definition trace_vfs_rename_kprobe_fallback (e : env) (rd : Z) :=
  trace_vfs_rename_enter e rd.
Definition trace_vfs_rename_kretprobe_fallback := kretprobe_fallback IO_RENAME.

Definition trace_vfs_rename_legacy_kprobe_fallback (e : env)
    (old_dir old_dentry new_dir new_dentry : Z) (s : st) : option st :=
  let id := pid_tgid e in
  let dev := dev_from_inode (mem e) new_dir in
  fname ← read_dentry_name (mem e) new_dentry fname_zero sizeof_fname;
  args ← store args_zero 0 0;
  Some (submit_or_drop id (OpCtx IO_RENAME dev fname args) s).
Definition trace_vfs_rename_legacy_kretprobe_fallback := kretprobe_fallback IO_RENAME.

Definition trace_vfs_getattr_kprobe_fallback (e : env)
    (path stat request_mask query_flags : Z) :=
  trace_vfs_getattr_enter e path stat request_mask query_flags.
Definition trace_vfs_getattr_kretprobe_fallback := kretprobe_fallback IO_STAT.

Definition trace_vfs_truncate_kprobe_fallback (e : env) (path length : Z) :=
  trace_vfs_truncate_enter e path length.
Definition trace_vfs_truncate_kretprobe_fallback := kretprobe_fallback IO_TRUNCATE.

Definition trace_vfs_fchmod_kprobe_fallback (e : env) (file mode : Z) :=
  trace_vfs_fchmod_enter e file mode.
Definition trace_vfs_fchmod_kretprobe_fallback := kretprobe_fallback IO_FCHMOD.

Definition trace_vfs_readlink_kprobe_fallback (e : env) (dentry buffer buflen : Z) :=
  trace_vfs_readlink_enter e dentry buffer buflen.
Definition trace_vfs_readlink_kretprobe_fallback := kretprobe_fallback IO_READLINK.

Definition trace_vfs_readv_kprobe_fallback (e : env) (file vec vlen pos flags : Z) :=
  trace_vfs_readv_enter e file vec vlen pos flags.
Definition trace_vfs_readv_kretprobe_fallback := kretprobe_fallback IO_READV.

Definition trace_vfs_writev_kprobe_fallback (e : env) (file vec vlen pos flags : Z) :=
  trace_vfs_writev_enter e file vec vlen pos flags.
Definition trace_vfs_writev_kretprobe_fallback := kretprobe_fallback IO_WRITEV.

Definition trace_iterate_dir_kprobe_fallback (e : env) (file dctx : Z) :=
  trace_iterate_dir_enter e file dctx.
Definition trace_iterate_dir_kretprobe_fallback := kretprobe_fallback IO_GETDENTS.

Definition trace_vfs_lock_file_kprobe_fallback (e : env) (filp cmd fl conf : Z) :=
  trace_vfs_lock_file_enter e filp cmd fl conf.
Definition trace_vfs_lock_file_kretprobe_fallback := kretprobe_fallback IO_LOCK_FCNTL.
End Probes.
