(* ===== verification/IosnoopSpec.v ===== *)
(** * iosnoop: what the entry probes record

    [entry_probe] gives the program attached to each function of [kcall].
    [describe] says, without buffers and positions, what an entry
    records about a call; [entry_probe_refines] proves that every entry probe
    runs without a fault and records exactly that. *)

From S2P Require Import Prelude Bpf Hooks IosnoopFmt IosnoopBpf IosnoopProbes.

(** The event code of a call, which is the one its probes use. *)
Definition call_type (c : kcall) : Z :=
  match c with
  | VfsOpen _ _ => IO_OPEN
  | VfsRead _ _ _ _ => IO_READ
  | VfsWrite _ _ _ _ => IO_WRITE
  | VfsCreate _ _ _ _ _ | VfsCreate4 _ _ _ _ => IO_CREATE
  | VfsMkdir _ _ _ _ => IO_MKDIR
  | VfsRmdir _ _ _ => IO_RMDIR
  | VfsSymlink _ _ _ _ => IO_SYMLINK
  | VfsRename _ | VfsRename6 _ _ _ _ => IO_RENAME
  | VfsGetattr _ _ _ _ => IO_STAT
  | VfsTruncate _ _ => IO_TRUNCATE
  | VfsFchmod _ _ => IO_FCHMOD
  | VfsReadlink _ _ _ => IO_READLINK
  | VfsReadv _ _ _ _ _ => IO_READV
  | VfsWritev _ _ _ _ _ => IO_WRITEV
  | VfsUnlink _ _ _ _ => IO_UNLINK
  | VfsLink _ _ _ _ _ => IO_LINK
  | VfsFallocate _ _ _ _ => IO_FALLOCATE
  | IterateDir _ _ => IO_GETDENTS
  | DoMmap _ _ _ _ _ => IO_MMAP
  | VmMunmap _ _ => IO_MUNMAP
  | VfsLockFile _ _ _ _ => IO_LOCK_FCNTL
  end.

(** ** The specification of a recorded operation *)

Record opdesc := OpDesc {
  d_type : Z; d_dev : Z;
  d_name : list Z;  (* the file name *)
  d_args : list Z;  (* the argument text, before it is cut to the buffer *)
}.

(** What the entry of a call records; [vma key] is the device known for a
    mapping.  [None]: nothing is recorded. *)
Definition describe (m : kmem) (vma : Z -> option Z) (id : Z) (c : kcall) : option opdesc :=
  let file_op ty f args := Some (OpDesc ty (dev_from_file m f) (file_name m f) args) in
  let inode_op ty dir d args :=
    Some (OpDesc ty (dev_from_inode m dir) (dentry_name m d 96) args) in
  let path_op ty p args :=
    if p =? 0 then None else Some (OpDesc ty (dev_from_path m p) (path_name m p) args) in
  let pos_text pos := sdec (if pos =? 0 then -1 else loff_at m pos) in
  match c with
  | VfsOpen p f =>
      Some (OpDesc IO_OPEN (dev_from_path m p) (path_name m p)
        (bytes "flags=" ++ dec (if f =? 0 then 0 else file_f_flags m f)))
  | VfsRead f _ count pos =>
      file_op IO_READ f (((bytes "count=" ++ dec count) ++ bytes " pos=") ++ pos_text pos)
  | VfsWrite f _ count pos =>
      file_op IO_WRITE f (((bytes "count=" ++ dec count) ++ bytes " pos=") ++ pos_text pos)
  | VfsCreate _ dir d mode excl =>
      inode_op IO_CREATE dir d
        (((bytes "mode=" ++ dec mode) ++ bytes " excl=") ++ dec (if excl then 1 else 0))
  | VfsCreate4 _ dir d mode =>
      inode_op IO_CREATE dir d (((bytes "mode=" ++ dec mode) ++ bytes " excl=") ++ dec 0)
  | VfsMkdir _ dir d mode => inode_op IO_MKDIR dir d (bytes "mode=" ++ dec mode)
  | VfsRmdir _ dir d => inode_op IO_RMDIR dir d []
  | VfsSymlink _ dir d old =>
      inode_op IO_SYMLINK dir d
        (bytes "target=" ++ take 40 (if old =? 0 then [] else kstring m old 64))
  | VfsRename rd =>
      if rd =? 0 then None
      else Some (OpDesc IO_RENAME
        (if rd_has_new_parent m then dev_from_dentry m (rd_new_parent m rd)
         else dev_from_inode m (rd_legacy_new_dir m rd))
        (dentry_name m (rd_new_dentry m rd) 96) [])
  | VfsRename6 _ _ dir d => inode_op IO_RENAME dir d []
  | VfsGetattr p _ mask qflags =>
      path_op IO_STAT p (((bytes "mask=" ++ dec mask) ++ bytes " qflags=") ++ dec qflags)
  | VfsTruncate p len => path_op IO_TRUNCATE p (bytes "length=" ++ sdec len)
  | VfsFchmod f mode => file_op IO_FCHMOD f (bytes "mode=" ++ dec mode)
  | VfsReadlink d _ buflen =>
      Some (OpDesc IO_READLINK (dev_from_dentry m d) (dentry_name m d 96)
        (bytes "buflen=" ++ dec (u64 buflen)))
  | VfsReadv f _ vlen _ flags =>
      file_op IO_READV f (((bytes "vlen=" ++ dec vlen) ++ bytes " flags=") ++ dec flags)
  | VfsWritev f _ vlen _ flags =>
      file_op IO_WRITEV f (((bytes "vlen=" ++ dec vlen) ++ bytes " flags=") ++ dec flags)
  | VfsUnlink _ dir d _ => inode_op IO_UNLINK dir d []
  | VfsLink old _ dir d _ =>
      inode_op IO_LINK dir d (bytes "old=" ++ take 40 (dentry_name m old 64))
  | VfsFallocate f _ off len =>
      file_op IO_FALLOCATE f
        (((bytes "offset=" ++ sdec off) ++ bytes " len=") ++ sdec len)
  | IterateDir f _ => file_op IO_GETDENTS f []
  | DoMmap f _ len prot _ =>
      if f =? 0 then None
      else file_op IO_MMAP f (((bytes "len=" ++ dec len) ++ bytes " prot=") ++ dec prot)
  | VmMunmap start len =>
      Some (OpDesc IO_MUNMAP (default 0 (vma (vma_key id start))) [] (bytes "len=" ++ dec len))
  | VfsLockFile f cmd _ _ => file_op IO_LOCK_FCNTL f (bytes "cmd=" ++ dec cmd)
  end.

(** The argument buffer for a text, and the position after it. *)
Definition argbuf (t : list Z) : list Z := pad 128 (take (128 - 1) t).
Definition argpos (t : list Z) : Z := Z.of_nat (length (take (128 - 1) t)).

(** The record that stands for a description. *)
Definition op_of (d : opdesc) : op_ctx :=
  OpCtx (d_type d) (d_dev d) (pad 96 (d_name d)) (argbuf (d_args d)).

(** ** The attached programs *)

Section Spec.
Context {RT : BpfRuntime}.

Abbreviation env := (kenv iosnoop_event).

(** The program that runs when [c] is entered, for the fentry family and for
    the kprobe family.  The legacy prototypes exist only in the latter. *)
Definition entry_probe (use_fentry : bool) (c : kcall) : env -> st -> option st :=
  fun e =>
  match c with
  | VfsOpen p f =>
      if use_fentry then trace_vfs_open_enter e p f else trace_vfs_open_kprobe_fallback e p f
  | VfsRead f b n p =>
      if use_fentry then trace_vfs_read_enter e f b n p
      else trace_vfs_read_kprobe_fallback e f b n p
  | VfsWrite f b n p =>
      if use_fentry then trace_vfs_write_enter e f b n p
      else trace_vfs_write_kprobe_fallback e f b n p
  | VfsCreate i dir d m x =>
      if use_fentry then trace_vfs_create_enter e i dir d m x
      else trace_vfs_create_kprobe_fallback e i dir d m x
  | VfsCreate4 i dir d m => trace_vfs_create_legacy_fallback e i dir d m
  | VfsMkdir i dir d m =>
      if use_fentry then trace_vfs_mkdir_enter e i dir d m
      else trace_vfs_mkdir_kprobe_fallback e i dir d m
  | VfsRmdir i dir d =>
      if use_fentry then trace_vfs_rmdir_enter e i dir d
      else trace_vfs_rmdir_kprobe_fallback e i dir d
  | VfsSymlink i dir d o =>
      if use_fentry then trace_vfs_symlink_enter e i dir d o
      else trace_vfs_symlink_kprobe_fallback e i dir d o
  | VfsRename rd =>
      if use_fentry then trace_vfs_rename_enter e rd else trace_vfs_rename_kprobe_fallback e rd
  | VfsRename6 od ode nd nde => trace_vfs_rename_legacy_kprobe_fallback e od ode nd nde
  | VfsGetattr p st m q =>
      if use_fentry then trace_vfs_getattr_enter e p st m q
      else trace_vfs_getattr_kprobe_fallback e p st m q
  | VfsTruncate p l =>
      if use_fentry then trace_vfs_truncate_enter e p l
      else trace_vfs_truncate_kprobe_fallback e p l
  | VfsFchmod f m =>
      if use_fentry then trace_vfs_fchmod_enter e f m
      else trace_vfs_fchmod_kprobe_fallback e f m
  | VfsReadlink d b l =>
      if use_fentry then trace_vfs_readlink_enter e d b l
      else trace_vfs_readlink_kprobe_fallback e d b l
  | VfsReadv f v n p fl =>
      if use_fentry then trace_vfs_readv_enter e f v n p fl
      else trace_vfs_readv_kprobe_fallback e f v n p fl
  | VfsWritev f v n p fl =>
      if use_fentry then trace_vfs_writev_enter e f v n p fl
      else trace_vfs_writev_kprobe_fallback e f v n p fl
  | VfsUnlink i dir d x => trace_vfs_unlink_kp e i dir d x
  | VfsLink o i dir d x => trace_vfs_link_kp e o i dir d x
  | VfsFallocate f m o l => trace_vfs_fallocate_kp e f m o l
  | IterateDir f x =>
      if use_fentry then trace_iterate_dir_enter e f x
      else trace_iterate_dir_kprobe_fallback e f x
  | DoMmap f a l p fl => trace_do_mmap_kp e f a l p fl
  | VmMunmap a l => trace_vm_munmap_kp e a l
  | VfsLockFile f c fl x =>
      if use_fentry then trace_vfs_lock_file_enter e f c fl x
      else trace_vfs_lock_file_kprobe_fallback e f c fl x
  end.

(** The state an entry probe records into: [vm_munmap] first forgets the
    device of the mapping. *)
Definition pre_entry (e : env) (c : kcall) (s : st) : st :=
  match c with
  | VmMunmap start _ =>
      set_vma_dev_map s (delete_elem (vma_dev_map s) (vma_key (pid_tgid e) start))
  | _ => s
  end.

(** The entry of a call in the abstract: record its description if it has one
    and the mount filter lets it through. *)
Definition spec_entry (e : env) (c : kcall) (s : st) : st :=
  match describe (mem e) (bpf_map_lookup_elem (vma_dev_map s)) (pid_tgid e) c with
  | None => s
  | Some d => submit_or_drop (pid_tgid e) (op_of d) (pre_entry e c s)
  end.

(** ** Readers *)

Lemma store_first (dst : list Z) :
  (0 < length dst)%nat -> store dst 0 0 = Some (0 :: drop 1 dst).
Proof.
  intros Hl. unfold store. rewrite bool_decide_eq_true_2 by lia.
  destruct dst; simpl in *; [lia|done].
Qed.

(** The name readers leave a NUL-terminated copy of the name at the start of
    the destination, whatever it held before. *)
Lemma read_dentry_name_spec m d dst :
  kmem_ok m -> (0 < length dst)%nat ->
  let t := dentry_name m d (Z.of_nat (length dst)) in
  no_nul t /\ (length t < length dst)%nat /\
  exists fill, length fill = (length dst - S (length t))%nat /\
    (dst = pad (length dst) [] -> fill = replicate (length dst - S (length t)) 0) /\
    read_dentry_name m d dst (Z.of_nat (length dst)) = Some (t ++ 0 :: fill).
Proof.
  intros Hm Hl. unfold read_dentry_name, dentry_name, kstring.
  assert (forall k, length (drop k dst) = (length dst - k)%nat) as Hdrop
    by (intros; apply length_drop).
  assert (forall k, dst = pad (length dst) [] -> drop k dst = replicate (length dst - k) 0)
    as Hzero.
  { intros k Hd. rewrite Hd at 1. unfold pad. simpl. rewrite Nat.sub_0_r.
    apply drop_replicate. }
  assert (forall r, r = 0 :: drop 1 dst ->
    no_nul [] /\ (0 < length dst)%nat /\ exists fill, length fill = (length dst - 1)%nat /\
    (dst = pad (length dst) [] -> fill = replicate (length dst - 1) 0) /\ Some r = Some (0 :: fill))
    as Hempty.
  { intros r ->. split_and!; [constructor|lia|]. exists (drop 1 dst). auto. }
  replace (Z.of_nat (length dst) <=? 0) with false by (symmetry; apply Z.leb_gt; lia).
  rewrite orb_false_r. destruct (d =? 0); simpl; [rewrite (store_first dst Hl); exact (Hempty _ eq_refl)|].
  destruct (dentry_d_name m d =? 0); simpl; [rewrite (store_first dst Hl); exact (Hempty _ eq_refl)|].
  pose proof (kernel_str_ok m Hm dst (Z.of_nat (length dst)) (dentry_d_name m d)
    ltac:(lia)) as Hr.
  destruct (kernel_str m _ _) as [t|]; simpl.
  - destruct Hr as (Ht & Hlt & ->). split_and!; [done|lia|].
    exists (drop (S (length t)) dst). rewrite Hdrop. split_and!; auto.
    by rewrite (proj2 (Z.ltb_ge _ _)) by lia.
  - destruct (probe_read_kernel_str _ _ _ _) as [r dst'] eqn:He. simpl in Hr.
    destruct Hr as [Hr ->]. rewrite (proj2 (Z.ltb_lt _ _)) by done.
    rewrite Nat2Z.id, drop_all, app_nil_r.
    destruct (length dst) as [|k]; [lia|]. simpl.
    split_and!; [constructor|lia|]. exists (replicate k 0).
    rewrite length_replicate, Nat.sub_0_r. auto.
Qed.

Lemma dentry_name_ok m d sz :
  kmem_ok m -> 0 < sz ->
  no_nul (dentry_name m d sz) /\ Z.of_nat (length (dentry_name m d sz)) < sz.
Proof.
  intros Hm Hsz.
  destruct (read_dentry_name_spec m d (replicate (Z.to_nat sz) 0) Hm) as (H1 & H2 & _).
  - rewrite length_replicate. lia.
  - rewrite length_replicate, Z2Nat.id in * by lia. split; [done|lia].
Qed.

Lemma read_name_zero m d :
  kmem_ok m ->
  read_dentry_name m d fname_zero sizeof_fname = Some (pad 96 (dentry_name m d 96)).
Proof.
  intros Hm.
  destruct (read_dentry_name_spec m d fname_zero Hm) as (Ht & Hl & fill & Hf & Hz & Hr).
  - simpl. lia.
  - change (Z.of_nat (length fname_zero)) with 96 in *.
    change (length fname_zero) with 96%nat in *.
    change sizeof_fname with 96. rewrite Hr, Hz by done. rewrite pad_split by done.
    do 4 f_equal. lia.
Qed.

Lemma read_file_name_zero m f :
  kmem_ok m -> read_file_name m f fname_zero sizeof_fname = Some (pad 96 (file_name m f)).
Proof.
  intros Hm. unfold read_file_name, file_name.
  destruct (f =? 0); [done|]. by apply read_name_zero.
Qed.

Lemma read_path_name_zero m p :
  kmem_ok m -> read_path_name m p fname_zero sizeof_fname = Some (pad 96 (path_name m p)).
Proof.
  intros Hm. unfold read_path_name, path_name.
  destruct (p =? 0); [done|]. by apply read_name_zero.
Qed.

(** The local copy of a [struct path] reads like the original. *)
Lemma path_copy_reads m p :
  kmem_ok m -> p <> 0 ->
  dev_from_path m (path_copy m p) = dev_from_path m p /\
  path_name m (path_copy m p) = path_name m p.
Proof.
  intros Hm Hp. destruct (path_copy_ok m Hm p) as [Hc Hd].
  unfold dev_from_path, path_name. apply Z.eqb_neq in Hp, Hc. by rewrite Hp, Hc, Hd.
Qed.

(** ** Formatting steps, for the rewriting of the probes *)

Definition lit_ok (l : string) : bool :=
  forallb (fun c => negb (c =? 0)) (bytes l) && bool_decide (length (bytes l) <= 40)%nat.

Lemma append_cstr_step t l :
  nul_terminated l ->
  append_lit (argbuf t) (argpos t) sizeof_args l =
  Some (argbuf (t ++ take 40 (cstr l)), argpos (t ++ take 40 (cstr l))).
Proof.
  intros Hl. unfold argbuf, argpos. change sizeof_args with (Z.of_nat 128).
  rewrite (append_lit_spec 128 ltac:(lia)); [|rewrite length_take; lia|done].
  by rewrite text_take.
Qed.

Lemma append_lit_step t l :
  lit_ok l = true ->
  append_lit (argbuf t) (argpos t) sizeof_args (lit l) =
  Some (argbuf (t ++ bytes l), argpos (t ++ bytes l)).
Proof.
  unfold lit_ok. rewrite andb_true_iff, bool_decide_eq_true, forallb_forall.
  intros [Hc Hl]. rewrite append_cstr_step.
  - rewrite cstr_lit, take_ge by (try done; apply Forall_forall;
      intros c Hin; apply Hc in Hin; lia). done.
  - unfold nul_terminated, lit. apply in_app_iff. simpl. auto.
Qed.

Lemma append_lit_first l :
  lit_ok l = true ->
  append_lit args_zero 0 sizeof_args (lit l) = Some (argbuf (bytes l), argpos (bytes l)).
Proof. apply (append_lit_step []). Qed.

Lemma append_u64_step t v :
  append_u64_dec (argbuf t) (argpos t) sizeof_args v =
  Some (argbuf (t ++ dec v), argpos (t ++ dec v)).
Proof.
  unfold argbuf, argpos. change sizeof_args with (Z.of_nat 128).
  rewrite (append_u64_dec_spec 128 ltac:(lia)); [|rewrite length_take; lia].
  by rewrite text_take.
Qed.

Lemma append_s64_step t v :
  fits_s 64 v ->
  append_s64_dec (argbuf t) (argpos t) sizeof_args v =
  Some (argbuf (t ++ sdec v), argpos (t ++ sdec v)).
Proof.
  intros Hv. unfold argbuf, argpos. change sizeof_args with (Z.of_nat 128).
  rewrite (append_s64_dec_spec 128 ltac:(lia)); [|rewrite length_take; lia|done].
  by rewrite text_take.
Qed.

Lemma args_zero_store : store args_zero 0 0 = Some (argbuf []).
Proof. done. Qed.

Lemma fname_zero_store : store fname_zero 0 0 = Some (pad 96 []).
Proof. done. Qed.

(** The 64-byte local buffers, which start uninitialised. *)
Lemma symlink_target_spec m stk old target :
  kmem_ok m -> length stk = 64%nat -> store stk 0 0 = Some target ->
  let buf := if old =? 0 then target else snd (probe_read_kernel_str m target 64 old) in
  nul_terminated buf /\ cstr buf = if old =? 0 then [] else kstring m old 64.
Proof.
  intros Hm Hl Hs. rewrite store_first in Hs by lia. injection Hs as <-.
  destruct (old =? 0); simpl; [split; [by left|done]|]. unfold kstring.
  pose proof (kernel_str_ok m Hm (0 :: drop 1 stk) 64 old) as Hr.
  destruct (kernel_str m old 64) as [t|].
  - destruct Hr as (Ht & _ & ->); [simpl; rewrite length_drop; lia|]. simpl. split.
    + apply in_app_iff. simpl. auto.
    + by apply cstr_app_nul.
  - destruct Hr as [_ ->]; [simpl; rewrite length_drop; lia|]. split; [by left|done].
Qed.

Lemma link_old_name_spec m stk d :
  kmem_ok m -> length stk = 64%nat ->
  exists buf, read_dentry_name m d stk 64 = Some buf /\
    nul_terminated buf /\ cstr buf = dentry_name m d 64.
Proof.
  intros Hm Hl.
  destruct (read_dentry_name_spec m d stk Hm) as (Ht & _ & fill & _ & _ & Hr); [lia|].
  rewrite Hl in *. eexists. split; [exact Hr|]. split.
  - apply in_app_iff. simpl. auto.
  - by apply cstr_app_nul.
Qed.

(** ** Descriptions *)

Lemma file_name_ok m f :
  kmem_ok m -> no_nul (file_name m f) /\ (length (file_name m f) < 96)%nat.
Proof.
  intros Hm. unfold file_name. destruct (f =? 0); [split; [constructor|simpl; lia]|].
  destruct (dentry_name_ok m (file_path_dentry m f) 96 Hm); [lia|]. split; [done|lia].
Qed.

Lemma path_name_ok m p :
  kmem_ok m -> no_nul (path_name m p) /\ (length (path_name m p) < 96)%nat.
Proof.
  intros Hm. unfold path_name. destruct (p =? 0); [split; [constructor|simpl; lia]|].
  destruct (dentry_name_ok m (path_dentry m p) 96 Hm); [lia|]. split; [done|lia].
Qed.

Lemma dentry_name_96 m d :
  kmem_ok m -> no_nul (dentry_name m d 96) /\ (length (dentry_name m d 96) < 96)%nat.
Proof. intros Hm. destruct (dentry_name_ok m d 96 Hm); [lia|]. split; [done|lia]. Qed.

Lemma kstring_no_nul m a sz : kmem_ok m -> 0 < sz -> no_nul (kstring m a sz).
Proof.
  intros Hm Hsz. unfold kstring.
  pose proof (kernel_str_ok m Hm (replicate (Z.to_nat sz) 0) sz a) as Hr.
  rewrite length_replicate in Hr. specialize (Hr ltac:(lia)).
  destruct (kernel_str m a sz); simpl; [by destruct Hr|constructor].
Qed.

Definition no_nulb (t : list Z) : bool := forallb (fun c => negb (c =? 0)) t.

Lemma no_nulb_spec t : no_nulb t = true -> no_nul t.
Proof.
  unfold no_nulb, no_nul. rewrite forallb_forall, List.Forall_forall.
  intros H c Hc. apply H in Hc. lia.
Qed.

Lemma dec_ok w v : fits_u w v -> no_nul (dec v).
Proof. unfold fits_u. intros H. apply dec_no_nul. lia. Qed.

(** The texts of a description hold no NUL and the name fits its buffer. *)
Lemma describe_ok m vma id c d :
  kmem_ok m -> call_ok c -> describe m vma id c = Some d ->
  no_nul (d_name d) /\ (length (d_name d) < 96)%nat /\ no_nul (d_args d).
Proof.
  intros Hm Hc Hd.
  assert (forall p, no_nul (dec (file_f_flags m p))) as Hfl.
  { intros p. eapply dec_ok, flags_u32, Hm. }
  assert (forall z, no_nul (dec (u64 z))) as Hu.
  { intros z. eapply dec_ok, wrapu_range. lia. }
  destruct c; cbn [describe] in Hd; repeat case_match; simplify_eq; cbn [d_name d_args call_ok] in *;
    destruct_and?;
    (split; [|split]);
    try (first [apply file_name_ok | apply path_name_ok | apply dentry_name_96]; done);
    try (simpl; lia); try (by constructor);
    repeat (apply no_nul_app; split);
    try (by apply no_nulb_spec);
    try (by apply sdec_no_nul); try (by eapply dec_ok); try done;
    try (apply no_nul_take; first [apply kstring_no_nul | apply dentry_name_ok]; (done || lia)).
Qed.

(** What a reader of the record finds in its two buffers. *)
Lemma op_of_texts d :
  no_nul (d_name d) -> (length (d_name d) < 96)%nat -> no_nul (d_args d) ->
  length (op_fname (op_of d)) = 96%nat /\ cstr (op_fname (op_of d)) = d_name d /\
  length (op_args (op_of d)) = 128%nat /\ cstr (op_args (op_of d)) = take 127 (d_args d).
Proof.
  intros Hn Hl Ha. cbn [op_of op_fname op_args]. unfold argbuf. split_and!.
  - apply length_pad. lia.
  - by apply cstr_pad.
  - apply length_pad. rewrite length_take. lia.
  - apply cstr_pad; [by apply no_nul_take|]. rewrite length_take. lia.
Qed.

(** ** The refinement *)

Lemma pos_text_fits m pos : kmem_ok m -> fits_s 64 (if pos =? 0 then -1 else loff_at m pos).
Proof.
  intros Hm. destruct (pos =? 0); [unfold fits_s; lia|by apply loff_s64].
Qed.

Ltac probe_step :=
  first [ rewrite read_file_name_zero by assumption
        | rewrite read_path_name_zero by assumption
        | rewrite read_name_zero by assumption
        | rewrite append_lit_first by reflexivity
        | rewrite append_lit_step by reflexivity
        | rewrite append_u64_step
        | rewrite append_s64_step by (first [assumption | apply pos_text_fits; assumption])
        | rewrite args_zero_store
        | rewrite fname_zero_store ];
  cbn [mbind option_bind].

Ltac probe_unfold :=
  unfold trace_vfs_open_kprobe_fallback, trace_vfs_read_kprobe_fallback,
    trace_vfs_write_kprobe_fallback, trace_vfs_create_kprobe_fallback,
    trace_vfs_create_legacy_fallback, trace_vfs_mkdir_kprobe_fallback,
    trace_vfs_rmdir_kprobe_fallback, trace_vfs_symlink_kprobe_fallback,
    trace_vfs_rename_kprobe_fallback, trace_vfs_getattr_kprobe_fallback,
    trace_vfs_truncate_kprobe_fallback, trace_vfs_fchmod_kprobe_fallback,
    trace_vfs_readlink_kprobe_fallback, trace_vfs_readv_kprobe_fallback,
    trace_vfs_writev_kprobe_fallback, trace_iterate_dir_kprobe_fallback,
    trace_vfs_lock_file_kprobe_fallback, trace_vfs_open_enter, trace_vfs_read_enter,
    trace_vfs_write_enter, trace_vfs_create_enter, trace_vfs_mkdir_enter,
    trace_vfs_rmdir_enter, trace_vfs_symlink_enter, trace_vfs_rename_enter,
    trace_vfs_rename_legacy_kprobe_fallback, trace_vfs_getattr_enter,
    trace_vfs_truncate_enter, trace_vfs_fchmod_enter, trace_vfs_readlink_enter,
    trace_vfs_readv_enter, trace_vfs_writev_enter, trace_vfs_unlink_kp,
    trace_vfs_link_kp, trace_vfs_fallocate_kp, trace_iterate_dir_enter,
    trace_do_mmap_kp, trace_vm_munmap_kp, trace_vfs_lock_file_enter.

(** The kprobe family runs the code of the fentry family. *)
Lemma entry_probe_family b c e s : entry_probe b c e s = entry_probe true c e s.
Proof. destruct b, c; reflexivity. Qed.

(** Every entry probe runs without a fault and has the effect of
    [spec_entry]. *)
Lemma entry_probe_refines (b : bool) (c : kcall) (e : env) (s : st) :
  env_ok e -> call_ok c -> entry_probe b c e s = Some (spec_entry e c s).
Proof.
  intros He Hc. rewrite entry_probe_family.
  pose proof (mem_ok e He) as Hm. pose proof (stack_ok e He) as Hst.
  unfold spec_entry. destruct c;
    cbn [entry_probe describe pre_entry call_ok] in *; probe_unfold; cbv zeta;
    try (repeat probe_step; done).
  - probe_step. destruct (store (stack e) 0 0) as [tg|] eqn:Hs;
      [|by rewrite store_first in Hs by lia].
    cbn [mbind option_bind]. repeat probe_step.
    destruct (symlink_target_spec _ _ oldname _ Hm Hst Hs) as [Hn Hcs].
    rewrite append_cstr_step by done. cbn [mbind option_bind]. by rewrite Hcs.
  - destruct (rd =? 0); [done|]. repeat probe_step. done.
  - destruct (Z.eqb_spec path 0) as [|Hp]; [done|].
    destruct (path_copy_reads (mem e) path Hm Hp) as [-> Hn]. repeat probe_step. by rewrite Hn.
  - destruct (Z.eqb_spec path 0) as [|Hp]; [done|].
    destruct (path_copy_reads (mem e) path Hm Hp) as [-> Hn]. repeat probe_step. by rewrite Hn.
  - probe_step.
    destruct (link_old_name_spec (mem e) (stack e) old_dentry Hm Hst) as (buf & Hr & Hn & Hcs).
    rewrite Hr. cbn [mbind option_bind]. repeat probe_step.
    rewrite append_cstr_step by done. cbn [mbind option_bind]. by rewrite Hcs.
  - destruct Hc as [Ho Hle]. repeat probe_step. done.
  - destruct (file =? 0); [done|]. repeat probe_step. done.
Qed.
End Spec.
