(* ===== verification/IosnoopTrace.v ===== *)
(** * iosnoop: executions of the kernel program

    An execution is a sequence of labels, the entries and returns of hooked
    kernel functions on any number of threads, in the order in which their
    probes run.  The theorems: no execution faults; the reachable states keep
    an invariant; an entry and its return, whatever happens in between on
    other threads or under other event codes, give exactly one event with the
    data of both; and the device of a mapping is found again when it is
    unmapped. *)

From S2P Require Import Prelude Bpf BpfModel Hooks IosnoopFmt IosnoopBpf IosnoopProbes IosnoopSpec.

Section Trace.
Context {RT : BpfRuntime}.

Abbreviation env := (kenv iosnoop_event).

(** ** Return probes *)

(** The programs that run when [c] returns [ret].  In the kprobe family two
    return programs are attached to [vfs_rename]. *)
Definition exit_probe (use_fentry : bool) (c : kcall) (e : env) (ret : Z) (s : st)
  : option st :=
  match c with
  | VfsOpen p f =>
      if use_fentry then trace_vfs_open_exit e p f ret s
      else trace_vfs_open_kretprobe_fallback e ret s
  | VfsRead f b n p =>
      if use_fentry then trace_vfs_read_exit e f b n p ret s
      else trace_vfs_read_kretprobe_fallback e ret s
  | VfsWrite f b n p =>
      if use_fentry then trace_vfs_write_exit e f b n p ret s
      else trace_vfs_write_kretprobe_fallback e ret s
  | VfsCreate i dir d m x =>
      if use_fentry then trace_vfs_create_exit e i dir d m x ret s
      else trace_vfs_create_kretprobe_fallback e ret s
  | VfsCreate4 _ _ _ _ => trace_vfs_create_kretprobe_fallback e ret s
  | VfsMkdir i dir d m =>
      if use_fentry then trace_vfs_mkdir_exit e i dir d m ret s
      else trace_vfs_mkdir_kretprobe_fallback e ret s
  | VfsRmdir i dir d =>
      if use_fentry then trace_vfs_rmdir_exit e i dir d ret s
      else trace_vfs_rmdir_kretprobe_fallback e ret s
  | VfsSymlink i dir d o =>
      if use_fentry then trace_vfs_symlink_exit e i dir d o ret s
      else trace_vfs_symlink_kretprobe_fallback e ret s
  | VfsRename rd =>
      if use_fentry then trace_vfs_rename_exit e rd ret s
      else
        s ← trace_vfs_rename_kretprobe_fallback e ret s;
        trace_vfs_rename_legacy_kretprobe_fallback e ret s
  | VfsRename6 _ _ _ _ =>
      s ← trace_vfs_rename_kretprobe_fallback e ret s;
      trace_vfs_rename_legacy_kretprobe_fallback e ret s
  | VfsGetattr p t m q =>
      if use_fentry then trace_vfs_getattr_exit e p t m q ret s
      else trace_vfs_getattr_kretprobe_fallback e ret s
  | VfsTruncate p l =>
      if use_fentry then trace_vfs_truncate_exit e p l ret s
      else trace_vfs_truncate_kretprobe_fallback e ret s
  | VfsFchmod f m =>
      if use_fentry then trace_vfs_fchmod_exit e f m ret s
      else trace_vfs_fchmod_kretprobe_fallback e ret s
  | VfsReadlink d b l =>
      if use_fentry then trace_vfs_readlink_exit e d b l ret s
      else trace_vfs_readlink_kretprobe_fallback e ret s
  | VfsReadv f v n p fl =>
      if use_fentry then trace_vfs_readv_exit e f v n p fl ret s
      else trace_vfs_readv_kretprobe_fallback e ret s
  | VfsWritev f v n p fl =>
      if use_fentry then trace_vfs_writev_exit e f v n p fl ret s
      else trace_vfs_writev_kretprobe_fallback e ret s
  | VfsUnlink _ _ _ _ => trace_vfs_unlink_krp e ret s
  | VfsLink _ _ _ _ _ => trace_vfs_link_krp e ret s
  | VfsFallocate _ _ _ _ => trace_vfs_fallocate_krp e ret s
  | IterateDir f x =>
      if use_fentry then trace_iterate_dir_exit e f x ret s
      else trace_iterate_dir_kretprobe_fallback e ret s
  | DoMmap _ _ _ _ _ => trace_do_mmap_krp e ret s
  | VmMunmap _ _ => trace_vm_munmap_krp e ret s
  | VfsLockFile f c fl x =>
      if use_fentry then trace_vfs_lock_file_exit e f c fl x ret s
      else trace_vfs_lock_file_kretprobe_fallback e ret s
  end.

(** The [ret] field of the event: the return value cut to 32 bits, and 0 for
    the address that a successful [do_mmap] returns. *)
Definition exit_value (c : kcall) (ret : Z) : Z :=
  match c with
  | DoMmap _ _ _ _ _ => if 0 <? s64 ret then 0 else s32 (s64 ret)
  | _ => s32 ret
  end.

(** A successful [do_mmap] remembers the device of the mapping. *)
Definition pre_exit (e : env) (c : kcall) (ret : Z) (s : st) : st :=
  match c with
  | DoMmap _ _ _ _ _ =>
      match bpf_map_lookup_elem (op_state s) (OpKey (pid_tgid e) IO_MMAP) with
      | Some op =>
          if 0 <? s64 ret then
            set_vma_dev_map s
              (update_elem (vma_dev_map s) (vma_key (pid_tgid e) ret) (op_dev op) BPF_ANY)
          else s
      | None => s
      end
  | _ => s
  end.

Definition spec_exit (e : env) (c : kcall) (ret : Z) (s : st) : st :=
  finish_event e (pid_tgid e) (call_type c) (exit_value c ret) (pre_exit e c ret s).

(** ** Executions *)

Inductive label :=
| Enter (e : env) (c : kcall)
| Leave (e : env) (c : kcall) (ret : Z).

Definition label_ok (l : label) : Prop :=
  match l with
  | Enter e c => env_ok e /\ call_ok c
  | Leave e c ret => env_ok e /\ ret_ok c ret
  end.

(** The thread and event code that a label is about. *)
Definition label_key (l : label) : op_key :=
  match l with
  | Enter e c | Leave e c _ => OpKey (pid_tgid e) (call_type c)
  end.

Definition step (b : bool) (s : st) (l : label) : option st :=
  match l with
  | Enter e c => entry_probe b c e s
  | Leave e c ret => exit_probe b c e ret s
  end.

Fixpoint exec (b : bool) (ls : list label) (s : st) : option st :=
  match ls with
  | [] => Some s
  | l :: ls => s ← step b s l; exec b ls s
  end.

(** The same on the specification. *)
Definition spec_step (s : st) (l : label) : st :=
  match l with
  | Enter e c => spec_entry e c s
  | Leave e c ret => spec_exit e c ret s
  end.

Definition spec_exec (ls : list label) (s : st) : st := fold_left spec_step ls s.

(** ** Core operations *)

Context {RL : BpfRuntimeLaws RT}.

Lemma emit_event_fields (e : env) op ret s :
  op_state (emit_event e op ret s) = op_state s /\
  cfg_map (emit_event e op ret s) = cfg_map s /\
  vma_dev_map (emit_event e op ret s) = vma_dev_map s.
Proof. unfold emit_event. by destruct (reserve e 0). Qed.

Lemma finish_event_none (e : env) id ty ret s :
  bpf_map_lookup_elem (op_state s) (OpKey id ty) = None -> finish_event e id ty ret s = s.
Proof. unfold finish_event. by intros ->. Qed.

Lemma finish_event_lookup (e : env) id ty ret s k :
  bpf_map_lookup_elem (op_state (finish_event e id ty ret s)) k =
  if decide (OpKey id ty = k) then None else bpf_map_lookup_elem (op_state s) k.
Proof.
  unfold finish_event. destruct (bpf_map_lookup_elem (op_state s) (OpKey id ty)) eqn:Hl.
  - simpl. destruct (emit_event_fields e o ret s) as [-> _]. apply lookup_delete_elem.
  - case_decide; [by subst|done].
Qed.

(** Running the return program a second time finds nothing to do. *)
Lemma finish_event_twice (e e' : env) id ty ret ret' s :
  finish_event e' id ty ret' (finish_event e id ty ret s) = finish_event e id ty ret s.
Proof.
  apply finish_event_none. rewrite finish_event_lookup. by rewrite decide_True.
Qed.

Lemma finish_event_cfg (e : env) id ty ret s :
  cfg_map (finish_event e id ty ret s) = cfg_map s.
Proof.
  unfold finish_event. destruct (bpf_map_lookup_elem _ _); [|done].
  simpl. by destruct (emit_event_fields e o ret s) as (_ & -> & _).
Qed.

Lemma pass_filter_cfg s s' dev :
  cfg_map s' = cfg_map s -> pass_mount_filter s' dev = pass_mount_filter s dev.
Proof. intros H. unfold pass_mount_filter. by rewrite H. Qed.

Lemma submit_or_drop_cfg id op s : cfg_map (submit_or_drop id op s) = cfg_map s.
Proof. unfold submit_or_drop. by destruct (pass_mount_filter s (op_dev op)). Qed.

Lemma submit_or_drop_events id op s : events (submit_or_drop id op s) = events s.
Proof. unfold submit_or_drop. by destruct (pass_mount_filter s (op_dev op)). Qed.

Lemma pre_entry_fields e c s :
  cfg_map (pre_entry e c s) = cfg_map s /\ op_state (pre_entry e c s) = op_state s /\
  events (pre_entry e c s) = events s.
Proof. by destruct c. Qed.

Lemma pre_exit_fields e c ret s :
  cfg_map (pre_exit e c ret s) = cfg_map s /\ op_state (pre_exit e c ret s) = op_state s /\
  events (pre_exit e c ret s) = events s.
Proof.
  destruct c; try done. simpl. destruct (bpf_map_lookup_elem _ _); [|done].
  by destruct (0 <? s64 ret).
Qed.

Lemma describe_type m vma id c d : describe m vma id c = Some d -> d_type d = call_type c.
Proof.
  destruct c; simpl; try (by intros [= <-]);
    match goal with |- context [if ?b then None else _] => destruct b end;
    try done; by intros [= <-].
Qed.

(** ** Return probes refine [spec_exit] *)

Lemma exit_probe_refines b c e ret s :
  ret_ok c ret -> exit_probe b c e ret s = Some (spec_exit e c ret s).
Proof.
  intros Hr. unfold spec_exit.
  assert (fits_s 32 ret -> s32 ret = ret) as H32 by (apply wraps_small; lia).
  destruct c; cbn [exit_probe exit_value call_type pre_exit ret_ok] in *;
    try (destruct b; cbn [mbind option_bind];
         unfold trace_vfs_rename_kretprobe_fallback,
           trace_vfs_rename_legacy_kretprobe_fallback, kretprobe_fallback;
         cbn [mbind option_bind]; rewrite ?finish_event_twice;
         try reflexivity; unfold trace_vfs_open_exit, trace_vfs_create_exit,
           trace_vfs_mkdir_exit, trace_vfs_rmdir_exit, trace_vfs_symlink_exit,
           trace_vfs_rename_exit, trace_vfs_getattr_exit, trace_vfs_truncate_exit,
           trace_vfs_fchmod_exit, trace_vfs_readlink_exit, trace_iterate_dir_exit,
           trace_vfs_lock_file_exit;
         by rewrite H32).
Qed.

Lemma step_refines b s l : label_ok l -> step b s l = Some (spec_step s l).
Proof.
  destruct l as [e c|e c ret]; intros [He Hc]; simpl.
  - by apply entry_probe_refines.
  - by apply exit_probe_refines.
Qed.

Lemma exec_spec b ls s : Forall label_ok ls -> exec b ls s = Some (spec_exec ls s).
Proof.
  intros Hls. revert s. induction Hls as [|l ls Hl Hls IH]; intros s; [done|].
  cbn [exec]. rewrite step_refines by done. cbn [mbind option_bind]. apply IH.
Qed.

(** C13. Memory safety and refinement of every execution: whatever the order
    of entries and returns, the threads and the arguments, no probe of iosnoop
    makes a wild access, the state is the one the specification computes, and
    the kprobe fallbacks give the same state as the fentry programs. *)
Theorem exec_refines b ls s :
  Forall label_ok ls ->
  exec b ls s = Some (spec_exec ls s) /\ exec (negb b) ls s = exec b ls s.
Proof. intros Hls. by rewrite !exec_spec. Qed.

(** ** The effect of a step on the recorded operations *)

(** [Enter] changes no element but the one of its label. *)
Lemma spec_entry_lookup e c s k op :
  bpf_map_lookup_elem (op_state (spec_entry e c s)) k = Some op ->
  bpf_map_lookup_elem (op_state s) k = Some op \/
  exists d, describe (mem e) (bpf_map_lookup_elem (vma_dev_map s)) (pid_tgid e) c = Some d /\
    k = OpKey (pid_tgid e) (call_type c) /\ op = op_of d /\
    pass_mount_filter s (d_dev d) = true.
Proof.
  unfold spec_entry. destruct (describe _ _ _ c) as [d|] eqn:Hd; [|by left].
  destruct (pre_entry_fields e c s) as (Hcfg & Hop & _). unfold submit_or_drop.
  rewrite (pass_filter_cfg _ _ _ Hcfg).
  destruct (pass_mount_filter s (op_dev (op_of d))) eqn:Hp; simpl; rewrite Hop; [|by left].
  intros [[-> ->]|]%lookup_update_inv; [|by left]. right. exists d.
  apply describe_type in Hd as Ht. rewrite Ht. auto.
Qed.

Lemma spec_entry_other e c s k :
  k <> OpKey (pid_tgid e) (call_type c) ->
  bpf_map_lookup_elem (op_state (spec_entry e c s)) k = bpf_map_lookup_elem (op_state s) k.
Proof.
  intros Hk. unfold spec_entry. destruct (describe _ _ _ c) as [d|] eqn:Hd; [|done].
  destruct (pre_entry_fields e c s) as (_ & Hop & _). unfold submit_or_drop.
  destruct (pass_mount_filter _ _); simpl; [|by rewrite Hop].
  rewrite lookup_update_ne by (apply describe_type in Hd as ->; congruence). by rewrite Hop.
Qed.

Lemma spec_exit_lookup e c ret s k :
  bpf_map_lookup_elem (op_state (spec_exit e c ret s)) k =
  if decide (OpKey (pid_tgid e) (call_type c) = k) then None
  else bpf_map_lookup_elem (op_state s) k.
Proof.
  unfold spec_exit. rewrite finish_event_lookup.
  by destruct (pre_exit_fields e c ret s) as (_ & -> & _).
Qed.

Lemma spec_step_other s l k :
  k <> label_key l ->
  bpf_map_lookup_elem (op_state (spec_step s l)) k = bpf_map_lookup_elem (op_state s) k.
Proof.
  destruct l; simpl; intros Hk; [by apply spec_entry_other|].
  rewrite spec_exit_lookup. by rewrite decide_False by congruence.
Qed.

Lemma spec_exec_cons l ls s : spec_exec (l :: ls) s = spec_exec ls (spec_step s l).
Proof. done. Qed.

Lemma spec_exec_snoc ls l s : spec_exec (ls ++ [l]) s = spec_step (spec_exec ls s) l.
Proof. apply fold_left_app. Qed.

Lemma spec_exec_other ls s k :
  Forall (fun l => label_key l <> k) ls ->
  bpf_map_lookup_elem (op_state (spec_exec ls s)) k = bpf_map_lookup_elem (op_state s) k.
Proof.
  intros Hls. revert s. induction Hls as [|l ls Hl Hls IH]; intros s; [done|].
  rewrite spec_exec_cons, IH. by apply spec_step_other.
Qed.

(** ** Entry and return *)

(** The event that the return at [e] emits for the operation [op]. *)
Definition event_of (e : env) (slot : iosnoop_event) (op : op_ctx) (ret : Z)
  : iosnoop_event :=
  IosnoopEvent (ktime e 0) (u32 (Z.shiftr (pid_tgid e) 32))
    (u32 (Z.land (uid_gid e) 0xffffffff)) (u32 (Z.shiftr (uid_gid e) 32))
    (op_type op) (ev_pad1 slot) (ev_pad2 slot) ret (ev_pad3 slot)
    (comm e) (copy_into_256 (op_fname op)) (copy_into_256 (op_args op)).

Lemma spec_exit_events e c ret s :
  events (spec_exit e c ret s) =
  events s ++
  match bpf_map_lookup_elem (op_state s) (OpKey (pid_tgid e) (call_type c)), reserve e 0 with
  | Some op, Some slot => [event_of e slot op (exit_value c ret)]
  | _, _ => []
  end.
Proof.
  unfold spec_exit, finish_event.
  destruct (pre_exit_fields e c ret s) as (_ & -> & Hev).
  destruct (bpf_map_lookup_elem _ _) as [op|]; [|by rewrite Hev, app_nil_r].
  unfold emit_event. destruct (reserve e 0) as [slot|]; simpl; rewrite Hev; [done|].
  by rewrite app_nil_r.
Qed.

Lemma spec_entry_events e c s : events (spec_entry e c s) = events s.
Proof.
  unfold spec_entry. destruct (describe _ _ _ c); [|done].
  rewrite submit_or_drop_events. apply pre_entry_fields.
Qed.

(** An entry that passes the filter and finds room is recorded. *)
Lemma spec_entry_records e c d s :
  describe (mem e) (bpf_map_lookup_elem (vma_dev_map s)) (pid_tgid e) c = Some d ->
  pass_mount_filter s (d_dev d) = true ->
  has_room (op_state s) (OpKey (pid_tgid e) (call_type c)) ->
  bpf_map_lookup_elem (op_state (spec_entry e c s)) (OpKey (pid_tgid e) (call_type c)) =
  Some (op_of d).
Proof.
  intros Hd Hp Hroom. unfold spec_entry. rewrite Hd. unfold submit_or_drop.
  destruct (pre_entry_fields e c s) as (Hcfg & Hop & _).
  rewrite (pass_filter_cfg _ _ _ Hcfg). cbn [op_of op_dev op_type]. rewrite Hp. simpl.
  rewrite Hop, (describe_type _ _ _ _ _ Hd). by apply lookup_update_any.
Qed.

(** C17. What an entry records: every entry program, of either family, runs
    without a fault; when the mount filter passes the device of the call and
    the map has room, the record under the thread and event code holds the
    event code, the device, the name and the argument text of the call, each
    in a NUL-terminated buffer of its size, the argument text cut to 127
    bytes. *)
Theorem entry_probe_records b c e d s :
  env_ok e -> call_ok c ->
  describe (mem e) (bpf_map_lookup_elem (vma_dev_map s)) (pid_tgid e) c = Some d ->
  pass_mount_filter s (d_dev d) = true ->
  has_room (op_state s) (OpKey (pid_tgid e) (call_type c)) ->
  exists s' op,
    entry_probe b c e s = Some s' /\ events s' = events s /\
    bpf_map_lookup_elem (op_state s') (OpKey (pid_tgid e) (call_type c)) = Some op /\
    op_type op = call_type c /\ op_dev op = d_dev d /\
    length (op_fname op) = 96%nat /\ cstr (op_fname op) = d_name d /\
    length (op_args op) = 128%nat /\ cstr (op_args op) = take 127 (d_args d).
Proof.
  intros He Hc Hd Hp Hroom. exists (spec_entry e c s), (op_of d).
  destruct (describe_ok _ _ _ _ _ (mem_ok e He) Hc Hd) as (Hn & Hl & Ha).
  split_and!; [by apply entry_probe_refines|by apply spec_entry_events| | |done|
    by apply op_of_texts..].
  - by apply spec_entry_records.
  - by eapply describe_type.
Qed.

(** What an entry does not record: a call that has no description, or
    whose device the mount filter rejects, changes neither the recorded
    operations nor the events. *)
Theorem entry_probe_skips b c e s :
  env_ok e -> call_ok c ->
  match describe (mem e) (bpf_map_lookup_elem (vma_dev_map s)) (pid_tgid e) c with
  | Some d => pass_mount_filter s (d_dev d) = false
  | None => True
  end ->
  exists s', entry_probe b c e s = Some s' /\
    op_state s' = op_state s /\ events s' = events s.
Proof.
  intros He Hc Hd. exists (spec_entry e c s). split; [by apply entry_probe_refines|].
  split; [|by apply spec_entry_events]. unfold spec_entry.
  destruct (describe _ _ _ _) as [d|]; [|done].
  destruct (pre_entry_fields e c s) as (Hcfg & Hop & _). unfold submit_or_drop.
  rewrite (pass_filter_cfg _ _ _ Hcfg). cbn [op_of op_dev]. by rewrite Hd.
Qed.

(** C9. Pairing under interleaving: if a call enters, passes the mount filter
    and finds room in the map, then after any labels of other threads or
    event codes its return emits, as the last event of the ring, one event
    that has the recorded file name and arguments, the return value and the
    identity of the returning thread, and the operation is forgotten. *)
Theorem enter_leave_event b e c d e' c' ret slot ls s :
  Forall label_ok (Enter e c :: ls ++ [Leave e' c' ret]) ->
  pid_tgid e' = pid_tgid e -> call_type c' = call_type c ->
  describe (mem e) (bpf_map_lookup_elem (vma_dev_map s)) (pid_tgid e) c = Some d ->
  pass_mount_filter s (d_dev d) = true ->
  has_room (op_state s) (OpKey (pid_tgid e) (call_type c)) ->
  Forall (fun l => label_key l <> OpKey (pid_tgid e) (call_type c)) ls ->
  reserve e' 0 = Some slot ->
  exists s1 s2,
    exec b (Enter e c :: ls) s = Some s1 /\
    exec b (Enter e c :: ls ++ [Leave e' c' ret]) s = Some s2 /\
    events s2 = events s1 ++ [event_of e' slot (op_of d) (exit_value c' ret)] /\
    bpf_map_lookup_elem (op_state s2) (OpKey (pid_tgid e) (call_type c)) = None.
Proof.
  intros Hok Hid Hty Hd Hp Hroom Hls Hslot.
  assert (Forall label_ok (Enter e c :: ls)) as Hok1.
  { inversion Hok as [|? ? H1 H2]; subst. apply Forall_app in H2 as [H2 _]. by constructor. }
  exists (spec_exec (Enter e c :: ls) s),
    (spec_exec (Enter e c :: ls ++ [Leave e' c' ret]) s).
  split_and!; [by apply exec_spec..| |].
  - rewrite app_comm_cons, spec_exec_snoc. cbn [spec_step].
    rewrite spec_exit_events, Hslot, Hid, Hty, spec_exec_cons, spec_exec_other by done.
    cbn [spec_step]. by rewrite (spec_entry_records e c d).
  - rewrite app_comm_cons, spec_exec_snoc. cbn [spec_step].
    rewrite spec_exit_lookup, Hid, Hty. by rewrite decide_True.
Qed.

(** Returns emit nothing on their own: a return whose thread has no
    recorded operation under its event code (its entry was filtered out, was
    skipped, or did not fit) leaves the events and the recorded operations as
    they are. *)
Theorem leave_unmatched b e c ret s :
  ret_ok c ret ->
  bpf_map_lookup_elem (op_state s) (OpKey (pid_tgid e) (call_type c)) = None ->
  exec b [Leave e c ret] s = Some s.
Proof.
  intros Hr Hn. cbn [exec step]. rewrite exit_probe_refines by done.
  cbn [mbind option_bind]. unfold spec_exit.
  assert (pre_exit e c ret s = s) as ->.
  { destruct c; try done. simpl in *. by rewrite Hn. }
  by rewrite finish_event_none.
Qed.

(** ** Invariant of the reachable states *)

(** What the program loads with: the configuration of the loader and empty
    maps of 4096 entries. *)
Definition boot (cfg : hmap Z mount_filter_cfg) : st :=
  St [] cfg (map_create 4096) (map_create 4096).

Inductive reachable (b : bool) (cfg : hmap Z mount_filter_cfg) : st -> Prop :=
| reach_boot : reachable b cfg (boot cfg)
| reach_step s l s' :
    reachable b cfg s -> label_ok l -> step b s l = Some s' -> reachable b cfg s'.

Definition buffer_ok (n : nat) (buf : list Z) : Prop := length buf = n /\ nul_terminated buf.

(** A recorded operation: its type is the one it is filed under, its texts
    are terminated in their buffers, and the filter lets its device pass. *)
Definition op_wf (s : st) (k : op_key) (op : op_ctx) : Prop :=
  op_type op = ok_type k /\ buffer_ok 96 (op_fname op) /\ buffer_ok 128 (op_args op) /\
  pass_mount_filter s (op_dev op) = true.

(** An emitted record: every field fits its C type and every text is
    terminated in its buffer. *)
Definition event_wf (ev : iosnoop_event) : Prop :=
  fits_u 64 (ev_ts ev) /\ fits_u 32 (ev_pid ev) /\ fits_u 32 (ev_uid ev) /\
  fits_u 32 (ev_gid ev) /\ fits_u 8 (ev_type ev) /\ fits_s 32 (ev_ret ev) /\
  buffer_ok 16 (ev_comm ev) /\ buffer_ok 256 (ev_fname ev) /\ buffer_ok 256 (ev_args ev).

Record inv (cfg : hmap Z mount_filter_cfg) (s : st) : Prop := {
  inv_cfg : cfg_map s = cfg;
  inv_ops : forall k op, bpf_map_lookup_elem (op_state s) k = Some op -> op_wf s k op;
  inv_events : Forall event_wf (events s);
}.

Lemma op_of_wf s (e : env) c d :
  kmem_ok (mem e) -> call_ok c ->
  describe (mem e) (bpf_map_lookup_elem (vma_dev_map s)) (pid_tgid e) c = Some d ->
  pass_mount_filter s (d_dev d) = true ->
  op_wf s (OpKey (pid_tgid e) (call_type c)) (op_of d).
Proof.
  intros Hm Hc Hd Hp. destruct (describe_ok _ _ _ _ _ Hm Hc Hd) as (Hn & Hl & Ha).
  destruct (op_of_texts d Hn Hl Ha) as (H1 & _ & H3 & _).
  split_and!; [by eapply describe_type|split; [done|]|split; [done|]|done].
  - by apply nul_terminated_pad.
  - apply nul_terminated_pad. rewrite length_take. lia.
Qed.

Lemma spec_step_cfg s l : cfg_map (spec_step s l) = cfg_map s.
Proof.
  destruct l as [e c|e c ret]; simpl.
  - unfold spec_entry. destruct (describe _ _ _ c); [|done].
    rewrite submit_or_drop_cfg. apply pre_entry_fields.
  - unfold spec_exit. rewrite finish_event_cfg. apply pre_exit_fields.
Qed.

Lemma op_wf_cfg s s' k op : cfg_map s' = cfg_map s -> op_wf s k op -> op_wf s' k op.
Proof. unfold op_wf. intros Hc. by rewrite (pass_filter_cfg _ _ _ Hc). Qed.

Lemma copy_256_ok n buf :
  buffer_ok n buf -> (n <= 256)%nat -> buffer_ok 256 (copy_into_256 buf).
Proof.
  intros [Hl Hn] Hle. unfold copy_into_256. split.
  - rewrite length_app, length_drop, length_replicate. lia.
  - apply in_app_iff. by left.
Qed.

Lemma exit_value_s32 c ret : fits_s 32 (exit_value c ret).
Proof.
  assert (forall v, fits_s 32 (s32 v)) as Hs by (intros; apply wraps_range; lia).
  destruct c; simpl; try apply Hs. destruct (0 <? s64 ret); [unfold fits_s; lia|apply Hs].
Qed.

Lemma call_type_u8 c : fits_u 8 (call_type c).
Proof. destruct c; split; vm_compute; congruence. Qed.

Lemma event_of_wf (e : env) slot s k op ret :
  env_ok e -> op_wf s k op -> fits_u 8 (ok_type k) -> fits_s 32 ret ->
  event_wf (event_of e slot op ret).
Proof.
  intros He (Ht & Hf & Ha & _) Hk Hr. unfold event_wf, event_of. cbn -[fits_u fits_s].
  split_and!; try (apply wrapu_range; lia); try done.
  - by apply ktime_u64.
  - by rewrite Ht.
  - by apply comm_ok.
  - by apply (copy_256_ok 96); [|lia].
  - by apply (copy_256_ok 128); [|lia].
Qed.

Lemma inv_spec_step cfg s l : inv cfg s -> label_ok l -> inv cfg (spec_step s l).
Proof.
  intros [Hcfg Hops Hev] Hl. split.
  - by rewrite spec_step_cfg.
  - intros k op Hk. apply (op_wf_cfg s); [apply spec_step_cfg|].
    destruct l as [e c|e c ret], Hl as [He Hc]; simpl in Hk.
    + apply spec_entry_lookup in Hk as [Hk|(d & Hd & -> & -> & Hp)]; [by apply Hops|].
      apply op_of_wf; [by apply mem_ok|done..].
    + rewrite spec_exit_lookup in Hk. case_decide; [done|by apply Hops].
  - destruct l as [e c|e c ret], Hl as [He Hc]; simpl; [by rewrite spec_entry_events|].
    rewrite spec_exit_events. apply Forall_app. split; [done|].
    destruct (bpf_map_lookup_elem _ _) as [op|] eqn:Hk; [|constructor].
    destruct (reserve e 0) as [slot|]; [|constructor]. apply Forall_singleton.
    eapply event_of_wf; [done|by apply Hops|apply call_type_u8|apply exit_value_s32].
Qed.

(** C18. Invariant: in every state that iosnoop can reach, each recorded
    operation is filed under its own type with terminated texts and passes
    the mount filter, and each emitted record has every field within its C
    type and terminated texts. *)
Theorem reachable_inv b cfg s : reachable b cfg s -> inv cfg s.
Proof.
  induction 1 as [|s l s' Hs IH Hl Hst].
  - split; [done| |constructor]. intros k op. cbn. by rewrite lookup_create.
  - rewrite step_refines in Hst by done. injection Hst as <-. by apply inv_spec_step.
Qed.

Lemma reachable_exec b cfg s ls s' :
  reachable b cfg s -> Forall label_ok ls -> exec b ls s = Some s' -> reachable b cfg s'.
Proof.
  intros Hs Hls. revert s Hs. induction Hls as [|l ls Hl Hls IH]; intros s Hs; cbn [exec].
  - by intros [= <-].
  - destruct (step b s l) as [s1|] eqn:Hst; [|done]. cbn [mbind option_bind].
    apply IH. by eapply reach_step.
Qed.

(** ** Counting *)

Definition is_enter (l : label) : bool := match l with Enter _ _ => true | _ => false end.

Definition in_flight (s : st) : nat := size (map_view (op_state s)).

Lemma update_size {K V} `{Countable K} (m : hmap K V) k v fl :
  (size (map_view (update_elem m k v fl)) <= S (size (map_view m)))%nat.
Proof.
  destruct (update_elem_view m k v fl) as [-> | ->]; [|lia].
  destruct (map_view m !! k) eqn:Hk.
  - rewrite map_size_insert_Some; [lia|done].
  - by rewrite map_size_insert_None.
Qed.

Lemma spec_step_count s l :
  (length (events (spec_step s l)) + in_flight (spec_step s l) <=
   length (events s) + in_flight s + if is_enter l then 1 else 0)%nat.
Proof.
  destruct l as [e c|e c ret]; simpl.
  - rewrite spec_entry_events. unfold in_flight, spec_entry.
    destruct (describe _ _ _ c) as [d|]; [|lia].
    destruct (pre_entry_fields e c s) as (_ & Hop & _). unfold submit_or_drop.
    destruct (pass_mount_filter _ _); simpl; rewrite Hop; [|lia].
    pose proof (update_size (op_state s) (OpKey (pid_tgid e) (d_type d)) (op_of d) BPF_ANY).
    simpl in *. lia.
  - rewrite spec_exit_events, length_app. unfold in_flight, spec_exit, finish_event.
    destruct (pre_exit_fields e c ret s) as (_ & Hop & _). rewrite Hop.
    destruct (bpf_map_lookup_elem _ _) as [op|] eqn:Hk; simpl; [|rewrite Hop; lia].
    destruct (emit_event_fields e op (exit_value c ret) (pre_exit e c ret s)) as (-> & _).
    rewrite Hop. unfold delete_elem. rewrite delete_view.
    rewrite lookup_view in Hk. rewrite map_size_delete_Some by eauto.
    assert (size (map_view (op_state s)) <> 0%nat).
    { apply map_size_non_empty_iff. intros He. by rewrite He, lookup_empty in Hk. }
    destruct (reserve e 0); simpl; lia.
Qed.

(** No invented events: along any execution the emitted records and the
    operations still in flight are together no more than the entries seen;
    so a call gives at most one event. *)
Theorem events_bounded b cfg ls s :
  Forall label_ok ls -> exec b ls (boot cfg) = Some s ->
  (length (events s) + in_flight s <= length (List.filter is_enter ls))%nat.
Proof.
  intros Hls. rewrite exec_spec by done. intros [= <-].
  assert (forall s, length (events (spec_exec ls s)) + in_flight (spec_exec ls s) <=
    length (events s) + in_flight s + length (List.filter is_enter ls))%nat as Hgen.
  { clear Hls. induction ls as [|l ls IH]; intros s; [simpl; lia|].
    rewrite spec_exec_cons. specialize (IH (spec_step s l)).
    pose proof (spec_step_count s l). simpl. destruct (is_enter l); simpl in *; lia. }
  specialize (Hgen (boot cfg)). unfold in_flight in Hgen at 2. simpl in Hgen.
  rewrite view_create, map_size_empty in Hgen. lia.
Qed.
End Trace.
