(* ===== verification/IosnoopFilter.v ===== *)
(** * iosnoop: the mount filter and the devices of mappings

    What [pass_mount_filter] accepts, as device numbers; what
    [configured_mount_dev] gives the syscall probes; when two mappings share
    an element of [vma_dev_map]; and the device that an unmapping records. *)

From S2P Require Import Prelude Bpf Hooks IosnoopFmt IosnoopBpf IosnoopProbes IosnoopSpec IosnoopTrace.

(** The kernel's own ranges: 12 bits of major, 20 bits of minor. *)
Definition cfg_ok (c : mount_filter_cfg) : Prop :=
  fits_u 12 (dev_major c) /\ fits_u 20 (dev_minor c).

(** The comparison of the filter, as device numbers. *)
Lemma cfg_match c dev :
  cfg_ok c ->
  (dev_major c =? Z.shiftr dev 20) && (dev_minor c =? Z.land dev (Z.shiftl 1 20 - 1)) = true <->
  dev = mkdev (dev_major c) (dev_minor c).
Proof.
  intros [_ Hmin]. rewrite <- mkdev_eq by done. destruct (dev_split dev) as [-> ->].
  by rewrite andb_true_iff, !Z.eqb_eq.
Qed.

Section Filter.
Context {RT : BpfRuntime}.

(** The mount filter lets a device pass exactly when no filter is
    configured or enabled, the device is unknown (0), or it is the configured
    major and minor. *)
Theorem pass_mount_filter_spec s dev :
  (forall c, bpf_map_lookup_elem (cfg_map s) 0 = Some c -> cfg_ok c) ->
  pass_mount_filter s dev = true <->
  match bpf_map_lookup_elem (cfg_map s) 0 with
  | None => True
  | Some c => enabled c = 0 \/ dev = 0 \/ dev = mkdev (dev_major c) (dev_minor c)
  end.
Proof.
  intros Hok. unfold pass_mount_filter.
  destruct (bpf_map_lookup_elem (cfg_map s) 0) as [c|]; [|done].
  destruct (Z.eqb_spec (enabled c) 0); [naive_solver|].
  destruct (Z.eqb_spec dev 0); [naive_solver|].
  rewrite cfg_match by auto. naive_solver.
Qed.

(** The device that the syscall probes attach to their events always
    passes the filter: their events are reported whatever mount the filter
    names, and the file they are about is not looked at. *)
Theorem submit_syscall_event_unfiltered (e : kenv iosnoop_event) type path slot s :
  (forall c, bpf_map_lookup_elem (cfg_map s) 0 = Some c -> cfg_ok c) ->
  reserve e 0 = Some slot ->
  exists ev, events (submit_syscall_event e type path s) = events s ++ [ev] /\
    ev_type ev = type /\ ev_ret ev = 0.
Proof.
  intros Hok Hslot. unfold submit_syscall_event.
  assert (pass_mount_filter s (configured_mount_dev s) = true) as ->.
  { unfold pass_mount_filter, configured_mount_dev.
    destruct (bpf_map_lookup_elem (cfg_map s) 0) as [c|]; [|done].
    destruct (enabled c =? 0); [done|]. case_match; [done|].
    apply cfg_match; [by apply Hok|].
    destruct (Hok c eq_refl) as [Hmaj Hmin]. rewrite wrapu_small.
    - by rewrite lor_shiftl_add.
    - unfold fits_u in *. rewrite Z.shiftl_mul_pow2 by lia. lia. }
  cbn [negb]. unfold emit_event. rewrite Hslot. by eexists.
Qed.

(** ** The keys of [vma_dev_map] *)

(** The key, by halves: the process id in the upper one is mixed with the
    bits of the address from bit 44 up. *)
Lemma vma_key_halves id addr :
  fits_u 64 id -> fits_u 64 addr ->
  vma_key id addr =
  Z.lor (tgid_of id) (addr / 2 ^ 44) * 2 ^ 32 + (addr / 2 ^ 12) mod 2 ^ 32.
Proof.
  intros Hid Ha. unfold vma_key. pose proof (tgid_of_range id Hid) as Ht.
  fold (tgid_of id). rewrite (wrapu_small 32) by done.
  assert (fits_u 64 (Z.shiftl (tgid_of id) 32)) as Hs.
  { unfold fits_u in *. rewrite Z.shiftl_mul_pow2 by lia. lia. }
  rewrite wrapu_small by done. rewrite Z.shiftr_div_pow2 by lia.
  set (page := addr / 2 ^ 12).
  assert (page = Z.lor (Z.shiftl (addr / 2 ^ 44) 32) (page mod 2 ^ 32)) as Hp.
  { rewrite lor_shiftl_add; [|lia|apply Z.mod_pos_bound; lia].
    change (2 ^ 44) with (2 ^ 12 * 2 ^ 32). rewrite <- Z.div_div by lia. fold page.
    pose proof (Z.div_mod page (2 ^ 32)). lia. }
  rewrite Hp at 1. rewrite Z.lor_assoc, <- Z.shiftl_lor.
  apply lor_shiftl_add; [lia|apply Z.mod_pos_bound; lia].
Qed.

Lemma vma_key_eq id addr id' addr' :
  fits_u 64 id -> fits_u 64 addr -> fits_u 64 id' -> fits_u 64 addr' ->
  vma_key id addr = vma_key id' addr' <->
  Z.lor (tgid_of id) (addr / 2 ^ 44) = Z.lor (tgid_of id') (addr' / 2 ^ 44) /\
  (addr / 2 ^ 12) mod 2 ^ 32 = (addr' / 2 ^ 12) mod 2 ^ 32.
Proof.
  intros. rewrite !vma_key_halves by done.
  pose proof (Z.mod_pos_bound (addr / 2 ^ 12) (2 ^ 32)).
  pose proof (Z.mod_pos_bound (addr' / 2 ^ 12) (2 ^ 32)). lia.
Qed.

Lemma page_eq addr addr' :
  addr / 2 ^ 44 = addr' / 2 ^ 44 ->
  (addr / 2 ^ 12) mod 2 ^ 32 = (addr' / 2 ^ 12) mod 2 ^ 32 <->
  addr / 2 ^ 12 = addr' / 2 ^ 12.
Proof.
  change (2 ^ 44) with (2 ^ 12 * 2 ^ 32). rewrite <- !Z.div_div by lia. intros Hh.
  pose proof (Z.div_mod (addr / 2 ^ 12) (2 ^ 32)).
  pose proof (Z.div_mod (addr' / 2 ^ 12) (2 ^ 32)). split; [lia|]. by intros ->.
Qed.

(** Below 2^44 the keys of [vma_dev_map] tell apart processes and pages. *)
Theorem vma_key_low_inj id addr id' addr' :
  fits_u 64 id -> fits_u 64 id' -> fits_u 44 addr -> fits_u 44 addr' ->
  vma_key id addr = vma_key id' addr' <->
  tgid_of id = tgid_of id' /\ addr / 2 ^ 12 = addr' / 2 ^ 12.
Proof.
  unfold fits_u at 3 4. intros Hid Hid' Ha Ha'.
  assert (addr / 2 ^ 44 = 0 /\ addr' / 2 ^ 44 = 0) as [H H']
    by (split; apply Z.div_small; lia).
  rewrite vma_key_eq by (try done; unfold fits_u; lia).
  rewrite page_eq by lia. by rewrite H, H', !Z.lor_0_r.
Qed.

Lemma lor_ones_3 x : Z.lor x 7 = x / 8 * 8 + 7.
Proof.
  change 8 with (2 ^ 3). rewrite <- Z.shiftr_div_pow2, <- lor_shiftl_add by
    (try lia; unfold fits_u; lia).
  apply Z.bits_inj'. intros i Hi. rewrite !Z.lor_spec.
  destruct (Z.ltb_spec i 3).
  - assert (i = 0 \/ i = 1 \/ i = 2) as [-> | [-> | ->]] by lia; by rewrite !orb_true_r.
  - rewrite Z.shiftl_spec, Z.shiftr_spec by lia. do 2 f_equal. lia.
Qed.

(** In the top 16 terabytes of the user address space, where mmap places
    mappings, the keys do not tell apart the processes whose ids differ in
    the three low bits only: they share the elements of equal pages. *)
Theorem vma_key_high_shared id addr id' addr' :
  fits_u 64 id -> fits_u 64 id' ->
  0x700000000000 <= addr < 0x800000000000 -> 0x700000000000 <= addr' < 0x800000000000 ->
  vma_key id addr = vma_key id' addr' <->
  tgid_of id / 8 = tgid_of id' / 8 /\ addr / 2 ^ 12 = addr' / 2 ^ 12.
Proof.
  intros Hid Hid' Ha Ha'.
  assert (addr / 2 ^ 44 = 7 /\ addr' / 2 ^ 44 = 7) as [H H'].
  { split; symmetry; [apply Z.div_unique_pos with (addr - 7 * 2 ^ 44)
      |apply Z.div_unique_pos with (addr' - 7 * 2 ^ 44)]; lia. }
  rewrite vma_key_eq by (try done; unfold fits_u; lia).
  rewrite page_eq by lia. rewrite H, H', !lor_ones_3. lia.
Qed.

(** ** From mmap to munmap *)

Context {RL : BpfRuntimeLaws RT}.

(** The element of [vma_dev_map] that a label writes or deletes. *)
Definition vma_touch (l : label) : option Z :=
  match l with
  | Leave e (DoMmap _ _ _ _ _) ret => Some (vma_key (pid_tgid e) ret)
  | Enter e (VmMunmap start _) => Some (vma_key (pid_tgid e) start)
  | _ => None
  end.

Lemma submit_or_drop_vma id op s : vma_dev_map (submit_or_drop id op s) = vma_dev_map s.
Proof. unfold submit_or_drop. by destruct (pass_mount_filter s (op_dev op)). Qed.

Lemma vma_spec_entry e c s :
  vma_dev_map (spec_entry e c s) =
  match vma_touch (Enter e c) with
  | Some k => delete_elem (vma_dev_map s) k
  | None => vma_dev_map s
  end.
Proof.
  unfold spec_entry. destruct c;
    try (destruct (describe _ _ _ _); rewrite ?submit_or_drop_vma; reflexivity).
  cbn [describe]. by rewrite submit_or_drop_vma.
Qed.

Lemma vma_finish_event (e : kenv iosnoop_event) id ty ret s :
  vma_dev_map (finish_event e id ty ret s) = vma_dev_map s.
Proof.
  unfold finish_event. destruct (bpf_map_lookup_elem _ _); [|done]. simpl.
  apply emit_event_fields.
Qed.

Lemma vma_step_other s l k :
  vma_touch l <> Some k ->
  bpf_map_lookup_elem (vma_dev_map (spec_step s l)) k = bpf_map_lookup_elem (vma_dev_map s) k.
Proof.
  intros Hk. destruct l as [e c|e c ret]; cbn [spec_step].
  - rewrite vma_spec_entry. destruct (vma_touch (Enter e c)) as [k'|]; [|done].
    rewrite lookup_delete_elem. by rewrite decide_False by congruence.
  - unfold spec_exit. rewrite vma_finish_event. destruct c; try done. simpl.
    destruct (bpf_map_lookup_elem (op_state s) _); [|done]. destruct (0 <? s64 ret); [|done].
    cbn [set_vma_dev_map vma_dev_map]. apply lookup_update_ne.
    intros Heq. apply Hk. by rewrite <- Heq.
Qed.

Lemma vma_exec_other ls s k :
  Forall (fun l => vma_touch l <> Some k) ls ->
  bpf_map_lookup_elem (vma_dev_map (spec_exec ls s)) k = bpf_map_lookup_elem (vma_dev_map s) k.
Proof.
  intros Hls. revert s. induction Hls as [|l ls Hl Hls IH]; intros s; [done|].
  rewrite spec_exec_cons, IH. by apply vma_step_other.
Qed.

(** After a successful mapping and labels that leave its key alone, the key
    holds the device of the mapped file. *)
Lemma mmap_keeps_device e f a l p fl ret op ls s :
  bpf_map_lookup_elem (op_state s) (OpKey (pid_tgid e) IO_MMAP) = Some op ->
  0 < s64 ret ->
  has_room (vma_dev_map s) (vma_key (pid_tgid e) ret) ->
  Forall (fun l => vma_touch l <> Some (vma_key (pid_tgid e) ret)) ls ->
  bpf_map_lookup_elem (vma_dev_map (spec_exec (Leave e (DoMmap f a l p fl) ret :: ls) s))
    (vma_key (pid_tgid e) ret) = Some (op_dev op).
Proof.
  intros Hop Hret Hroom Hls. rewrite spec_exec_cons, vma_exec_other by done.
  cbn [spec_step]. unfold spec_exit. rewrite vma_finish_event. cbn [pre_exit]. rewrite Hop.
  rewrite (proj2 (Z.ltb_lt _ _)) by done. cbn [vma_dev_map set_vma_dev_map].
  by apply lookup_update_any.
Qed.

Lemma spec_exec_cfg ls s : cfg_map (spec_exec ls s) = cfg_map s.
Proof.
  revert s. induction ls as [|l ls IH]; intros s; [done|].
  by rewrite spec_exec_cons, IH, spec_step_cfg.
Qed.

(** What the program at [vm_munmap] does when the map has [dev] under its key. *)
Lemma munmap_entry (e : kenv iosnoop_event) start len dev s :
  bpf_map_lookup_elem (vma_dev_map s) (vma_key (pid_tgid e) start) = Some dev ->
  has_room (op_state s) (OpKey (pid_tgid e) IO_MUNMAP) ->
  let s' := spec_entry e (VmMunmap start len) s in
  bpf_map_lookup_elem (vma_dev_map s') (vma_key (pid_tgid e) start) = None /\
  if pass_mount_filter s dev
  then (exists op,
    bpf_map_lookup_elem (op_state s') (OpKey (pid_tgid e) IO_MUNMAP) = Some op /\
    op_type op = IO_MUNMAP /\ op_dev op = dev)
  else op_state s' = op_state s.
Proof.
  intros Hdev Hroom s'. split.
  { subst s'. rewrite vma_spec_entry. cbn [vma_touch]. rewrite lookup_delete_elem.
    by rewrite decide_True. }
  subst s'. unfold spec_entry. cbn [describe]. rewrite Hdev.
  change (default 0 (Some dev)) with dev. unfold submit_or_drop. cbn [op_of op_dev d_dev].
  rewrite (pass_filter_cfg s (pre_entry e (VmMunmap start len) s)) by done.
  destruct (pass_mount_filter s dev); [|reflexivity].
  eexists. split; [by apply lookup_update_any|done].
Qed.

(** C38. The device of a mapping survives to its unmapping: when a mapping of a
    file on device [op_dev op] succeeds, then after any labels that leave its
    key alone, the program at [vm_munmap] that runs for an unmapping at the
    same address (under the same key) records that device with the unmapping
    if the mount filter passes the device and records nothing if it does not,
    and in both cases forgets the mapping. *)
Theorem mmap_munmap_device b e f a l p fl ret op ls (e' : kenv iosnoop_event) start len s s' :
  Forall label_ok (Leave e (DoMmap f a l p fl) ret :: ls ++ [Enter e' (VmMunmap start len)]) ->
  bpf_map_lookup_elem (op_state s) (OpKey (pid_tgid e) IO_MMAP) = Some op ->
  0 < s64 ret ->
  has_room (vma_dev_map s) (vma_key (pid_tgid e) ret) ->
  Forall (fun l => vma_touch l <> Some (vma_key (pid_tgid e) ret)) ls ->
  vma_key (pid_tgid e') start = vma_key (pid_tgid e) ret ->
  exec b (Leave e (DoMmap f a l p fl) ret :: ls) s = Some s' ->
  has_room (op_state s') (OpKey (pid_tgid e') IO_MUNMAP) ->
  exists s'',
    exec b (Leave e (DoMmap f a l p fl) ret :: ls ++ [Enter e' (VmMunmap start len)]) s =
      Some s'' /\
    bpf_map_lookup_elem (vma_dev_map s'') (vma_key (pid_tgid e') start) = None /\
    if pass_mount_filter s (op_dev op)
    then (exists op',
      bpf_map_lookup_elem (op_state s'') (OpKey (pid_tgid e') IO_MUNMAP) = Some op' /\
      op_type op' = IO_MUNMAP /\ op_dev op' = op_dev op)
    else op_state s'' = op_state s'.
Proof.
  rewrite app_comm_cons. intros Hok Hop Hret Hroom Hls Hkey. rewrite exec_spec.
  2: by apply Forall_app in Hok as [Hok _].
  intros [= <-] Hroom'. rewrite exec_spec by done. eexists. split; [reflexivity|].
  rewrite spec_exec_snoc. cbn [spec_step].
  destruct (munmap_entry e' start len (op_dev op)
    (spec_exec (Leave e (DoMmap f a l p fl) ret :: ls) s)) as [Hnone Hrec].
  - rewrite Hkey. by apply mmap_keeps_device.
  - done.
  - split; [done|].
    by rewrite (pass_filter_cfg s _ _ (spec_exec_cfg _ s)) in Hrec.
Qed.
End Filter.
