(* ===== verification/IosnoopDemo.v ===== *)
(** * iosnoop: the theorems at concrete inputs

    A small machine: the runtime of BpfModel, one file [a.txt] on device 8:1,
    and a filter for that device.  Each lemma applies a theorem of IosnoopSpec,
    IosnoopTrace or IosnoopFilter there and evaluates what it gives. *)

From S2P Require Import Prelude Bpf BpfModel Hooks IosnoopFmt IosnoopBpf IosnoopProbes IosnoopSpec IosnoopTrace IosnoopFilter.

Definition slot0 : iosnoop_event := IosnoopEvent 0 0 0 0 0 0 0 0 0 [] [] [].

Definition demo_strings (a : Z) : option (list Z) :=
  if a =? 1101 then Some (bytes "a.txt") else None.

(** Process [pid], its thread of the same number, at time [t]. *)
Definition on (pid t : Z) : kenv iosnoop_event :=
  demo_env slot0 (Z.shiftl pid 32 + pid) t (demo_mem (mkdev 8 1) demo_strings).

Definition demo_cfg : hmap Z mount_filter_cfg :=
  update_elem (map_create 1) 0 (MountFilterCfg 1 8 1) BPF_ANY.

(** The file lives at address 100. *)
Definition read_a : kcall := VfsRead 100 0 5 0.
Definition write_a : kcall := VfsWrite 100 0 7 0.

Lemma on_ok pid t : env_ok (on pid t).
Proof. apply demo_env_ok, demo_mem_ok. Qed.

Lemma enter_ok pid t c : call_ok c -> label_ok (Enter (on pid t) c).
Proof. intros Hc. split; [apply on_ok|done]. Qed.

Lemma leave_ok pid t c ret : ret_ok c ret -> label_ok (Leave (on pid t) c ret).
Proof. intros Hc. split; [apply on_ok|done]. Qed.

Ltac labels :=
  repeat apply Forall_cons_2; try apply Forall_nil_2;
  try (apply enter_ok; vm_compute; intuition congruence);
  try (apply leave_ok; vm_compute; intuition congruence).

(** Two threads read and write [a.txt]; the write is still in flight. *)
Definition demo_run : list label :=
  [Enter (on 8 1) read_a; Enter (on 9 2) write_a; Leave (on 8 3) read_a 5].

(** The file names and arguments of the emitted records, as strings. *)
Definition shown (s : st) : list (Z * Z * list Z * list Z) :=
  map (fun ev => (ev_pid ev, ev_ret ev, cstr (ev_fname ev), cstr (ev_args ev))) (events s).

Lemma exec_refines_witness :
  shown <$> exec true demo_run (boot demo_cfg) =
    Some [(8, 5, bytes "a.txt", bytes "count=5 pos=-1")] /\
  exec false demo_run (boot demo_cfg) = exec true demo_run (boot demo_cfg).
Proof.
  destruct (exec_refines true demo_run (boot demo_cfg)) as [H1 H2]; [labels|].
  split; [rewrite H1; (vm_compute; reflexivity)|exact H2].
Defined.

Lemma entry_probe_records_witness :
  exists s' op,
    entry_probe true read_a (on 8 1) (boot demo_cfg) = Some s' /\
    cstr (op_fname op) = bytes "a.txt" /\ cstr (op_args op) = bytes "count=5 pos=-1" /\
    bpf_map_lookup_elem (op_state s') (OpKey (pid_tgid (on 8 1)) IO_READ) = Some op.
Proof.
  destruct (entry_probe_records true read_a (on 8 1)
    (OpDesc IO_READ (mkdev 8 1) (bytes "a.txt") (bytes "count=5 pos=-1")) (boot demo_cfg))
    as (s' & op & H1 & _ & H2 & _ & _ & _ & H3 & _ & H4);
    [apply on_ok|vm_compute; intuition congruence|(vm_compute; reflexivity)|(vm_compute; reflexivity)|right; vm_compute; lia|].
  exists s', op. split_and!; [exact H1|exact H3|exact H4|exact H2].
Defined.

(** A write to a device other than the configured one. *)
Definition other_cfg : hmap Z mount_filter_cfg :=
  update_elem (map_create 1) 0 (MountFilterCfg 1 8 2) BPF_ANY.

Lemma entry_probe_skips_witness :
  exists s', entry_probe false write_a (on 8 1) (boot other_cfg) = Some s' /\
    op_state s' = op_state (boot other_cfg) /\ events s' = [].
Proof.
  apply (entry_probe_skips false write_a (on 8 1) (boot other_cfg));
    [apply on_ok|vm_compute; intuition congruence|(vm_compute; reflexivity)].
Defined.

Lemma enter_leave_event_witness :
  exists s1 s2,
    exec true [Enter (on 8 1) read_a; Enter (on 9 2) write_a] (boot demo_cfg) = Some s1 /\
    exec true demo_run (boot demo_cfg) = Some s2 /\
    exists ev, events s2 = events s1 ++ [ev] /\ cstr (ev_fname ev) = bytes "a.txt" /\
      ev_ret ev = 5 /\ ev_ts ev = 3.
Proof.
  destruct (enter_leave_event true (on 8 1) read_a
    (OpDesc IO_READ (mkdev 8 1) (bytes "a.txt") (bytes "count=5 pos=-1"))
    (on 8 3) read_a 5 slot0 [Enter (on 9 2) write_a] (boot demo_cfg))
    as (s1 & s2 & H1 & H2 & H3 & _);
    [cbn [app]; labels|done|done|(vm_compute; reflexivity)|(vm_compute; reflexivity)|right; vm_compute; lia| |done|].
  { apply Forall_singleton. vm_compute. congruence. }
  exists s1, s2. split_and!; [exact H1|exact H2|].
  eexists. split; [exact H3|]. split_and!; vm_compute; reflexivity.
Defined.

Lemma leave_unmatched_witness :
  exec false [Leave (on 8 1) write_a 7] (boot demo_cfg) = Some (boot demo_cfg).
Proof.
  apply (leave_unmatched false (on 8 1) write_a 7 (boot demo_cfg));
    [vm_compute; intuition congruence|(vm_compute; reflexivity)].
Defined.

Lemma reachable_inv_witness :
  exists s, exec true demo_run (boot demo_cfg) = Some s /\ length (events s) = 1%nat /\
    inv demo_cfg s.
Proof.
  assert (Forall label_ok demo_run) as Hok by labels.
  exists (spec_exec demo_run (boot demo_cfg)).
  split; [by apply exec_spec|]. split; [(vm_compute; reflexivity)|].
  apply (reachable_inv true demo_cfg).
  apply (reachable_exec true demo_cfg (boot demo_cfg) demo_run); [constructor|done|].
  by apply exec_spec.
Defined.

Lemma events_bounded_witness :
  exists s, exec true demo_run (boot demo_cfg) = Some s /\
    (length (events s) + in_flight s <= 2)%nat.
Proof.
  assert (Forall label_ok demo_run) as Hok by labels.
  exists (spec_exec demo_run (boot demo_cfg)). split; [by apply exec_spec|].
  apply (events_bounded true demo_cfg demo_run); [done|by apply exec_spec].
Defined.

(** The one element of a configuration decides whether it is well formed. *)
Lemma cfg_ok_at (m : hmap Z mount_filter_cfg) c :
  bpf_map_lookup_elem m 0 = Some c -> cfg_ok c ->
  forall c', bpf_map_lookup_elem m 0 = Some c' -> cfg_ok c'.
Proof. intros Hc Hok c' Hc'. rewrite Hc in Hc'. by injection Hc' as <-. Qed.

Lemma demo_cfg_ok c : bpf_map_lookup_elem demo_cfg 0 = Some c -> cfg_ok c.
Proof.
  apply (cfg_ok_at demo_cfg (MountFilterCfg 1 8 1)); [vm_compute; reflexivity|].
  vm_compute. intuition congruence.
Qed.

Lemma pass_mount_filter_spec_witness :
  pass_mount_filter (boot demo_cfg) (mkdev 8 1) = true.
Proof.
  apply (pass_mount_filter_spec (boot demo_cfg) (mkdev 8 1)); [apply demo_cfg_ok|].
  vm_compute. auto.
Defined.

Lemma submit_syscall_event_unfiltered_witness :
  exists ev, events (submit_syscall_event (on 8 1) IO_OPEN 1101 (boot other_cfg)) = [ev] /\
    ev_type ev = IO_OPEN /\ ev_ret ev = 0.
Proof.
  apply (submit_syscall_event_unfiltered (on 8 1) IO_OPEN 1101 slot0 (boot other_cfg));
    [|done].
  apply (cfg_ok_at other_cfg (MountFilterCfg 1 8 2)); [vm_compute; reflexivity|].
  vm_compute. intuition congruence.
Defined.

Lemma vma_key_low_inj_witness :
  vma_key (pid_tgid (on 8 1)) 0x1000 <> vma_key (pid_tgid (on 9 1)) 0x1000.
Proof.
  intros H. apply (vma_key_low_inj (pid_tgid (on 8 1)) 0x1000 (pid_tgid (on 9 1)) 0x1000) in H;
    [|vm_compute; intuition congruence ..].
  destruct H as [H _]. vm_compute in H. congruence.
Defined.

(** The mappings of processes 8 and 9 at one address share an element. *)
Lemma vma_key_high_shared_witness :
  vma_key (pid_tgid (on 8 1)) 0x7f0000000000 = vma_key (pid_tgid (on 9 1)) 0x7f0000000000.
Proof.
  apply (vma_key_high_shared (pid_tgid (on 8 1)) 0x7f0000000000 (pid_tgid (on 9 1))
    0x7f0000000000); [vm_compute; intuition congruence ..|split; vm_compute; reflexivity].
Defined.

(** The unmapping is that of another process: it records the device of the
    mapping of process 8. *)
Definition map_a : kcall := DoMmap 100 0 4096 1 0.
Definition mapping_a : st := spec_exec [Enter (on 8 1) map_a] (boot demo_cfg).
Definition mapped_a : st := spec_exec [Leave (on 8 2) map_a 0x7f0000000000] mapping_a.

Lemma mmap_munmap_device_witness :
  exists s'', exec true ([Leave (on 8 2) map_a 0x7f0000000000] ++
      [Enter (on 9 3) (VmMunmap 0x7f0000000000 4096)]) mapping_a = Some s'' /\
    bpf_map_lookup_elem (vma_dev_map s'') (vma_key (pid_tgid (on 9 3)) 0x7f0000000000) = None /\
    exists op', bpf_map_lookup_elem (op_state s'') (OpKey (pid_tgid (on 9 3)) IO_MUNMAP) =
      Some op' /\ op_type op' = IO_MUNMAP /\ op_dev op' = mkdev 8 1.
Proof.
  assert (Forall label_ok [Leave (on 8 2) map_a 0x7f0000000000]) as Hok by labels.
  apply (mmap_munmap_device true (on 8 2) 100 0 4096 1 0 0x7f0000000000
    (op_of (OpDesc IO_MMAP (mkdev 8 1) (bytes "a.txt") (bytes "len=4096 prot=1")))
    [] (on 9 3) 0x7f0000000000 4096 mapping_a mapped_a);
    [labels|vm_compute; reflexivity|vm_compute; reflexivity|right; vm_compute; lia|
     constructor|vm_compute; reflexivity|by apply exec_spec|right; vm_compute; lia].
Defined.
