(* ===== verification/Interleave.v ===== *)
(** * Probes whose helper calls interleave

    The probes of different threads run at the same time, and only single calls
    of the kernel's helpers are atomic.  A client describes its probes as
    sequences of calls ([Probes]); here a configuration holds the probes in
    flight and a scheduler picks whose call is next ([act], [run]).  A probe
    commits with the call that changes what other probes read for good; the
    calls before that only touch what belongs to the probe, those after it only
    send events.  [run_linear]: if the probes keep to that ([ProbesLaws]), every
    execution in which no two probes are at the same shared cell at a time
    ([calm]) has the outcome of the probes one after the other, in the order in
    which they commit. *)

From S2P Require Import Prelude Bpf.

(** [S] the shared state, [P] the calls that a probe has left, [L] the firings
    of probes and [T] what at most one probe at a time works on, usually the
    thread.  [run] makes all the calls undisturbed, [step] is the whole probe,
    and [uses] the one shared cell that a firing works with. *)
Class Probes (S P L T : Type) := {
  start : L -> P;
  one : P -> S -> P * S;
  returned : P -> bool;
  committed : P -> bool;
  run_all : P -> S -> S;
  step : S -> L -> S;
  thread : L -> T;
  uses : L -> option Z;
}.

Section Interleave.
Context {S P L T : Type} `{Countable T} {PR : Probes S P L T}.

(** ** Configurations and schedules *)

(** The state, the probe that works on each [T] with its remaining calls, and
    the probes that committed, oldest first. *)
Record config := Config {
  machine : S;
  flying : gmap T (L * P);
  finished : list L;
}.

(** A probe starts, or the next call of one happens. *)
Inductive action := Begin (l : L) | Go (t : T).

(** What works on a [T] returns before the next that works on it starts; nothing
    else is refused. *)
Definition act (a : action) (c : config) : option config :=
  match a with
  | Begin l =>
      if decide (flying c !! thread l = None)
      then Some (Config (machine c) (<[thread l := (l, start l)]> (flying c)) (finished c))
      else None
  | Go t =>
      '(l, p) ← flying c !! t;
      let '(p', s) := one p (machine c) in
      Some (Config s
        (if returned p' then delete t (flying c) else <[t := (l, p')]> (flying c))
        (if committed p' && negb (committed p) then finished c ++ [l] else finished c))
  end.

Fixpoint run (acts : list action) (c : config) : option config :=
  match acts with
  | [] => Some c
  | a :: acts => c ← act a c; run acts c
  end.

(** [Q] holds wherever a schedule leads. *)
Fixpoint along (Q : config -> Prop) (acts : list action) (c : config) : Prop :=
  Q c /\
  match acts with
  | [] => True
  | a :: acts => match act a c with Some c => along Q acts c | None => True end
  end.

#[export] Instance along_decision Q `{!forall c, Decision (Q c)} acts c : Decision (along Q acts c).
Proof. revert c. induction acts as [|a acts IH]; intros c; cbn [along]; [|destruct (act a c)]; apply _. Defined.

Lemma along_here Q acts c : along Q acts c -> Q c.
Proof. by destruct acts; intros []. Qed.

Lemma along_always Q acts c : (forall c, Q c) -> along Q acts c.
Proof.
  intros HQ. revert c. induction acts as [|a acts IH]; intros c; cbn [along]; [done|].
  split; [done|]. by destruct (act a c).
Qed.

(** The cells of the probes in flight. *)
Definition in_use (fl : gmap T (L * P)) : gset Z :=
  list_to_set (omap (fun x => uses x.2.1) (map_to_list fl)).

(** No two probes in flight are at the same cell. *)
Definition apart (fl : gmap T (L * P)) : Prop :=
  map_Forall (fun t x => map_Forall (fun t' y => t = t' \/ uses x.1 = None \/ uses y.1 <> uses x.1) fl) fl.

#[export] Instance apart_decision fl : Decision (apart fl).
Proof. unfold apart. apply _. Defined.

(** Nothing disturbs a probe at its cell: no other probe is there, and there is
    room ([holds]) for the cells of all the probes in flight. *)
Definition calm (holds : S -> gset Z -> Prop) (c : config) : Prop :=
  apart (flying c) /\ holds (machine c) (in_use (flying c)).

#[export] Instance calm_decision holds `{!forall s U, Decision (holds s U)} c : Decision (calm holds c).
Proof. unfold calm. apply _. Defined.

Lemma in_use_lookup fl t l p v : fl !! t = Some (l, p) -> uses l = Some v -> v ∈ in_use fl.
Proof.
  intros Ht Hv. apply elem_of_list_to_set, list_elem_of_omap.
  exists (t, (l, p)). by rewrite elem_of_map_to_list.
Qed.

Lemma calm_no_cells holds acts c :
  (forall l, uses l = None) -> (forall s U, holds s U) -> along (calm holds) acts c.
Proof.
  intros Hu Hh. apply along_always. intros c'. split; [|done].
  intros t x _ t' y _. right. left. apply Hu.
Qed.

(** The probes that a schedule starts. *)
Definition begun (acts : list action) : list L :=
  omap (fun a => match a with Begin l => Some l | Go _ => None end) acts.

(** Those that work on [t]. *)
Definition of_thread (t : T) (ls : list L) : list L :=
  List.filter (fun l => bool_decide (thread l = t)) ls.

(** Where a schedule leads, and that nothing is left in flight there. *)
Definition end_of (acts : list action) (c : config) : config := default c (run acts c).

Lemma run_ends acts c :
  (fun c => length (map_to_list (flying c))) <$> run acts c = Some 0%nat ->
  run acts c = Some (Config (machine (end_of acts c)) ∅ (finished (end_of acts c))).
Proof.
  unfold end_of. destruct (run acts c) as [[m fl h]|]; [|done].
  intros [= H0]. cbn in *. apply length_zero_iff_nil, map_to_list_empty_iff in H0. by subst.
Qed.

Lemma of_thread_In t l ls : In l (of_thread t ls) <-> In l ls /\ thread l = t.
Proof. unfold of_thread. by rewrite List.filter_In, bool_decide_eq_true. Qed.

Lemma begun_cons x acts : begun (x :: acts) = begun [x] ++ begun acts.
Proof. by destruct x. Qed.

(** Whoever is in the order of the probes started. *)
Lemma in_order_ok (Q : L -> Prop) acts hist :
  (forall t, of_thread t hist = of_thread t (begun acts)) -> Forall Q (begun acts) -> Forall Q hist.
Proof.
  intros Ho HQ. apply List.Forall_forall. intros l Hl.
  assert (In l (begun acts)) as Hb.
  { apply (of_thread_In (thread l)). rewrite <- Ho. by apply of_thread_In. }
  revert Hb. by apply List.Forall_forall.
Qed.
End Interleave.

Arguments config S P L T {_ _}.
Arguments action L T : clear implicits.

(** ** What makes probes atomic

    [core] is the part of the state that only a commit changes, [view] what a
    firing reads of it and [cell] a part that a probe may change earlier, under
    its own key.  [touches l p]: [p] is what the firing [l] has left; [tail p]
    the events that it sends after its commit.  [holds s U]: the state [s] has
    room for the cells of [U], which depends on its other cells alone.  [ok] is a
    condition on firings. *)
Class ProbesLaws {S P L T E C V X : Type} `{Countable T} (PR : Probes S P L T)
    (events : S -> list E) (core : S -> C) (view : L -> C -> V) (cell : S -> Z -> X)
    (touches : L -> P -> Prop) (tail : P -> list E) (holds : S -> gset Z -> Prop)
    (ok : L -> Prop) : Prop := {
  start_touches l : ok l -> touches l (start l);
  start_open l : committed (start l) = false;
  run_start l s : ok l -> run_all (start l) s = step s l;
  run_one p s : run_all (one p s).1 (one p s).2 = run_all p s;
  one_touches l p s : touches l p -> touches l (one p s).1;
  one_core l p s :
    touches l p -> committed p = false -> committed (one p s).1 = false ->
    core (one p s).2 = core s;
  one_cell l p s v : touches l p -> uses l <> Some v -> cell (one p s).2 v = cell s v;
  holds_agree l x y U :
    view l (core x) = view l (core y) -> (forall v, v ∉ U -> cell x v = cell y v) ->
    holds x U -> holds y U;
  one_agree l p x y U :
    ok l -> touches l p -> (forall v, uses l = Some v -> v ∈ U) -> holds x U -> holds y U ->
    view l (core x) = view l (core y) ->
    (forall v, uses l = Some v -> cell x v = cell y v) ->
    (one p x).1 = (one p y).1 /\
    (exists ev, events (one p x).2 = events x ++ ev /\ events (one p y).2 = events y ++ ev) /\
    (core x = core y -> core (one p x).2 = core (one p y).2) /\
    (forall v, uses l = Some v -> cell (one p x).2 v = cell (one p y).2 v);
  tail_one l p s :
    touches l p -> committed p = true ->
    core (one p s).2 = core s /\ (forall v, cell (one p s).2 v = cell s v) /\
    committed (one p s).1 = true /\
    exists ev, events (one p s).2 = events s ++ ev /\ tail p = ev ++ tail (one p s).1;
  tail_run l p s :
    ok l -> touches l p -> committed p = true ->
    core (run_all p s) = core s /\ (forall v, cell (run_all p s) v = cell s v) /\
    events (run_all p s) = events s ++ tail p;
  tail_returned p : returned p = true -> committed p = true /\ tail p = [];
  step_view l u s : ok l -> thread l <> thread u -> view u (core (step s l)) = view u (core s);
}.

(** ** Sums over the probes in flight *)

Section Totals.
Context {T A E : Type} `{Countable T}.

Definition total (f : A -> list E) (m : gmap T A) : list E := flat_map (fun x => f x.2) (map_to_list m).

Lemma total_insert f t x m : m !! t = None -> total f (<[t := x]> m) ≡ₚ f x ++ total f m.
Proof.
  intros Ht. unfold total. rewrite (Permutation_flat_map _ (map_to_list_insert _ _ _ Ht)). done.
Qed.

Lemma total_delete f t x m : m !! t = Some x -> total f m ≡ₚ f x ++ total f (delete t m).
Proof.
  intros Ht. rewrite <- (insert_delete_id m t x Ht) at 1. apply total_insert, lookup_delete_eq.
Qed.

Lemma total_replace f t x y m :
  m !! t = Some x -> total f (<[t := y]> m) ≡ₚ f y ++ total f (delete t m).
Proof. intros _. rewrite <- insert_delete_eq. apply total_insert, lookup_delete_eq. Qed.
End Totals.

Section Simulation.
Context {S P L T E C V X : Type} `{Countable T} {PR : Probes S P L T}.
Context (events : S -> list E) (core : S -> C) (view : L -> C -> V) (cell : S -> Z -> X).
Context (touches : L -> P -> Prop) (tail : P -> list E) (holds : S -> gset Z -> Prop) (ok : L -> Prop).
Context {PL : ProbesLaws PR events core view cell touches tail holds ok}.

Abbreviation config := (config S P L T).
Abbreviation action := (action L T).

(** ** A probe on its own, up to a call that does not commit *)

(** From the calls [p0] in [a] to the calls [p] in [g]; [sent] is what the
    calls in between sent. *)
Inductive ran (p0 : P) (a : S) : P -> S -> list E -> Prop :=
| ran_nil : ran p0 a p0 a []
| ran_snoc p g sent ev :
    ran p0 a p g sent -> committed (one p g).1 = false -> events (one p g).2 = events g ++ ev ->
    ran p0 a (one p g).1 (one p g).2 (sent ++ ev).

Lemma ran_facts l a p g sent :
  ok l -> ran (start l) a p g sent ->
  touches l p /\ committed p = false /\ core g = core a /\
  events g = events a ++ sent /\ run_all p g = run_all (start l) a /\
  forall v, uses l <> Some v -> cell g v = cell a v.
Proof.
  intros Hl. induction 1 as [|p g sent ev Hr (I1 & I2 & I4 & I5 & I6 & I7) Hn He].
  - split_and!; try done; [by apply start_touches|apply start_open|by rewrite app_nil_r].
  - split_and!; try done.
    + by apply one_touches.
    + by rewrite (one_core l).
    + by rewrite He, I5, app_assoc.
    + by rewrite run_one.
    + intros v Hv. rewrite (one_cell l) by done. by apply I7.
Qed.

Lemma ran_holds l a p g sent U :
  ok l -> (forall v, uses l = Some v -> v ∈ U) -> holds a U -> ran (start l) a p g sent -> holds g U.
Proof.
  intros Hl HU Ha Hr. destruct (ran_facts l a p g sent Hl Hr) as (_ & _ & F4 & _ & _ & F7).
  apply (holds_agree (ProbesLaws := PL) l a); [by rewrite F4| |done].
  intros v Hv. symmetry. apply F7. intros Hl'. by apply Hv, HU.
Qed.

(** The same calls in another state that agrees on what the probe reads. *)
Lemma ran_agree l a a' p g sent U :
  ok l -> (forall v, uses l = Some v -> v ∈ U) -> holds a U -> holds a' U -> view l (core a) = view l (core a') ->
  (forall v, uses l = Some v -> cell a v = cell a' v) -> ran (start l) a p g sent ->
  exists g', ran (start l) a' p g' sent /\ forall v, uses l = Some v -> cell g v = cell g' v.
Proof.
  intros Hl HU Ha Ha' Hview Hcell. induction 1 as [|p g sent ev Hr (g' & I1 & I2) Hn He].
  { exists a'. by split; [constructor|]. }
  destruct (ran_facts l a p g sent Hl Hr) as (F1 & F2 & F4 & _).
  destruct (ran_facts l a' p g' sent Hl I1) as (_ & _ & G4 & _).
  pose proof (ran_holds l a p g sent U Hl HU Ha Hr) as F3.
  pose proof (ran_holds l a' p g' sent U Hl HU Ha' I1) as G3.
  destruct (one_agree (ProbesLaws := PL) l p g g' U) as (H1 & (ev' & H2 & H3) & _ & H4); try done;
    [by rewrite F4, G4|].
  rewrite He in H2. apply app_inv_head in H2 as <-.
  exists (one p g').2. rewrite H1. split; [apply ran_snoc; congruence|done].
Qed.

(** ** The simulation *)

Definition owed (x : L * P) : list E := if committed x.2 then tail x.2 else [].

(** A probe in flight, in the machine [m]: before its commit it would have run
    on its own from [a], the state that the committed probes leave, to where it
    is, and sent [sent]; after it only its events are missing. *)
Record airborne (m a : S) (t : T) (l : L) (p : P) (sent : list E) : Prop := {
  air_thread : thread l = t;
  air_ok : ok l;
  air_touches : touches l p;
  air_open : committed p = false -> exists g,
    ran (start l) a p g sent /\ forall v, uses l = Some v -> cell m v = cell g v;
  air_done : committed p = true -> sent = [];
}.

Record sim (s0 : S) (c : config) (a : S) (sents : gmap T (list E)) : Prop := {
  sim_step : a = fold_left step (finished c) s0;
  sim_core : core (machine c) = core a;
  sim_events : events (machine c) ++ total owed (flying c) ≡ₚ events a ++ total id sents;
  sim_dom : dom sents = dom (flying c);
  sim_flying : forall t l p, flying c !! t = Some (l, p) ->
    exists sent, sents !! t = Some sent /\ airborne (machine c) a t l p sent;
  sim_rest : forall v,
    (forall t l p, flying c !! t = Some (l, p) -> committed p = false -> uses l <> Some v) ->
    cell (machine c) v = cell a v;
}.

(** Probes in flight are at different cells. *)
Lemma calm_apart c t t' l l' p p' v :
  calm holds c -> flying c !! t = Some (l, p) -> flying c !! t' = Some (l', p') -> t <> t' ->
  uses l = Some v -> uses l' <> Some v.
Proof.
  intros [Ha _] Ht Ht' Hne Hv. destruct (Ha t _ Ht t' _ Ht') as [?|[Hn|Hn]]; cbn in *; congruence.
Qed.

(** The committed probes leave room for those in flight, too. *)
Lemma sim_holds s0 c a sents (l : L) : sim s0 c a sents -> calm holds c -> holds a (in_use (flying c)).
Proof.
  intros Hsim [_ Hh]. apply (holds_agree (ProbesLaws := PL) l (machine c));
    [by rewrite (sim_core _ _ _ _ Hsim)| |done].
  intros v Hv. apply (sim_rest _ _ _ _ Hsim). intros t l' p Ht _ Hl'. apply Hv. by eapply in_use_lookup.
Qed.

Lemma sim_begin s0 c a sents l c' :
  sim s0 c a sents -> ok l -> act (Begin l) c = Some c' -> calm holds c' ->
  sim s0 c' a (<[thread l := []]> sents).
Proof.
  intros [Hstep Hcore Hev Hdom Hfly Hrest] Hl. cbn [act].
  case_decide as Hnone; [|done]. intros [= <-] Hcalm.
  assert (forall t l' p v, flying c !! t = Some (l', p) -> uses l = Some v ->
    uses l' <> Some v) as Hother.
  { intros t l' p v Ht Hv. assert (thread l <> t) as Hne by congruence.
    eapply (calm_apart _ (thread l) t); [exact Hcalm|cbn; apply lookup_insert_eq
      |cbn; by rewrite lookup_insert_ne|done|done]. }
  assert (sents !! thread l = None) as Hs.
  { apply not_elem_of_dom. rewrite Hdom. by apply not_elem_of_dom. }
  pose proof (start_open (ProbesLaws := PL) l) as Hopen.
  split; cbn [machine flying finished]; try done.
  - rewrite !total_insert by done. unfold owed. cbn [snd id]. by rewrite Hopen.
  - rewrite !dom_insert_L. by rewrite Hdom.
  - intros t l' p. rewrite !lookup_insert. case_decide as Ht; [|apply Hfly].
    intros [= <- <-]. exists []. split; [done|]. split; try done.
    + by apply start_touches.
    + intros _. exists a. split; [constructor|]. intros v Hv. apply Hrest.
      intros t' l' p Ht' _. by eapply Hother.
  - intros v Hv. apply Hrest. intros t l' p Ht. apply (Hv t l' p).
    rewrite lookup_insert_ne; [done|]. congruence.
Qed.

(** A probe that has nothing left to do leaves. *)
Lemma sim_drop s0 c a sents t l p :
  sim s0 c a sents -> flying c !! t = Some (l, p) -> returned p = true ->
  sim s0 (Config (machine c) (delete t (flying c)) (finished c)) a (delete t sents).
Proof.
  intros [Hstep Hcore Hev Hdom Hfly Hrest] Ht Hp.
  destruct (tail_returned (ProbesLaws := PL) p Hp) as [Hc Htail].
  destruct (Hfly t l p Ht) as (sent & Hsent & Hair).
  split; cbn [machine flying finished]; try done.
  - rewrite (total_delete owed t (l, p)) in Hev by done.
    rewrite (total_delete id t sent sents Hsent) in Hev.
    rewrite (air_done _ _ _ _ _ _ Hair Hc) in Hev. unfold owed in Hev at 1. cbn [snd id] in Hev.
    by rewrite Hc, Htail in Hev.
  - by rewrite !dom_delete_L, Hdom.
  - intros u l' p' [Hne Hu]%lookup_delete_Some. rewrite lookup_delete_ne by done. by apply Hfly.
  - intros v Hv. apply Hrest. intros u l' p' Hu Hcu. apply (Hv u l' p'); [|done].
    rewrite lookup_delete_ne; [done|]. intros <-. congruence.
Qed.

(** The next call of a probe before its commit, in the machine and on its own. *)
Lemma air_step m a l p sent g U :
  (forall v, uses l = Some v -> v ∈ U) -> holds m U -> holds a U -> core m = core a -> ok l -> ran (start l) a p g sent ->
  (forall v, uses l = Some v -> cell m v = cell g v) ->
  let '(p', m') := one p m in
  let g' := (one p g).2 in
  (one p g).1 = p' /\ touches l p' /\ core m' = core g' /\
  run_all p' g' = step a l /\
  (committed p' = false -> core g' = core a) /\
  (exists ev, events m' = events m ++ ev /\ events g' = events a ++ sent ++ ev /\
     (committed p' = false -> ran (start l) a p' g' (sent ++ ev))) /\
  (forall v, uses l = Some v -> cell m' v = cell g' v) /\
  (forall v, uses l <> Some v -> cell m' v = cell m v /\ cell g' v = cell a v).
Proof.
  intros HU Hm Ha Hcore Hl Hran Hcell.
  destruct (ran_facts l a p g sent Hl Hran) as (F1 & F2 & F4 & F5 & F6 & F7).
  pose proof (ran_holds l a p g sent U Hl HU Ha Hran) as F3.
  pose proof (one_agree (ProbesLaws := PL) l p m g U Hl F1 HU Hm F3) as Hag.
  rewrite Hcore, F4 in Hag. destruct (Hag eq_refl Hcell) as (H1 & (ev & H2 & H3) & H4 & H5).
  pose proof (one_touches (ProbesLaws := PL) l p m F1) as Ht.
  pose proof (one_cell (ProbesLaws := PL) l p m) as Hother.
  destruct (one p m) as [p' m']. cbn [fst snd] in *. split_and!; try done.
  - by apply H4.
  - rewrite H1, run_one, F6. by apply run_start.
  - intros Hc. rewrite <- F4. apply (one_core l); try done. by rewrite <- H1.
  - exists ev. split_and!; [done|by rewrite H3, F5, app_assoc|].
    intros Hc. rewrite H1. apply ran_snoc; [done|by rewrite <- H1|done].
  - intros v Hv. split; [by apply Hother|]. rewrite <- F7 by done. by eapply one_cell.
Qed.

(** A call before the commit. *)
Lemma sim_call s0 c a sents t l p p' s' :
  sim s0 c a sents -> calm holds c -> flying c !! t = Some (l, p) ->
  one p (machine c) = (p', s') -> committed p = false -> committed p' = false ->
  exists sents', sim s0 (Config s' (<[t := (l, p')]> (flying c)) (finished c)) a sents'.
Proof.
  intros Hsim Hcalm Ht Hone Hc Hc'. pose proof (sim_holds s0 c a sents l Hsim Hcalm) as Ha.
  pose proof (proj2 Hcalm) as Hm.
  pose proof (fun v => in_use_lookup (flying c) t l p v Ht) as HU.
  destruct Hsim as [Hstep Hcore Hev Hdom Hfly Hrest]. destruct (Hfly t l p Ht) as (sent & Hsent & Hair).
  destruct (air_open _ _ _ _ _ _ Hair Hc) as (g & Hran & Hg). pose proof (air_ok _ _ _ _ _ _ Hair) as Hl.
  pose proof (air_step (machine c) a l p sent g _ HU Hm Ha Hcore Hl Hran Hg) as Hs. rewrite Hone in Hs.
  destruct Hs as (Hp & S2 & S5 & _ & S7 & (ev & E1 & _ & E3) & S9 & S10).
  exists (<[t := sent ++ ev]> sents). split; cbn [machine flying finished]; try done.
  - rewrite S5. by apply S7.
  - rewrite E1, (total_replace owed t (l, p)), (total_replace id t sent) by done.
    rewrite (total_delete owed t (l, p)), (total_delete id t sent) in Hev by done.
    unfold owed in Hev |- * at 1. cbn [snd id] in Hev |- *. rewrite Hc in Hev. rewrite Hc'.
    cbn [app] in Hev |- *.
    transitivity ((events (machine c) ++ total owed (delete t (flying c))) ++ ev);
      [solve_Permutation|]. rewrite Hev. solve_Permutation.
  - rewrite !dom_insert_L, Hdom. done.
  - intros u lu pu. rewrite !lookup_insert. case_decide as Hu; [subst u|].
    + intros [= <- <-]. exists (sent ++ ev). split; [done|]. destruct Hair. split; try done.
      * intros _. exists (one p g).2. split; [by apply E3|done].
      * congruence.
    + intros Hlu. destruct (Hfly u lu pu Hlu) as (su & Hsu & [A1 A2 A3 A4 A5]). exists su.
      split; [done|]. split; try done. intros Hcu. destruct (A4 Hcu) as (gu & Hgu & Hcell).
      exists gu. split; [done|]. intros v Hv. rewrite <- Hcell by done. apply S10.
      eapply (calm_apart c u t); [done|done|done|congruence|done].
  - intros v Hv. assert (uses l <> Some v) as Hlv by (by apply (Hv t l p' (lookup_insert_eq _ _ _))).
    destruct (S10 v Hlv) as [-> _]. apply Hrest. intros u lu pu Hu Hcu.
    destruct (decide (u = t)) as [->|Hne]; [rewrite Ht in Hu; by injection Hu as <- <-|].
    apply (Hv u lu pu); [by rewrite lookup_insert_ne|done].
Qed.

(** The commit: the probe is one more step. *)
Lemma sim_commit s0 c a sents t l p p' s' :
  sim s0 c a sents -> calm holds c -> flying c !! t = Some (l, p) ->
  one p (machine c) = (p', s') -> committed p = false -> committed p' = true ->
  sim s0 (Config s' (<[t := (l, p')]> (flying c)) (finished c ++ [l])) (step a l)
    (<[t := []]> sents).
Proof.
  intros Hsim Hcalm Ht Hone Hc Hc'. pose proof (sim_holds s0 c a sents l Hsim Hcalm) as Ha.
  pose proof (proj2 Hcalm) as Hm.
  pose proof (fun v => in_use_lookup (flying c) t l p v Ht) as HU.
  destruct Hsim as [Hstep Hcore Hev Hdom Hfly Hrest]. destruct (Hfly t l p Ht) as (sent & Hsent & Hair).
  destruct (air_open _ _ _ _ _ _ Hair Hc) as (g & Hran & Hg). pose proof (air_ok _ _ _ _ _ _ Hair) as Hl.
  pose proof (air_step (machine c) a l p sent g _ HU Hm Ha Hcore Hl Hran Hg) as Hs. rewrite Hone in Hs.
  destruct Hs as (Hp & S2 & S5 & S6 & _ & (ev & E1 & E2 & _) & S9 & S10).
  destruct (tail_run (ProbesLaws := PL) l p' (one p g).2 Hl S2 Hc') as (R1 & R2 & R3).
  rewrite S6 in R1, R2, R3.
  split; cbn [machine flying finished].
  - rewrite fold_left_app. cbn [fold_left]. by rewrite <- Hstep.
  - congruence.
  - rewrite E1, R3, E2, (total_replace owed t (l, p)), (total_replace id t sent) by done.
    rewrite (total_delete owed t (l, p)), (total_delete id t sent) in Hev by done.
    unfold owed in Hev |- * at 1. cbn [snd id] in Hev |- *. rewrite Hc in Hev. rewrite Hc'.
    cbn [app] in Hev |- *.
    transitivity ((events (machine c) ++ total owed (delete t (flying c))) ++ ev ++ tail p');
      [solve_Permutation|]. rewrite Hev. solve_Permutation.
  - by rewrite !dom_insert_L, Hdom.
  - intros u lu pu. rewrite !lookup_insert. case_decide as Hu; [subst u|].
    + intros [= <- <-]. exists []. split; [done|]. destruct Hair. split; try done. congruence.
    + intros Hlu. destruct (Hfly u lu pu Hlu) as (su & Hsu & [A1 A2 A3 A4 A5]). exists su.
      split; [done|]. split; try done. intros Hcu. destruct (A4 Hcu) as (gu & Hgu & Hcell).
      assert (forall v, uses lu = Some v -> uses l <> Some v) as Hvne
        by (intros v Hv; eapply (calm_apart c u t); [done|done|done|congruence|done]).
      assert (forall v, uses lu = Some v -> cell a v = cell (step a l) v) as Hcells.
      { intros v Hv. rewrite R2. symmetry. by apply S10, Hvne. }
      destruct (ran_agree lu a (step a l) pu gu su (in_use (flying c))) as (gu' & Hr' & Hag'); try done.
      { intros v. by eapply in_use_lookup. }
      { apply (holds_agree (ProbesLaws := PL) lu a); [|intros v Hv; rewrite R2|done].
        - symmetry. apply (step_view (ProbesLaws := PL)); [done|]. destruct Hair. congruence.
        - symmetry. apply S10. intros Hlv. by apply Hv, HU. }
      { symmetry. apply (step_view (ProbesLaws := PL)); [done|]. destruct Hair. congruence. }
      exists gu'. split; [done|]. intros v Hv. rewrite <- Hag', <- Hcell by done.
      by apply S10, Hvne.
  - intros v Hv. rewrite R2. destruct (decide (uses l = Some v)) as [Hlv|Hlv]; [by apply S9|].
    destruct (S10 v Hlv) as [-> ->]. apply Hrest. intros u lu pu Hu Hcu.
    destruct (decide (u = t)) as [->|Hne]; [rewrite Ht in Hu; by injection Hu as <- <-|].
    apply (Hv u lu pu); [by rewrite lookup_insert_ne|done].
Qed.

(** A call after the commit. *)
Lemma sim_tail s0 c a sents t l p p' s' :
  sim s0 c a sents -> flying c !! t = Some (l, p) -> one p (machine c) = (p', s') ->
  committed p = true ->
  committed p' = true /\
  sim s0 (Config s' (<[t := (l, p')]> (flying c)) (finished c)) a sents.
Proof.
  intros [Hstep Hcore Hev Hdom Hfly Hrest] Ht Hone Hc.
  destruct (Hfly t l p Ht) as (sent & Hsent & Hair).
  pose proof (air_ok _ _ _ _ _ _ Hair) as Hl. pose proof (air_touches _ _ _ _ _ _ Hair) as Htl.
  pose proof (tail_one (ProbesLaws := PL) l p (machine c) Htl Hc) as Hs.
  pose proof (one_touches (ProbesLaws := PL) l p (machine c) Htl) as Ht'.
  rewrite Hone in Hs, Ht'. cbn [fst snd] in *. destruct Hs as (S1 & S2 & Hc' & ev & E1 & E2).
  split; [done|]. split; cbn [machine flying finished]; try done.
  - congruence.
  - rewrite E1, (total_replace owed t (l, p)) by done.
    rewrite (total_delete owed t (l, p)) in Hev by done.
    unfold owed in Hev |- * at 1. cbn [snd] in Hev |- *. rewrite Hc, E2 in Hev. rewrite Hc', <- Hev.
    solve_Permutation.
  - rewrite dom_insert_lookup_L; [done|by eexists].
  - intros u lu pu. rewrite lookup_insert. case_decide as Hu; [subst u|].
    + intros [= <- <-]. exists sent. split; [done|]. destruct Hair. split; try done; [congruence|].
      intros _. by auto.
    + intros Hlu. destruct (Hfly u lu pu Hlu) as (su & Hsu & [A1 A2 A3 A4 A5]). exists su.
      split; [done|]. split; try done. intros Hcu. destruct (A4 Hcu) as (gu & Hgu & Hcell).
      exists gu. split; [done|]. intros v Hv. by rewrite S2, Hcell.
  - intros v Hv. rewrite S2. apply Hrest. intros u lu pu Hu Hcu.
    apply (Hv u lu pu); [|done]. rewrite lookup_insert_ne; [done|]. intros <-. congruence.
Qed.

Lemma sim_act s0 c a sents x c' :
  sim s0 c a sents -> calm holds c -> calm holds c' -> Forall ok (begun [x]) -> act x c = Some c' ->
  exists a' sents', sim s0 c' a' sents'.
Proof.
  intros Hsim Hcalm Hcalm' Hok Hact. destruct x as [l|t].
  { apply Forall_cons_1 in Hok as [Hl _]. do 2 eexists. by eapply sim_begin. }
  cbn [act] in Hact. destruct (flying c !! t) as [[l p]|] eqn:Ht; [|done]. cbn in Hact.
  destruct (one p (machine c)) as [p' s'] eqn:Hone. injection Hact as <-.
  assert (exists a' sents', sim s0 (Config s' (<[t := (l, p')]> (flying c))
    (if committed p' && negb (committed p) then finished c ++ [l] else finished c)) a' sents')
    as (a' & sents' & H').
  { destruct (committed p) eqn:Hc.
    - destruct (sim_tail s0 c a sents t l p p' s' Hsim Ht Hone Hc) as [-> H']. eauto.
    - destruct (committed p') eqn:Hc'; [do 2 eexists; by eapply sim_commit|].
      destruct (sim_call s0 c a sents t l p p' s' Hsim Hcalm Ht Hone Hc Hc') as [sents' H']. eauto. }
  destruct (returned p') eqn:Hr; [|eauto].
  eapply sim_drop in H' as H2; [|apply lookup_insert_eq|done]. cbn [machine flying finished] in H2.
  rewrite delete_insert_eq in H2. eauto.
Qed.

(** What is in flight and has not committed. *)
Definition open (fl : gmap T (L * P)) (t : T) : list L :=
  match fl !! t with
  | Some (l, p) => if committed p then [] else [l]
  | None => []
  end.

(** For each [t] the probes commit in the order in which they started. *)
Lemma act_order s0 c a sents x c' bg :
  sim s0 c a sents ->
  (forall t, of_thread t (finished c) ++ open (flying c) t = of_thread t bg) -> act x c = Some c' ->
  forall t, of_thread t (finished c') ++ open (flying c') t = of_thread t (bg ++ begun [x]).
Proof.
  intros Hsim Ho Hact t. specialize (Ho t). unfold open, of_thread in *.
  destruct x as [l|u]; cbn [act] in Hact.
  - case_decide as Hn; [|done]. injection Hact as <-.
    cbn [flying finished begun omap list_omap]. rewrite List.filter_app, <- Ho. cbn [List.filter].
    rewrite lookup_insert. case_decide as Ht; [subst t|].
    + rewrite (start_open (ProbesLaws := PL)), Hn, bool_decide_eq_true_2 by done. by rewrite app_nil_r.
    + by rewrite bool_decide_eq_false_2, app_nil_r by congruence.
  - destruct (flying c !! u) as [[l p]|] eqn:Hu; [|done]. cbn in Hact.
    destruct (sim_flying _ _ _ _ Hsim u l p Hu) as (sent & _ & [Hl _ Htouch _ _]).
    pose proof (tail_one (ProbesLaws := PL) l p (machine c) Htouch) as Hmono.
    destruct (one p (machine c)) as [p' s']. cbn [fst snd] in Hmono.
    pose proof (tail_returned (ProbesLaws := PL) p') as Hret.
    injection Hact as <-. cbn [flying finished begun omap list_omap]. rewrite app_nil_r, <- Ho.
    destruct (decide (t = u)) as [->|Hne].
    + rewrite Hu. destruct (committed p) eqn:Hc.
      { destruct Hmono as (_ & _ & Hc' & _); [done|]. rewrite Hc'. cbn [andb negb].
        destruct (returned p'); by rewrite ?lookup_delete_eq, ?lookup_insert_eq, ?Hc'. }
      destruct (committed p') eqn:Hc'; cbn [andb negb].
      * rewrite List.filter_app. cbn [List.filter]. rewrite bool_decide_eq_true_2 by done.
        destruct (returned p'); rewrite ?lookup_delete_eq, ?lookup_insert_eq, ?Hc'; by rewrite app_nil_r.
      * destruct (returned p'); [by destruct Hret|]. by rewrite lookup_insert_eq, Hc'.
    + assert ((if returned p' then delete u (flying c) else <[u:=(l, p')]> (flying c)) !! t =
        flying c !! t) as -> by (destruct (returned p'); [apply lookup_delete_ne|apply lookup_insert_ne]; done).
      destruct (committed p' && negb (committed p)); [|done].
      rewrite List.filter_app. cbn [List.filter].
      by rewrite bool_decide_eq_false_2, app_nil_r by congruence.
Qed.

Lemma run_sim s0 acts c a sents bg c' :
  sim s0 c a sents -> along (calm holds) acts c -> Forall ok (begun acts) ->
  (forall t, of_thread t (finished c) ++ open (flying c) t = of_thread t bg) ->
  run acts c = Some c' ->
  (exists a' sents', sim s0 c' a' sents') /\
  forall t, of_thread t (finished c') ++ open (flying c') t = of_thread t (bg ++ begun acts).
Proof.
  revert c a sents bg. induction acts as [|x acts IH]; intros c a sents bg Hsim Hcalm Hok Ho Hr; cbn [run] in Hr.
  - injection Hr as <-. cbn. rewrite app_nil_r. eauto.
  - rewrite begun_cons in Hok. apply Forall_app in Hok as [H1 H2].
    cbn [along] in Hcalm. destruct Hcalm as [Hc Hcalm].
    destruct (act x c) as [c1|] eqn:Hact; [|done]. cbn in Hr.
    destruct (sim_act s0 c a sents x c1 Hsim Hc (along_here _ _ _ Hcalm) H1 Hact) as (a1 & sents1 & Hsim1).
    rewrite begun_cons, app_assoc. eapply IH; [exact Hsim1|done|done| |done]. exact (act_order s0 c a sents x c1 bg Hsim Ho Hact).
Qed.

(** Once every probe that started has finished, the state is, but for the order
    of the events, that of the probes one after the other as they committed. *)
Theorem run_linear acts s0 s hist :
  Forall ok (begun acts) -> along (calm holds) acts (Config s0 ∅ []) ->
  run acts (Config s0 ∅ []) = Some (Config s ∅ hist) ->
  (forall t, of_thread t hist = of_thread t (begun acts)) /\
  let a := fold_left step hist s0 in
  core s = core a /\ (forall v, cell s v = cell a v) /\ events s ≡ₚ events a.
Proof.
  intros Hok Hcalm Hr.
  assert (sim s0 (Config s0 ∅ []) s0 ∅) as Hsim by (by split).
  destruct (run_sim s0 acts _ _ _ [] _ Hsim Hcalm Hok (fun _ => eq_refl) Hr)
    as [(a & sents & [-> H1 H3 H4 _ H5]) Ho]. cbn [machine flying finished] in *.
  split; [intros t; specialize (Ho t); by rewrite app_nil_r in Ho|]. split_and!; [done| |].
  - intros v. by apply H5.
  - rewrite dom_empty_L in H4. apply dom_empty_inv_L in H4 as ->. cbn in H3. by rewrite !app_nil_r in H3.
Qed.
End Simulation.

(** ** A map whose elements are the cells

    It has room for its elements and for those of [U]; then an update of one
    probe does not depend on those of the others. *)
Section Fits.
Context {RT : BpfRuntime} {RL : BpfRuntimeLaws RT} {V : Type}.
Implicit Types (U : gset Z) (m : hmap Z V).

Definition fits U m : Prop := (size (dom (map_view m) ∪ U) <= map_max m)%nat.

#[export] Instance fits_decision U m : Decision (fits U m).
Proof. unfold fits. apply _. Defined.

Lemma fits_room U m v : fits U m -> v ∈ U -> has_room m v.
Proof.
  intros Hs Hv. destruct (map_view m !! v) as [x|] eqn:Hl; [left; by eexists|].
  right. apply not_elem_of_dom in Hl. rewrite <- size_dom.
  apply Nat.lt_le_trans with (size (dom (map_view m) ∪ U)); [|done]. apply subset_size. set_solver.
Qed.

Lemma fits_agree U m m' :
  map_max m = map_max m' ->
  (forall v, v ∉ U -> bpf_map_lookup_elem m v = bpf_map_lookup_elem m' v) -> fits U m -> fits U m'.
Proof.
  unfold fits. intros -> Hv Hm.
  assert (dom (map_view m') ∪ U = dom (map_view m) ∪ U) as ->; [|done].
  apply leibniz_equiv. intros v. rewrite !elem_of_union, !elem_of_dom, <- !lookup_view.
  destruct (decide (v ∈ U)) as [?|Hn]; [tauto|]. by rewrite Hv.
Qed.
End Fits.
