(* ===== verification/IosnoopMicro.v ===== *)
(** * iosnoop: probes that interleave at every helper call

    IosnoopTrace runs one probe after the other.  On a machine with several
    CPUs the probes of different threads run at the same time, and only the
    calls of the kernel's helpers are atomic.  Here a probe is the sequence of
    its helper calls ([calls]), as Interleave wants them, which schedules them.
    The theorem: an execution in which no two probes are at the same mapping at a
    time ([undisturbed]) has the outcome of the probes one after the other, in the
    order in which they finish.  IoslowerMicro has an execution of two probes at
    one mapping that has the outcome of no order ([racing_unmaps]).

    A map element is read through the pointer that the lookup returned, so
    the read sees the contents of the element at the time of the read. *)

From S2P Require Import Prelude Bpf BpfModel Hooks IosnoopFmt IosnoopBpf IosnoopProbes IosnoopSpec.
From S2P Require Import IosnoopTrace IosnoopDemo Interleave.

Section Micro.
Context {RT : BpfRuntime}.

Abbreviation env := (kenv iosnoop_event).

(** ** Probes as sequences of helper calls *)

(** [Read] is what reads the thread's own data, the clock and the arguments.
    The mount filter is one lookup, and sending an event one reservation.
    [UpdateVma] stores the device of the operation that a lookup of [key]
    found, and [Emit] sends it. *)
Inductive calls :=
| Return
| Read (k : calls)
| Filter (dev : Z) (k : bool -> calls)
| LookupOp (key : op_key) (k : option op_ctx -> calls)
| UpdateOp (key : op_key) (op : op_ctx) (k : calls)
| DeleteOp (key : op_key) (k : calls)
| LookupVma (v : Z) (k : option Z -> calls)
| UpdateVma (v : Z) (key : op_key) (op : op_ctx) (k : calls)
| DeleteVma (v : Z) (k : calls)
| Emit (e : env) (key : op_key) (op : op_ctx) (ret : Z) (k : calls).

(** What the pointer to the element of [key] reads, which held [op]. *)
Definition read_op (key : op_key) (op : op_ctx) (s : st) : op_ctx :=
  default op (bpf_map_lookup_elem (op_state s) key).

(** One helper call. *)
Definition one (p : calls) (s : st) : calls * st :=
  match p with
  | Return => (Return, s)
  | Read k => (k, s)
  | Filter dev k => (k (pass_mount_filter s dev), s)
  | LookupOp key k => (k (bpf_map_lookup_elem (op_state s) key), s)
  | UpdateOp key op k => (k, set_op_state s (update_elem (op_state s) key op BPF_ANY))
  | DeleteOp key k => (k, set_op_state s (delete_elem (op_state s) key))
  | LookupVma v k => (k (bpf_map_lookup_elem (vma_dev_map s) v), s)
  | UpdateVma v key op k =>
      (k, set_vma_dev_map s
            (update_elem (vma_dev_map s) v (op_dev (read_op key op s)) BPF_ANY))
  | DeleteVma v k => (k, set_vma_dev_map s (delete_elem (vma_dev_map s) v))
  | Emit e key op ret k => (k, emit_event e (read_op key op s) ret s)
  end.

(** All of them, undisturbed. *)
Fixpoint run_calls (p : calls) (s : st) : st :=
  match p with
  | Return => s
  | Read k => run_calls k s
  | Filter dev k => run_calls (k (pass_mount_filter s dev)) s
  | LookupOp key k => run_calls (k (bpf_map_lookup_elem (op_state s) key)) s
  | UpdateOp key op k =>
      run_calls k (set_op_state s (update_elem (op_state s) key op BPF_ANY))
  | DeleteOp key k => run_calls k (set_op_state s (delete_elem (op_state s) key))
  | LookupVma v k => run_calls (k (bpf_map_lookup_elem (vma_dev_map s) v)) s
  | UpdateVma v key op k =>
      run_calls k (set_vma_dev_map s
        (update_elem (vma_dev_map s) v (op_dev (read_op key op s)) BPF_ANY))
  | DeleteVma v k => run_calls k (set_vma_dev_map s (delete_elem (vma_dev_map s) v))
  | Emit e key op ret k => run_calls k (emit_event e (read_op key op s) ret s)
  end.

Definition submit_or_drop_calls (id : Z) (op : op_ctx) : calls :=
  Filter (op_dev op) (fun pass =>
    if negb pass then Return else UpdateOp (OpKey id (op_type op)) op Return).

Definition finish_event_calls (e : env) (id type ret : Z) : calls :=
  LookupOp (OpKey id type) (fun o =>
    match o with
    | None => Return
    | Some op => Emit e (OpKey id type) op ret (DeleteOp (OpKey id type) Return)
    end).

(** An entry probe; [vm_munmap] looks the mapping up and forgets it first. *)
Definition record_calls (e : env) (c : kcall) (vma : option Z) : calls :=
  match describe (mem e) (fun _ => vma) (pid_tgid e) c with
  | None => Return
  | Some d => submit_or_drop_calls (pid_tgid e) (op_of d)
  end.

Definition entry_calls (e : env) (c : kcall) : calls :=
  match c with
  | VmMunmap start _ =>
      let key := vma_key (pid_tgid e) start in
      LookupVma key (fun v => DeleteVma key (record_calls e c v))
  | _ => record_calls e c None
  end.

(** A return probe; a successful [do_mmap] remembers the mapping first.  The
    second of the two programs at the return of [vfs_rename] in the kprobe
    family looks up an operation that the first has deleted, and is left out. *)
Definition exit_calls (e : env) (c : kcall) (ret : Z) : calls :=
  let finish := finish_event_calls e (pid_tgid e) (call_type c) (exit_value c ret) in
  match c with
  | DoMmap _ _ _ _ _ =>
      let opk := OpKey (pid_tgid e) IO_MMAP in
      LookupOp opk (fun o =>
        match o with
        | Some op =>
            if 0 <? s64 ret then UpdateVma (vma_key (pid_tgid e) ret) opk op finish else finish
        | None => finish
        end)
  | _ => finish
  end.

Definition label_calls (l : label) : calls :=
  Read match l with
       | Enter e c => entry_calls e c
       | Leave e c ret => exit_calls e c ret
       end.

(** ** Undisturbed, the calls are the probe *)

Lemma run_calls_one p s : run_calls (one p s).1 (one p s).2 = run_calls p s.
Proof. by destruct p. Qed.

Lemma run_submit id op s : run_calls (submit_or_drop_calls id op) s = submit_or_drop id op s.
Proof. unfold submit_or_drop_calls, submit_or_drop. cbn. by destruct (pass_mount_filter s _). Qed.

Lemma run_finish e id ty ret s :
  run_calls (finish_event_calls e id ty ret) s = finish_event e id ty ret s.
Proof.
  unfold finish_event_calls, finish_event. cbn [run_calls].
  destruct (bpf_map_lookup_elem (op_state s) (OpKey id ty)) as [op|] eqn:Hl; [|done].
  cbn [run_calls]. unfold read_op. by rewrite Hl.
Qed.

Lemma describe_vma m vma vma' id c :
  (forall start len, c = VmMunmap start len -> vma (vma_key id start) = vma' (vma_key id start)) ->
  describe m vma id c = describe m vma' id c.
Proof. destruct c; try done. intros H. cbn [describe]. by rewrite (H _ _ eq_refl). Qed.

Lemma run_record e c v s :
  run_calls (record_calls e c v) s =
  match describe (mem e) (fun _ => v) (pid_tgid e) c with
  | None => s
  | Some d => submit_or_drop (pid_tgid e) (op_of d) s
  end.
Proof. unfold record_calls. destruct (describe _ _ _ _); [apply run_submit|done]. Qed.

Lemma run_label l s : run_calls (label_calls l) s = spec_step s l.
Proof.
  destruct l as [e c|e c ret]; cbn [label_calls run_calls spec_step].
  - unfold spec_entry. destruct c; cbn [entry_calls run_calls]; rewrite run_record;
      rewrite (describe_vma _ _ (bpf_map_lookup_elem (vma_dev_map s)));
      first [done|by intros ? ? [=]|by intros ? ? [= <- <-]].
  - unfold spec_exit. destruct c; cbn [exit_calls pre_exit]; try apply run_finish.
    cbn [run_calls]. destruct (bpf_map_lookup_elem (op_state s) _) as [op|] eqn:Hl;
      [|apply run_finish]. destruct (0 <? s64 ret); [|apply run_finish].
    cbn [run_calls]. unfold read_op. rewrite Hl. apply run_finish.
Qed.

(** ** What the calls of a probe touch

    The operation [key], and the mapping [vk] if any; storing or forgetting
    the operation is the last call. *)
Fixpoint touches (key : op_key) (vk : option Z) (p : calls) : Prop :=
  match p with
  | Return => True
  | Read k => touches key vk k
  | Filter _ k => forall b, touches key vk (k b)
  | LookupOp key' k => key' = key /\ forall o, touches key vk (k o)
  | UpdateOp key' _ k | DeleteOp key' k => key' = key /\ k = Return
  | LookupVma v k => vk = Some v /\ forall o, touches key vk (k o)
  | UpdateVma v key' _ k => vk = Some v /\ key' = key /\ touches key vk k
  | DeleteVma v k => vk = Some v /\ touches key vk k
  | Emit _ key' _ _ k => key' = key /\ touches key vk k
  end.

Definition label_vma (l : label) : option Z :=
  match l with
  | Enter e (VmMunmap start _) => Some (vma_key (pid_tgid e) start)
  | Leave e (DoMmap _ _ _ _ _) ret =>
      if 0 <? s64 ret then Some (vma_key (pid_tgid e) ret) else None
  | _ => None
  end.

Lemma finish_within key vk e id ty ret :
  key = OpKey id ty -> touches key vk (finish_event_calls e id ty ret).
Proof. intros ->. split; [done|]. by intros [op|]. Qed.

Lemma record_within e c v vk : touches (OpKey (pid_tgid e) (call_type c)) vk (record_calls e c v).
Proof.
  unfold record_calls. destruct (describe _ _ _ c) as [d|] eqn:Hd; [|done].
  apply describe_type in Hd. intros []; cbn; [|done]. by rewrite Hd.
Qed.

Lemma label_within l : touches (label_key l) (label_vma l) (label_calls l).
Proof.
  destruct l as [e c|e c ret]; cbn [label_key label_calls touches].
  - destruct c; try apply record_within. split; [done|]. intros v. split; [done|].
    apply record_within.
  - destruct c; cbn [exit_calls]; try by apply finish_within.
    split; [done|]. intros [op|]; [|by apply finish_within]. cbn [label_vma].
    destruct (0 <? s64 ret); [|by apply finish_within].
    split; [done|]. split; [done|]. by apply finish_within.
Qed.

Context {RL : BpfRuntimeLaws RT}.

(** ** What a call changes *)

Lemma emit_event_sends e op ret s s' :
  exists ev, events (emit_event e op ret s) = events s ++ ev /\
    events (emit_event e op ret s') = events s' ++ ev.
Proof.
  unfold emit_event. destruct (reserve e 0); [by eexists|]. exists []. by rewrite !app_nil_r.
Qed.

Lemma one_within key vk p s : touches key vk p -> touches key vk (one p s).1.
Proof. destruct p; cbn; naive_solver. Qed.

Lemma one_cfg p s : cfg_map (one p s).2 = cfg_map s.
Proof. destruct p; try done. cbn. apply emit_event_fields. Qed.

Lemma one_op_state key vk p s :
  touches key vk p -> (one p s).1 <> Return -> op_state (one p s).2 = op_state s.
Proof. destruct p; cbn; try done; [by intros [_ ->]..|]. intros _ _. apply emit_event_fields. Qed.

Lemma one_vma_other key vk p s v :
  touches key vk p -> vk <> Some v ->
  bpf_map_lookup_elem (vma_dev_map (one p s).2) v = bpf_map_lookup_elem (vma_dev_map s) v.
Proof.
  destruct p; cbn; intros Hw Hv; try done.
  - destruct Hw as (-> & _ & _). apply lookup_update_ne. congruence.
  - destruct Hw as (-> & _). rewrite lookup_delete_elem. by rewrite decide_False by congruence.
  - by destruct (emit_event_fields e (read_op key0 op s) ret s) as (_ & _ & ->).
Qed.

Lemma one_max p s : map_max (vma_dev_map (one p s).2) = map_max (vma_dev_map s).
Proof.
  destruct p; try done; cbn; [apply update_elem_max|apply delete_max|].
  by destruct (emit_event_fields e (read_op key op s) ret s) as (_ & _ & ->).
Qed.

Lemma run_calls_max p s : map_max (vma_dev_map (run_calls p s)) = map_max (vma_dev_map s).
Proof.
  revert s. induction p; intros s; cbn [run_calls]; try done;
    match goal with
    | H : forall x s, _ |- _ => rewrite H
    | H : forall s, _ |- _ => rewrite H
    end; try done; [apply update_elem_max|apply delete_max|].
  by destruct (emit_event_fields e (read_op key op s) ret s) as (_ & _ & ->).
Qed.

(** One call in two states that agree on what the probe touches. *)
Lemma one_agrees U key vk p x y :
  touches key vk p -> (forall v, vk = Some v -> v ∈ U) -> fits U (vma_dev_map x) ->
  fits U (vma_dev_map y) -> cfg_map x = cfg_map y ->
  bpf_map_lookup_elem (op_state x) key = bpf_map_lookup_elem (op_state y) key ->
  (forall v, vk = Some v ->
     bpf_map_lookup_elem (vma_dev_map x) v = bpf_map_lookup_elem (vma_dev_map y) v) ->
  (one p x).1 = (one p y).1 /\
  (exists ev, events (one p x).2 = events x ++ ev /\ events (one p y).2 = events y ++ ev) /\
  (op_state x = op_state y -> op_state (one p x).2 = op_state (one p y).2) /\
  (forall v, vk = Some v -> bpf_map_lookup_elem (vma_dev_map (one p x).2) v =
                            bpf_map_lookup_elem (vma_dev_map (one p y).2) v).
Proof.
  intros Hw Hk Hx Hy Hc Ho Hv.
  assert (exists ev, events x = events x ++ ev /\ events y = events y ++ ev) as Hnil
    by (exists []; by rewrite !app_nil_r).
  assert (forall op, read_op key op x = read_op key op y) as Hop
    by (intros op; unfold read_op; by rewrite Ho).
  destruct p; cbn in *.
  - done.
  - done.
  - by rewrite (pass_filter_cfg y x dev Hc).
  - destruct Hw as [-> _]. by rewrite Ho.
  - split_and!; try done. by intros ->.
  - split_and!; try done. by intros ->.
  - destruct Hw as [-> _]. by rewrite (Hv v eq_refl).
  - destruct Hw as (-> & -> & _). rewrite Hop. split_and!; try done.
    intros v' [= <-]. rewrite !lookup_update_any; [done|..]; eapply fits_room; eauto.
  - destruct Hw as (-> & _). split_and!; try done.
    intros v' [= <-]. rewrite !lookup_delete_elem. by rewrite !decide_True by done.
  - destruct Hw as (-> & _). rewrite Hop.
    destruct (emit_event_fields e (read_op key op y) ret x) as (H1 & H2 & H3).
    destruct (emit_event_fields e (read_op key op y) ret y) as (H4 & H5 & H6).
    rewrite H1, H3, H4, H6. split_and!; try done. apply emit_event_sends.
Qed.

(** ** The probes as Interleave wants them *)

Definition thread (l : label) : Z := ok_id (label_key l).

Definition is_return (p : calls) : bool := match p with Return => true | _ => false end.

(** A thread is in one probe at a time, and a probe commits with its last call. *)
#[export] Instance io_probes : Probes st calls label Z := {|
  start := label_calls; Interleave.one := one; returned := is_return; committed := is_return;
  run_all := run_calls; step := spec_step; Interleave.thread := thread; uses := label_vma |}.

Lemma is_return_false p : is_return p = false -> p <> Return.
Proof. by intros ? ->. Qed.

(** What only the last call changes, and what a firing reads of it. *)
Definition core (s : st) := (op_state s, cfg_map s, map_max (vma_dev_map s)).
Definition view (l : label) (c : hmap op_key op_ctx * hmap Z mount_filter_cfg * nat) :=
  (bpf_map_lookup_elem c.1.1 (label_key l), c.1.2, c.2).
Definition cell (s : st) (v : Z) : option Z := bpf_map_lookup_elem (vma_dev_map s) v.

(** Room for the known mappings and for those in [U]. *)
Definition vma_room (s : st) (U : gset Z) : Prop := fits U (vma_dev_map s).

#[export] Instance vma_room_decision s U : Decision (vma_room s U).
Proof. unfold vma_room. apply _. Defined.

(** No two probes in flight are at the same mapping, and the table of mappings
    has room for the known ones and theirs. *)
Definition undisturbed (acts : list (action label Z)) (c : config st calls label Z) : Prop :=
  along (calm vma_room) acts c.

#[export] Instance undisturbed_decision acts c : Decision (undisturbed acts c).
Proof. unfold undisturbed. apply _. Defined.

#[export] Instance io_probes_laws :
  ProbesLaws io_probes events core view cell
    (fun l => touches (label_key l) (label_vma l)) (fun _ => []) vma_room (fun _ => True).
Proof.
  split; cbn [start Interleave.one returned committed run_all step Interleave.thread uses io_probes].
  - intros l _. apply label_within.
  - done.
  - intros l s _. apply run_label.
  - apply run_calls_one.
  - intros l p s. apply one_within.
  - intros l p s Ht _ Hn%is_return_false. unfold core. rewrite one_cfg, one_max.
    by erewrite one_op_state by done.
  - intros l p s v. apply one_vma_other.
  - intros l x y U [= _ _ Hm]. by apply fits_agree.
  - intros l p x y U _ Ht HU Hx Hy [= Ho Hc _] Hv.
    destruct (one_agrees U _ _ p x y Ht HU Hx Hy Hc Ho Hv) as (H1 & H2 & H3 & H4).
    split_and!; try done. unfold core. rewrite !one_cfg, !one_max. intros [= Hop -> ->]. by rewrite H3.
  - intros l [] s _ Hp; try done. split_and!; try done. exists []. by rewrite app_nil_r.
  - intros l [] s _ _ Hp; try done. split_and!; try done. by rewrite app_nil_r.
  - done.
  - intros l u s _ Hne. unfold view, core. cbn [fst snd]. f_equal; [f_equal|].
    + apply spec_step_other. intros Hkey. apply Hne. unfold thread. by rewrite Hkey.
    + apply spec_step_cfg.
    + rewrite <- run_label. apply run_calls_max.
Qed.

Lemma run_atomic b acts s0 s hist :
  Forall label_ok (begun acts) -> undisturbed acts (Config s0 ∅ []) ->
  run acts (Config s0 ∅ []) = Some (Config s ∅ hist) ->
  (forall t, of_thread t hist = of_thread t (begun acts)) /\
  exists a, exec b hist s0 = Some a /\
    op_state s = op_state a /\ cfg_map s = cfg_map a /\
    (forall v, bpf_map_lookup_elem (vma_dev_map s) v = bpf_map_lookup_elem (vma_dev_map a) v) /\
    events s ≡ₚ events a.
Proof.
  intros Hok Hcalm Hr. assert (Forall (fun _ => True) (begun acts)) as Ht by by apply list.Forall_true.
  destruct (run_linear _ _ _ _ _ _ _ _ acts s0 s hist Ht Hcalm Hr) as (Ho & [= H1 H2 _] & H3 & H4).
  split; [done|]. exists (spec_exec hist s0). split_and!; try done.
  apply exec_spec. by eapply in_order_ok.
Qed.

(** Atomicity: whatever the order in which the helper calls of concurrent
    probes happen, if no two of them are at the same mapping at a time, then once all the probes that started have finished, the maps
    are those, and the events those in some order, of the same probes one
    after the other as they finished, the probes of each thread in the order
    in which the thread ran them. *)
Theorem probes_atomic b acts s0 s hist :
  Forall label_ok (begun acts) -> undisturbed acts (Config s0 ∅ []) ->
  run acts (Config s0 ∅ []) = Some (Config s ∅ hist) ->
  (forall t, of_thread t hist = of_thread t (begun acts)) /\
  exists a, exec b hist s0 = Some a /\
    op_state s = op_state a /\ cfg_map s = cfg_map a /\
    (forall v, bpf_map_lookup_elem (vma_dev_map s) v = bpf_map_lookup_elem (vma_dev_map a) v) /\
    events s ≡ₚ events a.
Proof. apply run_atomic. Qed.
End Micro.

(** ** The theorem at a concrete schedule *)

(** A mapping and a read whose calls alternate; the read sends its event first
    and finishes last. *)
Definition demo_acts : list (action label Z) :=
  [Begin (Enter (on 8 1) map_a); Begin (Enter (on 9 2) read_a);
   Go (pid_tgid (on 8 1)); Go (pid_tgid (on 9 2)); Go (pid_tgid (on 9 2)); Go (pid_tgid (on 8 1));
   Go (pid_tgid (on 8 1)); Go (pid_tgid (on 9 2));
   Begin (Leave (on 8 3) map_a 0x1000); Begin (Leave (on 9 4) read_a 5);
   Go (pid_tgid (on 8 1)); Go (pid_tgid (on 9 2)); Go (pid_tgid (on 8 1)); Go (pid_tgid (on 9 2));
   Go (pid_tgid (on 9 2)); Go (pid_tgid (on 8 1));
   Go (pid_tgid (on 8 1)); Go (pid_tgid (on 8 1)); Go (pid_tgid (on 8 1)); Go (pid_tgid (on 9 2))].

Definition demo_end : config st calls label Z := end_of demo_acts (Config (boot demo_cfg) ∅ []).

Lemma demo_run_ends :
  run demo_acts (Config (boot demo_cfg) ∅ []) =
  Some (Config (machine demo_end) ∅ (finished demo_end)).
Proof. apply run_ends. vm_compute. reflexivity. Qed.

Lemma probes_atomic_witness :
  map ev_pid (events (machine demo_end)) = [9; 8] /\
  exists a, exec true (finished demo_end) (boot demo_cfg) = Some a /\ map ev_pid (events a) = [8; 9] /\
    events (machine demo_end) ≡ₚ events a.
Proof.
  destruct (probes_atomic true demo_acts (boot demo_cfg) (machine demo_end) (finished demo_end)) as (_ & a & Ha & _ & _ & _ & Hev).
  - cbn [begun omap list_omap demo_acts]. labels.
  - refine (@bool_decide_unpack _ (undisturbed_decision _ _) _). vm_compute. exact I.
  - exact demo_run_ends.
  - split; [vm_compute; reflexivity|]. exists a. split; [exact Ha|]. split; [|exact Hev].
    assert ((fun a => map ev_pid (events a)) <$> exec true (finished demo_end) (boot demo_cfg) =
      Some [8; 9]) as Hs by (vm_compute; reflexivity).
    rewrite Ha in Hs. cbn in Hs. by injection Hs as ->.
Defined.
