(* ===== verification/IosnoopHistory.v ===== *)
(** * iosnoop: what a whole run reports

    The events of iosnoop as a function of what happened, without maps: the
    effects of the entries and returns on the operations in flight and on the
    known mappings ([effects], two histories), and [reports], which looks back
    from every return for the entry it ends.  The theorem: that is what the
    ring holds after any run, of either program family, that the two maps have
    room for. *)

From S2P Require Import Prelude Bpf BpfModel History Hooks IosnoopFmt IosnoopBpf IosnoopProbes.
From S2P Require Import IosnoopSpec IosnoopTrace IosnoopDemo Interleave IosnoopMicro.

Section Reports.
Context {RT : BpfRuntime}.
(** The mount filter as a predicate on devices. *)
Variable passes : Z -> bool.

Abbreviation ops := (list (op_key * effect op_ctx)).
Abbreviation maps := (list (Z * effect Z)).

(** An entry opens what it describes, if the filter passes its device; a
    return closes. *)
Definition op_effect (vmas : maps) (l : label) : effect op_ctx :=
  match l with
  | Enter e c =>
      match describe (mem e) (fun v => pending v vmas) (pid_tgid e) c with
      | Some d => if passes (d_dev d) then Open (op_of d) else Keep
      | None => Keep
      end
  | Leave _ _ _ => Close
  end.

(** The return of a recorded [do_mmap] that succeeded makes a mapping known,
    the entry of [vm_munmap] forgets it. *)
Definition vma_effect (os : ops) (l : label) : maps :=
  match l with
  | Enter e (VmMunmap start _) => [(vma_key (pid_tgid e) start, Close)]
  | Leave e (DoMmap _ _ _ _ _) ret =>
      match pending (OpKey (pid_tgid e) IO_MMAP) os with
      | Some op =>
          if 0 <? s64 ret then [(vma_key (pid_tgid e) ret, Open (op_dev op))] else []
      | None => []
      end
  | _ => []
  end.

(** The two histories of a run; everything is newest first. *)
Fixpoint effects (ls : list label) : ops * maps :=
  match ls with
  | [] => ([], [])
  | l :: ls =>
      let '(os, vs) := effects ls in ((label_key l, op_effect vs l) :: os, vma_effect os l ++ vs)
  end.

Fixpoint reports (ls : list label) : list iosnoop_event :=
  match ls with
  | [] => []
  | l :: ls =>
      reports ls ++
      match l with
      | Leave e c ret =>
          match pending (label_key l) (effects ls).1, reserve e 0 with
          | Some op, Some slot => [event_of e slot op (exit_value c ret)]
          | _, _ => []
          end
      | Enter _ _ => []
      end
  end.

(** There was always room for one more operation and one more mapping. *)
Definition roomy (n : nat) (ls : list label) : Prop :=
  within n (effects ls).1 /\ within n (effects ls).2.

Lemma roomy_cons n l ls : roomy n (l :: ls) -> roomy n ls.
Proof.
  unfold roomy. cbn [effects]. destruct (effects ls) as [os vs]. cbn [fst snd within].
  intros [[_ H1] H2]. split; [done|by eapply within_app].
Qed.

Lemma io_roomy_app n ls1 ls2 : roomy n (ls1 ++ ls2) -> roomy n ls2.
Proof. induction ls1 as [|l ls1 IH]; [done|]. intros H. apply IH. by apply (roomy_cons n l). Qed.

Context {RL : BpfRuntimeLaws RT}.

Record tells (s : st) (n : nat) (ls : list label) : Prop := {
  tells_ops : follows (op_state s) n (effects ls).1;
  tells_vmas : follows (vma_dev_map s) n (effects ls).2;
  tells_reports : events s = reports ls;
  tells_filter : forall dev, pass_mount_filter s dev = passes dev;
}.

(** The probes read what the histories say. *)
Lemma tells_describe s n ls (e : kenv iosnoop_event) c :
  tells s n ls ->
  describe (mem e) (bpf_map_lookup_elem (vma_dev_map s)) (pid_tgid e) c =
  describe (mem e) (fun v => pending v (effects ls).2) (pid_tgid e) c.
Proof.
  intros [_ Hv _ _]. destruct c; try done. cbn [describe]. by rewrite (follows_lookup _ _ _ Hv).
Qed.

Lemma describe_none_vma m vma id c os (e : kenv iosnoop_event) :
  describe m vma id c = None -> vma_effect os (Enter e c) = [].
Proof. by destruct c. Qed.

Lemma pre_entry_follows s n os vs e c :
  follows (vma_dev_map s) n vs -> follows (vma_dev_map (pre_entry e c s)) n (vma_effect os (Enter e c) ++ vs).
Proof. intros Hv. destruct c; try done. by apply follows_close. Qed.

Lemma tells_enter s n ls e c :
  tells s n ls -> roomy n (Enter e c :: ls) -> tells (spec_entry e c s) n (Enter e c :: ls).
Proof.
  intros Ht [Hn _]. pose proof (tells_describe s n ls e c Ht) as Hdesc.
  destruct Ht as [Ho Hv Hr Hf]. unfold spec_entry. rewrite Hdesc.
  cbn [effects] in Hn. destruct (effects ls) as [os vs] eqn:Hls. cbn [fst snd op_effect] in *.
  destruct (pre_entry_fields e c s) as (Hcfg & Hop & Hevents).
  destruct (describe _ _ _ c) as [d|] eqn:Hd.
  - apply describe_type in Hd as Hty. unfold submit_or_drop.
    rewrite (pass_filter_cfg _ _ _ Hcfg), Hf. cbn [op_of op_dev op_type].
    destruct (passes (d_dev d)) eqn:Hp; cbn [negb];
      split; cbn [effects reports]; rewrite ?Hls; cbn [fst snd op_effect];
      rewrite ?Hd, ?Hp, ?app_nil_r, ?Hty; cbn [set_op_state op_state events vma_dev_map];
      rewrite ?Hop, ?Hevents; try done; try (by apply follows_open); try (by apply follows_keep);
      try (by apply pre_entry_follows).
    all: intros dev; rewrite <- Hf; by apply pass_filter_cfg.
  - split; cbn [effects reports]; rewrite ?Hls; cbn [fst snd op_effect];
      rewrite ?Hd, ?app_nil_r; try done; [by apply follows_keep|].
    by rewrite (describe_none_vma _ _ _ _ _ e Hd).
Qed.

Lemma pre_exit_follows s n os vs e c ret :
  follows (op_state s) n os -> follows (vma_dev_map s) n vs ->
  within n (vma_effect os (Leave e c ret) ++ vs) ->
  follows (vma_dev_map (pre_exit e c ret s)) n (vma_effect os (Leave e c ret) ++ vs).
Proof.
  intros Ho Hv Hn. destruct c; try done. cbn [pre_exit vma_effect] in *.
  rewrite (follows_lookup _ _ _ Ho). destruct (pending _ os) as [op|]; [|done].
  destruct (0 <? s64 ret); [|done]. by apply follows_open.
Qed.

Lemma tells_leave s n ls e c ret :
  tells s n ls -> roomy n (Leave e c ret :: ls) ->
  tells (spec_exit e c ret s) n (Leave e c ret :: ls).
Proof.
  intros [Ho Hv Hr Hf] [_ Hn]. cbn [effects] in Hn.
  destruct (effects ls) as [os vs] eqn:Hls. cbn [fst snd] in *.
  pose proof (pre_exit_follows s n os vs e c ret Ho Hv Hn) as Hpre.
  destruct (pre_exit_fields e c ret s) as (Hcfg & Hop & Hevents).
  split; cbn [effects reports]; rewrite ?Hls; cbn [fst snd op_effect label_key].
  - unfold spec_exit, finish_event. rewrite Hop, (follows_lookup _ _ _ Ho).
    destruct (pending (OpKey (pid_tgid e) (call_type c)) os) as [op|] eqn:Hp.
    + cbn [set_op_state op_state].
      destruct (emit_event_fields e op (exit_value c ret) (pre_exit e c ret s)) as (-> & _ & _).
      rewrite Hop. by apply follows_close.
    + rewrite Hop. by apply follows_absent.
  - unfold spec_exit, finish_event. destruct (bpf_map_lookup_elem _ _) as [op|]; [|done].
    cbn [set_op_state vma_dev_map].
    by destruct (emit_event_fields e op (exit_value c ret) (pre_exit e c ret s)) as (_ & _ & ->).
  - rewrite spec_exit_events, Hr, (follows_lookup _ _ _ Ho). done.
  - intros dev. rewrite <- Hf. apply pass_filter_cfg. unfold spec_exit.
    by rewrite finish_event_cfg.
Qed.

Lemma io_tells_exec ls s n past :
  tells s n past -> roomy n (rev ls ++ past) -> tells (spec_exec ls s) n (rev ls ++ past).
Proof.
  revert s past. induction ls as [|l ls IH]; intros s past Ht; [done|].
  cbn [rev]. rewrite <- app_assoc. intros Hn. apply (IH _ (l :: past)); [|done].
  apply io_roomy_app in Hn. destruct l as [e c|e c ret]; [by apply tells_enter|by apply tells_leave].
Qed.

(** A run that is not longer than the maps has room. *)
Lemma io_roomy_length n ls : (length ls <= n)%nat -> roomy n ls.
Proof.
  intros Hn. assert (length (effects ls).1 <= length ls /\ length (effects ls).2 <= length ls)%nat
    as [H1 H2].
  { clear Hn. induction ls as [|l ls IH]; [done|]. cbn [effects].
    destruct (effects ls) as [os vs]. cbn [fst snd] in *. rewrite length_app. cbn [length].
    assert (length (vma_effect os l) <= 1)%nat; [|lia].
    destruct l as [e c|e c ret]; destruct c; cbn; try lia.
    destruct (pending _ os); [|cbn; lia]. destruct (0 <? s64 ret); cbn; lia. }
  split; apply within_length; lia.
Qed.
End Reports.

(** From the start state, the ring holds what the history says. *)
Lemma exec_reports {RT : BpfRuntime} {RL : BpfRuntimeLaws RT} b cfg ls s :
  let passes := pass_mount_filter (boot cfg) in
  Forall label_ok ls -> roomy passes 4096 (rev ls) -> exec b ls (boot cfg) = Some s ->
  events s = reports passes (rev ls).
Proof.
  intros passes Hok Hn. rewrite exec_spec by done. intros [= <-].
  assert (tells passes (boot cfg) 4096 []) as H0 by (split; [apply follows_create..|done|done]).
  destruct (io_tells_exec passes ls (boot cfg) 4096 [] H0) as [_ _ Hr _]; rewrite ?app_nil_r in *; done.
Qed.

(** C1. iosnoop as a function of the history: after any run of the entries and
    returns of hooked calls on any number of threads in which less than 4096
    operations are in flight and less than 4096 mappings known at a time, no
    probe of either family has faulted and the ring holds exactly the events
    of the returns that end a recorded entry, in their order: each with what
    the latest entry of its thread and event code recorded that the mount
    filter let through, the device of an unmapping being that of the mapping
    it ends. *)
Theorem iosnoop_history {RT : BpfRuntime} {RL : BpfRuntimeLaws RT} b cfg ls :
  let passes := pass_mount_filter (boot cfg) in
  Forall label_ok ls -> roomy passes 4096 (rev ls) ->
  exists s, exec b ls (boot cfg) = Some s /\ events s = reports passes (rev ls).
Proof.
  intros passes Hok Hn. exists (spec_exec ls (boot cfg)).
  split; [by apply exec_spec|]. apply (exec_reports b); [done|done|by apply exec_spec].
Qed.

(** C5. Concurrent probes as a function of the history: when the helper calls
    of the probes of any number of threads interleave as they like, as long as no
    two probes in flight are at the same mapping (an unmapping of it, or the
    return of the call that made it) and the mappings known and in question are
    at most 4096 at a time, then once all probes have finished there is an order
    of them, with the probes of each thread in the order in which the thread ran
    them, such that the ring holds, in some order, exactly the events that the
    history has in that order. *)
Theorem concurrent_history {RT : BpfRuntime} {RL : BpfRuntimeLaws RT} cfg acts s hist :
  let passes := pass_mount_filter (boot cfg) in
  Forall label_ok (begun acts) -> undisturbed acts (Config (boot cfg) ∅ []) ->
  run acts (Config (boot cfg) ∅ []) = Some (Config s ∅ hist) -> roomy passes 4096 (rev hist) ->
  (forall t, of_thread t hist = of_thread t (begun acts)) /\
  events s ≡ₚ reports passes (rev hist).
Proof.
  intros passes Hok Hcalm Hr Hn. destruct (run_atomic true acts (boot cfg) s hist Hok Hcalm Hr) as (Ho & a & Ha & _ & _ & _ & Hev).
  split; [done|]. rewrite Hev. rewrite (exec_reports true cfg hist a); [done| |done|done].
  by eapply in_order_ok.
Qed.

(** A mapping that is unmapped again, and a read in between. *)
Definition demo_labels : list label :=
  [Enter (on 8 1) map_a; Enter (on 9 2) read_a; Leave (on 8 3) map_a 0x1000;
   Enter (on 8 4) (VmMunmap 0x1000 4096); Leave (on 9 5) read_a 5;
   Leave (on 8 6) (VmMunmap 0x1000 4096) 0; Leave (on 9 7) read_a 5].

Lemma iosnoop_history_witness :
  shown <$> exec false demo_labels (boot demo_cfg) =
  Some [(8, 0, bytes "a.txt", bytes "len=4096 prot=1");
        (9, 5, bytes "a.txt", bytes "count=5 pos=-1"); (8, 0, [], bytes "len=4096")].
Proof.
  destruct (iosnoop_history false demo_cfg demo_labels) as (s & -> & Hev).
  - unfold demo_labels. labels.
  - apply io_roomy_length; [exact gmap_runtime_laws|]. cbn [rev demo_labels length app]. lia.
  - unfold shown. cbn [fmap option_fmap option_map]. rewrite Hev. vm_compute. reflexivity.
Defined.

(** The schedule of IosnoopMicro: the mapping finishes first, the read sends
    its event first. *)
Lemma concurrent_history_witness :
  map ev_pid (events (machine demo_end)) = [9; 8] /\
  events (machine demo_end) ≡ₚ
    reports (pass_mount_filter (boot demo_cfg)) (rev (finished demo_end)) /\
  map ev_pid (reports (pass_mount_filter (boot demo_cfg)) (rev (finished demo_end))) = [8; 9].
Proof.
  split; [vm_compute; reflexivity|]. split; [|vm_compute; reflexivity].
  destruct (concurrent_history demo_cfg demo_acts (machine demo_end) (finished demo_end))
    as [_ H]; [| | | |exact H].
  - cbn [begun omap list_omap demo_acts]. labels.
  - refine (@bool_decide_unpack _ (undisturbed_decision _ _) _). vm_compute. exact I.
  - exact demo_run_ends.
  - apply io_roomy_length; [exact gmap_runtime_laws|]. vm_compute. lia.
Defined.
