(* ===== verification/IoslowerBpf.v ===== *)
(** * ioslower: data, filters and core operations of the kernel program

    Models src/bpf/ioslower.bpf.c up to its probes: the records, the five maps
    (the record [st]), the mount filter, the device and name readers, and
    [emit_event], [start_or_drop] and [finish_event].  An operation in flight
    is kept under the thread alone, without its type.  BPF_CORE_READ of a chain
    of pointers reads zero where a link of the chain faults. *)

From S2P Require Import Prelude Bpf.

(** ** Operation types *)

Definition SC_OPEN : Z := 1.
Definition SC_READ : Z := 3.
Definition SC_WRITE : Z := 4.
Definition SC_STAT : Z := 6.
Definition SC_MKDIR : Z := 9.
Definition SC_RMDIR : Z := 11.
Definition SC_UNLINK : Z := 12.
Definition SC_RENAME : Z := 14.
Definition SC_FCHMOD : Z := 20.
Definition SC_TRUNCATE : Z := 23.
Definition SC_LINK : Z := 25.
Definition SC_SYMLINK : Z := 27.
Definition SC_READLINK : Z := 29.
Definition SC_READV : Z := 33.
Definition SC_WRITEV : Z := 34.
Definition SC_MMAP : Z := 45.
Definition SC_MUNMAP : Z := 47.
Definition SC_CREATE : Z := 48.
Definition SC_FALLOCATE : Z := 49.
Definition SC_GETDENTS : Z := 50.
Definition SC_LOCK_FCNTL : Z := 51.

(** ** Records *)

(** The ring buffer record; no code writes its padding. *)
Record ioslower_event := IoslowerEvent {
  ev_ts : Z; ev_pid : Z; ev_uid : Z; ev_gid : Z; ev_delta_us : Z; ev_type : Z;
  ev_pad1 : Z; ev_pad2 : Z; ev_ret : Z; ev_pad3 : Z;
  ev_comm : list Z;   (* char[16] *)
  ev_fname : list Z;  (* char[256] *)
}.

Record mount_filter_cfg := MountFilterCfg {
  enabled : Z; dev_major : Z; dev_minor : Z;
}.

(** The padding of [start_t] is zeroed and never read: it is left out. *)
Record start_t := StartT {
  st_ts : Z; st_type : Z; st_dev : Z;
  st_fname : list Z;  (* char[96] *)
}.

Definition sizeof_fname : Z := 96.

(** [struct start_t st = {}] *)
Definition fname_zero : list Z := pad 96 [].

Section Program.
Context {RT : BpfRuntime}.

(** The maps of the program; [events] lists the submitted records, oldest
    first. *)
Record st := St {
  events : list ioslower_event;
  op_start : hmap Z start_t;
  vma_dev_map : hmap Z Z;
  threshold_config : hmap Z Z;
  cfg_map : hmap Z mount_filter_cfg;
}.

Definition set_events (s : st) (x : list ioslower_event) : st :=
  St x (op_start s) (vma_dev_map s) (threshold_config s) (cfg_map s).
Definition set_op_start (s : st) (x : hmap Z start_t) : st :=
  St (events s) x (vma_dev_map s) (threshold_config s) (cfg_map s).
Definition set_vma_dev_map (s : st) (x : hmap Z Z) : st :=
  St (events s) (op_start s) x (threshold_config s) (cfg_map s).

Definition pass_mount_filter (s : st) (dev : Z) : bool :=
  match bpf_map_lookup_elem (cfg_map s) 0 with
  | None => true
  | Some cfg =>
      if enabled cfg =? 0 then true
      else
        let major := Z.shiftr dev 20 in
        let minor := Z.land dev (Z.shiftl 1 20 - 1) in
        (dev_major cfg =? major) && (dev_minor cfg =? minor)
  end.

(** ** Readers of kernel objects *)

Definition dev_from_path (m : kmem) (path : Z) : Z :=
  if path =? 0 then 0
  else
    let sb := dentry_d_sb m (path_dentry m path) in
    if sb =? 0 then 0 else sb_s_dev m sb.

Definition dev_from_file (m : kmem) (file : Z) : Z :=
  if file =? 0 then 0
  else
    let inode := file_f_inode m file in
    if inode =? 0 then 0
    else
      let sb := inode_i_sb m inode in
      if sb =? 0 then 0 else sb_s_dev m sb.

Definition dev_from_dentry (m : kmem) (dentry : Z) : Z :=
  if dentry =? 0 then 0
  else
    let sb := dentry_d_sb m dentry in
    if sb =? 0 then 0 else sb_s_dev m sb.

Definition dev_from_inode (m : kmem) (inode : Z) : Z :=
  if inode =? 0 then 0
  else
    let sb := inode_i_sb m inode in
    if sb =? 0 then 0 else sb_s_dev m sb.

Definition read_dentry_name (m : kmem) (dentry : Z) (dst : list Z) (dst_sz : Z)
  : option (list Z) :=
  if (dentry =? 0) || (dst_sz <=? 0) then store dst 0 0
  else
    let name := dentry_d_name m dentry in
    if name =? 0 then store dst 0 0
    else
      let '(r, dst) := probe_read_kernel_str m dst dst_sz name in
      if r <? 0 then store dst 0 0 else Some dst.

Definition read_path_name (m : kmem) (path : Z) (dst : list Z) (dst_sz : Z)
  : option (list Z) :=
  if path =? 0 then store dst 0 0
  else read_dentry_name m (path_dentry m path) dst dst_sz.

Definition read_file_name (m : kmem) (file : Z) (dst : list Z) (dst_sz : Z)
  : option (list Z) :=
  if file =? 0 then store dst 0 0
  else
    let dentry := file_path_dentry m file in
    read_dentry_name m dentry dst dst_sz.

(** ** Emitting and recording *)

(** memset of 256 zero bytes, then memcpy of the shorter buffer. *)
Definition copy_into_256 (src : list Z) : list Z :=
  src ++ drop (length src) (replicate 256 0).

(** The clock is read by [finish_event] first and by [emit_event] second. *)
Definition emit_event (e : kenv ioslower_event) (start : start_t) (delta_ns ret : Z) (s : st)
  : st :=
  match bpf_map_lookup_elem (threshold_config s) 0 with
  | None => s
  | Some threshold_us =>
      let delta_us := delta_ns / 1000 in
      if delta_us <? threshold_us then s
      else
        match reserve e 0 with
        | None => s
        | Some slot =>
            let ev := {|
              ev_ts := ktime e 1;
              ev_pid := u32 (Z.shiftr (pid_tgid e) 32);
              ev_uid := u32 (Z.land (uid_gid e) 0xffffffff);
              ev_gid := u32 (Z.shiftr (uid_gid e) 32);
              ev_delta_us := u32 delta_us;
              ev_type := st_type start;
              ev_pad1 := ev_pad1 slot; ev_pad2 := ev_pad2 slot;
              ev_ret := ret;
              ev_pad3 := ev_pad3 slot;
              ev_comm := comm e;
              ev_fname := copy_into_256 (st_fname start) |} in
            set_events s (events s ++ [ev])
        end
  end.

Definition start_or_drop (id : Z) (start : start_t) (s : st) : st :=
  if negb (pass_mount_filter s (st_dev start)) then s
  else set_op_start s (update_elem (op_start s) id start BPF_ANY).

Definition finish_event (e : kenv ioslower_event) (id ret : Z) (s : st) : st :=
  match bpf_map_lookup_elem (op_start s) id with
  | None => s
  | Some start =>
      let delta := u64 (ktime e 0 - st_ts start) in
      let s := emit_event e start delta ret s in
      set_op_start s (delete_elem (op_start s) id)
  end.
End Program.
