(* ===== verification/IoslowerProbes.v ===== *)
(** * ioslower: the probes of the kernel program

    One definition per SEC program of src/bpf/ioslower.bpf.c, in the order of
    the file, named as there.  A probe maps its environment, the arguments of
    the hooked function and the state to the new state; [None] would be a wild
    memory access.  Every program returns 0, which is left out. *)

From S2P Require Import Prelude Bpf IoslowerBpf.

Section Probes.
Context {RT : BpfRuntime}.
Abbreviation env := (kenv ioslower_event).

Definition trace_vfs_open_enter (e : env) (path file : Z) (s : st) : option st :=
  let ts := ktime e 0 in
  let dev := dev_from_path (mem e) path in
  fname ← read_path_name (mem e) path fname_zero sizeof_fname;
  Some (start_or_drop (pid_tgid e) (StartT ts SC_OPEN dev fname) s).

Definition trace_vfs_open_exit (e : env) (path file ret : Z) (s : st) : option st :=
  Some (finish_event e (pid_tgid e) ret s).

Definition trace_vfs_read_enter (e : env) (file buf count pos : Z) (s : st) : option st :=
  let ts := ktime e 0 in
  let dev := dev_from_file (mem e) file in
  fname ← read_file_name (mem e) file fname_zero sizeof_fname;
  Some (start_or_drop (pid_tgid e) (StartT ts SC_READ dev fname) s).

Definition trace_vfs_read_exit (e : env) (file buf count pos ret : Z) (s : st) : option st :=
  Some (finish_event e (pid_tgid e) (s32 ret) s).

Definition trace_vfs_write_enter (e : env) (file buf count pos : Z) (s : st) : option st :=
  let ts := ktime e 0 in
  let dev := dev_from_file (mem e) file in
  fname ← read_file_name (mem e) file fname_zero sizeof_fname;
  Some (start_or_drop (pid_tgid e) (StartT ts SC_WRITE dev fname) s).

Definition trace_vfs_write_exit (e : env) (file buf count pos ret : Z) (s : st) : option st :=
  Some (finish_event e (pid_tgid e) (s32 ret) s).

Definition trace_vfs_create_enter (e : env) (idmap dir dentry mode : Z) (want_excl : bool) (s : st) : option st :=
  let ts := ktime e 0 in
  let dev := dev_from_inode (mem e) dir in
  fname ← read_dentry_name (mem e) dentry fname_zero sizeof_fname;
  Some (start_or_drop (pid_tgid e) (StartT ts SC_CREATE dev fname) s).

Definition trace_vfs_create_exit (e : env) (idmap dir dentry mode : Z) (want_excl : bool) (ret : Z) (s : st) : option st :=
  Some (finish_event e (pid_tgid e) ret s).

Definition trace_vfs_mkdir_enter (e : env) (idmap dir dentry mode : Z) (s : st) : option st :=
  let ts := ktime e 0 in
  let dev := dev_from_inode (mem e) dir in
  fname ← read_dentry_name (mem e) dentry fname_zero sizeof_fname;
  Some (start_or_drop (pid_tgid e) (StartT ts SC_MKDIR dev fname) s).

Definition trace_vfs_mkdir_exit (e : env) (idmap dir dentry mode ret : Z) (s : st) : option st :=
  Some (finish_event e (pid_tgid e) ret s).

Definition trace_vfs_rmdir_enter (e : env) (idmap dir dentry : Z) (s : st) : option st :=
  let ts := ktime e 0 in
  let dev := dev_from_inode (mem e) dir in
  fname ← read_dentry_name (mem e) dentry fname_zero sizeof_fname;
  Some (start_or_drop (pid_tgid e) (StartT ts SC_RMDIR dev fname) s).

Definition trace_vfs_rmdir_exit (e : env) (idmap dir dentry ret : Z) (s : st) : option st :=
  Some (finish_event e (pid_tgid e) ret s).

Definition trace_vfs_symlink_enter (e : env) (idmap dir dentry oldname : Z) (s : st) : option st :=
  let ts := ktime e 0 in
  let dev := dev_from_inode (mem e) dir in
  fname ← read_dentry_name (mem e) dentry fname_zero sizeof_fname;
  Some (start_or_drop (pid_tgid e) (StartT ts SC_SYMLINK dev fname) s).

Definition trace_vfs_symlink_exit (e : env) (idmap dir dentry oldname ret : Z) (s : st) : option st :=
  Some (finish_event e (pid_tgid e) ret s).

Definition trace_vfs_rename_enter (e : env) (rd : Z) (s : st) : option st :=
  if rd =? 0 then Some s
  else
    let new_dentry := rd_new_dentry (mem e) rd in
    let ts := ktime e 0 in
    let dev :=
      if rd_has_new_parent (mem e)
      then dev_from_dentry (mem e) (rd_new_parent (mem e) rd)
      else dev_from_inode (mem e) (rd_legacy_new_dir (mem e) rd) in
    fname ← read_dentry_name (mem e) new_dentry fname_zero sizeof_fname;
    Some (start_or_drop (pid_tgid e) (StartT ts SC_RENAME dev fname) s).

Definition trace_vfs_rename_exit (e : env) (rd ret : Z) (s : st) : option st :=
  Some (finish_event e (pid_tgid e) ret s).

Definition trace_vfs_getattr_enter (e : env) (path stat request_mask query_flags : Z) (s : st) : option st :=
  if path =? 0 then Some s
  else
    let pth := path_copy (mem e) path in
    let ts := ktime e 0 in
    let dev := dev_from_path (mem e) pth in
    fname ← read_path_name (mem e) pth fname_zero sizeof_fname;
    Some (start_or_drop (pid_tgid e) (StartT ts SC_STAT dev fname) s).

Definition trace_vfs_getattr_exit (e : env) (path stat request_mask query_flags ret : Z) (s : st) : option st :=
  Some (finish_event e (pid_tgid e) ret s).

Definition trace_vfs_truncate_enter (e : env) (path length : Z) (s : st) : option st :=
  if path =? 0 then Some s
  else
    let pth := path_copy (mem e) path in
    let ts := ktime e 0 in
    let dev := dev_from_path (mem e) pth in
    fname ← read_path_name (mem e) pth fname_zero sizeof_fname;
    Some (start_or_drop (pid_tgid e) (StartT ts SC_TRUNCATE dev fname) s).

Definition trace_vfs_truncate_exit (e : env) (path length ret : Z) (s : st) : option st :=
  Some (finish_event e (pid_tgid e) ret s).

Definition trace_vfs_fchmod_enter (e : env) (file mode : Z) (s : st) : option st :=
  let ts := ktime e 0 in
  let dev := dev_from_file (mem e) file in
  fname ← read_file_name (mem e) file fname_zero sizeof_fname;
  Some (start_or_drop (pid_tgid e) (StartT ts SC_FCHMOD dev fname) s).

Definition trace_vfs_fchmod_exit (e : env) (file mode ret : Z) (s : st) : option st :=
  Some (finish_event e (pid_tgid e) ret s).

Definition trace_vfs_readlink_enter (e : env) (dentry buffer buflen : Z) (s : st) : option st :=
  let ts := ktime e 0 in
  let dev := dev_from_dentry (mem e) dentry in
  fname ← read_dentry_name (mem e) dentry fname_zero sizeof_fname;
  Some (start_or_drop (pid_tgid e) (StartT ts SC_READLINK dev fname) s).

Definition trace_vfs_readlink_exit (e : env) (dentry buffer buflen ret : Z) (s : st) : option st :=
  Some (finish_event e (pid_tgid e) ret s).

Definition trace_vfs_readv_enter (e : env) (file vec vlen pos flags : Z) (s : st) : option st :=
  let ts := ktime e 0 in
  let dev := dev_from_file (mem e) file in
  fname ← read_file_name (mem e) file fname_zero sizeof_fname;
  Some (start_or_drop (pid_tgid e) (StartT ts SC_READV dev fname) s).

Definition trace_vfs_readv_exit (e : env) (file vec vlen pos flags ret : Z) (s : st) : option st :=
  Some (finish_event e (pid_tgid e) (s32 ret) s).

Definition trace_vfs_writev_enter (e : env) (file vec vlen pos flags : Z) (s : st) : option st :=
  let ts := ktime e 0 in
  let dev := dev_from_file (mem e) file in
  fname ← read_file_name (mem e) file fname_zero sizeof_fname;
  Some (start_or_drop (pid_tgid e) (StartT ts SC_WRITEV dev fname) s).

Definition trace_vfs_writev_exit (e : env) (file vec vlen pos flags ret : Z) (s : st) : option st :=
  Some (finish_event e (pid_tgid e) (s32 ret) s).

(** ** Function probes that have no fentry variant, and the rest of the file *)

Definition trace_vfs_unlink_kp (e : env) (idmap dir dentry delegated_inode : Z) (s : st) : option st :=
  let ts := ktime e 0 in
  let dev := dev_from_inode (mem e) dir in
  fname ← read_dentry_name (mem e) dentry fname_zero sizeof_fname;
  Some (start_or_drop (pid_tgid e) (StartT ts SC_UNLINK dev fname) s).

Definition trace_vfs_unlink_krp (e : env) (ret : Z) (s : st) : option st :=
  Some (finish_event e (pid_tgid e) (s32 ret) s).

Definition trace_vfs_link_kp (e : env) (old_dentry idmap dir new_dentry delegated_inode : Z)
    (s : st) : option st :=
  let ts := ktime e 0 in
  let dev := dev_from_inode (mem e) dir in
  fname ← read_dentry_name (mem e) new_dentry fname_zero sizeof_fname;
  Some (start_or_drop (pid_tgid e) (StartT ts SC_LINK dev fname) s).

Definition trace_vfs_link_krp (e : env) (ret : Z) (s : st) : option st :=
  Some (finish_event e (pid_tgid e) (s32 ret) s).

Definition trace_vfs_fallocate_kp (e : env) (file mode offset len : Z) (s : st) : option st :=
  let ts := ktime e 0 in
  let dev := dev_from_file (mem e) file in
  fname ← read_file_name (mem e) file fname_zero sizeof_fname;
  Some (start_or_drop (pid_tgid e) (StartT ts SC_FALLOCATE dev fname) s).

Definition trace_vfs_fallocate_krp (e : env) (ret : Z) (s : st) : option st :=
  Some (finish_event e (pid_tgid e) (s32 ret) s).

Definition trace_iterate_dir_enter (e : env) (file dctx : Z) (s : st) : option st :=
  let ts := ktime e 0 in
  let dev := dev_from_file (mem e) file in
  fname ← read_file_name (mem e) file fname_zero sizeof_fname;
  Some (start_or_drop (pid_tgid e) (StartT ts SC_GETDENTS dev fname) s).

Definition trace_iterate_dir_exit (e : env) (file dctx ret : Z) (s : st) : option st :=
  Some (finish_event e (pid_tgid e) ret s).

Definition trace_do_mmap_kp (e : env) (file addr len prot flags : Z) (s : st) : option st :=
  if file =? 0 then Some s
  else
    let ts := ktime e 0 in
    let dev := dev_from_file (mem e) file in
    fname ← read_file_name (mem e) file fname_zero sizeof_fname;
    Some (start_or_drop (pid_tgid e) (StartT ts SC_MMAP dev fname) s).

(** [((__u64)pid << 32) | (addr >> 12)] *)
Definition vma_key (id addr : Z) : Z :=
  let pid := u32 (Z.shiftr id 32) in
  Z.lor (u64 (Z.shiftl pid 32)) (Z.shiftr addr 12).

(** [ret] is an [unsigned long]; [(long)ret] is its signed reading. *)
Definition trace_do_mmap_krp (e : env) (ret : Z) (s : st) : option st :=
  let id := pid_tgid e in
  let s :=
    match bpf_map_lookup_elem (op_start s) id with
    | Some start =>
        if 0 <? s64 ret then
          let dev := st_dev start in
          set_vma_dev_map s (update_elem (vma_dev_map s) (vma_key id ret) dev BPF_ANY)
        else s
    | None => s
    end in
  Some (finish_event e id (if 0 <? s64 ret then 0 else s32 (s64 ret)) s).

Definition trace_vm_munmap_kp (e : env) (start len : Z) (s : st) : option st :=
  let id := pid_tgid e in
  let key := vma_key id start in
  let dev :=
    match bpf_map_lookup_elem (vma_dev_map s) key with
    | Some dev => dev
    | None => 0
    end in
  let s := set_vma_dev_map s (delete_elem (vma_dev_map s) key) in
  let ts := ktime e 0 in
  fname ← store fname_zero 0 0;
  Some (start_or_drop id (StartT ts SC_MUNMAP dev fname) s).

Definition trace_vm_munmap_krp (e : env) (ret : Z) (s : st) : option st :=
  Some (finish_event e (pid_tgid e) (s32 ret) s).

Definition trace_vfs_lock_file_enter (e : env) (filp cmd fl conf : Z) (s : st) : option st :=
  let ts := ktime e 0 in
  let dev := dev_from_file (mem e) filp in
  fname ← read_file_name (mem e) filp fname_zero sizeof_fname;
  Some (start_or_drop (pid_tgid e) (StartT ts SC_LOCK_FCNTL dev fname) s).

Definition trace_vfs_lock_file_exit (e : env) (filp cmd fl conf ret : Z) (s : st) : option st :=
  Some (finish_event e (pid_tgid e) ret s).

(** ** kprobe and kretprobe fallbacks *)

(** The macro DEFINE_KRETPROBE_FALLBACK, and its uses. *)
Definition kretprobe_fallback (e : env) (ret : Z) (s : st) : option st :=
  Some (finish_event e (pid_tgid e) (s32 ret) s).

Definition trace_vfs_open_kprobe_fallback (e : env) (path file : Z) :=
  trace_vfs_open_enter e path file.
Definition trace_vfs_open_kretprobe_fallback := kretprobe_fallback.

Definition trace_vfs_read_kprobe_fallback (e : env) (file buf count pos : Z) :=
  trace_vfs_read_enter e file buf count pos.
Definition trace_vfs_read_kretprobe_fallback := kretprobe_fallback.

Definition trace_vfs_write_kprobe_fallback (e : env) (file buf count pos : Z) :=
  trace_vfs_write_enter e file buf count pos.
Definition trace_vfs_write_kretprobe_fallback := kretprobe_fallback.

Definition trace_vfs_create_kprobe_fallback (e : env) (idmap dir dentry mode : Z)
    (want_excl : bool) :=
  trace_vfs_create_enter e idmap dir dentry mode want_excl.
Definition trace_vfs_create_legacy_fallback (e : env) (idmap dir dentry mode : Z) :=
  trace_vfs_create_enter e idmap dir dentry mode false.
Definition trace_vfs_create_kretprobe_fallback := kretprobe_fallback.

Definition trace_vfs_mkdir_kprobe_fallback (e : env) (idmap dir dentry mode : Z) :=
  trace_vfs_mkdir_enter e idmap dir dentry mode.
Definition trace_vfs_mkdir_kretprobe_fallback := kretprobe_fallback.

Definition trace_vfs_rmdir_kprobe_fallback (e : env) (idmap dir dentry : Z) :=
  trace_vfs_rmdir_enter e idmap dir dentry.
Definition trace_vfs_rmdir_kretprobe_fallback := kretprobe_fallback.

Definition trace_vfs_symlink_kprobe_fallback (e : env) (idmap dir dentry oldname : Z) :=
  trace_vfs_symlink_enter e idmap dir dentry oldname.
Definition trace_vfs_symlink_kretprobe_fallback := kretprobe_fallback.

Definition trace_vfs_rename_kprobe_fallback (e : env) (rd : Z) :=
  trace_vfs_rename_enter e rd.
Definition trace_vfs_rename_kretprobe_fallback := kretprobe_fallback.

Definition trace_vfs_rename_legacy_kprobe_fallback (e : env)
    (old_dir old_dentry new_dir new_dentry : Z) (s : st) : option st :=
  let ts := ktime e 0 in
  let dev := dev_from_inode (mem e) new_dir in
  fname ← read_dentry_name (mem e) new_dentry fname_zero sizeof_fname;
  Some (start_or_drop (pid_tgid e) (StartT ts SC_RENAME dev fname) s).
Definition trace_vfs_rename_legacy_kretprobe_fallback := kretprobe_fallback.

Definition trace_vfs_getattr_kprobe_fallback (e : env) (path stat request_mask query_flags : Z) :=
  trace_vfs_getattr_enter e path stat request_mask query_flags.
Definition trace_vfs_getattr_kretprobe_fallback := kretprobe_fallback.

Definition trace_vfs_truncate_kprobe_fallback (e : env) (path length : Z) :=
  trace_vfs_truncate_enter e path length.
Definition trace_vfs_truncate_kretprobe_fallback := kretprobe_fallback.

Definition trace_vfs_fchmod_kprobe_fallback (e : env) (file mode : Z) :=
  trace_vfs_fchmod_enter e file mode.
Definition trace_vfs_fchmod_kretprobe_fallback := kretprobe_fallback.

Definition trace_vfs_readlink_kprobe_fallback (e : env) (dentry buffer buflen : Z) :=
  trace_vfs_readlink_enter e dentry buffer buflen.
Definition trace_vfs_readlink_kretprobe_fallback := kretprobe_fallback.

Definition trace_vfs_readv_kprobe_fallback (e : env) (file vec vlen pos flags : Z) :=
  trace_vfs_readv_enter e file vec vlen pos flags.
Definition trace_vfs_readv_kretprobe_fallback := kretprobe_fallback.

Definition trace_vfs_writev_kprobe_fallback (e : env) (file vec vlen pos flags : Z) :=
  trace_vfs_writev_enter e file vec vlen pos flags.
Definition trace_vfs_writev_kretprobe_fallback := kretprobe_fallback.

Definition trace_iterate_dir_kprobe_fallback (e : env) (file dctx : Z) :=
  trace_iterate_dir_enter e file dctx.
Definition trace_iterate_dir_kretprobe_fallback := kretprobe_fallback.

Definition trace_vfs_lock_file_kprobe_fallback (e : env) (filp cmd fl conf : Z) :=
  trace_vfs_lock_file_enter e filp cmd fl conf.
Definition trace_vfs_lock_file_kretprobe_fallback := kretprobe_fallback.
End Probes.
