(* ===== verification/IoslowerSpec.v ===== *)
(** * ioslower: what its probes record and report

    [describe] says what the entry of a call records, [entry_refines] and
    [exit_refines] that the attached programs run without a fault and do just
    that.  The name readers are those of iosnoop, so their lemmas serve here. *)

From S2P Require Import Prelude Bpf Hooks IosnoopFmt IosnoopBpf IosnoopProbes IosnoopSpec.
From S2P Require Import IoslowerBpf IoslowerProbes.

(** The operation type of a call. *)
Definition slow_type (c : kcall) : Z :=
  match c with
  | VfsOpen _ _ => SC_OPEN
  | VfsRead _ _ _ _ => SC_READ
  | VfsWrite _ _ _ _ => SC_WRITE
  | VfsCreate _ _ _ _ _ | VfsCreate4 _ _ _ _ => SC_CREATE
  | VfsMkdir _ _ _ _ => SC_MKDIR
  | VfsRmdir _ _ _ => SC_RMDIR
  | VfsSymlink _ _ _ _ => SC_SYMLINK
  | VfsRename _ | VfsRename6 _ _ _ _ => SC_RENAME
  | VfsGetattr _ _ _ _ => SC_STAT
  | VfsTruncate _ _ => SC_TRUNCATE
  | VfsFchmod _ _ => SC_FCHMOD
  | VfsReadlink _ _ _ => SC_READLINK
  | VfsReadv _ _ _ _ _ => SC_READV
  | VfsWritev _ _ _ _ _ => SC_WRITEV
  | VfsUnlink _ _ _ _ => SC_UNLINK
  | VfsLink _ _ _ _ _ => SC_LINK
  | VfsFallocate _ _ _ _ => SC_FALLOCATE
  | IterateDir _ _ => SC_GETDENTS
  | DoMmap _ _ _ _ _ => SC_MMAP
  | VmMunmap _ _ => SC_MUNMAP
  | VfsLockFile _ _ _ _ => SC_LOCK_FCNTL
  end.

(** The device and the name of a call; [None]: nothing is recorded. *)
Definition slow_target (m : kmem) (vma : Z -> option Z) (id : Z) (c : kcall)
  : option (Z * list Z) :=
  let file_op f := Some (dev_from_file m f, file_name m f) in
  let inode_op dir d := Some (dev_from_inode m dir, dentry_name m d 96) in
  let path_op p := Some (dev_from_path m p, path_name m p) in
  match c with
  | VfsOpen p _ => path_op p
  | VfsRead f _ _ _ | VfsWrite f _ _ _ | VfsFchmod f _ | VfsReadv f _ _ _ _
  | VfsWritev f _ _ _ _ | VfsFallocate f _ _ _ | IterateDir f _
  | VfsLockFile f _ _ _ => file_op f
  | VfsCreate _ dir d _ _ | VfsCreate4 _ dir d _ | VfsMkdir _ dir d _ | VfsRmdir _ dir d
  | VfsSymlink _ dir d _ | VfsUnlink _ dir d _ | VfsLink _ _ dir d _
  | VfsRename6 _ _ dir d => inode_op dir d
  | VfsRename rd =>
      if rd =? 0 then None
      else Some (if rd_has_new_parent m then dev_from_dentry m (rd_new_parent m rd)
                 else dev_from_inode m (rd_legacy_new_dir m rd),
                 dentry_name m (rd_new_dentry m rd) 96)
  | VfsGetattr p _ _ _ | VfsTruncate p _ => if p =? 0 then None else path_op p
  | VfsReadlink d _ _ => Some (dev_from_dentry m d, dentry_name m d 96)
  | DoMmap f _ _ _ _ => if f =? 0 then None else file_op f
  | VmMunmap start _ => Some (default 0 (vma (vma_key id start)), [])
  end.

(** The record of an entry at time [ts]. *)
Definition start_of (ts ty : Z) (d : Z * list Z) : start_t := StartT ts ty d.1 (pad 96 d.2).

Section Spec.
Context {RT : BpfRuntime}.

Abbreviation env := (kenv ioslower_event).

Definition entry_probe (use_fentry : bool) (c : kcall) : env -> st -> option st :=
  fun e =>
  match c with
  | VfsOpen p f =>
      if use_fentry then trace_vfs_open_enter e p f else trace_vfs_open_kprobe_fallback e p f
  | VfsRead f b n p =>
      if use_fentry then trace_vfs_read_enter e f b n p
      else trace_vfs_read_kprobe_fallback e f b n p
  | VfsWrite f b n p =>
      if use_fentry then trace_vfs_write_enter e f b n p
      else trace_vfs_write_kprobe_fallback e f b n p
  | VfsCreate i dir d m x =>
      if use_fentry then trace_vfs_create_enter e i dir d m x
      else trace_vfs_create_kprobe_fallback e i dir d m x
  | VfsCreate4 i dir d m => trace_vfs_create_legacy_fallback e i dir d m
  | VfsMkdir i dir d m =>
      if use_fentry then trace_vfs_mkdir_enter e i dir d m
      else trace_vfs_mkdir_kprobe_fallback e i dir d m
  | VfsRmdir i dir d =>
      if use_fentry then trace_vfs_rmdir_enter e i dir d
      else trace_vfs_rmdir_kprobe_fallback e i dir d
  | VfsSymlink i dir d o =>
      if use_fentry then trace_vfs_symlink_enter e i dir d o
      else trace_vfs_symlink_kprobe_fallback e i dir d o
  | VfsRename rd =>
      if use_fentry then trace_vfs_rename_enter e rd else trace_vfs_rename_kprobe_fallback e rd
  | VfsRename6 od ode nd nde => trace_vfs_rename_legacy_kprobe_fallback e od ode nd nde
  | VfsGetattr p x m q =>
      if use_fentry then trace_vfs_getattr_enter e p x m q
      else trace_vfs_getattr_kprobe_fallback e p x m q
  | VfsTruncate p l =>
      if use_fentry then trace_vfs_truncate_enter e p l
      else trace_vfs_truncate_kprobe_fallback e p l
  | VfsFchmod f m =>
      if use_fentry then trace_vfs_fchmod_enter e f m
      else trace_vfs_fchmod_kprobe_fallback e f m
  | VfsReadlink d b l =>
      if use_fentry then trace_vfs_readlink_enter e d b l
      else trace_vfs_readlink_kprobe_fallback e d b l
  | VfsReadv f v n p fl =>
      if use_fentry then trace_vfs_readv_enter e f v n p fl
      else trace_vfs_readv_kprobe_fallback e f v n p fl
  | VfsWritev f v n p fl =>
      if use_fentry then trace_vfs_writev_enter e f v n p fl
      else trace_vfs_writev_kprobe_fallback e f v n p fl
  | VfsUnlink i dir d x => trace_vfs_unlink_kp e i dir d x
  | VfsLink o i dir d x => trace_vfs_link_kp e o i dir d x
  | VfsFallocate f m o l => trace_vfs_fallocate_kp e f m o l
  | IterateDir f x =>
      if use_fentry then trace_iterate_dir_enter e f x
      else trace_iterate_dir_kprobe_fallback e f x
  | DoMmap f a l p fl => trace_do_mmap_kp e f a l p fl
  | VmMunmap a l => trace_vm_munmap_kp e a l
  | VfsLockFile f c fl x =>
      if use_fentry then trace_vfs_lock_file_enter e f c fl x
      else trace_vfs_lock_file_kprobe_fallback e f c fl x
  end.

Definition exit_probe (use_fentry : bool) (c : kcall) (e : env) (ret : Z) (s : st)
  : option st :=
  match c with
  | VfsOpen p f =>
      if use_fentry then trace_vfs_open_exit e p f ret s
      else trace_vfs_open_kretprobe_fallback e ret s
  | VfsRead f b n p =>
      if use_fentry then trace_vfs_read_exit e f b n p ret s
      else trace_vfs_read_kretprobe_fallback e ret s
  | VfsWrite f b n p =>
      if use_fentry then trace_vfs_write_exit e f b n p ret s
      else trace_vfs_write_kretprobe_fallback e ret s
  | VfsCreate i dir d m x =>
      if use_fentry then trace_vfs_create_exit e i dir d m x ret s
      else trace_vfs_create_kretprobe_fallback e ret s
  | VfsCreate4 _ _ _ _ => trace_vfs_create_kretprobe_fallback e ret s
  | VfsMkdir i dir d m =>
      if use_fentry then trace_vfs_mkdir_exit e i dir d m ret s
      else trace_vfs_mkdir_kretprobe_fallback e ret s
  | VfsRmdir i dir d =>
      if use_fentry then trace_vfs_rmdir_exit e i dir d ret s
      else trace_vfs_rmdir_kretprobe_fallback e ret s
  | VfsSymlink i dir d o =>
      if use_fentry then trace_vfs_symlink_exit e i dir d o ret s
      else trace_vfs_symlink_kretprobe_fallback e ret s
  | VfsRename rd =>
      if use_fentry then trace_vfs_rename_exit e rd ret s
      else
        s ← trace_vfs_rename_kretprobe_fallback e ret s;
        trace_vfs_rename_legacy_kretprobe_fallback e ret s
  | VfsRename6 _ _ _ _ =>
      s ← trace_vfs_rename_kretprobe_fallback e ret s;
      trace_vfs_rename_legacy_kretprobe_fallback e ret s
  | VfsGetattr p t m q =>
      if use_fentry then trace_vfs_getattr_exit e p t m q ret s
      else trace_vfs_getattr_kretprobe_fallback e ret s
  | VfsTruncate p l =>
      if use_fentry then trace_vfs_truncate_exit e p l ret s
      else trace_vfs_truncate_kretprobe_fallback e ret s
  | VfsFchmod f m =>
      if use_fentry then trace_vfs_fchmod_exit e f m ret s
      else trace_vfs_fchmod_kretprobe_fallback e ret s
  | VfsReadlink d b l =>
      if use_fentry then trace_vfs_readlink_exit e d b l ret s
      else trace_vfs_readlink_kretprobe_fallback e ret s
  | VfsReadv f v n p fl =>
      if use_fentry then trace_vfs_readv_exit e f v n p fl ret s
      else trace_vfs_readv_kretprobe_fallback e ret s
  | VfsWritev f v n p fl =>
      if use_fentry then trace_vfs_writev_exit e f v n p fl ret s
      else trace_vfs_writev_kretprobe_fallback e ret s
  | VfsUnlink _ _ _ _ => trace_vfs_unlink_krp e ret s
  | VfsLink _ _ _ _ _ => trace_vfs_link_krp e ret s
  | VfsFallocate _ _ _ _ => trace_vfs_fallocate_krp e ret s
  | IterateDir f x =>
      if use_fentry then trace_iterate_dir_exit e f x ret s
      else trace_iterate_dir_kretprobe_fallback e ret s
  | DoMmap _ _ _ _ _ => trace_do_mmap_krp e ret s
  | VmMunmap _ _ => trace_vm_munmap_krp e ret s
  | VfsLockFile f c fl x =>
      if use_fentry then trace_vfs_lock_file_exit e f c fl x ret s
      else trace_vfs_lock_file_kretprobe_fallback e ret s
  end.

(** ** Specification of the two *)

Definition pre_entry (e : env) (c : kcall) (s : st) : st :=
  match c with
  | VmMunmap start _ =>
      set_vma_dev_map s (delete_elem (vma_dev_map s) (vma_key (pid_tgid e) start))
  | _ => s
  end.

Definition spec_entry (e : env) (c : kcall) (s : st) : st :=
  match slow_target (mem e) (bpf_map_lookup_elem (vma_dev_map s)) (pid_tgid e) c with
  | None => s
  | Some d => start_or_drop (pid_tgid e) (start_of (ktime e 0) (slow_type c) d) (pre_entry e c s)
  end.

Definition exit_value (c : kcall) (ret : Z) : Z :=
  match c with
  | DoMmap _ _ _ _ _ => if 0 <? s64 ret then 0 else s32 (s64 ret)
  | _ => s32 ret
  end.

(** A successful [do_mmap] remembers the device of whatever operation its
    thread has in flight. *)
Definition pre_exit (e : env) (c : kcall) (ret : Z) (s : st) : st :=
  match c with
  | DoMmap _ _ _ _ _ =>
      match bpf_map_lookup_elem (op_start s) (pid_tgid e) with
      | Some start =>
          if 0 <? s64 ret then
            set_vma_dev_map s
              (update_elem (vma_dev_map s) (vma_key (pid_tgid e) ret) (st_dev start) BPF_ANY)
          else s
      | None => s
      end
  | _ => s
  end.

Definition spec_exit (e : env) (c : kcall) (ret : Z) (s : st) : st :=
  finish_event e (pid_tgid e) (exit_value c ret) (pre_exit e c ret s).

(** ** The programs refine it *)

Lemma slow_name_zero m d :
  kmem_ok m ->
  read_dentry_name m d fname_zero sizeof_fname = Some (pad 96 (dentry_name m d 96)).
Proof. exact (read_name_zero m d). Qed.

Lemma slow_file_name_zero m f :
  kmem_ok m -> read_file_name m f fname_zero sizeof_fname = Some (pad 96 (file_name m f)).
Proof. exact (read_file_name_zero m f). Qed.

Lemma slow_path_name_zero m p :
  kmem_ok m -> read_path_name m p fname_zero sizeof_fname = Some (pad 96 (path_name m p)).
Proof. exact (read_path_name_zero m p). Qed.

Lemma slow_path_copy m p :
  kmem_ok m -> p <> 0 ->
  dev_from_path m (path_copy m p) = dev_from_path m p /\
  path_name m (path_copy m p) = path_name m p.
Proof.
  intros Hm Hp. destruct (path_copy_ok m Hm p) as [Hc Hd].
  unfold dev_from_path, path_name. apply Z.eqb_neq in Hp, Hc. by rewrite Hp, Hc, Hd.
Qed.

Ltac slow_step :=
  first [ rewrite slow_file_name_zero by assumption
        | rewrite slow_path_name_zero by assumption
        | rewrite slow_name_zero by assumption ]; cbn [mbind option_bind].

Lemma slow_entry_refines b c e s : env_ok e -> entry_probe b c e s = Some (spec_entry e c s).
Proof.
  intros He. pose proof (mem_ok e He) as Hm.
  assert (entry_probe b c e s = entry_probe true c e s) as -> by (destruct b, c; reflexivity).
  unfold spec_entry. destruct c; cbn [entry_probe slow_target pre_entry slow_type];
    unfold trace_vfs_open_enter, trace_vfs_read_enter, trace_vfs_write_enter,
      trace_vfs_create_enter, trace_vfs_create_legacy_fallback, trace_vfs_mkdir_enter,
      trace_vfs_rmdir_enter, trace_vfs_symlink_enter, trace_vfs_rename_enter,
      trace_vfs_rename_legacy_kprobe_fallback, trace_vfs_getattr_enter,
      trace_vfs_truncate_enter, trace_vfs_fchmod_enter, trace_vfs_readlink_enter,
      trace_vfs_readv_enter, trace_vfs_writev_enter, trace_vfs_unlink_kp,
      trace_vfs_link_kp, trace_vfs_fallocate_kp, trace_iterate_dir_enter,
      trace_do_mmap_kp, trace_vm_munmap_kp, trace_vfs_lock_file_enter,
      trace_vfs_create_enter; cbv zeta; try (repeat slow_step; done).
  - destruct (rd =? 0); [done|]. by slow_step.
  - destruct (Z.eqb_spec path 0) as [|Hp]; [done|].
    destruct (slow_path_copy (mem e) path Hm Hp) as [-> Hn]. slow_step. by rewrite Hn.
  - destruct (Z.eqb_spec path 0) as [|Hp]; [done|].
    destruct (slow_path_copy (mem e) path Hm Hp) as [-> Hn]. slow_step. by rewrite Hn.
  - destruct (file =? 0); [done|]. by slow_step.
Qed.
End Spec.
