(* ===== verification/IoslowerTrace.v ===== *)
(** * ioslower: executions of the kernel program

    Executions are sequences of entries and returns, as for iosnoop.  The
    theorems: no execution faults and the reachable states keep an invariant;
    a call reports an event exactly when its latency reaches the threshold;
    and, because an operation in flight is kept under its thread alone, what a
    hooked call nested in another one does to the report of the outer one. *)

From S2P Require Import Prelude Bpf Hooks IosnoopFmt IosnoopBpf IosnoopSpec.
From S2P Require Import IoslowerBpf IoslowerProbes IoslowerSpec.

Section Trace.
Context {RT : BpfRuntime} {RL : BpfRuntimeLaws RT}.

Abbreviation env := (kenv ioslower_event).

Inductive label :=
| Enter (e : env) (c : kcall)
| Leave (e : env) (c : kcall) (ret : Z).

Definition label_ok (l : label) : Prop :=
  match l with
  | Enter e _ => env_ok e
  | Leave e c ret => env_ok e /\ ret_ok c ret
  end.

Definition label_thread (l : label) : Z :=
  match l with Enter e _ | Leave e _ _ => pid_tgid e end.

Definition step (b : bool) (s : st) (l : label) : option st :=
  match l with
  | Enter e c => entry_probe b c e s
  | Leave e c ret => exit_probe b c e ret s
  end.

Fixpoint exec (b : bool) (ls : list label) (s : st) : option st :=
  match ls with
  | [] => Some s
  | l :: ls => s ← step b s l; exec b ls s
  end.

Definition spec_step (s : st) (l : label) : st :=
  match l with
  | Enter e c => spec_entry e c s
  | Leave e c ret => spec_exit e c ret s
  end.

Definition spec_exec (ls : list label) (s : st) : st := fold_left spec_step ls s.

(** ** Core operations *)

Lemma slow_emit_fields (e : env) start delta ret s :
  op_start (emit_event e start delta ret s) = op_start s /\
  cfg_map (emit_event e start delta ret s) = cfg_map s /\
  threshold_config (emit_event e start delta ret s) = threshold_config s.
Proof. unfold emit_event. repeat case_match; done. Qed.

Lemma slow_finish_none (e : env) id ret s :
  bpf_map_lookup_elem (op_start s) id = None -> finish_event e id ret s = s.
Proof. unfold finish_event. by intros ->. Qed.

Lemma slow_finish_lookup (e : env) id ret s k :
  bpf_map_lookup_elem (op_start (finish_event e id ret s)) k =
  if decide (id = k) then None else bpf_map_lookup_elem (op_start s) k.
Proof.
  unfold finish_event. destruct (bpf_map_lookup_elem (op_start s) id) as [x|] eqn:Hl.
  - cbn [set_op_start op_start].
    destruct (slow_emit_fields e x (u64 (ktime e 0 - st_ts x)) ret s) as [-> _].
    apply lookup_delete_elem.
  - case_decide; [by subst|done].
Qed.

Lemma slow_finish_twice (e e' : env) id ret ret' s :
  finish_event e' id ret' (finish_event e id ret s) = finish_event e id ret s.
Proof. apply slow_finish_none. rewrite slow_finish_lookup. by rewrite decide_True. Qed.

Lemma slow_finish_cfg (e : env) id ret s :
  cfg_map (finish_event e id ret s) = cfg_map s /\
  threshold_config (finish_event e id ret s) = threshold_config s.
Proof.
  unfold finish_event. destruct (bpf_map_lookup_elem _ _) as [x|]; [|done].
  apply slow_emit_fields.
Qed.

Lemma slow_filter_cfg s s' dev :
  cfg_map s' = cfg_map s -> pass_mount_filter s' dev = pass_mount_filter s dev.
Proof. intros H. unfold pass_mount_filter. by rewrite H. Qed.

Lemma slow_start_fields id x s :
  cfg_map (start_or_drop id x s) = cfg_map s /\
  threshold_config (start_or_drop id x s) = threshold_config s /\
  events (start_or_drop id x s) = events s.
Proof. unfold start_or_drop. by destruct (pass_mount_filter s (st_dev x)). Qed.

Lemma slow_pre_entry_fields e c s :
  cfg_map (pre_entry e c s) = cfg_map s /\ op_start (pre_entry e c s) = op_start s /\
  threshold_config (pre_entry e c s) = threshold_config s /\
  events (pre_entry e c s) = events s.
Proof. by destruct c. Qed.

Lemma slow_pre_exit_fields e c ret s :
  cfg_map (pre_exit e c ret s) = cfg_map s /\ op_start (pre_exit e c ret s) = op_start s /\
  threshold_config (pre_exit e c ret s) = threshold_config s /\
  events (pre_exit e c ret s) = events s.
Proof.
  destruct c; try done. cbn [pre_exit]. destruct (bpf_map_lookup_elem _ _); [|done].
  by destruct (0 <? s64 ret).
Qed.

Lemma slow_pre_exit_none e c ret s :
  bpf_map_lookup_elem (op_start s) (pid_tgid e) = None -> pre_exit e c ret s = s.
Proof. intros Hn. destruct c; try done. cbn [pre_exit]. by rewrite Hn. Qed.

Lemma slow_exit_refines b c e ret s :
  ret_ok c ret -> exit_probe b c e ret s = Some (spec_exit e c ret s).
Proof.
  intros Hr. unfold spec_exit.
  assert (fits_s 32 ret -> s32 ret = ret) as H32 by (apply wraps_small; lia).
  destruct c; cbn [exit_probe exit_value pre_exit ret_ok] in *;
    try (destruct b; cbn [mbind option_bind];
         unfold trace_vfs_rename_kretprobe_fallback,
           trace_vfs_rename_legacy_kretprobe_fallback, kretprobe_fallback;
         cbn [mbind option_bind]; rewrite ?slow_finish_twice;
         try reflexivity; unfold trace_vfs_open_exit, trace_vfs_create_exit,
           trace_vfs_mkdir_exit, trace_vfs_rmdir_exit, trace_vfs_symlink_exit,
           trace_vfs_rename_exit, trace_vfs_getattr_exit, trace_vfs_truncate_exit,
           trace_vfs_fchmod_exit, trace_vfs_readlink_exit, trace_iterate_dir_exit,
           trace_vfs_lock_file_exit;
         by rewrite H32).
Qed.

Lemma slow_step_refines b s l : label_ok l -> step b s l = Some (spec_step s l).
Proof.
  destruct l as [e c|e c ret]; simpl.
  - apply slow_entry_refines.
  - intros [_ Hr]. by apply slow_exit_refines.
Qed.

Lemma slow_exec_spec b ls s : Forall label_ok ls -> exec b ls s = Some (spec_exec ls s).
Proof.
  intros Hls. revert s. induction Hls as [|l ls Hl Hls IH]; intros s; [done|].
  cbn [exec]. rewrite slow_step_refines by done. cbn [mbind option_bind]. apply IH.
Qed.

Lemma slow_exec_cons l ls s : spec_exec (l :: ls) s = spec_exec ls (spec_step s l).
Proof. done. Qed.

Lemma slow_exec_snoc ls l s : spec_exec (ls ++ [l]) s = spec_step (spec_exec ls s) l.
Proof. apply fold_left_app. Qed.

(** C14. Memory safety and refinement of every execution of ioslower, in both
    program families. *)
Theorem slow_exec_refines b ls s :
  Forall label_ok ls ->
  exec b ls s = Some (spec_exec ls s) /\ exec (negb b) ls s = exec b ls s.
Proof. intros Hls. by rewrite !slow_exec_spec. Qed.

(** ** The effect of a step *)

Lemma slow_entry_lookup e c s k x :
  bpf_map_lookup_elem (op_start (spec_entry e c s)) k = Some x ->
  bpf_map_lookup_elem (op_start s) k = Some x \/
  exists d, slow_target (mem e) (bpf_map_lookup_elem (vma_dev_map s)) (pid_tgid e) c = Some d /\
    k = pid_tgid e /\ x = start_of (ktime e 0) (slow_type c) d /\
    pass_mount_filter s d.1 = true.
Proof.
  unfold spec_entry. destruct (slow_target _ _ _ c) as [d|] eqn:Hd; [|by left].
  destruct (slow_pre_entry_fields e c s) as (Hcfg & Hop & _ & _). unfold start_or_drop.
  rewrite (slow_filter_cfg _ _ _ Hcfg). cbn [start_of st_dev].
  destruct (pass_mount_filter s d.1) eqn:Hp; simpl; rewrite Hop; [|by left].
  intros [[-> ->]|]%lookup_update_inv; [|by left]. right. eauto.
Qed.

Lemma slow_entry_other e c s k :
  k <> pid_tgid e ->
  bpf_map_lookup_elem (op_start (spec_entry e c s)) k = bpf_map_lookup_elem (op_start s) k.
Proof.
  intros Hk. unfold spec_entry. destruct (slow_target _ _ _ c) as [d|]; [|done].
  destruct (slow_pre_entry_fields e c s) as (_ & Hop & _). unfold start_or_drop.
  destruct (pass_mount_filter _ _); simpl; [|by rewrite Hop].
  by rewrite lookup_update_ne, Hop.
Qed.

Lemma slow_exit_lookup e c ret s k :
  bpf_map_lookup_elem (op_start (spec_exit e c ret s)) k =
  if decide (pid_tgid e = k) then None else bpf_map_lookup_elem (op_start s) k.
Proof.
  unfold spec_exit. rewrite slow_finish_lookup.
  by destruct (slow_pre_exit_fields e c ret s) as (_ & -> & _).
Qed.

Lemma slow_step_other s l k :
  label_thread l <> k ->
  bpf_map_lookup_elem (op_start (spec_step s l)) k = bpf_map_lookup_elem (op_start s) k.
Proof.
  destruct l; simpl; intros Hk; [by apply slow_entry_other|].
  rewrite slow_exit_lookup. by rewrite decide_False.
Qed.

Lemma slow_exec_other ls s k :
  Forall (fun l => label_thread l <> k) ls ->
  bpf_map_lookup_elem (op_start (spec_exec ls s)) k = bpf_map_lookup_elem (op_start s) k.
Proof.
  intros Hls. revert s. induction Hls as [|l ls Hl Hls IH]; intros s; [done|].
  rewrite slow_exec_cons, IH. by apply slow_step_other.
Qed.

Lemma slow_step_config s l :
  cfg_map (spec_step s l) = cfg_map s /\ threshold_config (spec_step s l) = threshold_config s.
Proof.
  destruct l as [e c|e c ret]; cbn [spec_step].
  - destruct (slow_pre_entry_fields e c s) as (H1 & _ & H2 & _).
    unfold spec_entry. destruct (slow_target _ _ _ c) as [d|]; [|done].
    destruct (slow_start_fields (pid_tgid e) (start_of (ktime e 0) (slow_type c) d)
      (pre_entry e c s)) as (-> & -> & _). done.
  - destruct (slow_pre_exit_fields e c ret s) as (H1 & _ & H2 & _). unfold spec_exit.
    destruct (slow_finish_cfg e (pid_tgid e) (exit_value c ret) (pre_exit e c ret s))
      as [-> ->]. done.
Qed.

Lemma slow_exec_config ls s :
  cfg_map (spec_exec ls s) = cfg_map s /\ threshold_config (spec_exec ls s) = threshold_config s.
Proof.
  revert s. induction ls as [|l ls IH]; intros s; [done|]. rewrite slow_exec_cons.
  destruct (IH (spec_step s l)) as [-> ->]. apply slow_step_config.
Qed.

Lemma slow_entry_records e c d s :
  slow_target (mem e) (bpf_map_lookup_elem (vma_dev_map s)) (pid_tgid e) c = Some d ->
  pass_mount_filter s d.1 = true -> has_room (op_start s) (pid_tgid e) ->
  bpf_map_lookup_elem (op_start (spec_entry e c s)) (pid_tgid e) =
  Some (start_of (ktime e 0) (slow_type c) d).
Proof.
  intros Hd Hp Hroom. unfold spec_entry. rewrite Hd. unfold start_or_drop.
  destruct (slow_pre_entry_fields e c s) as (Hcfg & Hop & _).
  rewrite (slow_filter_cfg _ _ _ Hcfg). cbn [start_of st_dev]. rewrite Hp. simpl.
  rewrite Hop. by apply lookup_update_any.
Qed.

(** A call that has no target, or whose device is rejected, leaves the
    operation in flight of its thread in place. *)
Definition slow_ignored (e : env) (c : kcall) (s : st) : Prop :=
  match slow_target (mem e) (bpf_map_lookup_elem (vma_dev_map s)) (pid_tgid e) c with
  | Some d => pass_mount_filter s d.1 = false
  | None => True
  end.

Lemma slow_entry_ignored e c s :
  slow_ignored e c s -> op_start (spec_entry e c s) = op_start s.
Proof.
  unfold slow_ignored, spec_entry. destruct (slow_target _ _ _ c) as [d|]; [|done].
  destruct (slow_pre_entry_fields e c s) as (Hcfg & Hop & _). unfold start_or_drop.
  rewrite (slow_filter_cfg _ _ _ Hcfg). cbn [start_of st_dev]. by intros ->.
Qed.

Lemma slow_entry_events e c s : events (spec_entry e c s) = events s.
Proof.
  unfold spec_entry. destruct (slow_target _ _ _ c); [|done].
  destruct (slow_start_fields (pid_tgid e) (start_of (ktime e 0) (slow_type c) p)
    (pre_entry e c s)) as (_ & _ & ->). apply slow_pre_entry_fields.
Qed.

(** ** Latency *)

(** The latency that a return at [e] computes for [x], in microseconds. *)
Definition latency_us (e : env) (x : start_t) : Z := u64 (ktime e 0 - st_ts x) / 1000.

(** The event that the return emits. *)
Definition event_of (e : env) (slot : ioslower_event) (x : start_t) (ret : Z)
  : ioslower_event :=
  IoslowerEvent (ktime e 1) (u32 (Z.shiftr (pid_tgid e) 32))
    (u32 (Z.land (uid_gid e) 0xffffffff)) (u32 (Z.shiftr (uid_gid e) 32))
    (u32 (latency_us e x)) (st_type x) (ev_pad1 slot) (ev_pad2 slot) ret (ev_pad3 slot)
    (comm e) (copy_into_256 (st_fname x)).

(** What a return appends to the ring: something only for an operation in
    flight whose latency reaches the configured threshold. *)
Definition reported (e : env) (s : st) (ret : Z) : list ioslower_event :=
  match bpf_map_lookup_elem (op_start s) (pid_tgid e),
        bpf_map_lookup_elem (threshold_config s) 0, reserve e 0 with
  | Some x, Some th, Some slot =>
      if th <=? latency_us e x then [event_of e slot x ret] else []
  | _, _, _ => []
  end.

Lemma slow_exit_events e c ret s :
  events (spec_exit e c ret s) = events s ++ reported e s (exit_value c ret).
Proof.
  unfold spec_exit, finish_event, reported.
  destruct (slow_pre_exit_fields e c ret s) as (_ & -> & Hth & Hev).
  destruct (bpf_map_lookup_elem (op_start s) _) as [x|]; [|by rewrite Hev, app_nil_r].
  unfold emit_event. rewrite Hth. unfold latency_us, event_of.
  destruct (bpf_map_lookup_elem (threshold_config s) 0) as [th|];
    [|simpl; by rewrite Hev, app_nil_r].
  rewrite Z.leb_antisym.
  destruct (_ <? th); simpl.
  - destruct (reserve e 0); simpl; by rewrite Hev, app_nil_r.
  - destruct (reserve e 0); simpl; rewrite Hev; [done|by rewrite app_nil_r].
Qed.

Lemma slow_target_ok m vma id c d :
  kmem_ok m -> slow_target m vma id c = Some d -> no_nul d.2 /\ (length d.2 < 96)%nat.
Proof.
  intros Hm Hd. destruct c; cbn [slow_target] in Hd; repeat case_match; simplify_eq;
    cbn [snd]; try (first [by apply file_name_ok | by apply path_name_ok
      | by apply dentry_name_96]).
  split; [constructor|simpl; lia].
Qed.

(** The name in an emitted event is the name of the call. *)
Lemma event_of_name (e : env) slot ts ty d ret :
  no_nul d.2 -> (length d.2 < 96)%nat ->
  cstr (ev_fname (event_of e slot (start_of ts ty d) ret)) = d.2.
Proof.
  intros Hn Hl. cbn [event_of ev_fname start_of st_fname]. unfold copy_into_256.
  rewrite cstr_app_terminated by (by apply nul_terminated_pad). by apply cstr_pad.
Qed.

(** The clock does not go back, so the latency is the difference. *)
Lemma latency_us_exact (e e' : env) ty d :
  env_ok e -> env_ok e' -> ktime e 0 <= ktime e' 0 ->
  latency_us e' (start_of (ktime e 0) ty d) = (ktime e' 0 - ktime e 0) / 1000.
Proof.
  intros He He' Hle. unfold latency_us. cbn [start_of st_ts]. rewrite wrapu_small; [done|].
  pose proof (ktime_u64 e He 0). pose proof (ktime_u64 e' He' 0). unfold fits_u in *. lia.
Qed.

(** C10. Latency: a call that enters, passes the filter and finds room, and
    whose thread runs no other probe until it returns, whatever other threads
    do in between, reports an event exactly when its latency in microseconds
    reaches the threshold; the event has the type, name, return value and
    latency of the call (the latency modulo 2^32), and the operation is
    forgotten either way. *)
Theorem slow_event_latency b e c d e' ret slot th ls s :
  Forall label_ok (Enter e c :: ls ++ [Leave e' c ret]) ->
  pid_tgid e' = pid_tgid e -> ktime e 0 <= ktime e' 0 ->
  slow_target (mem e) (bpf_map_lookup_elem (vma_dev_map s)) (pid_tgid e) c = Some d ->
  pass_mount_filter s d.1 = true -> has_room (op_start s) (pid_tgid e) ->
  bpf_map_lookup_elem (threshold_config s) 0 = Some th -> reserve e' 0 = Some slot ->
  Forall (fun l => label_thread l <> pid_tgid e) ls ->
  let latency := (ktime e' 0 - ktime e 0) / 1000 in
  exists s1 s2,
    exec b (Enter e c :: ls) s = Some s1 /\
    exec b (Enter e c :: ls ++ [Leave e' c ret]) s = Some s2 /\
    bpf_map_lookup_elem (op_start s2) (pid_tgid e) = None /\
    (latency < th /\ events s2 = events s1 \/
     th <= latency /\ exists ev, events s2 = events s1 ++ [ev] /\
       ev_type ev = slow_type c /\ cstr (ev_fname ev) = d.2 /\
       ev_ret ev = exit_value c ret /\ ev_delta_us ev = u32 latency).
Proof.
  intros Hok Hid Hle Hd Hp Hroom Hth Hslot Hls latency.
  assert (label_ok (Enter e c) /\ Forall label_ok ls /\ label_ok (Leave e' c ret))
    as (He & Hl & He' & _).
  { inversion Hok as [|? ? H1 H2]; subst. apply Forall_app in H2 as [H2 H3].
    inversion H3; subst. done. }
  exists (spec_exec (Enter e c :: ls) s), (spec_exec (Enter e c :: ls ++ [Leave e' c ret]) s).
  split_and!; [apply slow_exec_spec; by constructor|by apply slow_exec_spec| |].
  - rewrite app_comm_cons, slow_exec_snoc. cbn [spec_step].
    rewrite slow_exit_lookup, Hid. by rewrite decide_True.
  - rewrite app_comm_cons, slow_exec_snoc. cbn [spec_step].
    rewrite slow_exit_events. unfold reported. rewrite Hslot, Hid.
    destruct (slow_exec_config (Enter e c :: ls) s) as [_ ->]. rewrite Hth.
    rewrite slow_exec_cons, slow_exec_other by done. cbn [spec_step].
    rewrite (slow_entry_records e c d) by done. rewrite (latency_us_exact e e') by done.
    fold latency. destruct (Z.leb_spec th latency); [right|left].
    + split; [done|]. eexists. split; [done|].
      destruct (slow_target_ok _ _ _ _ _ (mem_ok e He) Hd).
      split_and!; [done|by apply event_of_name|done|].
      cbn [event_of ev_delta_us]. by rewrite (latency_us_exact e e').
    + split; [done|]. by rewrite app_nil_r.
Qed.

(** After a return of the thread, its next return finds nothing to do. *)
Lemma slow_second_leave b e c ret e' c' ret' s :
  label_ok (Leave e' c' ret') -> pid_tgid e' = pid_tgid e ->
  exec b [Leave e' c' ret'] (spec_exit e c ret s) = Some (spec_exit e c ret s).
Proof.
  intros Hok Hid. cbn [exec]. rewrite slow_step_refines by done.
  cbn [mbind option_bind spec_step]. f_equal.
  assert (bpf_map_lookup_elem (op_start (spec_exit e c ret s)) (pid_tgid e') = None) as Hn.
  { rewrite slow_exit_lookup, Hid. by rewrite decide_True. }
  unfold spec_exit at 1. rewrite slow_pre_exit_none by done. by apply slow_finish_none.
Qed.

(** A nested call loses the outer one: when a hooked function is entered
    and returns inside another one on the same thread (as the layers of a
    stacked file system do) and passes the filter, the inner entry replaces
    the record and the inner return removes it, so the return of the outer
    call reports nothing, however long it took. *)
Theorem slow_nested_loses_outer b e1 c1 e2 c2 e3 r2 e4 r1 d2 s :
  Forall label_ok [Enter e1 c1; Enter e2 c2; Leave e3 c2 r2; Leave e4 c1 r1] ->
  pid_tgid e2 = pid_tgid e1 -> pid_tgid e3 = pid_tgid e1 -> pid_tgid e4 = pid_tgid e1 ->
  slow_target (mem e2) (bpf_map_lookup_elem (vma_dev_map (spec_entry e1 c1 s)))
    (pid_tgid e2) c2 = Some d2 ->
  pass_mount_filter s d2.1 = true -> has_room (op_start (spec_entry e1 c1 s)) (pid_tgid e1) ->
  exists s3,
    exec b [Enter e1 c1; Enter e2 c2; Leave e3 c2 r2] s = Some s3 /\
    (forall ev, In ev (drop (length (events s)) (events s3)) -> ev_type ev = slow_type c2) /\
    exec b [Leave e4 c1 r1] s3 = Some s3.
Proof.
  intros Hok H2 H3 H4 Hd Hp Hroom. inversion Hok as [|? ? Hl1 Hr1]; subst.
  inversion Hr1 as [|? ? Hl2 Hr2]; subst. inversion Hr2 as [|? ? Hl3 Hr3]; subst.
  exists (spec_exec [Enter e1 c1; Enter e2 c2; Leave e3 c2 r2] s). split_and!.
  - apply slow_exec_spec. by repeat (apply Forall_cons_2; [done|]).
  - cbn [spec_exec fold_left spec_step].
    rewrite slow_exit_events, !slow_entry_events, drop_app_length. unfold reported.
    rewrite H3, <- H2. rewrite <- H2 in Hroom.
    rewrite (slow_entry_records e2 c2 d2); [|done| |done].
    + intros ev Hev. repeat case_match; simpl in Hev; try done.
      destruct Hev as [<-|?]; done.
    + rewrite (slow_filter_cfg s); [done|]. apply (slow_step_config s (Enter e1 c1)).
  - inversion Hr3; subst. apply slow_second_leave; [done|congruence].
Qed.

(** A nested call that is not recorded itself (no file, or a device that
    the filter rejects) ends the outer one: its return reports the outer call,
    with the type and name of the outer call and the return value of the inner
    one, and the return of the outer call reports nothing. *)
Theorem slow_nested_misattributed b e1 c1 e2 c2 e3 r2 e4 r1 d1 slot th s :
  Forall label_ok [Enter e1 c1; Enter e2 c2; Leave e3 c2 r2; Leave e4 c1 r1] ->
  pid_tgid e2 = pid_tgid e1 -> pid_tgid e3 = pid_tgid e1 -> pid_tgid e4 = pid_tgid e1 ->
  slow_target (mem e1) (bpf_map_lookup_elem (vma_dev_map s)) (pid_tgid e1) c1 = Some d1 ->
  pass_mount_filter s d1.1 = true -> has_room (op_start s) (pid_tgid e1) ->
  slow_ignored e2 c2 (spec_entry e1 c1 s) ->
  bpf_map_lookup_elem (threshold_config s) 0 = Some th -> reserve e3 0 = Some slot ->
  ktime e1 0 <= ktime e3 0 -> th <= (ktime e3 0 - ktime e1 0) / 1000 ->
  exists s3 ev,
    exec b [Enter e1 c1; Enter e2 c2; Leave e3 c2 r2] s = Some s3 /\
    events s3 = events s ++ [ev] /\ ev_type ev = slow_type c1 /\
    cstr (ev_fname ev) = d1.2 /\ ev_ret ev = exit_value c2 r2 /\
    exec b [Leave e4 c1 r1] s3 = Some s3.
Proof.
  intros Hok H2 H3 H4 Hd Hp Hroom Hig Hth Hslot Hle Hlat.
  inversion Hok as [|? ? Hl1 Hr1]; subst.
  inversion Hr1 as [|? ? Hl2 Hr2]; subst. inversion Hr2 as [|? ? Hl3 Hr3]; subst.
  exists (spec_exec [Enter e1 c1; Enter e2 c2; Leave e3 c2 r2] s),
    (event_of e3 slot (start_of (ktime e1 0) (slow_type c1) d1) (exit_value c2 r2)).
  destruct (slow_target_ok _ _ _ _ _ (mem_ok e1 Hl1) Hd).
  split_and!; [apply slow_exec_spec; by repeat (apply Forall_cons_2; [done|])| |done|by apply event_of_name|done|].
  - cbn [spec_exec fold_left spec_step].
    rewrite slow_exit_events, !slow_entry_events. unfold reported.
    rewrite (slow_entry_ignored e2) by done. rewrite H3, Hslot.
    rewrite (slow_entry_records e1 c1 d1) by done.
    destruct (slow_step_config (spec_entry e1 c1 s) (Enter e2 c2)) as [_ Hc2].
    destruct (slow_step_config s (Enter e1 c1)) as [_ Hc1]. cbn [spec_step] in Hc1, Hc2.
    rewrite Hc2, Hc1, Hth, (latency_us_exact e1 e3) by (try apply Hl3; done).
    by rewrite (proj2 (Z.leb_le _ _)).
  - inversion Hr3; subst. apply slow_second_leave; [done|congruence].
Qed.

(** ** Invariant of the reachable states *)

Definition boot (th : hmap Z Z) (cfg : hmap Z mount_filter_cfg) : st :=
  St [] (map_create 4096) (map_create 4096) th cfg.

Inductive reachable (b : bool) (th : hmap Z Z) (cfg : hmap Z mount_filter_cfg) : st -> Prop :=
| reach_boot : reachable b th cfg (boot th cfg)
| reach_step s l s' :
    reachable b th cfg s -> label_ok l -> step b s l = Some s' -> reachable b th cfg s'.

Definition buffer_ok (n : nat) (buf : list Z) : Prop := length buf = n /\ nul_terminated buf.

Definition start_wf (s : st) (x : start_t) : Prop :=
  fits_u 64 (st_ts x) /\ fits_u 8 (st_type x) /\ buffer_ok 96 (st_fname x) /\
  pass_mount_filter s (st_dev x) = true.

Definition event_wf (ev : ioslower_event) : Prop :=
  fits_u 64 (ev_ts ev) /\ fits_u 32 (ev_pid ev) /\ fits_u 32 (ev_uid ev) /\
  fits_u 32 (ev_gid ev) /\ fits_u 32 (ev_delta_us ev) /\ fits_u 8 (ev_type ev) /\
  fits_s 32 (ev_ret ev) /\ buffer_ok 16 (ev_comm ev) /\ buffer_ok 256 (ev_fname ev).

Record inv (th : hmap Z Z) (cfg : hmap Z mount_filter_cfg) (s : st) : Prop := {
  inv_th : threshold_config s = th;
  inv_cfg : cfg_map s = cfg;
  inv_ops : forall id x, bpf_map_lookup_elem (op_start s) id = Some x -> start_wf s x;
  inv_events : Forall event_wf (events s);
}.

Lemma slow_type_u8 c : fits_u 8 (slow_type c).
Proof. destruct c; split; vm_compute; congruence. Qed.

Lemma start_of_wf s (e : env) c d :
  env_ok e ->
  slow_target (mem e) (bpf_map_lookup_elem (vma_dev_map s)) (pid_tgid e) c = Some d ->
  pass_mount_filter s d.1 = true ->
  start_wf s (start_of (ktime e 0) (slow_type c) d).
Proof.
  intros He Hd Hp. destruct (slow_target_ok _ _ _ _ _ (mem_ok e He) Hd) as [Hn Hl].
  unfold start_wf. cbn [start_of st_ts st_type st_fname st_dev].
  split_and!; [by apply ktime_u64|apply slow_type_u8| |done].
  split; [by apply length_pad; lia|by apply nul_terminated_pad].
Qed.

Lemma slow_event_wf (e : env) slot s x ret :
  env_ok e -> start_wf s x -> fits_s 32 ret -> event_wf (event_of e slot x ret).
Proof.
  intros He (Hts & Ht & [Hl Hn] & _) Hr. unfold event_wf, event_of. cbn -[fits_u fits_s].
  split_and!; try (apply wrapu_range; lia); try done.
  - by apply ktime_u64.
  - by apply comm_ok.
  - unfold copy_into_256. split; [|apply in_app_iff; by left].
    rewrite length_app, length_drop, length_replicate. lia.
Qed.

Lemma slow_exit_value_s32 c ret : fits_s 32 (exit_value c ret).
Proof.
  assert (forall v, fits_s 32 (s32 v)) as Hs by (intros; apply wraps_range; lia).
  destruct c; simpl; try apply Hs. destruct (0 <? s64 ret); [unfold fits_s; lia|apply Hs].
Qed.

Lemma slow_inv_step th cfg s l : inv th cfg s -> label_ok l -> inv th cfg (spec_step s l).
Proof.
  intros [Hth Hcfg Hops Hev] Hl. destruct (slow_step_config s l) as [H1 H2]. split.
  - by rewrite H2.
  - by rewrite H1.
  - intros id x Hk. unfold start_wf. rewrite (slow_filter_cfg s) by done.
    destruct l as [e c|e c ret]; cbn [spec_step] in Hk.
    + apply slow_entry_lookup in Hk as [Hk|(d & Hd & -> & -> & Hp)]; [by eapply Hops|].
      by apply start_of_wf.
    + rewrite slow_exit_lookup in Hk. case_decide; [done|by eapply Hops].
  - destruct l as [e c|e c ret]; cbn [spec_step]; [by rewrite slow_entry_events|].
    destruct Hl as [He Hr]. rewrite slow_exit_events. apply Forall_app. split; [done|].
    unfold reported. destruct (bpf_map_lookup_elem (op_start s) _) as [x|] eqn:Hk; [|constructor].
    destruct (bpf_map_lookup_elem (threshold_config s) _); [|constructor].
    destruct (reserve e 0) as [slot|]; [|constructor].
    destruct (_ <=? _); [|constructor]. apply Forall_singleton.
    eapply slow_event_wf; [done|by eapply Hops|apply slow_exit_value_s32].
Qed.

(** C19. Invariant: in every state that ioslower can reach, the configuration
    is the one it was loaded with, each operation in flight has a terminated
    name and passes the mount filter, and each emitted record has every field
    within its C type and terminated texts. *)
Theorem slow_reachable_inv b th cfg s : reachable b th cfg s -> inv th cfg s.
Proof.
  induction 1 as [|s l s' Hs IH Hl Hst].
  - split; [done|done| |constructor]. intros id x. cbn. by rewrite lookup_create.
  - rewrite slow_step_refines in Hst by done. injection Hst as <-. by apply slow_inv_step.
Qed.

Lemma slow_reachable_exec b th cfg s ls s' :
  reachable b th cfg s -> Forall label_ok ls -> exec b ls s = Some s' -> reachable b th cfg s'.
Proof.
  intros Hs Hls. revert s Hs. induction Hls as [|l ls Hl Hls IH]; intros s Hs; cbn [exec].
  - by intros [= <-].
  - destruct (step b s l) as [s1|] eqn:Hst; [|done]. cbn [mbind option_bind].
    apply IH. by eapply reach_step.
Qed.
End Trace.
