(* ===== verification/IoslowerDemo.v ===== *)
(** * ioslower: the two mount filters, and the theorems at concrete inputs

    [mount_filters_agree] compares the filter with the one of iosnoop.  Then
    the small machine of IosnoopDemo with a threshold of 1000 microseconds:
    each lemma applies a theorem of IoslowerTrace there. *)

From S2P Require Import Prelude Bpf BpfModel Hooks IosnoopBpf.
From S2P Require Import IoslowerBpf IoslowerProbes IoslowerSpec IoslowerTrace.

(** Under one configuration iosnoop lets pass the devices that ioslower
    lets pass and, besides them, the unknown device 0: an unmapping whose
    mapping was not seen is reported by iosnoop and dropped by ioslower. *)
Theorem mount_filters_agree {RT : BpfRuntime} (s1 : IosnoopBpf.st) (s2 : IoslowerBpf.st) dev :
  match bpf_map_lookup_elem (IosnoopBpf.cfg_map s1) 0, bpf_map_lookup_elem (cfg_map s2) 0 with
  | Some c1, Some c2 =>
      IosnoopBpf.enabled c1 = enabled c2 /\ IosnoopBpf.dev_major c1 = dev_major c2 /\
      IosnoopBpf.dev_minor c1 = dev_minor c2
  | None, None => True
  | _, _ => False
  end ->
  IosnoopBpf.pass_mount_filter s1 dev = (dev =? 0) || pass_mount_filter s2 dev.
Proof.
  unfold IosnoopBpf.pass_mount_filter, pass_mount_filter.
  destruct (bpf_map_lookup_elem (IosnoopBpf.cfg_map s1) 0),
    (bpf_map_lookup_elem (cfg_map s2) 0); try done.
  - intros (-> & -> & ->). destruct (enabled m0 =? 0); [by rewrite orb_true_r|].
    by destruct (dev =? 0).
  - by rewrite orb_true_r.
Qed.

Definition slot0 : ioslower_event := IoslowerEvent 0 0 0 0 0 0 0 0 0 0 [] [].

Definition demo_strings (a : Z) : option (list Z) :=
  if a =? 1101 then Some (bytes "a.txt") else None.

(** Process [pid] at time [us] microseconds, with the file on device [dev]. *)
Definition at_ (pid us dev : Z) : kenv ioslower_event :=
  demo_env slot0 (Z.shiftl pid 32 + pid) (1000 * us) (demo_mem dev demo_strings).

Definition th_1ms : hmap Z Z := update_elem (map_create 1) 0 1000 BPF_ANY.
Definition demo_cfg : hmap Z mount_filter_cfg :=
  update_elem (map_create 1) 0 (MountFilterCfg 1 8 1) BPF_ANY.
Definition dev81 : Z := mkdev 8 1.
Definition booted : st := boot th_1ms demo_cfg.

Definition read_a : kcall := VfsRead 100 0 5 0.
Definition open_a : kcall := VfsOpen 100 0.
Definition anon_map : kcall := DoMmap 0 0 4096 1 0.

Lemma at_ok pid us dev : env_ok (at_ pid us dev).
Proof. apply demo_env_ok, demo_mem_ok. Qed.

Lemma leave_at_ok pid us dev c ret : ret_ok c ret -> label_ok (Leave (at_ pid us dev) c ret).
Proof. intros Hc. split; [apply at_ok|done]. Qed.

Ltac slow_labels :=
  repeat apply Forall_cons_2; try apply Forall_nil_2; try apply at_ok;
  try (apply leave_at_ok; vm_compute; intuition congruence).

Ltac run_eq := vm_compute; reflexivity.
Ltac run_le := vm_compute; congruence.

Definition slow_run : list label :=
  [Enter (at_ 8 10 dev81) read_a; Enter (at_ 9 20 dev81) read_a;
   Leave (at_ 9 30 dev81) read_a 3; Leave (at_ 8 5010 dev81) read_a 5].

Lemma slow_exec_refines_witness :
  (fun s => map (fun ev => (ev_pid ev, ev_delta_us ev, cstr (ev_fname ev))) (events s))
    <$> exec false slow_run booted = Some [(8, 5000, bytes "a.txt")] /\
  exec true slow_run booted = exec false slow_run booted.
Proof.
  destruct (slow_exec_refines false slow_run booted) as [H1 H2]; [slow_labels|].
  split; [rewrite H1; run_eq|exact H2].
Defined.

Lemma slow_event_latency_witness :
  exists s1 s2,
    exec true [Enter (at_ 8 10 dev81) read_a] booted = Some s1 /\
    exec true [Enter (at_ 8 10 dev81) read_a; Leave (at_ 8 5010 dev81) read_a 5] booted
      = Some s2 /\
    exists ev, events s2 = events s1 ++ [ev] /\ ev_delta_us ev = 5000 /\ ev_ret ev = 5.
Proof.
  destruct (slow_event_latency true (at_ 8 10 dev81) read_a (dev81, bytes "a.txt")
    (at_ 8 5010 dev81) 5 slot0 1000 [] booted) as (s1 & s2 & H1 & H2 & _ & H3);
    [cbn [app]; slow_labels|run_eq|run_le|run_eq|run_eq|right; vm_compute; lia|run_eq|run_eq|
     constructor|].
  exists s1, s2. split; [exact H1|]. split; [exact H2|].
  destruct H3 as [[H3 _]|(_ & ev & H3 & _ & _ & H4 & H5)].
  - exfalso. revert H3. vm_compute. congruence.
  - exists ev. split; [exact H3|]. split; [rewrite H5; run_eq|rewrite H4; run_eq].
Defined.

(** An open inside an open, both on the device: the outer one is lost. *)
Lemma slow_nested_loses_outer_witness :
  exists s3,
    exec true [Enter (at_ 8 10 dev81) open_a; Enter (at_ 8 20 dev81) read_a;
               Leave (at_ 8 30 dev81) read_a 0] booted = Some s3 /\
    exec true [Leave (at_ 8 9010 dev81) open_a 0] s3 = Some s3.
Proof.
  destruct (slow_nested_loses_outer true (at_ 8 10 dev81) open_a (at_ 8 20 dev81) read_a
    (at_ 8 30 dev81) 0 (at_ 8 9010 dev81) 0 (dev81, bytes "a.txt") booted)
    as (s3 & H1 & _ & H3);
    [slow_labels|run_eq|run_eq|run_eq|run_eq|run_eq|right; vm_compute; lia|].
  exists s3. split; [exact H1|exact H3].
Defined.

(** An anonymous mapping while a read is in flight: the return of [do_mmap]
    reports the read, with the result of the mapping. *)
Lemma slow_nested_misattributed_witness :
  exists s3 ev,
    exec true [Enter (at_ 8 10 dev81) read_a; Enter (at_ 8 20 dev81) anon_map;
               Leave (at_ 8 5010 dev81) anon_map 0x7f0000000000] booted = Some s3 /\
    events s3 = [ev] /\ ev_type ev = SC_READ /\ ev_ret ev = 0 /\
    exec true [Leave (at_ 8 9010 dev81) read_a 5] s3 = Some s3.
Proof.
  destruct (slow_nested_misattributed true (at_ 8 10 dev81) read_a (at_ 8 20 dev81) anon_map
    (at_ 8 5010 dev81) 0x7f0000000000 (at_ 8 9010 dev81) 5 (dev81, bytes "a.txt") slot0 1000
    booted) as (s3 & ev & H1 & H2 & H3 & _ & H5 & H6);
    [slow_labels|run_eq|run_eq|run_eq|run_eq|run_eq|right; vm_compute; lia|exact I|run_eq|
     run_eq|run_le|run_le|].
  exists s3, ev. split; [exact H1|]. split; [exact H2|]. split; [exact H3|].
  split; [rewrite H5; run_eq|exact H6].
Defined.

Lemma slow_reachable_inv_witness :
  exists s, exec true slow_run booted = Some s /\ length (events s) = 1%nat /\
    inv th_1ms demo_cfg s.
Proof.
  assert (Forall label_ok slow_run) as Hok by slow_labels.
  exists (spec_exec slow_run booted). split; [by apply slow_exec_spec|]. split; [run_eq|].
  apply (slow_reachable_inv true th_1ms demo_cfg).
  apply (slow_reachable_exec true th_1ms demo_cfg booted slow_run); [constructor|done|].
  by apply slow_exec_spec.
Defined.

Lemma mount_filters_agree_witness :
  IosnoopBpf.pass_mount_filter
    (IosnoopBpf.St [] (update_elem (map_create 1) 0 (IosnoopBpf.MountFilterCfg 1 8 1) BPF_ANY)
      (map_create 1) (map_create 1)) 0 = true /\
  pass_mount_filter booted 0 = false.
Proof.
  split; [|run_eq].
  rewrite (mount_filters_agree _ booted 0); [reflexivity|].
  vm_compute. repeat split; reflexivity.
Defined.
