(* ===== verification/IoslowerMicro.v ===== *)
(** * ioslower: probes that interleave at every helper call

    As IosnoopMicro, for ioslower: the probes as sequences of their helper
    calls, the theorem that an interleaving of them in which no two are at the
    same mapping at a time has the outcome of the probes one after the other, in
    the order in which they finish, and what two unmappings that race report. *)

From S2P Require Import Prelude Bpf BpfModel Hooks IosnoopFmt IosnoopBpf IosnoopSpec.
From S2P Require Import IoslowerBpf IoslowerProbes IoslowerSpec IoslowerTrace IoslowerDemo Interleave.

Section Micro.
Context {RT : BpfRuntime}.

Abbreviation env := (kenv ioslower_event).

(** ** Probes as sequences of helper calls *)

(** [Clock] is the difference of the clock to the time in the element of the
    thread [id], which is read through the pointer that the lookup returned,
    like the element in [UpdateVma] and [Emit]; [x] is what the lookup found. *)
Inductive calls :=
| Return
| Read (k : calls)
| Filter (dev : Z) (k : bool -> calls)
| LookupOp (id : Z) (k : option start_t -> calls)
| UpdateOp (id : Z) (x : start_t) (k : calls)
| DeleteOp (id : Z) (k : calls)
| LookupVma (v : Z) (k : option Z -> calls)
| UpdateVma (v id : Z) (x : start_t) (k : calls)
| DeleteVma (v : Z) (k : calls)
| Clock (e : env) (id : Z) (x : start_t) (k : Z -> calls)
| Threshold (k : option Z -> calls)
| Emit (e : env) (id : Z) (x : start_t) (delta_us ret : Z) (k : calls).

Definition read_start (id : Z) (x : start_t) (s : st) : start_t :=
  default x (bpf_map_lookup_elem (op_start s) id).

(** Reserving a record, filling it and submitting it. *)
Definition send (e : env) (x : start_t) (delta_us ret : Z) (s : st) : st :=
  match reserve e 0 with
  | None => s
  | Some slot =>
      set_events s (events s ++
        [IoslowerEvent (ktime e 1) (u32 (Z.shiftr (pid_tgid e) 32))
           (u32 (Z.land (uid_gid e) 0xffffffff)) (u32 (Z.shiftr (uid_gid e) 32)) (u32 delta_us)
           (st_type x) (ev_pad1 slot) (ev_pad2 slot) ret (ev_pad3 slot) (comm e)
           (copy_into_256 (st_fname x))])
  end.

(** One helper call. *)
Definition one (p : calls) (s : st) : calls * st :=
  match p with
  | Return => (Return, s)
  | Read k => (k, s)
  | Filter dev k => (k (pass_mount_filter s dev), s)
  | LookupOp id k => (k (bpf_map_lookup_elem (op_start s) id), s)
  | UpdateOp id x k => (k, set_op_start s (update_elem (op_start s) id x BPF_ANY))
  | DeleteOp id k => (k, set_op_start s (delete_elem (op_start s) id))
  | LookupVma v k => (k (bpf_map_lookup_elem (vma_dev_map s) v), s)
  | UpdateVma v id x k =>
      (k, set_vma_dev_map s
            (update_elem (vma_dev_map s) v (st_dev (read_start id x s)) BPF_ANY))
  | DeleteVma v k => (k, set_vma_dev_map s (delete_elem (vma_dev_map s) v))
  | Clock e id x k => (k (u64 (ktime e 0 - st_ts (read_start id x s))), s)
  | Threshold k => (k (bpf_map_lookup_elem (threshold_config s) 0), s)
  | Emit e id x delta_us ret k => (k, send e (read_start id x s) delta_us ret s)
  end.

(** All of them, undisturbed. *)
Fixpoint run_calls (p : calls) (s : st) : st :=
  match p with
  | Return => s
  | Read k => run_calls k s
  | Filter dev k => run_calls (k (pass_mount_filter s dev)) s
  | LookupOp id k => run_calls (k (bpf_map_lookup_elem (op_start s) id)) s
  | UpdateOp id x k => run_calls k (set_op_start s (update_elem (op_start s) id x BPF_ANY))
  | DeleteOp id k => run_calls k (set_op_start s (delete_elem (op_start s) id))
  | LookupVma v k => run_calls (k (bpf_map_lookup_elem (vma_dev_map s) v)) s
  | UpdateVma v id x k =>
      run_calls k (set_vma_dev_map s
        (update_elem (vma_dev_map s) v (st_dev (read_start id x s)) BPF_ANY))
  | DeleteVma v k => run_calls k (set_vma_dev_map s (delete_elem (vma_dev_map s) v))
  | Clock e id x k => run_calls (k (u64 (ktime e 0 - st_ts (read_start id x s)))) s
  | Threshold k => run_calls (k (bpf_map_lookup_elem (threshold_config s) 0)) s
  | Emit e id x delta_us ret k => run_calls k (send e (read_start id x s) delta_us ret s)
  end.

Definition emit_event_calls (e : env) (id : Z) (x : start_t) (delta_ns ret : Z) (k : calls) : calls :=
  Threshold (fun o =>
    match o with
    | None => k
    | Some threshold_us =>
        let delta_us := delta_ns / 1000 in
        if delta_us <? threshold_us then k else Emit e id x delta_us ret k
    end).

Definition start_or_drop_calls (id : Z) (x : start_t) : calls :=
  Filter (st_dev x) (fun pass => if negb pass then Return else UpdateOp id x Return).

Definition finish_event_calls (e : env) (id ret : Z) : calls :=
  LookupOp id (fun o =>
    match o with
    | None => Return
    | Some x => Clock e id x (fun delta => emit_event_calls e id x delta ret (DeleteOp id Return))
    end).

(** An entry probe, with the device of the mapping that [vm_munmap] ends. *)
Definition record_calls (e : env) (c : kcall) (vma : option Z) : calls :=
  match slow_target (mem e) (fun _ => vma) (pid_tgid e) c with
  | None => Return
  | Some d => start_or_drop_calls (pid_tgid e) (start_of (ktime e 0) (slow_type c) d)
  end.

Definition entry_calls (e : env) (c : kcall) : calls :=
  match c with
  | VmMunmap start _ =>
      let key := vma_key (pid_tgid e) start in
      LookupVma key (fun v => DeleteVma key (record_calls e c v))
  | _ => record_calls e c None
  end.

(** A return probe; the second of the two programs at the return of
    [vfs_rename] in the kprobe family finds nothing and is left out. *)
Definition exit_calls (e : env) (c : kcall) (ret : Z) : calls :=
  let id := pid_tgid e in
  let finish := finish_event_calls e id (exit_value c ret) in
  match c with
  | DoMmap _ _ _ _ _ =>
      LookupOp id (fun o =>
        match o with
        | Some x => if 0 <? s64 ret then UpdateVma (vma_key id ret) id x finish else finish
        | None => finish
        end)
  | _ => finish
  end.

Definition label_calls (l : label) : calls :=
  Read match l with
       | Enter e c => entry_calls e c
       | Leave e c ret => exit_calls e c ret
       end.

(** ** Undisturbed, the calls are the probe *)

Lemma slow_calls_one p s : run_calls (one p s).1 (one p s).2 = run_calls p s.
Proof. by destruct p. Qed.

Lemma slow_run_start id x s : run_calls (start_or_drop_calls id x) s = start_or_drop id x s.
Proof. unfold start_or_drop_calls, start_or_drop. cbn. by destruct (pass_mount_filter s _). Qed.

Lemma slow_run_finish e id ret s : run_calls (finish_event_calls e id ret) s = finish_event e id ret s.
Proof.
  unfold finish_event_calls, finish_event, emit_event, emit_event_calls. cbn [run_calls].
  destruct (bpf_map_lookup_elem (op_start s) id) as [x|] eqn:Hl; [|done].
  cbn [run_calls]. unfold read_start at 1. rewrite Hl. cbn [default].
  destruct (bpf_map_lookup_elem (threshold_config s) 0) as [th|]; [|done].
  destruct (_ <? th); [done|]. cbn [run_calls]. unfold read_start. rewrite Hl. unfold send.
  by destruct (reserve e 0).
Qed.

Lemma slow_run_record e c v s :
  run_calls (record_calls e c v) s =
  match slow_target (mem e) (fun _ => v) (pid_tgid e) c with
  | None => s
  | Some d => start_or_drop (pid_tgid e) (start_of (ktime e 0) (slow_type c) d) s
  end.
Proof. unfold record_calls. destruct (slow_target _ _ _ _); [apply slow_run_start|done]. Qed.

Lemma slow_run_label l s : run_calls (label_calls l) s = spec_step s l.
Proof.
  destruct l as [e c|e c ret]; cbn [label_calls run_calls spec_step].
  - unfold spec_entry. destruct c; cbn [entry_calls run_calls]; by rewrite slow_run_record.
  - unfold spec_exit. destruct c; cbn [exit_calls pre_exit]; try apply slow_run_finish.
    cbn [run_calls]. destruct (bpf_map_lookup_elem (op_start s) _) as [x|] eqn:Hl;
      [|apply slow_run_finish]. destruct (0 <? s64 ret); [|apply slow_run_finish].
    cbn [run_calls]. unfold read_start. rewrite Hl. apply slow_run_finish.
Qed.

(** ** What the calls of a probe touch *)

Fixpoint touches (id : Z) (vk : option Z) (p : calls) : Prop :=
  match p with
  | Return => True
  | Read k => touches id vk k
  | Filter _ k => forall b, touches id vk (k b)
  | LookupOp id' k => id' = id /\ forall o, touches id vk (k o)
  | UpdateOp id' _ k | DeleteOp id' k => id' = id /\ k = Return
  | LookupVma v k => vk = Some v /\ forall o, touches id vk (k o)
  | UpdateVma v id' _ k => vk = Some v /\ id' = id /\ touches id vk k
  | DeleteVma v k => vk = Some v /\ touches id vk k
  | Clock _ id' _ k => id' = id /\ forall d, touches id vk (k d)
  | Threshold k => forall o, touches id vk (k o)
  | Emit _ id' _ _ _ k => id' = id /\ touches id vk k
  end.

Definition label_vma (l : label) : option Z :=
  match l with
  | Enter e (VmMunmap start _) => Some (vma_key (pid_tgid e) start)
  | Leave e (DoMmap _ _ _ _ _) ret =>
      if 0 <? s64 ret then Some (vma_key (pid_tgid e) ret) else None
  | _ => None
  end.

Lemma slow_finish_within id vk e ret : touches id vk (finish_event_calls e id ret).
Proof.
  split; [done|]. intros [x|]; [|done]. split; [done|]. intros d [th|]; [|done].
  cbn. by destruct (_ <? th).
Qed.

Lemma slow_record_within e c v vk : touches (pid_tgid e) vk (record_calls e c v).
Proof. unfold record_calls. destruct (slow_target _ _ _ c) as [d|]; [|done]. by intros []. Qed.

Lemma slow_label_within l : touches (label_thread l) (label_vma l) (label_calls l).
Proof.
  destruct l as [e c|e c ret]; cbn [label_thread label_calls touches].
  - destruct c; try apply slow_record_within. split; [done|]. intros v. split; [done|].
    apply slow_record_within.
  - destruct c; cbn [exit_calls]; try by apply slow_finish_within.
    split; [done|]. intros [x|]; [|by apply slow_finish_within]. cbn [label_vma].
    destruct (0 <? s64 ret); [|by apply slow_finish_within].
    split; [done|]. split; [done|]. by apply slow_finish_within.
Qed.

Context {RL : BpfRuntimeLaws RT}.

(** ** What a call changes *)

Lemma send_fields e x d ret s :
  op_start (send e x d ret s) = op_start s /\ cfg_map (send e x d ret s) = cfg_map s /\
  threshold_config (send e x d ret s) = threshold_config s /\
  vma_dev_map (send e x d ret s) = vma_dev_map s.
Proof. unfold send. by destruct (reserve e 0). Qed.

Lemma send_sends e x d ret s s' :
  exists ev, events (send e x d ret s) = events s ++ ev /\ events (send e x d ret s') = events s' ++ ev.
Proof.
  unfold send. destruct (reserve e 0); [by eexists|]. exists []. by rewrite !app_nil_r.
Qed.

Lemma slow_one_within id vk p s : touches id vk p -> touches id vk (one p s).1.
Proof. destruct p; cbn; naive_solver. Qed.

Lemma slow_one_config p s :
  cfg_map (one p s).2 = cfg_map s /\ threshold_config (one p s).2 = threshold_config s.
Proof. destruct p; try done. split; cbn; apply send_fields. Qed.

Lemma slow_one_start id vk p s :
  touches id vk p -> (one p s).1 <> Return -> op_start (one p s).2 = op_start s.
Proof. destruct p; cbn; try done; [by intros [_ ->]..|]. intros _ _. apply send_fields. Qed.

Lemma slow_one_vma_other id vk p s v :
  touches id vk p -> vk <> Some v ->
  bpf_map_lookup_elem (vma_dev_map (one p s).2) v = bpf_map_lookup_elem (vma_dev_map s) v.
Proof.
  destruct p; cbn; intros Hw Hv; try done.
  - destruct Hw as (-> & _ & _). apply lookup_update_ne. congruence.
  - destruct Hw as (-> & _). rewrite lookup_delete_elem. by rewrite decide_False by congruence.
  - by destruct (send_fields e (read_start id0 x s) delta_us ret s) as (_ & _ & _ & ->).
Qed.

Lemma slow_one_max p s : map_max (vma_dev_map (one p s).2) = map_max (vma_dev_map s).
Proof.
  destruct p; try done; cbn; [apply update_elem_max|apply delete_max|].
  by destruct (send_fields e (read_start id x s) delta_us ret s) as (_ & _ & _ & ->).
Qed.

Lemma slow_run_max p s : map_max (vma_dev_map (run_calls p s)) = map_max (vma_dev_map s).
Proof.
  revert s. induction p; intros s; cbn [run_calls]; try done;
    match goal with
    | H : forall x s, _ |- _ => rewrite H
    | H : forall s, _ |- _ => rewrite H
    end; try done; [apply update_elem_max|apply delete_max|].
  by destruct (send_fields e (read_start id x s) delta_us ret s) as (_ & _ & _ & ->).
Qed.

Lemma slow_one_agrees U id vk p x y :
  touches id vk p -> (forall v, vk = Some v -> v ∈ U) -> fits U (vma_dev_map x) ->
  fits U (vma_dev_map y) -> cfg_map x = cfg_map y -> threshold_config x = threshold_config y ->
  bpf_map_lookup_elem (op_start x) id = bpf_map_lookup_elem (op_start y) id ->
  (forall v, vk = Some v ->
     bpf_map_lookup_elem (vma_dev_map x) v = bpf_map_lookup_elem (vma_dev_map y) v) ->
  (one p x).1 = (one p y).1 /\
  (exists ev, events (one p x).2 = events x ++ ev /\ events (one p y).2 = events y ++ ev) /\
  (op_start x = op_start y -> op_start (one p x).2 = op_start (one p y).2) /\
  (forall v, vk = Some v -> bpf_map_lookup_elem (vma_dev_map (one p x).2) v =
                            bpf_map_lookup_elem (vma_dev_map (one p y).2) v).
Proof.
  intros Hw Hk Hx Hy Hc Hth Ho Hv.
  assert (exists ev, events x = events x ++ ev /\ events y = events y ++ ev) as Hnil
    by (exists []; by rewrite !app_nil_r).
  assert (forall z, read_start id z x = read_start id z y) as Hop
    by (intros z; unfold read_start; by rewrite Ho).
  destruct p; cbn in *; try done.
  - by rewrite (slow_filter_cfg y x dev Hc).
  - destruct Hw as [-> _]. by rewrite Ho.
  - split_and!; try done. by intros ->.
  - split_and!; try done. by intros ->.
  - destruct Hw as [-> _]. by rewrite (Hv v eq_refl).
  - destruct Hw as (-> & -> & _). rewrite Hop. split_and!; try done.
    intros v' [= <-]. rewrite !lookup_update_any; [done|..]; eapply fits_room; eauto.
  - destruct Hw as (-> & _). split_and!; try done.
    intros v' [= <-]. rewrite !lookup_delete_elem. by rewrite !decide_True by done.
  - destruct Hw as (-> & _). by rewrite Hop.
  - by rewrite Hth.
  - destruct Hw as (-> & _). rewrite Hop.
    destruct (send_fields e (read_start id x0 y) delta_us ret x) as (H1 & _ & _ & H3).
    destruct (send_fields e (read_start id x0 y) delta_us ret y) as (H4 & _ & _ & H6).
    rewrite H1, H3, H4, H6. split_and!; try done. apply send_sends.
Qed.

(** ** The probes as Interleave wants them *)

Definition is_return (p : calls) : bool := match p with Return => true | _ => false end.

(** A thread is in one probe at a time, and a probe commits with its last call. *)
#[export] Instance slow_probes : Probes st calls label Z := {|
  start := label_calls; Interleave.one := one; returned := is_return; committed := is_return;
  run_all := run_calls; step := spec_step; thread := label_thread; uses := label_vma |}.

Lemma slow_is_return_false p : is_return p = false -> p <> Return.
Proof. by intros ? ->. Qed.

(** What only the last call changes, and what a firing reads of it. *)
Definition core (s : st) := (op_start s, cfg_map s, threshold_config s, map_max (vma_dev_map s)).
Definition view (l : label) (c : hmap Z start_t * hmap Z mount_filter_cfg * hmap Z Z * nat) :=
  (bpf_map_lookup_elem c.1.1.1 (label_thread l), c.1.1.2, c.1.2, c.2).
Definition cell (s : st) (v : Z) : option Z := bpf_map_lookup_elem (vma_dev_map s) v.

(** Room for the known mappings and for those in [U]. *)
Definition vma_room (s : st) (U : gset Z) : Prop := fits U (vma_dev_map s).

#[export] Instance vma_room_decision s U : Decision (vma_room s U).
Proof. unfold vma_room. apply _. Defined.

(** No two probes in flight are at the same mapping, and the table of mappings
    has room for the known ones and theirs. *)
Definition undisturbed (acts : list (action label Z)) (c : config st calls label Z) : Prop :=
  along (calm vma_room) acts c.

#[export] Instance undisturbed_decision acts c : Decision (undisturbed acts c).
Proof. unfold undisturbed. apply _. Defined.

#[export] Instance slow_probes_laws :
  ProbesLaws slow_probes events core view cell
    (fun l => touches (label_thread l) (label_vma l)) (fun _ => []) vma_room (fun _ => True).
Proof.
  split; cbn [start Interleave.one returned committed run_all Interleave.step thread uses slow_probes].
  - intros l _. apply slow_label_within.
  - done.
  - intros l s _. apply slow_run_label.
  - apply slow_calls_one.
  - intros l p s. apply slow_one_within.
  - intros l p s Ht _ Hn%slow_is_return_false. unfold core.
    rewrite slow_one_max. destruct (slow_one_config p s) as [-> ->]. by erewrite slow_one_start by done.
  - intros l p s v. apply slow_one_vma_other.
  - intros l x y U [= _ _ _ Hm]. by apply fits_agree.
  - intros l p x y U _ Ht HU Hx Hy [= Ho Hc Hth _] Hv.
    destruct (slow_one_agrees U _ _ p x y Ht HU Hx Hy Hc Hth Ho Hv) as (H1 & H2 & H3 & H4).
    split_and!; try done. unfold core.
    destruct (slow_one_config p x) as [-> ->], (slow_one_config p y) as [-> ->].
    rewrite !slow_one_max. intros [= Hop -> -> ->]. by rewrite H3.
  - intros l [] s _ Hp; try done. split_and!; try done. exists []. by rewrite app_nil_r.
  - intros l [] s _ _ Hp; try done. split_and!; try done. by rewrite app_nil_r.
  - done.
  - intros l u s _ Hne. unfold view, core. cbn [fst snd].
    destruct (slow_step_config s l) as [-> ->]. rewrite slow_step_other by done.
    by rewrite <- (slow_run_label l s), slow_run_max.
Qed.

(** Atomicity: whatever the order in which the helper calls of concurrent
    probes happen, if no two of them are at the same mapping at a time, then once all the probes that started have finished, the maps are
    those, and the events those in some order, of the same probes one after the
    other as they finished. *)
Theorem slow_run_atomic b acts s0 s hist :
  Forall label_ok (begun acts) -> undisturbed acts (Config s0 ∅ []) ->
  run acts (Config s0 ∅ []) = Some (Config s ∅ hist) ->
  (forall t, of_thread t hist = of_thread t (begun acts)) /\
  exists a, exec b hist s0 = Some a /\
    op_start s = op_start a /\ cfg_map s = cfg_map a /\ threshold_config s = threshold_config a /\
    (forall v, bpf_map_lookup_elem (vma_dev_map s) v = bpf_map_lookup_elem (vma_dev_map a) v) /\
    events s ≡ₚ events a.
Proof.
  intros Hok Hcalm Hr. assert (Forall (fun _ => True) (begun acts)) as Ht by by apply list.Forall_true.
  destruct (run_linear _ _ _ _ _ _ _ _ acts s0 s hist Ht Hcalm Hr) as (Ho & [= H1 H2 H3 _] & H4 & H5).
  split; [done|]. exists (spec_exec hist s0). split_and!; try done.
  apply slow_exec_spec. by eapply in_order_ok.
Qed.
End Micro.

(** A mapping and a read whose calls alternate; the return of the read sends its
    event first and finishes last. *)
Definition map_a : kcall := DoMmap 100 0 4096 1 0.
Definition micro_acts : list (action label Z) :=
  let eight := Go (pid_tgid (at_ 8 10 dev81)) in
  let nine := Go (pid_tgid (at_ 9 20 dev81)) in
  [Begin (Enter (at_ 8 10 dev81) map_a); Begin (Enter (at_ 9 20 dev81) read_a);
   eight; nine; nine; eight; eight; nine;
   Begin (Leave (at_ 8 5010 dev81) map_a 0x1000); Begin (Leave (at_ 9 6020 dev81) read_a 5);
   eight; nine; nine; nine; nine; nine; eight; eight; eight; eight; eight; eight; eight; nine].

Definition micro_end : config st calls label Z := end_of micro_acts (Config booted ∅ []).

Lemma micro_run_ends :
  run micro_acts (Config booted ∅ []) = Some (Config (machine micro_end) ∅ (finished micro_end)).
Proof. apply run_ends. vm_compute. reflexivity. Qed.

(** The events in the ring, and the order in which the probes finished. *)
Lemma micro_run_shows :
  map ev_pid (events (machine micro_end)) = [9; 8] /\
  map (fun l => Z.shiftr (label_thread l) 32) (finished micro_end) = [8; 9; 8; 9].
Proof. vm_compute. split; reflexivity. Qed.

(** ** Two probes at the same mapping

    Two threads of one process unmap the same address at the same time, and both
    look the device of the mapping up before either has deleted it.  Both pass
    the mount filter and are reported, while in every order of whole probes the
    second finds no mapping and is dropped. *)
Definition on_thread (pid tid us : Z) : kenv ioslower_event :=
  demo_env slot0 (Z.shiftl pid 32 + tid) (1000 * us) (demo_mem dev81 demo_strings).

Definition race_acts : list (action label Z) :=
  let unmap := VmMunmap 0x1000 4096 in
  let eight := Go (pid_tgid (on_thread 8 8 0)) in
  let nine := Go (pid_tgid (on_thread 8 9 0)) in
  [Begin (Enter (on_thread 8 8 10) map_a); eight; eight; eight;
   Begin (Leave (on_thread 8 8 20) map_a 0x1000);
   eight; eight; eight; eight; eight; eight; eight;
   Begin (Enter (on_thread 8 8 30) unmap); Begin (Enter (on_thread 8 9 30) unmap);
   eight; nine; eight; nine; eight; nine; eight; nine; eight; nine;
   Begin (Leave (on_thread 8 8 5030) unmap 0); Begin (Leave (on_thread 8 9 5030) unmap 0);
   eight; nine; eight; nine; eight; nine; eight; nine; eight; nine; eight; nine].

Definition race_end : config st calls label Z := end_of race_acts (Config booted ∅ []).

Lemma race_run_ends :
  run race_acts (Config booted ∅ []) = Some (Config (machine race_end) ∅ (finished race_end)).
Proof. apply run_ends. vm_compute. reflexivity. Qed.

Lemma race_labels_ok : Forall label_ok (begun race_acts).
Proof.
  assert (forall pid tid us, env_ok (on_thread pid tid us)) as He
    by (intros; apply demo_env_ok, demo_mem_ok).
  cbn [begun omap list_omap race_acts].
  repeat apply Forall_cons_2; try apply Forall_nil_2; try apply He;
    (split; [apply He|vm_compute; intuition congruence]).
Qed.

(** The run has two events, every order of its probes at most one. *)
Theorem racing_unmaps b :
  ~ undisturbed race_acts (Config booted ∅ []) /\
  exists s hist, run race_acts (Config booted ∅ []) = Some (Config s ∅ hist) /\
    length (events s) = 2%nat /\
    forall ls a, ls ≡ₚ begun race_acts -> exec b ls booted = Some a -> (length (events a) <= 1)%nat.
Proof.
  split.
  { assert (bool_decide (undisturbed race_acts (Config booted ∅ [])) = false) as H
      by (vm_compute; reflexivity). by apply bool_decide_eq_false in H. }
  exists (machine race_end), (finished race_end).
  split; [exact race_run_ends|]. split; [vm_compute; reflexivity|].
  intros ls a Hls. rewrite slow_exec_spec by (rewrite Hls; exact race_labels_ok). intros [= <-].
  symmetry in Hls. apply permutations_Permutation in Hls.
  assert (forallb (fun ls => length (events (spec_exec ls booted)) <=? 1)%nat
    (permutations (begun race_acts)) = true) as Hall by (vm_compute; reflexivity).
  rewrite forallb_forall in Hall. apply list_elem_of_In in Hls. apply Hall, Nat.leb_le in Hls. exact Hls.
Qed.
