(* ===== verification/IoslowerHistory.v ===== *)
(** * ioslower: what a whole run reports

    As IosnoopHistory, for ioslower: the effects of the entries and returns on
    the operation that each thread has in flight and on the known mappings, and
    the events as a function of the history.  Here the returns of a thread end
    whatever operation the thread has in flight. *)

From S2P Require Import Prelude Bpf BpfModel History Hooks IosnoopFmt IosnoopBpf IosnoopSpec.
From S2P Require Import IoslowerBpf IoslowerProbes IoslowerSpec IoslowerTrace IoslowerDemo.
From S2P Require Import Interleave IoslowerMicro.

Section Reports.
Context {RT : BpfRuntime}.
(** The mount filter as a predicate on devices, and the threshold. *)
Variable passes : Z -> bool.
Variable threshold : option Z.

Abbreviation ops := (list (Z * effect start_t)).
Abbreviation maps := (list (Z * effect Z)).

Definition op_effect (vmas : maps) (l : label) : effect start_t :=
  match l with
  | Enter e c =>
      match slow_target (mem e) (fun v => pending v vmas) (pid_tgid e) c with
      | Some d => if passes d.1 then Open (start_of (ktime e 0) (slow_type c) d) else Keep
      | None => Keep
      end
  | Leave _ _ _ => Close
  end.

Definition vma_effect (os : ops) (l : label) : maps :=
  match l with
  | Enter e (VmMunmap start _) => [(vma_key (pid_tgid e) start, Close)]
  | Leave e (DoMmap _ _ _ _ _) ret =>
      match pending (pid_tgid e) os with
      | Some x =>
          if 0 <? s64 ret then [(vma_key (pid_tgid e) ret, Open (st_dev x))] else []
      | None => []
      end
  | _ => []
  end.

(** The two histories of a run; everything is newest first. *)
Fixpoint effects (ls : list label) : ops * maps :=
  match ls with
  | [] => ([], [])
  | l :: ls =>
      let '(os, vs) := effects ls in
      ((label_thread l, op_effect vs l) :: os, vma_effect os l ++ vs)
  end.

(** A return reports the operation of its thread, if the threshold is set and
    reached and the ring has room. *)
Fixpoint reports (ls : list label) : list ioslower_event :=
  match ls with
  | [] => []
  | l :: ls =>
      reports ls ++
      match l with
      | Leave e c ret =>
          match pending (pid_tgid e) (effects ls).1, threshold, reserve e 0 with
          | Some x, Some th, Some slot =>
              if th <=? latency_us e x then [event_of e slot x (exit_value c ret)] else []
          | _, _, _ => []
          end
      | Enter _ _ => []
      end
  end.

(** There was always room for one more operation and one more mapping. *)
Definition roomy (n : nat) (ls : list label) : Prop :=
  within n (effects ls).1 /\ within n (effects ls).2.

Lemma slow_roomy_cons n l ls : roomy n (l :: ls) -> roomy n ls.
Proof.
  unfold roomy. cbn [effects]. destruct (effects ls) as [os vs]. cbn [fst snd within].
  intros [[_ H1] H2]. split; [done|by eapply within_app].
Qed.

Lemma slow_roomy_app n ls1 ls2 : roomy n (ls1 ++ ls2) -> roomy n ls2.
Proof.
  induction ls1 as [|l ls1 IH]; [done|]. intros H. apply IH. by apply (slow_roomy_cons n l).
Qed.

Context {RL : BpfRuntimeLaws RT}.

Record tells (s : st) (n : nat) (ls : list label) : Prop := {
  tells_ops : follows (op_start s) n (effects ls).1;
  tells_vmas : follows (vma_dev_map s) n (effects ls).2;
  tells_reports : events s = reports ls;
  tells_filter : forall dev, pass_mount_filter s dev = passes dev;
  tells_threshold : bpf_map_lookup_elem (threshold_config s) 0 = threshold;
}.

Lemma tells_target s n ls (e : kenv ioslower_event) c :
  tells s n ls ->
  slow_target (mem e) (bpf_map_lookup_elem (vma_dev_map s)) (pid_tgid e) c =
  slow_target (mem e) (fun v => pending v (effects ls).2) (pid_tgid e) c.
Proof.
  intros [_ Hv _ _ _]. destruct c; try done. cbn [slow_target].
  by rewrite (follows_lookup _ _ _ Hv).
Qed.

Lemma target_none_vma m vma id c os (e : kenv ioslower_event) :
  slow_target m vma id c = None -> vma_effect os (Enter e c) = [].
Proof. by destruct c. Qed.

Lemma slow_pre_entry_follows s n os vs e c :
  follows (vma_dev_map s) n vs ->
  follows (vma_dev_map (pre_entry e c s)) n (vma_effect os (Enter e c) ++ vs).
Proof. intros Hv. destruct c; try done. by apply follows_close. Qed.

Lemma slow_tells_enter s n ls e c :
  tells s n ls -> roomy n (Enter e c :: ls) -> tells (spec_entry e c s) n (Enter e c :: ls).
Proof.
  intros Ht [Hn _]. pose proof (tells_target s n ls e c Ht) as Htarget.
  destruct Ht as [Ho Hv Hr Hf Hth]. unfold spec_entry. rewrite Htarget.
  cbn [effects] in Hn. destruct (effects ls) as [os vs] eqn:Hls. cbn [fst snd op_effect] in *.
  destruct (slow_pre_entry_fields e c s) as (Hcfg & Hop & Hthr & Hevents).
  destruct (slow_target _ _ _ c) as [d|] eqn:Hd.
  - unfold start_or_drop. rewrite (slow_filter_cfg _ _ _ Hcfg), Hf. cbn [start_of st_dev].
    destruct (passes d.1) eqn:Hp; cbn [negb];
      split; cbn [effects reports]; rewrite ?Hls; cbn [fst snd op_effect label_thread];
      rewrite ?Hd, ?Hp, ?app_nil_r; cbn [set_op_start op_start events vma_dev_map threshold_config];
      rewrite ?Hop, ?Hevents, ?Hthr; try done; try (by apply follows_open);
      try (by apply follows_keep); try (by apply slow_pre_entry_follows).
    all: intros dev; rewrite <- Hf; by apply slow_filter_cfg.
  - split; cbn [effects reports]; rewrite ?Hls; cbn [fst snd op_effect label_thread];
      rewrite ?Hd, ?app_nil_r; try done; [by apply follows_keep|].
    by rewrite (target_none_vma _ _ _ _ _ e Hd).
Qed.

Lemma slow_pre_exit_follows s n os vs e c ret :
  follows (op_start s) n os -> follows (vma_dev_map s) n vs ->
  within n (vma_effect os (Leave e c ret) ++ vs) ->
  follows (vma_dev_map (pre_exit e c ret s)) n (vma_effect os (Leave e c ret) ++ vs).
Proof.
  intros Ho Hv Hn. destruct c; try done. cbn [pre_exit vma_effect] in *.
  rewrite (follows_lookup _ _ _ Ho). destruct (pending _ os) as [x|]; [|done].
  destruct (0 <? s64 ret); [|done]. by apply follows_open.
Qed.

Lemma slow_emit_vma (e : kenv ioslower_event) x delta ret s :
  vma_dev_map (emit_event e x delta ret s) = vma_dev_map s.
Proof. unfold emit_event. by repeat case_match. Qed.

Lemma slow_tells_leave s n ls e c ret :
  tells s n ls -> roomy n (Leave e c ret :: ls) ->
  tells (spec_exit e c ret s) n (Leave e c ret :: ls).
Proof.
  intros [Ho Hv Hr Hf Hth] [_ Hn]. cbn [effects] in Hn.
  destruct (effects ls) as [os vs] eqn:Hls. cbn [fst snd] in *.
  pose proof (slow_pre_exit_follows s n os vs e c ret Ho Hv Hn) as Hpre.
  destruct (slow_pre_exit_fields e c ret s) as (Hcfg & Hop & Hthr & Hevents).
  destruct (slow_step_config s (Leave e c ret)) as [Hc1 Hc2]. cbn [spec_step] in Hc1, Hc2.
  split; cbn [effects reports]; rewrite ?Hls; cbn [fst snd op_effect label_thread].
  - unfold spec_exit, finish_event. rewrite Hop, (follows_lookup _ _ _ Ho).
    destruct (pending (pid_tgid e) os) as [x|] eqn:Hp.
    + cbn [set_op_start op_start].
      destruct (slow_emit_fields e x (u64 (ktime e 0 - st_ts x)) (exit_value c ret)
        (pre_exit e c ret s)) as (-> & _ & _). rewrite Hop. by apply follows_close.
    + rewrite Hop. by apply follows_absent.
  - unfold spec_exit, finish_event.
    destruct (bpf_map_lookup_elem (op_start (pre_exit e c ret s)) _) as [x|]; [|exact Hpre].
    cbn [set_op_start vma_dev_map]. rewrite slow_emit_vma. exact Hpre.
  - rewrite slow_exit_events, Hr. unfold reported. by rewrite (follows_lookup _ _ _ Ho), Hth.
  - intros dev. rewrite <- Hf. by apply slow_filter_cfg.
  - by rewrite Hc2.
Qed.

Lemma slow_tells_exec ls s n past :
  tells s n past -> roomy n (rev ls ++ past) -> tells (spec_exec ls s) n (rev ls ++ past).
Proof.
  revert s past. induction ls as [|l ls IH]; intros s past Ht; [done|].
  cbn [rev]. rewrite <- app_assoc. intros Hn. apply (IH _ (l :: past)); [|done].
  apply slow_roomy_app in Hn.
  destruct l as [e c|e c ret]; [by apply slow_tells_enter|by apply slow_tells_leave].
Qed.

(** A run that is not longer than the maps has room. *)
Lemma slow_roomy_length n ls : (length ls <= n)%nat -> roomy n ls.
Proof.
  intros Hn. assert (length (effects ls).1 <= length ls /\ length (effects ls).2 <= length ls)%nat
    as [H1 H2].
  { clear Hn. induction ls as [|l ls IH]; [done|]. cbn [effects].
    destruct (effects ls) as [os vs]. cbn [fst snd] in *. rewrite length_app. cbn [length].
    assert (length (vma_effect os l) <= 1)%nat; [|lia].
    destruct l as [e c|e c ret]; destruct c; cbn; try lia.
    destruct (pending _ os); [|cbn; lia]. destruct (0 <? s64 ret); cbn; lia. }
  split; apply within_length; lia.
Qed.
End Reports.

(** From the start state, the ring holds what the history says. *)
Lemma slow_exec_reports {RT : BpfRuntime} {RL : BpfRuntimeLaws RT} b th cfg ls s :
  let passes := pass_mount_filter (boot th cfg) in
  Forall label_ok ls -> roomy passes 4096 (rev ls) -> exec b ls (boot th cfg) = Some s ->
  events s = reports passes (bpf_map_lookup_elem th 0) (rev ls).
Proof.
  intros passes Hok Hn. rewrite slow_exec_spec by done. intros [= <-].
  assert (tells passes (bpf_map_lookup_elem th 0) (boot th cfg) 4096 []) as H0
    by (split; [apply follows_create..|done|done|done]).
  destruct (slow_tells_exec passes _ ls (boot th cfg) 4096 [] H0) as [_ _ Hr _];
    rewrite ?app_nil_r in *; done.
Qed.

(** C2. ioslower as a function of the history: after any run of the entries and
    returns of hooked calls on any number of threads in which less than 4096
    operations are in flight and less than 4096 mappings known at a time, no
    probe of either family has faulted and the ring holds exactly the events of
    the returns that end a recorded entry and reach the threshold, in their
    order: each with the type, name and latency of the latest entry of its
    thread that the mount filter let through since the thread's last return. *)
Theorem ioslower_history {RT : BpfRuntime} {RL : BpfRuntimeLaws RT} b th cfg ls :
  let passes := pass_mount_filter (boot th cfg) in
  let threshold := bpf_map_lookup_elem th 0 in
  Forall label_ok ls -> roomy passes 4096 (rev ls) ->
  exists s, exec b ls (boot th cfg) = Some s /\ events s = reports passes threshold (rev ls).
Proof.
  intros passes threshold Hok Hn. exists (spec_exec ls (boot th cfg)).
  split; [by apply slow_exec_spec|]. apply (slow_exec_reports b); [done|done|by apply slow_exec_spec].
Qed.

(** C6. Concurrent probes of ioslower as a function of the history: when the
    helper calls of the probes of any number of threads interleave as they like,
    as long as no two probes in flight are at the same mapping (an unmapping of
    it, or the return of the call that made it) and the mappings known and in
    question are at most 4096 at a time, then once all probes have finished there
    is an order of them, with the probes of each thread in the order in which the
    thread ran them, such that the ring holds, in some order, exactly the events
    that the history has in that order: the operations that reach the threshold,
    each with its own latency. *)
Theorem slow_concurrent_history {RT : BpfRuntime} {RL : BpfRuntimeLaws RT} th cfg acts s hist :
  let passes := pass_mount_filter (boot th cfg) in
  let threshold := bpf_map_lookup_elem th 0 in
  Forall label_ok (begun acts) -> undisturbed acts (Config (boot th cfg) ∅ []) ->
  run acts (Config (boot th cfg) ∅ []) = Some (Config s ∅ hist) -> roomy passes 4096 (rev hist) ->
  (forall t, of_thread t hist = of_thread t (begun acts)) /\
  events s ≡ₚ reports passes threshold (rev hist).
Proof.
  intros passes threshold Hok Hcalm Hr Hn.
  destruct (slow_run_atomic true acts (boot th cfg) s hist Hok Hcalm Hr)
    as (Ho & a & Ha & _ & _ & _ & _ & Hev).
  split; [done|]. rewrite Hev. rewrite (slow_exec_reports true th cfg hist a); [done| |done|done].
  by eapply in_order_ok.
Qed.

(** Two threads; the short read of the second is below the threshold. *)
Lemma ioslower_history_witness :
  (fun s => map (fun ev => (ev_pid ev, ev_delta_us ev, cstr (ev_fname ev))) (events s))
    <$> exec false slow_run booted = Some [(8, 5000, bytes "a.txt")].
Proof.
  destruct (ioslower_history false th_1ms demo_cfg slow_run) as (s & Hs & Hev).
  - slow_labels.
  - apply slow_roomy_length; [exact gmap_runtime_laws|]. cbn [rev slow_run length app]. lia.
  - unfold booted. rewrite Hs. cbn [fmap option_fmap option_map]. rewrite Hev. run_eq.
Defined.

(** The schedule of IoslowerMicro: the mapping takes 5000 microseconds and the
    read 6000, and the read sends its event first. *)
Lemma slow_concurrent_history_witness :
  map (fun ev => (ev_pid ev, ev_delta_us ev)) (events (machine micro_end)) = [(9, 6000); (8, 5000)] /\
  events (machine micro_end) ≡ₚ
    reports (pass_mount_filter booted) (Some 1000) (rev (finished micro_end)).
Proof.
  split; [run_eq|].
  destruct (slow_concurrent_history th_1ms demo_cfg micro_acts (machine micro_end)
    (finished micro_end)) as [_ H]; [| | | |exact H].
  - cbn [begun omap list_omap micro_acts]. slow_labels.
  - refine (@bool_decide_unpack _ (undisturbed_decision _ _) _). vm_compute. exact I.
  - exact micro_run_ends.
  - apply slow_roomy_length; [exact gmap_runtime_laws|]. vm_compute. lia.
Defined.
