(* ===== verification/AodEvent.v ===== *)
(** * The event record of the smb and nfs tools

    Models [struct event] of src/common/aod_diag.h, which the four kernel
    programs smbslower, smbiosnoop, nfsslower and nfsiosnoop submit to the
    pinned ring and the consumers read back as 48 raw bytes: the record, its
    union of metrics, and its bytes on a little-endian 64-bit machine
    ([encode], by the rule of the C compiler).  [decode] is the event that 48
    bytes are the bytes of; the consumers' own readings are in Consumer. *)

From S2P Require Import Prelude Bpf.

Definition TASK_COMM_LEN : nat := 16.
Definition MAX_ENTRIES : Z := 2048.

(** The tools. *)
Definition SMBSLOWER : Z := 0.
Definition SMBIOSNOOP : Z := 1.
Definition NFSSLOWER : Z := 10.
Definition NFSIOSNOOP : Z := 11.

(** [ev_pad] is the byte of padding before [cmd_end_time_ns], which no code
    writes; [ev_metric] holds the eight bytes of the union. *)
Record event := Event {
  ev_pid : Z; ev_command : Z; ev_tool : Z; ev_pad : Z;
  ev_cmd_end_time_ns : Z; ev_rqst_id : Z; ev_metric : Z;
  ev_task : list Z;  (* char[16] *)
}.

(** ** The union of metrics *)

(** Reading the members. *)
Definition latency_ns (metric : Z) : Z := metric.
Definition retval (metric : Z) : Z := s32 metric.

(** Storing an [int] in the union writes its first four bytes and leaves the
    other four as they are. *)
Definition set_retval (metric v : Z) : Z := metric / 2 ^ 32 * 2 ^ 32 + u32 v.

Lemma retval_set metric v : fits_s 32 v -> retval (set_retval metric v) = v.
Proof.
  intros Hv. unfold retval, set_retval, wraps.
  replace (metric / 2 ^ 32 * 2 ^ 32 + u32 v + 2 ^ (32 - 1))
    with (u32 v + 2 ^ (32 - 1) + metric / 2 ^ 32 * 2 ^ 32) by lia.
  rewrite Z.mod_add by lia. fold (wraps 32 (u32 v)).
  rewrite wraps_wrapu by lia. apply wraps_small; [lia|done].
Qed.

Lemma set_retval_range metric v : fits_u 64 metric -> fits_u 64 (set_retval metric v).
Proof.
  unfold fits_u, set_retval. intros Hm. pose proof (wrapu_range 32 v ltac:(lia)) as Hu.
  unfold fits_u in Hu. pose proof (Z.div_pos metric (2 ^ 32)).
  assert (metric / 2 ^ 32 < 2 ^ 32) by (apply Z.div_lt_upper_bound; lia). lia.
Qed.

(** ** Little-endian words *)

Fixpoint le_bytes (n : nat) (v : Z) : list Z :=
  match n with
  | O => []
  | S n => v mod 256 :: le_bytes n (v / 256)
  end.

Fixpoint le_int (bs : list Z) : Z :=
  match bs with
  | [] => 0
  | b :: bs => b + 256 * le_int bs
  end.

Definition is_byte (b : Z) : Prop := 0 <= b < 256.

Lemma le_bytes_length n v : length (le_bytes n v) = n.
Proof. revert v. induction n as [|n IH]; intros v; simpl; [done|by rewrite IH]. Qed.

Lemma le_bytes_bytes n v : Forall is_byte (le_bytes n v).
Proof.
  revert v. induction n as [|n IH]; intros v; simpl; constructor; [|apply IH].
  apply Z.mod_pos_bound. lia.
Qed.

Lemma le_int_bytes n v : fits_u (8 * Z.of_nat n) v -> le_int (le_bytes n v) = v.
Proof.
  unfold fits_u. revert v. induction n as [|n IH]; intros v Hv.
  - simpl in *. lia.
  - cbn [le_bytes le_int]. replace (8 * Z.of_nat (S n)) with (8 + 8 * Z.of_nat n) in Hv by lia.
    rewrite Z.pow_add_r in Hv by lia. rewrite IH.
    + pose proof (Z.div_mod v 256). lia.
    + split; [apply Z.div_pos; lia|apply Z.div_lt_upper_bound; lia].
Qed.

Lemma le_bytes_int bs : Forall is_byte bs -> le_bytes (length bs) (le_int bs) = bs.
Proof.
  unfold is_byte. induction 1 as [|b bs Hb Hbs IH]; [done|]. cbn [length le_bytes le_int].
  assert ((b + 256 * le_int bs) mod 256 = b) as ->
    by (symmetry; apply Z.mod_unique_pos with (le_int bs); lia).
  assert ((b + 256 * le_int bs) / 256 = le_int bs) as ->
    by (symmetry; apply Z.div_unique_pos with b; lia).
  by rewrite IH.
Qed.

Lemma le_int_range bs : Forall is_byte bs -> fits_u (8 * Z.of_nat (length bs)) (le_int bs).
Proof.
  unfold is_byte, fits_u. induction 1 as [|b bs Hb Hbs IH]; [simpl; lia|]. cbn [length le_int].
  replace (8 * Z.of_nat (S (length bs))) with (8 + 8 * Z.of_nat (length bs)) by lia.
  rewrite Z.pow_add_r by lia. lia.
Qed.

(** ** The layout

    The rule of the C compiler, which ctypes and numpy (with align=True) follow:
    every member at the next multiple of its alignment. *)
Record member := Member { msize : nat; malign : nat }.

Definition align_up (n a : nat) : nat := ((n + a - 1) / a * a)%nat.

Fixpoint place (off : nat) (fs : list member) : list nat * nat :=
  match fs with
  | [] => ([], off)
  | f :: fs =>
      let o := align_up off (malign f) in
      let '(os, n) := place (o + msize f) fs in (o :: os, n)
  end.

Definition offsets (fs : list member) : list nat := (place 0 fs).1.
Definition sizeof (fs : list member) : nat :=
  align_up (place 0 fs).2 (foldr Nat.max 1%nat (map malign fs)).

(** The members of [struct event]. *)
Definition struct_event : list member :=
  [Member 4 4; Member 2 2; Member 1 1; Member 8 8; Member 8 8; Member 8 8; Member TASK_COMM_LEN 1].

Definition sizeof_event : nat := 48.

(** Members with their bytes, and [pad] in between. *)
Fixpoint lay_out (pad : Z) (off : nat) (fs : list member) (vs : list (list Z)) : list Z :=
  match fs, vs with
  | f :: fs, v :: vs =>
      let o := align_up off (malign f) in
      replicate (o - off) pad ++ v ++ lay_out pad (o + msize f) fs vs
  | _, _ => []
  end.

Definition encode (e : event) : list Z :=
  lay_out (u8 (ev_pad e)) 0 struct_event
    [le_bytes 4 (ev_pid e); le_bytes 2 (ev_command e); le_bytes 1 (ev_tool e);
     le_bytes 8 (ev_cmd_end_time_ns e); le_bytes 8 (ev_rqst_id e); le_bytes 8 (ev_metric e);
     ev_task e].

Lemma encode_bytes e :
  encode e =
  le_bytes 4 (ev_pid e) ++ le_bytes 2 (ev_command e) ++ le_bytes 1 (ev_tool e) ++
  le_bytes 1 (ev_pad e) ++ le_bytes 8 (ev_cmd_end_time_ns e) ++ le_bytes 8 (ev_rqst_id e) ++
  le_bytes 8 (ev_metric e) ++ ev_task e.
Proof. rewrite <- (app_nil_r (ev_task e)). reflexivity. Qed.

Definition field (bs : list Z) (off len : nat) : Z := le_int (take len (drop off bs)).

Definition decode (bs : list Z) : event :=
  Event (field bs 0 4) (field bs 4 2) (field bs 6 1) (field bs 7 1) (field bs 8 8)
    (field bs 16 8) (field bs 24 8) (take TASK_COMM_LEN (drop 32 bs)).

Record event_ok (e : event) : Prop := {
  pid_ok : fits_u 32 (ev_pid e);
  command_ok : fits_u 16 (ev_command e);
  tool_ok : fits_u 8 (ev_tool e);
  pad_ok : fits_u 8 (ev_pad e);
  end_ok : fits_u 64 (ev_cmd_end_time_ns e);
  rqst_ok : fits_u 64 (ev_rqst_id e);
  metric_ok : fits_u 64 (ev_metric e);
  task_ok : length (ev_task e) = TASK_COMM_LEN;
}.

(** An environment whose ring memory holds bytes: the parts of a reserved
    record that a program leaves as they are. *)
Definition ring_ok (e : kenv event) : Prop :=
  env_ok e /\ forall fl slot, reserve e fl = Some slot ->
    fits_u 8 (ev_pad slot) /\ fits_u 64 (ev_metric slot).

Lemma encode_length e : length (ev_task e) = TASK_COMM_LEN -> length (encode e) = sizeof_event.
Proof.
  intros Ht. rewrite encode_bytes,  !length_app, !le_bytes_length, Ht. done.
Qed.

(** Reading a field at the end of the bytes before it. *)
Lemma field_app pre v post len :
  fits_u (8 * Z.of_nat len) v ->
  field (pre ++ le_bytes len v ++ post) (length pre) len = v.
Proof.
  intros Hv. unfold field. rewrite drop_app_length.
  rewrite <- (le_bytes_length len v) at 1. rewrite take_app_length. by apply le_int_bytes.
Qed.

Lemma decode_encode_ok e : event_ok e -> decode (encode e) = e.
Proof.
  intros [].
  rewrite encode_bytes. unfold decode. destruct e as [p c t a n r m k].
  cbn [ev_pid ev_command ev_tool ev_pad ev_cmd_end_time_ns ev_rqst_id ev_metric ev_task] in *.
  set (b1 := le_bytes 4 p) in *. set (b2 := le_bytes 2 c). set (b3 := le_bytes 1 t).
  set (b4 := le_bytes 1 a). set (b5 := le_bytes 8 n). set (b6 := le_bytes 8 r).
  set (b7 := le_bytes 8 m).
  f_equal.
  - by apply (field_app []).
  - by apply (field_app b1).
  - rewrite (app_assoc b1). by apply (field_app (b1 ++ b2)).
  - rewrite (app_assoc b1), (app_assoc (b1 ++ b2)). by apply (field_app ((b1 ++ b2) ++ b3)).
  - rewrite !(app_assoc b1), !(app_assoc (b1 ++ b2)), (app_assoc ((b1 ++ b2) ++ b3)).
    by apply (field_app (((b1 ++ b2) ++ b3) ++ b4)).
  - replace (b1 ++ b2 ++ b3 ++ b4 ++ b5 ++ b6 ++ b7 ++ k)
      with ((b1 ++ b2 ++ b3 ++ b4 ++ b5) ++ b6 ++ b7 ++ k) by (rewrite <- !app_assoc; done).
    by apply (field_app (b1 ++ b2 ++ b3 ++ b4 ++ b5)).
  - replace (b1 ++ b2 ++ b3 ++ b4 ++ b5 ++ b6 ++ b7 ++ k)
      with ((b1 ++ b2 ++ b3 ++ b4 ++ b5 ++ b6) ++ b7 ++ k) by (rewrite <- !app_assoc; done).
    by apply (field_app (b1 ++ b2 ++ b3 ++ b4 ++ b5 ++ b6)).
  - replace (b1 ++ b2 ++ b3 ++ b4 ++ b5 ++ b6 ++ b7 ++ k)
      with ((b1 ++ b2 ++ b3 ++ b4 ++ b5 ++ b6 ++ b7) ++ k) by (rewrite <- !app_assoc; done).
    change 32%nat with (length (b1 ++ b2 ++ b3 ++ b4 ++ b5 ++ b6 ++ b7)).
    rewrite drop_app_length, <- task_ok0. apply take_ge. lia.
Qed.

(** The bytes of a field, and the bytes after it. *)
Lemma field_bytes bs off len rest :
  Forall is_byte bs -> (off + len <= length bs)%nat ->
  le_bytes len (field bs off len) ++ drop (off + len) bs ++ rest = drop off bs ++ rest.
Proof.
  intros Hbs Hl. unfold field.
  assert (length (take len (drop off bs)) = len) as Hlen by (rewrite length_take, length_drop; lia).
  rewrite <- Hlen at 1. rewrite le_bytes_int by (by apply Forall_take, Forall_drop).
  rewrite app_assoc. f_equal. by rewrite <- drop_drop, take_drop.
Qed.

Lemma encode_decode_ok bs :
  length bs = sizeof_event -> Forall is_byte bs -> encode (decode bs) = bs.
Proof.
  intros Hl Hbs. unfold sizeof_event in Hl. rewrite encode_bytes. unfold decode.
  cbn [ev_pid ev_command ev_tool ev_pad ev_cmd_end_time_ns ev_rqst_id ev_metric ev_task].
  rewrite (take_ge (drop 32 bs)) by (rewrite length_drop; unfold TASK_COMM_LEN; lia).
  rewrite <- (app_nil_r (drop 32 bs)).
  rewrite (field_bytes bs 24 8), (field_bytes bs 16 8), (field_bytes bs 8 8), (field_bytes bs 7 1),
    (field_bytes bs 6 1), (field_bytes bs 4 2), (field_bytes bs 0 4) by (done || lia).
  by rewrite drop_0, app_nil_r.
Qed.

(** The layout of an event: an event whose fields fit their C types is laid
    out in 48 bytes that read back as the event, and any 48 bytes are the
    layout of the event they read as. *)
Theorem decode_encode e bs :
  event_ok e -> length bs = sizeof_event -> Forall is_byte bs ->
  length (encode e) = sizeof_event /\ decode (encode e) = e /\ encode (decode bs) = bs.
Proof.
  intros He Hl Hbs. split_and!; [by apply encode_length, He|by apply decode_encode_ok|].
  by apply encode_decode_ok.
Qed.

Lemma decode_encode_witness :
  encode (decode (replicate 48 7)) = replicate 48 7.
Proof.
  apply (decode_encode (Event 4242 5 SMBSLOWER 0 1000000 77 12345 (pad 16 (bytes "cp")))).
  - split; vm_compute; intuition congruence.
  - reflexivity.
  - apply Forall_replicate. unfold is_byte. lia.
Defined.
