(* ===== verification/SmbslowerBpf.v ===== *)
(** * smbslower: the kernel program

    Models src/bpf/smbslower.bpf.c: the maps, the wakeup policy, the
    tracepoint programs and the function probes that start and complete a
    command, and the release probes of every kernel variant.  The layout of
    [struct mid_q_entry] in the loaded cifs module is a parameter
    ([cifs_layout]), and each firing of an allocation probe has the kernel
    memory that it reads ([cifs_mem]): a read that faults gives 0. *)

From S2P Require Import Prelude Bpf AodEvent.

Definition MAX_SMB_COMMANDS : nat := 20.

(** The constants the loader writes before loading. *)
Record rodata := Rodata { min_lat_ns : Z; wakeup_data_size : Z }.

Record smb_partial_event := SmbPartial { smbcommand : Z; metric : Z; mid : Z }.

(** The contexts of the tracepoints, without their padding. *)
Record smb3_cmd_done_args := DoneArgs { tid : Z; sesid : Z; cmd : Z; ctx_mid : Z }.
Record smb3_cmd_err_args := ErrArgs {
  err_tid : Z; err_sesid : Z; err_cmd : Z; err_mid : Z; status : Z; rc : Z
}.

(** [key_pad] is the padding between [tid] and [sesid]: a hash map compares all
    24 bytes of a key. *)
Record smb_trace_key := TraceKey { key_tid : Z; key_pad : Z; key_sesid : Z; key_mid : Z }.

#[export] Instance smb_trace_key_eq_dec : EqDecision smb_trace_key.
Proof. solve_decision. Defined.

#[export] Instance smb_trace_key_countable : Countable smb_trace_key.
Proof.
  apply (inj_countable' (fun k => (key_tid k, key_pad k, key_sesid k, key_mid k))
    (fun '(t, p, s, m) => TraceKey t p s m)).
  by intros [].
Defined.

(** The offsets of the fields of [struct mid_q_entry] that CO-RE relocation
    finds, and kernel memory as one firing reads it: the address of an entry
    that was released is used again for others. *)
Record cifs_layout := CifsLayout { off_mid : Z; off_command : Z; off_refcount : Z }.
Record cifs_mem := CifsMem { read_u16 : Z -> Z; read_u64 : Z -> Z }.

(** Offsets verified by the authors for kernels without module BTF. *)
Definition RHEL_810_MID_OFFSET : Z := 32.
Definition RHEL_810_COMMAND_OFFSET : Z := 124.
Definition RHEL_810_REFCOUNT_OFFSET : Z := 16.
Definition RHEL_810_553_134_MID_OFFSET : Z := 24.
Definition RHEL_810_553_134_COMMAND_OFFSET : Z := 40.

(** Little-endian machine: the macro is the identity. *)
Definition bpf_le16_to_cpu (x : Z) : Z := x.

Section Program.
Context {RT : BpfRuntime}.
Variable ro : rodata.
Variable ly : cifs_layout.

Abbreviation env := (kenv event).

(** The maps; [aodrb] lists the submitted records with their wakeup flags. *)
Record st := St {
  denylist : hmap Z Z;
  temp : hmap Z smb_partial_event;
  trace_temp : hmap smb_trace_key smb_partial_event;
  aodrb : list (event * Z);
}.

Definition set_temp (s : st) (x : hmap Z smb_partial_event) : st :=
  St (denylist s) x (trace_temp s) (aodrb s).
Definition set_trace_temp (s : st) (x : hmap smb_trace_key smb_partial_event) : st :=
  St (denylist s) (temp s) x (aodrb s).
Definition submit (s : st) (e : event) (flags : Z) : st :=
  St (denylist s) (temp s) (trace_temp s) (aodrb s ++ [(e, flags)]).

Definition get_flags (e : env) : Z :=
  if wakeup_data_size ro =? 0 then 0
  else
    let sz := rb_avail e 0 in
    if wakeup_data_size ro <=? sz then BPF_RB_FORCE_WAKEUP else BPF_RB_NO_WAKEUP.

(** ** Completing a command *)

Definition probe_exit (e : env) (mid_struct : Z) (s : st) : st :=
  match bpf_map_lookup_elem (temp s) mid_struct with
  | None => s
  | Some partial =>
      let now := ktime e 0 in
      let latency := u64 (now - latency_ns (metric partial)) in
      let s := set_temp s (delete_elem (temp s) mid_struct) in
      if latency <? min_lat_ns ro then s
      else
        match reserve e 0 with
        | None => s
        | Some slot =>
            let ev := {|
              ev_pid := u32 (Z.shiftr (pid_tgid e) 32);
              ev_command := smbcommand partial;
              ev_tool := SMBSLOWER;
              ev_pad := ev_pad slot;
              ev_cmd_end_time_ns := now;
              ev_rqst_id := mid partial;
              ev_metric := latency;
              ev_task := comm e |} in
            submit s ev (get_flags e)
        end
  end.

Definition complete_trace_event (e : env) (key : smb_trace_key) (s : st) : st :=
  match bpf_map_lookup_elem (trace_temp s) key with
  | None => s
  | Some completed =>
      let now := ktime e 0 in
      let latency := u64 (now - latency_ns (metric completed)) in
      let s := set_trace_temp s (delete_elem (trace_temp s) key) in
      if latency <? min_lat_ns ro then s
      else
        match reserve e 0 with
        | None => s
        | Some slot =>
            let ev := {|
              ev_pid := u32 (Z.shiftr (pid_tgid e) 32);
              ev_command := smbcommand completed;
              ev_tool := SMBSLOWER;
              ev_pad := ev_pad slot;
              ev_cmd_end_time_ns := now;
              ev_rqst_id := mid completed;
              ev_metric := latency;
              ev_task := comm e |} in
            submit s ev (get_flags e)
        end
  end.

(** ** Tracepoints *)

(** The key is a local of the program.  Its initializer names every member and
    leaves the padding as C allows it: what the stack happens to hold there. *)
Definition trace_key_of (e : env) (tid sesid mid : Z) : smb_trace_key :=
  TraceKey tid (field (stack e) 4 4) sesid mid.

Definition trace_smb3_cmd_enter (e : env) (ctx : smb3_cmd_done_args) (s : st) : st :=
  let key := trace_key_of e (tid ctx) (sesid ctx) (ctx_mid ctx) in
  match bpf_map_lookup_elem (denylist s) (cmd ctx) with
  | Some _ => s
  | None =>
      let event := SmbPartial (cmd ctx) (ktime e 0) (ctx_mid ctx) in
      set_trace_temp s (update_elem (trace_temp s) key event BPF_ANY)
  end.

Definition trace_smb3_cmd_done (e : env) (ctx : smb3_cmd_done_args) (s : st) : st :=
  complete_trace_event e (trace_key_of e (tid ctx) (sesid ctx) (ctx_mid ctx)) s.

Definition trace_smb3_cmd_err (e : env) (ctx : smb3_cmd_err_args) (s : st) : st :=
  complete_trace_event e (trace_key_of e (err_tid ctx) (err_sesid ctx) (err_mid ctx)) s.

(** ** Allocation probes *)

Definition mid_alloc_fexit (km : cifs_mem) (e : env) (shdr server mid_struct : Z) (s : st) : st :=
  let smbcommand := bpf_le16_to_cpu (read_u16 km (mid_struct + off_command ly)) in
  match bpf_map_lookup_elem (denylist s) smbcommand with
  | Some _ => s
  | None =>
      let pe := SmbPartial smbcommand (ktime e 0) (read_u64 km (mid_struct + off_mid ly)) in
      set_temp s (update_elem (temp s) mid_struct pe BPF_NOEXIST)
  end.

Definition mid_alloc_kretprobe (km : cifs_mem) (e : env) (mid_struct : Z) (s : st) : st :=
  if mid_struct =? 0 then s
  else
    let cmd := read_u16 km (mid_struct + off_command ly) in
    let smbcommand := bpf_le16_to_cpu cmd in
    match bpf_map_lookup_elem (denylist s) smbcommand with
    | Some _ => s
    | None =>
        let pe := SmbPartial smbcommand (ktime e 0) (read_u64 km (mid_struct + off_mid ly)) in
        set_temp s (update_elem (temp s) mid_struct pe BPF_NOEXIST)
    end.

Definition mid_alloc_rhel810_kretprobe (km : cifs_mem) (e : env) (mid_struct : Z) (s : st) : st :=
  if mid_struct =? 0 then s
  else
    let cmd := read_u16 km (mid_struct + RHEL_810_COMMAND_OFFSET) in
    let smbcommand := bpf_le16_to_cpu cmd in
    match bpf_map_lookup_elem (denylist s) smbcommand with
    | Some _ => s
    | None =>
        let pe :=
          SmbPartial smbcommand (ktime e 0) (read_u64 km (mid_struct + RHEL_810_MID_OFFSET)) in
        set_temp s (update_elem (temp s) mid_struct pe BPF_NOEXIST)
    end.

Definition mid_alloc_rhel810_553_134_kretprobe (km : cifs_mem) (e : env) (mid_struct : Z) (s : st) : st :=
  if mid_struct =? 0 then s
  else
    let cmd := read_u16 km (mid_struct + RHEL_810_553_134_COMMAND_OFFSET) in
    let smbcommand := bpf_le16_to_cpu cmd in
    match bpf_map_lookup_elem (denylist s) smbcommand with
    | Some _ => s
    | None =>
        let pe :=
          SmbPartial smbcommand (ktime e 0)
            (read_u64 km (mid_struct + RHEL_810_553_134_MID_OFFSET)) in
        set_temp s (update_elem (temp s) mid_struct pe BPF_NOEXIST)
    end.

(** ** Release probes *)

(** [container_of]: pointer arithmetic is modulo 2^64. *)
Definition release_kref (e : env) (refcount : Z) (s : st) : st :=
  let mid_struct := u64 (refcount - off_refcount ly) in
  probe_exit e mid_struct s.

Definition mid_release_kref_fentry (e : env) (refcount : Z) (s : st) : st :=
  release_kref e refcount s.
Definition mid_release_kref_kprobe (e : env) (refcount : Z) (s : st) : st :=
  release_kref e refcount s.
Definition mid_release_legacy_fentry (e : env) (refcount : Z) (s : st) : st :=
  release_kref e refcount s.
Definition mid_release_legacy_kprobe (e : env) (refcount : Z) (s : st) : st :=
  release_kref e refcount s.

Definition mid_release_rhel810_kprobe (e : env) (refcount : Z) (s : st) : st :=
  let mid_struct := u64 (refcount - RHEL_810_REFCOUNT_OFFSET) in
  probe_exit e mid_struct s.

Definition mid_release_rhel810_553_134_kprobe (e : env) (refcount : Z) (s : st) : st :=
  let mid_struct := u64 (refcount - RHEL_810_REFCOUNT_OFFSET) in
  probe_exit e mid_struct s.

Definition mid_release_single_direct_fentry (e : env) (midEntry : Z) (s : st) : st :=
  probe_exit e midEntry s.
Definition mid_release_single_direct_kprobe (e : env) (midEntry : Z) (s : st) : st :=
  probe_exit e midEntry s.
Definition mid_release_direct_fentry (e : env) (server midEntry : Z) (s : st) : st :=
  probe_exit e midEntry s.
Definition mid_release_direct_kprobe (e : env) (server midEntry : Z) (s : st) : st :=
  probe_exit e midEntry s.
End Program.
