(* ===== verification/SmbslowerTrace.v ===== *)
(** * smbslower: executions of the kernel program

    The loader attaches one pair of programs: the tracepoints of commands, or
    one allocation probe with the release probe of its kernel.  Labels are
    the firings of any of the programs.  The theorems: which latency a
    completed command reports, by either pair; the release probes find the
    entry that the allocation probes recorded; and the invariant that denied
    commands are never recorded or reported and reports respect the latency
    limit and the wakeup policy. *)

From S2P Require Import Prelude Bpf BpfModel AodEvent SmbslowerBpf.

Inductive alloc_prog := AllocFexit | AllocKretprobe | AllocRhel810 | AllocRhel810_553_134.

(** The release programs, by what their argument points to. *)
Inductive release_prog :=
| ReleaseKrefFentry | ReleaseKrefKprobe | ReleaseLegacyFentry | ReleaseLegacyKprobe
| ReleaseRhel810 | ReleaseRhel810_553_134
| ReleaseSingleFentry | ReleaseSingleKprobe | ReleaseDirectFentry | ReleaseDirectKprobe.

Section Trace.
Context {RT : BpfRuntime}.
Variable ro : rodata.
Variable ly : cifs_layout.

Abbreviation env := (kenv event).

Definition run_alloc (p : alloc_prog) (km : cifs_mem) (e : env) (mid_struct : Z) (s : st) : st :=
  match p with
  | AllocFexit => mid_alloc_fexit ly km e 0 0 mid_struct s
  | AllocKretprobe => mid_alloc_kretprobe ly km e mid_struct s
  | AllocRhel810 => mid_alloc_rhel810_kretprobe km e mid_struct s
  | AllocRhel810_553_134 => mid_alloc_rhel810_553_134_kretprobe km e mid_struct s
  end.

Definition run_release (p : release_prog) (e : env) (arg : Z) (s : st) : st :=
  match p with
  | ReleaseKrefFentry => mid_release_kref_fentry ro ly e arg s
  | ReleaseKrefKprobe => mid_release_kref_kprobe ro ly e arg s
  | ReleaseLegacyFentry => mid_release_legacy_fentry ro ly e arg s
  | ReleaseLegacyKprobe => mid_release_legacy_kprobe ro ly e arg s
  | ReleaseRhel810 => mid_release_rhel810_kprobe ro e arg s
  | ReleaseRhel810_553_134 => mid_release_rhel810_553_134_kprobe ro e arg s
  | ReleaseSingleFentry => mid_release_single_direct_fentry ro e arg s
  | ReleaseSingleKprobe => mid_release_single_direct_kprobe ro e arg s
  | ReleaseDirectFentry => mid_release_direct_fentry ro e 0 arg s
  | ReleaseDirectKprobe => mid_release_direct_kprobe ro e 0 arg s
  end.

(** What the kernel passes to the release function for an entry: the entry,
    or its reference count. *)
Definition release_arg (p : release_prog) (mid_struct : Z) : Z :=
  match p with
  | ReleaseKrefFentry | ReleaseKrefKprobe | ReleaseLegacyFentry | ReleaseLegacyKprobe =>
      u64 (mid_struct + off_refcount ly)
  | ReleaseRhel810 | ReleaseRhel810_553_134 => u64 (mid_struct + RHEL_810_REFCOUNT_OFFSET)
  | _ => mid_struct
  end.

(** Command and message id that the allocation programs read. *)
Definition alloc_command (p : alloc_prog) (km : cifs_mem) (mid_struct : Z) : Z :=
  read_u16 km (mid_struct +
    match p with
    | AllocFexit | AllocKretprobe => off_command ly
    | AllocRhel810 => RHEL_810_COMMAND_OFFSET
    | AllocRhel810_553_134 => RHEL_810_553_134_COMMAND_OFFSET
    end).
Definition alloc_mid (p : alloc_prog) (km : cifs_mem) (mid_struct : Z) : Z :=
  read_u64 km (mid_struct +
    match p with
    | AllocFexit | AllocKretprobe => off_mid ly
    | AllocRhel810 => RHEL_810_MID_OFFSET
    | AllocRhel810_553_134 => RHEL_810_553_134_MID_OFFSET
    end).

(** [Alloc] and [Release] name the entry that is allocated or released; the
    memory of an allocation is what its program reads. *)
Inductive label :=
| CmdEnter (e : env) (ctx : smb3_cmd_done_args)
| CmdDone (e : env) (ctx : smb3_cmd_done_args)
| CmdErr (e : env) (ctx : smb3_cmd_err_args)
| Alloc (p : alloc_prog) (km : cifs_mem) (e : env) (mid_struct : Z)
| Release (p : release_prog) (e : env) (mid_struct : Z).

Definition label_ok (l : label) : Prop :=
  match l with
  | CmdEnter e ctx => ring_ok e /\ fits_u 16 (cmd ctx) /\ fits_u 64 (ctx_mid ctx)
  | CmdDone e _ | CmdErr e _ => ring_ok e
  | Alloc _ km e m =>
      ring_ok e /\ 0 < m < 2 ^ 64 /\
      (forall a, fits_u 16 (read_u16 km a)) /\ (forall a, fits_u 64 (read_u64 km a))
  | Release _ e m => ring_ok e /\ 0 < m < 2 ^ 64
  end.

Definition step (s : st) (l : label) : st :=
  match l with
  | CmdEnter e ctx => trace_smb3_cmd_enter e ctx s
  | CmdDone e ctx => trace_smb3_cmd_done ro e ctx s
  | CmdErr e ctx => trace_smb3_cmd_err ro e ctx s
  | Alloc p km e m => run_alloc p km e m s
  | Release p e m => run_release p e (release_arg p m) s
  end.

Definition exec (ls : list label) (s : st) : st := fold_left step ls s.

(** The keys a label works on. *)
Definition trace_key (l : label) : option smb_trace_key :=
  match l with
  | CmdEnter e c | CmdDone e c => Some (trace_key_of e (tid c) (sesid c) (ctx_mid c))
  | CmdErr e c => Some (trace_key_of e (err_tid c) (err_sesid c) (err_mid c))
  | _ => None
  end.
Definition entry_key (l : label) : option Z :=
  match l with
  | Alloc _ _ _ m | Release _ _ m => Some m
  | _ => None
  end.

(** ** What the programs do *)

(** The report of a completed operation: something only when the latency
    reaches the limit and the ring has room. *)
Definition reported (e : env) (pe : smb_partial_event) : list (event * Z) :=
  let latency := u64 (ktime e 0 - metric pe) in
  match reserve e 0 with
  | Some slot =>
      if min_lat_ns ro <=? latency then
        [(Event (u32 (Z.shiftr (pid_tgid e) 32)) (smbcommand pe) SMBSLOWER (ev_pad slot)
           (ktime e 0) (mid pe) latency (comm e), get_flags ro e)]
      else []
  | None => []
  end.

(** Both completions: drop the record and append its report. *)
Definition complete_mid (e : env) (m : Z) (s : st) : st :=
  match bpf_map_lookup_elem (temp s) m with
  | None => s
  | Some pe =>
      St (denylist s) (delete_elem (temp s) m) (trace_temp s) (aodrb s ++ reported e pe)
  end.
Definition complete_trace (e : env) (k : smb_trace_key) (s : st) : st :=
  match bpf_map_lookup_elem (trace_temp s) k with
  | None => s
  | Some pe =>
      St (denylist s) (temp s) (delete_elem (trace_temp s) k) (aodrb s ++ reported e pe)
  end.

Lemma probe_exit_spec e m s : probe_exit ro e m s = complete_mid e m s.
Proof.
  unfold probe_exit, complete_mid, reported, latency_ns.
  destruct (bpf_map_lookup_elem (temp s) m) as [pe|]; [|done].
  rewrite Z.leb_antisym. destruct (_ <? _); cbn [negb]; destruct (reserve e 0); simpl;
    by rewrite ?app_nil_r.
Qed.

Lemma complete_trace_event_spec e k s : complete_trace_event ro e k s = complete_trace e k s.
Proof.
  unfold complete_trace_event, complete_trace, reported, latency_ns.
  destruct (bpf_map_lookup_elem (trace_temp s) k) as [pe|]; [|done].
  rewrite Z.leb_antisym. destruct (_ <? _); cbn [negb]; destruct (reserve e 0); simpl;
    by rewrite ?app_nil_r.
Qed.

(** Every allocation program records the entry under its address, unless its
    command is denied or the entry is there already. *)
Lemma run_alloc_spec p km e m s :
  m <> 0 ->
  run_alloc p km e m s =
  match bpf_map_lookup_elem (denylist s) (alloc_command p km m) with
  | Some _ => s
  | None =>
      set_temp s (update_elem (temp s) m
        (SmbPartial (alloc_command p km m) (ktime e 0) (alloc_mid p km m)) BPF_NOEXIST)
  end.
Proof. intros Hm. apply Z.eqb_neq in Hm. destruct p; simpl; unfold mid_alloc_kretprobe,
  mid_alloc_rhel810_kretprobe, mid_alloc_rhel810_553_134_kretprobe; by rewrite ?Hm.
Qed.

Lemma container_of m off : fits_u 64 m -> u64 (u64 (m + off) - off) = m.
Proof.
  intros Hm. unfold wrapu. rewrite Zminus_mod_idemp_l.
  replace (m + off - off) with m by lia. by apply Z.mod_small.
Qed.

(** Every release program completes the entry it is called for. *)
Lemma run_release_spec p e m s :
  fits_u 64 m -> run_release p e (release_arg p m) s = complete_mid e m s.
Proof.
  intros Hm. rewrite <- probe_exit_spec.
  destruct p; cbn [run_release release_arg]; try reflexivity;
    unfold mid_release_kref_fentry, mid_release_kref_kprobe, mid_release_legacy_fentry,
      mid_release_legacy_kprobe, mid_release_rhel810_kprobe,
      mid_release_rhel810_553_134_kprobe, release_kref; by rewrite container_of.
Qed.

Context {RL : BpfRuntimeLaws RT}.

(** ** A step leaves the other keys alone *)

Lemma smb_step_denylist s l : label_ok l -> denylist (step s l) = denylist s.
Proof.
  destruct l as [e c|e c|e c|p km e m|p e m]; intros Hl; cbn [step].
  - unfold trace_smb3_cmd_enter. by case_match.
  - unfold trace_smb3_cmd_done. rewrite complete_trace_event_spec. unfold complete_trace.
    by case_match.
  - unfold trace_smb3_cmd_err. rewrite complete_trace_event_spec. unfold complete_trace.
    by case_match.
  - destruct Hl as (_ & Hm & _). rewrite run_alloc_spec by lia. by case_match.
  - destruct Hl as (_ & Hm). rewrite run_release_spec by (unfold fits_u; lia).
    unfold complete_mid. by case_match.
Qed.

Lemma smb_step_temp_other s l k :
  label_ok l -> entry_key l <> Some k ->
  bpf_map_lookup_elem (temp (step s l)) k = bpf_map_lookup_elem (temp s) k.
Proof.
  destruct l as [e c|e c|e c|p km e m|p e m]; intros Hl Hk; cbn [step entry_key] in *.
  - unfold trace_smb3_cmd_enter. by case_match.
  - unfold trace_smb3_cmd_done. rewrite complete_trace_event_spec. unfold complete_trace.
    by case_match.
  - unfold trace_smb3_cmd_err. rewrite complete_trace_event_spec. unfold complete_trace.
    by case_match.
  - destruct Hl as (_ & Hm & _). rewrite run_alloc_spec by lia. case_match; [done|].
    cbn [set_temp temp]. apply lookup_update_ne. congruence.
  - destruct Hl as (_ & Hm). rewrite run_release_spec by (unfold fits_u; lia).
    unfold complete_mid. case_match; [|done]. cbn [temp]. rewrite lookup_delete_elem.
    by rewrite decide_False by congruence.
Qed.

Lemma smb_step_trace_other s l k :
  label_ok l -> trace_key l <> Some k ->
  bpf_map_lookup_elem (trace_temp (step s l)) k = bpf_map_lookup_elem (trace_temp s) k.
Proof.
  destruct l as [e c|e c|e c|p km e m|p e m]; intros Hl Hk; cbn [step trace_key] in *.
  - unfold trace_smb3_cmd_enter. case_match; [done|]. cbn [set_trace_temp trace_temp].
    apply lookup_update_ne. congruence.
  - unfold trace_smb3_cmd_done. rewrite complete_trace_event_spec. unfold complete_trace.
    case_match; [|done]. cbn [trace_temp]. rewrite lookup_delete_elem.
    by rewrite decide_False by congruence.
  - unfold trace_smb3_cmd_err. rewrite complete_trace_event_spec. unfold complete_trace.
    case_match; [|done]. cbn [trace_temp]. rewrite lookup_delete_elem.
    by rewrite decide_False by congruence.
  - destruct Hl as (_ & Hm & _). rewrite run_alloc_spec by lia. by case_match.
  - destruct Hl as (_ & Hm). rewrite run_release_spec by (unfold fits_u; lia).
    unfold complete_mid. by case_match.
Qed.

Lemma smb_exec_temp_other ls s k :
  Forall label_ok ls -> Forall (fun l => entry_key l <> Some k) ls ->
  bpf_map_lookup_elem (temp (exec ls s)) k = bpf_map_lookup_elem (temp s) k.
Proof.
  intros Hok. revert s. induction Hok as [|l ls Hl Hok IH]; intros s Hk; [done|].
  apply Forall_cons_1 in Hk as [H1 H2]. change (exec (l :: ls) s) with (exec ls (step s l)).
  rewrite IH by done. by apply smb_step_temp_other.
Qed.

Lemma smb_exec_trace_other ls s k :
  Forall label_ok ls -> Forall (fun l => trace_key l <> Some k) ls ->
  bpf_map_lookup_elem (trace_temp (exec ls s)) k = bpf_map_lookup_elem (trace_temp s) k.
Proof.
  intros Hok. revert s. induction Hok as [|l ls Hl Hok IH]; intros s Hk; [done|].
  apply Forall_cons_1 in Hk as [H1 H2]. change (exec (l :: ls) s) with (exec ls (step s l)).
  rewrite IH by done. by apply smb_step_trace_other.
Qed.

(** ** Latency *)

Lemma reported_clock (e e' : env) c i :
  env_ok e -> env_ok e' -> ktime e 0 <= ktime e' 0 ->
  u64 (ktime e' 0 - metric (SmbPartial c (ktime e 0) i)) = ktime e' 0 - ktime e 0.
Proof.
  intros He He' Hle. cbn [metric]. apply wrapu_small.
  pose proof (ktime_u64 e He 0). pose proof (ktime_u64 e' He' 0). unfold fits_u in *. lia.
Qed.

(** Latency by function probes: an entry that is allocated for a command
    that is not denied, and is neither allocated again nor released by the
    labels in between, reports at its release, on whatever kernel variant,
    exactly when the time since the allocation reaches the limit; the report
    names the command, the message id and that time. *)
Theorem smb_mid_latency p q km e e' m ls s slot :
  label_ok (Alloc p km e m) -> label_ok (Release q e' m) -> Forall label_ok ls ->
  Forall (fun l => entry_key l <> Some m) ls ->
  bpf_map_lookup_elem (denylist s) (alloc_command p km m) = None ->
  map_view (temp s) !! m = None -> (size (map_view (temp s)) < map_max (temp s))%nat ->
  ktime e 0 <= ktime e' 0 -> reserve e' 0 = Some slot ->
  let latency := ktime e' 0 - ktime e 0 in
  let s1 := exec (Alloc p km e m :: ls) s in
  let s2 := exec (Alloc p km e m :: ls ++ [Release q e' m]) s in
  bpf_map_lookup_elem (temp s2) m = None /\
  aodrb s2 = aodrb s1 ++
    if min_lat_ns ro <=? latency then
      [(Event (u32 (Z.shiftr (pid_tgid e') 32)) (alloc_command p km m) SMBSLOWER (ev_pad slot)
         (ktime e' 0) (alloc_mid p km m) latency (comm e'), get_flags ro e')]
    else [].
Proof.
  intros Ha Hr Hok Hls Hdeny Habs Hroom Hle Hslot latency s1 s2.
  assert (s2 = complete_mid e' m s1) as ->.
  { unfold s2, s1, exec. rewrite app_comm_cons, fold_left_app. cbn [fold_left step].
    apply run_release_spec. destruct Hr. unfold fits_u. lia. }
  assert (bpf_map_lookup_elem (temp s1) m =
    Some (SmbPartial (alloc_command p km m) (ktime e 0) (alloc_mid p km m))) as Hl.
  { unfold s1. change (exec (Alloc p km e m :: ls) s) with (exec ls (step s (Alloc p km e m))).
    rewrite smb_exec_temp_other by done. cbn [step]. destruct Ha as (_ & Hm & _).
    rewrite run_alloc_spec by lia. rewrite Hdeny. cbn [set_temp temp].
    rewrite lookup_view, update_noexist_view by done. apply lookup_insert_eq. }
  unfold complete_mid. rewrite Hl. cbn [temp aodrb]. split.
  - rewrite lookup_delete_elem. by rewrite decide_True.
  - unfold reported. rewrite Hslot.
    rewrite (reported_clock e e') by (done || (by destruct Ha as [[? _] _]) || (by destruct Hr as [[? _] _])). done.
Qed.

(** Latency by tracepoints: a command that enters, is not denied and finds
    room reports when its done or error tracepoint fires with the same padding
    in its key, and the labels in between do not concern its key, exactly when
    the time since the entry reaches the limit. *)
Theorem smb_trace_latency e e' ctx fin ls s slot :
  label_ok (CmdEnter e ctx) -> ring_ok e' -> Forall label_ok ls ->
  let key := trace_key_of e (tid ctx) (sesid ctx) (ctx_mid ctx) in
  trace_key_of e' (tid ctx) (sesid ctx) (ctx_mid ctx) = key ->
  (fin = CmdDone e' ctx \/
   exists st rc, fin = CmdErr e' (ErrArgs (tid ctx) (sesid ctx) (cmd ctx) (ctx_mid ctx) st rc)) ->
  Forall (fun l => trace_key l <> Some key) ls ->
  bpf_map_lookup_elem (denylist s) (cmd ctx) = None -> has_room (trace_temp s) key ->
  ktime e 0 <= ktime e' 0 -> reserve e' 0 = Some slot ->
  let latency := ktime e' 0 - ktime e 0 in
  let s1 := exec (CmdEnter e ctx :: ls) s in
  let s2 := exec (CmdEnter e ctx :: ls ++ [fin]) s in
  bpf_map_lookup_elem (trace_temp s2) key = None /\
  aodrb s2 = aodrb s1 ++
    if min_lat_ns ro <=? latency then
      [(Event (u32 (Z.shiftr (pid_tgid e') 32)) (cmd ctx) SMBSLOWER (ev_pad slot)
         (ktime e' 0) (ctx_mid ctx) latency (comm e'), get_flags ro e')]
    else [].
Proof.
  intros Ha He' Hok key Hpad Hfin Hls Hdeny Hroom Hle Hslot latency s1 s2.
  assert (s2 = complete_trace e' key s1) as ->.
  { unfold s2, s1, exec. rewrite app_comm_cons, fold_left_app. cbn [fold_left].
    destruct Hfin as [->|(st0 & rc0 & ->)]; cbn [step];
      unfold trace_smb3_cmd_done, trace_smb3_cmd_err; cbn [err_tid err_sesid err_mid];
      rewrite Hpad; apply complete_trace_event_spec. }
  assert (bpf_map_lookup_elem (trace_temp s1) key =
    Some (SmbPartial (cmd ctx) (ktime e 0) (ctx_mid ctx))) as Hl.
  { unfold s1. change (exec (CmdEnter e ctx :: ls) s) with (exec ls (step s (CmdEnter e ctx))).
    rewrite smb_exec_trace_other by done. cbn [step]. unfold trace_smb3_cmd_enter.
    rewrite Hdeny. cbn [set_trace_temp trace_temp]. by apply lookup_update_any. }
  unfold complete_trace. rewrite Hl. cbn [trace_temp aodrb]. split.
  - rewrite lookup_delete_elem. by rewrite decide_True.
  - unfold reported. rewrite Hslot.
    rewrite (reported_clock e e') by (done || (by destruct Ha as [[? _] _]) || (by destruct He' as [? _])). done.
Qed.

(** A command whose key has another padding at its end than it had at its entry
    is not found there: nothing is reported, and its record stays in the map. *)
Theorem smb_padding_loses e e' ctx s :
  let key := trace_key_of e (tid ctx) (sesid ctx) (ctx_mid ctx) in
  let key' := trace_key_of e' (tid ctx) (sesid ctx) (ctx_mid ctx) in
  bpf_map_lookup_elem (denylist s) (cmd ctx) = None -> has_room (trace_temp s) key ->
  bpf_map_lookup_elem (trace_temp s) key' = None -> key' <> key ->
  let s2 := exec [CmdEnter e ctx; CmdDone e' ctx] s in
  aodrb s2 = aodrb s /\
  bpf_map_lookup_elem (trace_temp s2) key = Some (SmbPartial (cmd ctx) (ktime e 0) (ctx_mid ctx)).
Proof.
  intros key key' Hdeny Hroom Habs Hne s2. unfold s2, exec. cbn [fold_left step].
  unfold trace_smb3_cmd_done, trace_smb3_cmd_enter. fold key key'. rewrite Hdeny.
  rewrite complete_trace_event_spec. unfold complete_trace. cbn [set_trace_temp trace_temp].
  rewrite lookup_update_ne, Habs by done. cbn [trace_temp aodrb].
  split; [done|]. by apply lookup_update_any.
Qed.

(** ** Invariant of the reachable states *)

Definition boot (deny : hmap Z Z) : st :=
  St deny (map_create (Z.to_nat (MAX_ENTRIES * 24))) (map_create (Z.to_nat (MAX_ENTRIES * 24))) [].

Inductive reachable (deny : hmap Z Z) : st -> Prop :=
| reach_boot : reachable deny (boot deny)
| reach_step s l : reachable deny s -> label_ok l -> reachable deny (step s l).

(** A recorded command: not denied, every field within its C type. *)
Definition partial_ok (deny : hmap Z Z) (pe : smb_partial_event) : Prop :=
  bpf_map_lookup_elem deny (smbcommand pe) = None /\
  fits_u 16 (smbcommand pe) /\ fits_u 64 (metric pe) /\ fits_u 64 (mid pe).

(** A submitted report: a well-formed event of smbslower, for a command that
    is not denied, no faster than the limit, submitted with the flags that the
    wakeup policy allows. *)
Definition report_ok (deny : hmap Z Z) (r : event * Z) : Prop :=
  event_ok r.1 /\ ev_tool r.1 = SMBSLOWER /\
  bpf_map_lookup_elem deny (ev_command r.1) = None /\
  min_lat_ns ro <= latency_ns (ev_metric r.1) /\
  (if wakeup_data_size ro =? 0 then r.2 = 0
   else r.2 = BPF_RB_FORCE_WAKEUP \/ r.2 = BPF_RB_NO_WAKEUP).

Record inv (deny : hmap Z Z) (s : st) : Prop := {
  inv_deny : denylist s = deny;
  inv_temp : forall m pe, bpf_map_lookup_elem (temp s) m = Some pe -> partial_ok deny pe;
  inv_trace : forall k pe, bpf_map_lookup_elem (trace_temp s) k = Some pe -> partial_ok deny pe;
  inv_reports : Forall (report_ok deny) (aodrb s);
}.

Lemma reported_ok deny e pe :
  ring_ok e -> partial_ok deny pe -> Forall (report_ok deny) (reported e pe).
Proof.
  intros [He Hslot] (Hd & Hc & Hm & Hi). unfold reported.
  destruct (reserve e 0) as [slot|] eqn:Hs; [|constructor].
  destruct (Z.leb_spec (min_lat_ns ro) (u64 (ktime e 0 - metric pe))); [|constructor].
  apply Forall_singleton. unfold report_ok. cbn [fst snd ev_tool ev_command ev_metric].
  split_and!; [|done|done|done|].
  - split; cbn [ev_pid ev_command ev_tool ev_pad ev_cmd_end_time_ns ev_rqst_id ev_metric ev_task].
    + apply wrapu_range. lia.
    + done.
    + split; vm_compute; congruence.
    + by eapply Hslot.
    + by apply ktime_u64.
    + done.
    + apply wrapu_range. lia.
    + by apply comm_ok.
  - unfold get_flags. destruct (wakeup_data_size ro =? 0); [done|].
    destruct (_ <=? _); auto.
Qed.

Lemma smb_inv_mid deny e m s : ring_ok e -> inv deny s -> inv deny (complete_mid e m s).
Proof.
  intros He [Hd Ht Hx Hr]. unfold complete_mid.
  destruct (bpf_map_lookup_elem (temp s) m) as [pe|] eqn:Hl; [|done].
  split; cbn [denylist temp trace_temp aodrb]; [done| |done|].
  - intros k pe' [_ Hk]%lookup_delete_inv. by eapply Ht.
  - apply Forall_app. split; [done|]. apply reported_ok; [done|by eapply Ht].
Qed.

Lemma smb_inv_trace deny e k s : ring_ok e -> inv deny s -> inv deny (complete_trace e k s).
Proof.
  intros He [Hd Ht Hx Hr]. unfold complete_trace.
  destruct (bpf_map_lookup_elem (trace_temp s) k) as [pe|] eqn:Hl; [|done].
  split; cbn [denylist temp trace_temp aodrb]; [done|done| |].
  - intros k' pe' [_ Hk]%lookup_delete_inv. by eapply Hx.
  - apply Forall_app. split; [done|]. apply reported_ok; [done|by eapply Hx].
Qed.

Lemma smb_inv_step deny s l : label_ok l -> inv deny s -> inv deny (step s l).
Proof.
  destruct l as [e c|e c|e c|p km e m|p e m]; intros Hl Hi; cbn [step].
  - destruct Hl as (He & Hc & Hm). unfold trace_smb3_cmd_enter.
    destruct (bpf_map_lookup_elem (denylist s) (cmd c)) eqn:Hd; [done|]. destruct Hi as [H1 H2 H3 H4].
    split; cbn [set_trace_temp denylist temp trace_temp aodrb]; [done..| |done].
    intros k pe [[_ ->]|Hk]%lookup_update_inv; [|by eapply H3]. rewrite <- H1.
    split_and!; [done|done|apply ktime_u64, He|done].
  - unfold trace_smb3_cmd_done. rewrite complete_trace_event_spec. by apply smb_inv_trace.
  - unfold trace_smb3_cmd_err. rewrite complete_trace_event_spec. by apply smb_inv_trace.
  - destruct Hl as (He & Hm & H16 & H64). rewrite run_alloc_spec by lia.
    destruct (bpf_map_lookup_elem (denylist s) (alloc_command p km m)) eqn:Hd; [done|].
    destruct Hi as [H1 H2 H3 H4].
    split; cbn [set_temp denylist temp trace_temp aodrb]; [done| |done..].
    intros k pe [[_ ->]|Hk]%lookup_update_inv; [|by eapply H2]. rewrite <- H1.
    split_and!; [done|apply H16|apply ktime_u64, He|apply H64].
  - destruct Hl as (He & Hm). rewrite run_release_spec by (unfold fits_u; lia).
    by apply smb_inv_mid.
Qed.

(** C20. Invariant of smbslower: in every reachable state the recorded commands
    are not denied, and every submitted report is a well-formed event of a
    command that is not denied, with a latency no less than the limit, under
    the flags of the wakeup policy. *)
Theorem smb_reachable_inv deny s : reachable deny s -> inv deny s.
Proof.
  induction 1 as [|s l Hs IH Hl]; [|by apply smb_inv_step].
  split; [done|intros ? ?; cbn; by rewrite lookup_create..|constructor].
Qed.

(** An entry that is allocated again before its release keeps its first
    record: the second allocation changes nothing, so the report at the
    release carries the command and message id of the first and counts from
    it. *)
Theorem smb_realloc_keeps_first p q km e m s pe :
  label_ok (Alloc p km e m) -> bpf_map_lookup_elem (temp s) m = Some pe ->
  bpf_map_lookup_elem (temp (step s (Alloc p km e m))) m = Some pe /\
  forall e', ring_ok e' ->
    aodrb (step (step s (Alloc p km e m)) (Release q e' m)) = aodrb s ++ reported e' pe.
Proof.
  intros (_ & Hm & _) Hl.
  assert (bpf_map_lookup_elem (temp (step s (Alloc p km e m))) m = Some pe /\
    aodrb (step s (Alloc p km e m)) = aodrb s) as [Ht Hr].
  { cbn [step]. rewrite run_alloc_spec by lia. case_match; [done|].
    cbn [set_temp temp aodrb]. split; [|done]. rewrite !lookup_view in *.
    by rewrite update_noexist_keeps by eauto. }
  split; [done|]. intros e' He'. change (step (step s (Alloc p km e m)) (Release q e' m))
    with (run_release q e' (release_arg q m) (step s (Alloc p km e m))).
  rewrite run_release_spec by (unfold fits_u; lia). unfold complete_mid. rewrite Ht.
  cbn [aodrb]. by rewrite Hr.
Qed.
End Trace.

(** ** The theorems at concrete inputs *)

Definition slot0 : event := Event 0 0 0 0 0 0 0 [].

(** Process [pid] at time [t], in nanoseconds. *)
Definition at_ns (pid t : Z) : kenv event :=
  demo_env slot0 (Z.shiftl pid 32 + pid) t (demo_mem 0 (fun _ => None)).

Lemma at_ns_ring pid t : ring_ok (at_ns pid t).
Proof.
  split; [apply demo_env_ok, demo_mem_ok|]. intros fl slot. cbn [at_ns demo_env reserve].
  destruct (fl =? 0); [|done]. intros [= <-]. split; split; vm_compute; congruence.
Qed.

(** The same with other contents of the stack. *)
Definition on_stack (v : Z) (e : kenv event) : kenv event := {|
  pid_tgid := pid_tgid e; uid_gid := uid_gid e; comm := comm e; ktime := ktime e;
  rb_avail := rb_avail e; reserve := reserve e; stack := replicate 64 v; mem := mem e |}.

(** Memory where the entries hold command [c] and message id [i]. *)
Definition entries_hold (c i : Z) : cifs_mem := CifsMem (fun _ => c) (fun _ => i).

(** Command 2 is denied and the limit is 10 milliseconds. *)
Definition demo_ro : rodata := Rodata 10000000 0.
Definition demo_layout : cifs_layout := CifsLayout 24 118 16.
Definition demo_deny : hmap Z Z := update_elem (map_create 20) 2 1 BPF_ANY.
Definition booted : st := St demo_deny (map_create 8) (map_create 8) [].

Definition mid_a : Z := 0xffff888000001000.

Lemma entry_ok pid t m : 0 < m < 2 ^ 64 -> ring_ok (at_ns pid t) /\ 0 < m < 2 ^ 64.
Proof. intros Hm. split; [apply at_ns_ring|done]. Qed.

Lemma alloc_ok p c i pid t m :
  fits_u 16 c -> fits_u 64 i -> 0 < m < 2 ^ 64 -> label_ok (Alloc p (entries_hold c i) (at_ns pid t) m).
Proof. intros Hc Hi Hm. split; [apply at_ns_ring|]. by split. Qed.

Lemma smb_mid_latency_witness :
  aodrb (exec demo_ro demo_layout
    [Alloc AllocRhel810 (entries_hold 5 42) (at_ns 7 1000) mid_a; Release ReleaseRhel810 (at_ns 9 20001000) mid_a]
    booted) =
  [(Event 9 5 SMBSLOWER 0 20001000 42 20000000 (pad 16 (bytes "demo")), 0)].
Proof.
  destruct (smb_mid_latency demo_ro demo_layout AllocRhel810 ReleaseRhel810 (entries_hold 5 42) (at_ns 7 1000)
    (at_ns 9 20001000) mid_a [] booted slot0) as [_ H];
    [apply alloc_ok; split; vm_compute; congruence
    |apply entry_ok; split; vm_compute; congruence|constructor|constructor|vm_compute; reflexivity
    |vm_compute; reflexivity|vm_compute; lia|vm_compute; congruence|vm_compute; reflexivity|].
  cbn [app] in H. rewrite H. vm_compute. reflexivity.
Defined.

Definition open_ctx : smb3_cmd_done_args := DoneArgs 1 99 5 42.

Lemma smb_trace_latency_witness :
  aodrb (exec demo_ro demo_layout
    [CmdEnter (at_ns 7 1000) open_ctx; CmdDone (at_ns 9 5001000) open_ctx] booted) = [].
Proof.
  destruct (smb_trace_latency demo_ro demo_layout (at_ns 7 1000) (at_ns 9 5001000) open_ctx
    (CmdDone (at_ns 9 5001000) open_ctx) [] booted slot0) as [_ H];
    [split; [apply at_ns_ring|split; split; vm_compute; congruence]|apply at_ns_ring
    |constructor|reflexivity|left; reflexivity|constructor|vm_compute; reflexivity|right; vm_compute; lia
    |vm_compute; congruence|vm_compute; reflexivity|].
  cbn [app] in H. rewrite H. vm_compute. reflexivity.
Defined.

Lemma smb_reachable_inv_witness :
  inv demo_ro demo_deny
    (step demo_ro demo_layout (boot demo_deny) (Alloc AllocFexit (entries_hold 5 42) (at_ns 7 1000) mid_a)).
Proof.
  apply (smb_reachable_inv demo_ro demo_layout). apply reach_step; [apply reach_boot|].
  apply alloc_ok; split; vm_compute; congruence.
Defined.

Lemma smb_realloc_keeps_first_witness :
  let s := step demo_ro demo_layout booted (Alloc AllocFexit (entries_hold 5 42) (at_ns 7 1000) mid_a) in
  bpf_map_lookup_elem
    (temp (step demo_ro demo_layout s (Alloc AllocFexit (entries_hold 5 42) (at_ns 7 5000) mid_a))) mid_a =
  Some (SmbPartial 5 1000 42).
Proof.
  apply (smb_realloc_keeps_first demo_ro demo_layout AllocFexit ReleaseDirectFentry (entries_hold 5 42) (at_ns 7 5000)
    mid_a _ (SmbPartial 5 1000 42));
    [apply alloc_ok; split; vm_compute; congruence|vm_compute; reflexivity].
Defined.

(** The tracepoint of the end runs where the stack holds something else. *)
Lemma smb_padding_loses_witness :
  aodrb (exec demo_ro demo_layout
    [CmdEnter (at_ns 7 1000) open_ctx; CmdDone (on_stack 0 (at_ns 9 50001000)) open_ctx] booted) = [].
Proof.
  destruct (smb_padding_loses demo_ro demo_layout (at_ns 7 1000) (on_stack 0 (at_ns 9 50001000))
    open_ctx booted) as [H _];
    [vm_compute; reflexivity
    |right; vm_compute; lia|vm_compute; reflexivity|vm_compute; congruence|].
  rewrite H. vm_compute. reflexivity.
Defined.
