(* ===== verification/SmbiosnoopBpf.v ===== *)
(** * smbiosnoop: the kernel program

    Models src/bpf/smbiosnoop.bpf.c, a filter of the error tracepoint of
    cifs, and shows when it reports an error: as intended without a wakeup
    size, and never with one, because the program passes its wakeup flags to
    bpf_ringbuf_reserve as well. *)

From S2P Require Import Prelude Bpf BpfModel AodEvent.

Definition MAX_SMB_STATUS_CODES : nat := 256.

(** The constants the loader writes before loading. *)
Record rodata := Rodata { wakeup_data_size : Z; filter_errors : Z; filter_cmds : Z }.

(** The context of the tracepoint, without its padding. *)
Record smb3_cmd_err_args := ErrArgs {
  tid : Z; sesid : Z; cmd : Z; mid : Z; status : Z; rc : Z
}.

Section Program.
Context {RT : BpfRuntime}.
Variable ro : rodata.

Abbreviation env := (kenv event).

Record st := St {
  allowlist_errors : hmap Z Z;
  allowlist_cmds : hmap Z Z;
  aodrb : list (event * Z);
}.

Definition submit (s : st) (e : event) (flags : Z) : st :=
  St (allowlist_errors s) (allowlist_cmds s) (aodrb s ++ [(e, flags)]).

(** [n] counts the queries of the invocation. *)
Definition get_flags (e : env) (n : nat) : Z :=
  if wakeup_data_size ro =? 0 then 0
  else
    let size := rb_avail e n in
    if wakeup_data_size ro <=? size then BPF_RB_FORCE_WAKEUP else BPF_RB_NO_WAKEUP.

Definition trace_smb3_cmd_err (e : env) (ctx : smb3_cmd_err_args) (s : st) : st :=
  let status := status ctx in
  let command := cmd ctx in
  if status =? 0 then s
  else if negb (filter_errors ro =? 0) &&
          bool_decide (bpf_map_lookup_elem (allowlist_errors s) status = None) then s
  else if negb (filter_cmds ro =? 0) &&
          bool_decide (bpf_map_lookup_elem (allowlist_cmds s) command = None) then s
  else
    match reserve e (get_flags e 0) with
    | None => s
    | Some slot =>
        let ev := {|
          ev_pid := u32 (Z.shiftr (pid_tgid e) 32);
          ev_command := command;
          ev_tool := SMBIOSNOOP;
          ev_pad := ev_pad slot;
          ev_cmd_end_time_ns := ktime e 0;
          ev_rqst_id := mid ctx;
          ev_metric := set_retval (ev_metric slot) (s32 status);
          ev_task := comm e |} in
        submit s ev (get_flags e 1)
    end.

(** ** What is reported *)

(** The filters of the two allow lists, each off when its flag is 0. *)
Definition allowed (s : st) (ctx : smb3_cmd_err_args) : Prop :=
  (filter_errors ro = 0 \/ is_Some (bpf_map_lookup_elem (allowlist_errors s) (status ctx))) /\
  (filter_cmds ro = 0 \/ is_Some (bpf_map_lookup_elem (allowlist_cmds s) (cmd ctx))).

(** A conjunct of the filter, as a proposition. *)
Lemma filter_spec {A} (flag : Z) (o : option A) :
  negb (flag =? 0) && bool_decide (o = None) = false <-> flag = 0 \/ is_Some o.
Proof.
  rewrite andb_false_iff, negb_false_iff, Z.eqb_eq, bool_decide_eq_false.
  by rewrite <- not_eq_None_Some.
Qed.

Lemma smb_allowed_dec s ctx : {allowed s ctx} + {~ allowed s ctx}.
Proof.
  unfold allowed. destruct (Z.eq_dec (filter_errors ro) 0), (Z.eq_dec (filter_cmds ro) 0),
    (bpf_map_lookup_elem (allowlist_errors s) (status ctx)),
    (bpf_map_lookup_elem (allowlist_cmds s) (cmd ctx));
    try (left; split; eauto; done);
    right; intros [[?|[? ?]] [?|[? ?]]]; done.
Defined.

Lemma smb_err_rejected e ctx s :
  status ctx = 0 \/ ~ allowed s ctx -> trace_smb3_cmd_err e ctx s = s.
Proof.
  unfold allowed, trace_smb3_cmd_err. intros H.
  destruct (Z.eqb_spec (status ctx) 0) as [|Hst]; [done|]. destruct H as [H|H]; [done|].
  case_match eqn:H1; [done|]. case_match eqn:H2; [done|].
  apply filter_spec in H1, H2. tauto.
Qed.

Lemma smb_err_allowed e ctx s slot :
  status ctx <> 0 -> allowed s ctx -> reserve e (get_flags e 0) = Some slot ->
  trace_smb3_cmd_err e ctx s =
  submit s (Event (u32 (Z.shiftr (pid_tgid e) 32)) (cmd ctx) SMBIOSNOOP (ev_pad slot)
    (ktime e 0) (mid ctx) (set_retval (ev_metric slot) (s32 (status ctx))) (comm e))
    (get_flags e 1).
Proof.
  intros Hst [H1 H2] Hs. unfold trace_smb3_cmd_err. apply filter_spec in H1, H2.
  apply Z.eqb_neq in Hst. by rewrite Hst, H1, H2, Hs.
Qed.

(** With no wakeup size, an error is reported exactly when its status is
    not zero and the enabled allow lists hold its status and its command; the
    report carries the status as a signed number, and nothing else changes. *)
Theorem smbiosnoop_reports e ctx s slot :
  wakeup_data_size ro = 0 -> reserve e 0 = Some slot -> fits_u 32 (status ctx) ->
  (status ctx <> 0 /\ allowed s ctx /\
   exists ev, trace_smb3_cmd_err e ctx s = submit s ev 0 /\
     ev_tool ev = SMBIOSNOOP /\ ev_command ev = cmd ctx /\ ev_rqst_id ev = mid ctx /\
     u32 (retval (ev_metric ev)) = status ctx) \/
  (~ (status ctx <> 0 /\ allowed s ctx) /\ trace_smb3_cmd_err e ctx s = s).
Proof.
  intros Hw Hs Hst.
  assert (forall n, get_flags e n = 0) as Hf by (intros n; unfold get_flags; by rewrite Hw).
  destruct (Z.eq_dec (status ctx) 0) as [H0|H0].
  { right. split; [tauto|]. apply smb_err_rejected. by left. }
  destruct (smb_allowed_dec s ctx) as [Ha|Ha].
  - left. split; [done|]. split; [done|]. eexists. split.
    + rewrite (smb_err_allowed e ctx s slot); [by rewrite Hf|done|done|by rewrite Hf].
    + cbn [ev_tool ev_command ev_rqst_id ev_metric]. split_and!; [done..|].
      rewrite retval_set by (apply wraps_range; lia).
      rewrite wrapu_wraps by lia. by apply wrapu_small.
  - right. split; [tauto|]. apply smb_err_rejected. by right.
Qed.

(** With a wakeup size no error is ever reported: the flags it computes
    are never 0, and the kernel refuses every reservation with flags. *)
Theorem smbiosnoop_wakeup_silent (ls : list (env * smb3_cmd_err_args)) s :
  wakeup_data_size ro <> 0 -> Forall (fun l => env_ok l.1) ls ->
  fold_left (fun s l => trace_smb3_cmd_err l.1 l.2 s) ls s = s.
Proof.
  intros Hw. induction 1 as [|[e ctx] ls He Hls IH]; [done|]. simpl in *.
  assert (trace_smb3_cmd_err e ctx s = s) as ->; [|done].
  assert (get_flags e 0 <> 0) as Hf.
  { unfold get_flags. apply Z.eqb_neq in Hw as ->.
    case_match; unfold BPF_RB_FORCE_WAKEUP, BPF_RB_NO_WAKEUP; lia. }
  unfold trace_smb3_cmd_err. rewrite (reserve_flags e He _ Hf). by repeat case_match.
Qed.
End Program.

(** ** The theorems at concrete inputs *)

Definition slot0 : event := Event 0 0 0 0 0 0 0 [].

(** Process [pid] at time [t], in nanoseconds. *)
Definition at_ns (pid t : Z) : kenv event :=
  demo_env slot0 (Z.shiftl pid 32 + pid) t (demo_mem 0 (fun _ => None)).

(** STATUS_ACCESS_DENIED (0xc0000022) is allowed, for every command. *)
Definition booted : st :=
  St (update_elem (map_create 256) 0xc0000022 1 BPF_ANY) (map_create 20) [].
Definition denied_ctx : smb3_cmd_err_args := ErrArgs 1 99 5 42 0xc0000022 (-13).

Lemma smbiosnoop_reports_witness :
  exists ev, trace_smb3_cmd_err (Rodata 0 1 0) (at_ns 7 1000) denied_ctx booted =
    submit booted ev 0 /\ ev_command ev = 5 /\ u32 (retval (ev_metric ev)) = 0xc0000022.
Proof.
  destruct (smbiosnoop_reports (Rodata 0 1 0) (at_ns 7 1000) denied_ctx booted slot0)
    as [(_ & _ & ev & H1 & _ & H2 & _ & H3)|[Hn _]];
    [vm_compute; reflexivity|vm_compute; reflexivity|split; vm_compute; congruence| |].
  - exists ev. split; [exact H1|]. split; [exact H2|exact H3].
  - exfalso. apply Hn. split; [vm_compute; congruence|].
    split; [right; vm_compute; eauto|left; vm_compute; reflexivity].
Defined.

Lemma smbiosnoop_wakeup_silent_witness :
  trace_smb3_cmd_err (Rodata 256 1 0) (at_ns 7 1000) denied_ctx booted = booted.
Proof.
  apply (smbiosnoop_wakeup_silent (Rodata 256 1 0) [(at_ns 7 1000, denied_ctx)] booted);
    [vm_compute; congruence|].
  apply Forall_singleton. apply demo_env_ok, demo_mem_ok.
Defined.
