(* ===== verification/NfsiosnoopBpf.v ===== *)
(** * nfsiosnoop: the kernel program

    Models src/bpf/nfsiosnoop.bpf.c: the exit probe of an RPC task and the
    tracepoint of decoded NFSv4 status words, whose context exists in two
    layouts.  The fields of [struct rpc_task] come from kernel
    memory, which each firing has its own of ([rpc_mem]).  As in smbiosnoop, reports reach the ring only when no
    wakeup size is set. *)

From S2P Require Import Prelude Bpf BpfModel AodEvent.

Definition MAX_NFS_COMMANDS : nat := 70.
Definition MAX_ERROR_CODES : nat := 113.

Record rodata := Rodata { wakeup_data_size : Z; filter_errors : Z; filter_cmds : Z }.

(** The fields of a task that the programs read: [tk_status],
    [tk_msg.rpc_proc->p_statidx] and [tk_rqstp->rq_xid] (in network order). *)
Record rpc_mem := RpcMem { tk_status : Z -> Z; p_statidx : Z -> Z; rq_xid : Z -> Z }.

(** The 32-bit byte swap of a little-endian machine. *)
Definition bpf_ntohl (x : Z) : Z :=
  Z.lor (Z.shiftl (Z.land x 0xff) 24)
    (Z.lor (Z.shiftl (Z.land x 0xff00) 8)
      (Z.lor (Z.land (Z.shiftr x 8) 0xff00) (Z.shiftr x 24))).

(** The record of the tracepoint as raw bytes, and the two layouts. *)
Definition field_at (rec : list Z) (off len : nat) : Z := field rec off len.

Record nfs4_xdr_status_args := XdrArgs { xid : Z; op : Z; error : Z }.

Definition nfs4_xdr_status (rec : list Z) : nfs4_xdr_status_args :=
  XdrArgs (field_at rec 16 4) (field_at rec 20 4) (field_at rec 24 8).

(** Four more bytes of header shift the fields by four; [error] is aligned to
    eight bytes. *)
Definition nfs4_xdr_status_lazy (rec : list Z) : nfs4_xdr_status_args :=
  XdrArgs (field_at rec 20 4) (field_at rec 24 4) (field_at rec 32 8).

Section Program.
Context {RT : BpfRuntime}.
Variable ro : rodata.

Abbreviation env := (kenv event).

Record st := St {
  allowlist_errors : hmap Z Z;   (* key: int *)
  allowlist_cmds : hmap Z Z;     (* key: __u16 *)
  aodrb : list (event * Z);
}.

Definition submit (s : st) (e : event) (flags : Z) : st :=
  St (allowlist_errors s) (allowlist_cmds s) (aodrb s ++ [(e, flags)]).

Definition get_flags (e : env) (n : nat) : Z :=
  if wakeup_data_size ro =? 0 then 0
  else
    let sz := rb_avail e n in
    if wakeup_data_size ro <=? sz then BPF_RB_FORCE_WAKEUP else BPF_RB_NO_WAKEUP.

(** [retval = -retval] wraps at INT_MIN. *)
Definition probe_entry (rm : rpc_mem) (e : env) (task : Z) (s : st) : st :=
  let retval := tk_status rm task in
  if retval =? 0 then s
  else
    let retval := if retval <? 0 then s32 (- retval) else retval in
    if negb (filter_errors ro =? 0) &&
       bool_decide (bpf_map_lookup_elem (allowlist_errors s) retval = None) then s
    else
      let nfscommand := u16 (p_statidx rm task) in
      if negb (filter_cmds ro =? 0) &&
         bool_decide (bpf_map_lookup_elem (allowlist_cmds s) nfscommand = None) then s
      else
        match reserve e (get_flags e 0) with
        | None => s
        | Some slot =>
            let ev := {|
              ev_pid := u32 (Z.shiftr (pid_tgid e) 32);
              ev_command := nfscommand;
              ev_tool := NFSIOSNOOP;
              ev_pad := ev_pad slot;
              ev_cmd_end_time_ns := ktime e 0;
              ev_rqst_id := bpf_ntohl (rq_xid rm task);
              ev_metric := set_retval (ev_metric slot) retval;
              ev_task := comm e |} in
            submit s ev (get_flags e 1)
        end.

(** The map key is the four bytes at the address of an eight-byte [error]. *)
Definition emit_xdr_status (e : env) (xid command error : Z) (s : st) : st :=
  if error =? 0 then s
  else if negb (filter_errors ro =? 0) &&
          bool_decide (bpf_map_lookup_elem (allowlist_errors s) (s32 error) = None) then s
  else if negb (filter_cmds ro =? 0) &&
          bool_decide (bpf_map_lookup_elem (allowlist_cmds s) command = None) then s
  else
    match reserve e (get_flags e 0) with
    | None => s
    | Some slot =>
        let ev := {|
          ev_pid := u32 (Z.shiftr (pid_tgid e) 32);
          ev_command := command;
          ev_tool := NFSIOSNOOP;
          ev_pad := ev_pad slot;
          ev_cmd_end_time_ns := ktime e 0;
          ev_rqst_id := xid;
          ev_metric := set_retval (ev_metric slot) (s32 error);
          ev_task := comm e |} in
        submit s ev (get_flags e 1)
    end.

Definition trace_nfs4_xdr_status (e : env) (rec : list Z) (s : st) : st :=
  let ctx := nfs4_xdr_status rec in
  emit_xdr_status e (xid ctx) (u16 (op ctx)) (error ctx) s.

Definition trace_nfs4_xdr_status_lazy (e : env) (rec : list Z) (s : st) : st :=
  let ctx := nfs4_xdr_status_lazy rec in
  emit_xdr_status e (xid ctx) (u16 (op ctx)) (error ctx) s.

Definition rpc_done_exit (rm : rpc_mem) (e : env) (task : Z) (s : st) : st := probe_entry rm e task s.
Definition rpc_done_kprobe (rm : rpc_mem) (e : env) (task : Z) (s : st) : st := probe_entry rm e task s.

(** ** What is reported *)

Inductive label :=
| RpcExit (rm : rpc_mem) (e : env) (task : Z)
| XdrStatus (e : env) (rec : list Z)
| XdrStatusLazy (e : env) (rec : list Z).

Definition label_env (l : label) : env :=
  match l with RpcExit _ e _ | XdrStatus e _ | XdrStatusLazy e _ => e end.

Definition step (s : st) (l : label) : st :=
  match l with
  | RpcExit rm e task => rpc_done_exit rm e task s
  | XdrStatus e rec => trace_nfs4_xdr_status e rec s
  | XdrStatusLazy e rec => trace_nfs4_xdr_status_lazy e rec s
  end.

(** With a wakeup size nfsiosnoop reports nothing, whatever fires. *)
Theorem nfsiosnoop_wakeup_silent ls s :
  wakeup_data_size ro <> 0 -> Forall (fun l => env_ok (label_env l)) ls ->
  fold_left step ls s = s.
Proof.
  intros Hw. assert (forall e n, get_flags e n <> 0) as Hf.
  { intros e n. unfold get_flags. apply Z.eqb_neq in Hw as ->.
    case_match; unfold BPF_RB_FORCE_WAKEUP, BPF_RB_NO_WAKEUP; lia. }
  assert (forall e x c r, env_ok e -> emit_xdr_status e x c r s = s) as Hx.
  { intros e x c r He. unfold emit_xdr_status.
    rewrite (reserve_flags e He _ (Hf e 0%nat)). by repeat case_match. }
  induction 1 as [|l ls He Hls IH]; [done|]. cbn [fold_left].
  assert (step s l = s) as ->; [|done].
  destruct l; cbn [step label_env] in *; [|by apply Hx..].
  unfold rpc_done_exit, probe_entry. rewrite (reserve_flags e He _ (Hf e 0%nat)).
  cbv zeta. by repeat case_match.
Qed.

Definition allowed (s : st) (err command : Z) : Prop :=
  (filter_errors ro = 0 \/ is_Some (bpf_map_lookup_elem (allowlist_errors s) err)) /\
  (filter_cmds ro = 0 \/ is_Some (bpf_map_lookup_elem (allowlist_cmds s) command)).

(** The report of an error [err] of [command] for the request [x]. *)
Definition reports (e : env) (slot : event) (err command x : Z) (s s' : st) : Prop :=
  s' = submit s (Event (u32 (Z.shiftr (pid_tgid e) 32)) command NFSIOSNOOP (ev_pad slot)
    (ktime e 0) x (set_retval (ev_metric slot) err) (comm e)) 0.

Lemma nfs_filter_spec {A} (flag : Z) (o : option A) :
  negb (flag =? 0) && bool_decide (o = None) = false <-> flag = 0 \/ is_Some o.
Proof.
  rewrite andb_false_iff, negb_false_iff, Z.eqb_eq, bool_decide_eq_false.
  by rewrite <- not_eq_None_Some.
Qed.

Lemma nfs_allowed_dec s err command : {allowed s err command} + {~ allowed s err command}.
Proof.
  unfold allowed. destruct (Z.eq_dec (filter_errors ro) 0), (Z.eq_dec (filter_cmds ro) 0),
    (bpf_map_lookup_elem (allowlist_errors s) err),
    (bpf_map_lookup_elem (allowlist_cmds s) command);
    try (left; split; eauto; done);
    right; intros [[?|[? ?]] [?|[? ?]]]; done.
Defined.

(** A failed [tk_status], its magnitude and its command, as the probe sees
    them. *)
Definition selected (s : st) (failed : Prop) (err command : Z) : Prop :=
  failed /\ allowed s err command.

Lemma probe_entry_cases rm e task s slot :
  wakeup_data_size ro = 0 -> reserve e 0 = Some slot -> - 2 ^ 31 < tk_status rm task < 2 ^ 31 ->
  let err := Z.abs (tk_status rm task) in
  let command := u16 (p_statidx rm task) in
  (selected s (tk_status rm task <> 0) err command /\
   reports e slot err command (bpf_ntohl (rq_xid rm task)) s (probe_entry rm e task s)) \/
  (~ selected s (tk_status rm task <> 0) err command /\ probe_entry rm e task s = s).
Proof.
  intros Hw Hs Hr err command.
  assert (forall n, get_flags e n = 0) as Hf by (intros n; unfold get_flags; by rewrite Hw).
  assert ((if tk_status rm task <? 0 then s32 (- tk_status rm task) else tk_status rm task) =
    err) as Habs.
  { subst err. destruct (Z.ltb_spec (tk_status rm task) 0); [|lia].
    rewrite wraps_small; [lia|lia|unfold fits_s; lia]. }
  unfold reports, probe_entry, selected, allowed. cbv zeta. rewrite Habs, !Hf, Hs.
  fold command. destruct (Z.eqb_spec (tk_status rm task) 0) as [H0|H0]; [right; tauto|].
  rewrite <- !nfs_filter_spec.
  destruct (negb (filter_errors ro =? 0) && _); [right; split; [naive_solver|done]|].
  destruct (negb (filter_cmds ro =? 0) && _); [right; split; [naive_solver|done]|]. by left.
Qed.

Lemma emit_cases e x command error s slot :
  wakeup_data_size ro = 0 -> reserve e 0 = Some slot ->
  (selected s (error <> 0) (s32 error) command /\
   reports e slot (s32 error) command x s (emit_xdr_status e x command error s)) \/
  (~ selected s (error <> 0) (s32 error) command /\ emit_xdr_status e x command error s = s).
Proof.
  intros Hw Hs.
  assert (forall n, get_flags e n = 0) as Hf by (intros n; unfold get_flags; by rewrite Hw).
  unfold reports, emit_xdr_status, selected, allowed. rewrite !Hf, Hs.
  destruct (Z.eqb_spec error 0) as [H0|H0]; [right; tauto|].
  rewrite <- !nfs_filter_spec.
  destruct (negb (filter_errors ro =? 0) && _); [right; split; [naive_solver|done]|].
  destruct (negb (filter_cmds ro =? 0) && _); [right; split; [naive_solver|done]|]. by left.
Qed.

(** With no wakeup size, a failed task whose error and procedure pass the
    enabled allow lists is reported with the magnitude of its status, its
    procedure and its transaction id in host order. *)
Theorem nfsiosnoop_reports_task rm e task s slot :
  wakeup_data_size ro = 0 -> reserve e 0 = Some slot ->
  - 2 ^ 31 < tk_status rm task < 2 ^ 31 -> tk_status rm task <> 0 ->
  allowed s (Z.abs (tk_status rm task)) (u16 (p_statidx rm task)) ->
  reports e slot (Z.abs (tk_status rm task)) (u16 (p_statidx rm task))
    (bpf_ntohl (rq_xid rm task)) s (rpc_done_exit rm e task s) /\
  rpc_done_kprobe rm e task s = rpc_done_exit rm e task s.
Proof.
  intros Hw Hs Hr H0 Ha. split; [|done].
  destruct (probe_entry_cases rm e task s slot Hw Hs Hr) as [[_ H]|[[] _]]; [exact H|by split].
Qed.

(** Both layouts of the tracepoint record give the same report: the
    program for the lazy layout does on a record with four more bytes of
    common header (and the alignment of [error] that follows) what the other
    one does on the record without them. *)
Theorem nfs_lazy_layout e hdr task_id client_id x o err lazy pad4 s :
  length hdr = 8%nat -> length task_id = 4%nat -> length client_id = 4%nat ->
  length x = 4%nat -> length o = 4%nat -> length err = 8%nat -> length lazy = 4%nat ->
  length pad4 = 4%nat ->
  trace_nfs4_xdr_status_lazy e
    (hdr ++ lazy ++ task_id ++ client_id ++ x ++ o ++ pad4 ++ err) s =
  trace_nfs4_xdr_status e (hdr ++ task_id ++ client_id ++ x ++ o ++ err) s.
Proof.
  intros. assert (nfs4_xdr_status_lazy (hdr ++ lazy ++ task_id ++ client_id ++ x ++ o ++
    pad4 ++ err) = nfs4_xdr_status (hdr ++ task_id ++ client_id ++ x ++ o ++ err)) as He.
  { unfold nfs4_xdr_status_lazy, nfs4_xdr_status, field_at, field.
    repeat match goal with
    | H : length ?l = S _ |- _ => destruct l; [discriminate|injection H as H]
    | H : length ?l = O |- _ => apply nil_length_inv in H as ->
    end; reflexivity. }
  unfold trace_nfs4_xdr_status_lazy, trace_nfs4_xdr_status. by rewrite He.
Qed.
End Program.

(** ** The theorems at concrete inputs *)

Definition slot0 : event := Event 0 0 0 0 0 0 0 [].

(** Process [pid] at time [t], in nanoseconds. *)
Definition at_ns (pid t : Z) : kenv event :=
  demo_env slot0 (Z.shiftl pid 32 + pid) t (demo_mem 0 (fun _ => None)).

(** A task that failed with -EACCES in procedure 3, transaction 0x01020304. *)
Definition demo_rm : rpc_mem := RpcMem (fun _ => -13) (fun _ => 3) (fun _ => 0x04030201).
Definition booted : st :=
  St (update_elem (map_create 113) 13 1 BPF_ANY) (map_create 70) [].

Lemma nfsiosnoop_reports_task_witness :
  rpc_done_exit (Rodata 0 1 0) demo_rm (at_ns 7 1000) 0x9000 booted =
  submit booted (Event 7 3 NFSIOSNOOP 0 1000 0x01020304 13 (pad 16 (bytes "demo"))) 0.
Proof.
  destruct (nfsiosnoop_reports_task (Rodata 0 1 0) demo_rm (at_ns 7 1000) 0x9000 booted slot0)
    as [H _];
    [vm_compute; reflexivity|vm_compute; reflexivity|split; vm_compute; congruence
    |vm_compute; congruence|split; [right; vm_compute; eauto|left; vm_compute; reflexivity]|].
  unfold reports in H. rewrite H. vm_compute. reflexivity.
Defined.

Lemma nfsiosnoop_wakeup_silent_witness :
  rpc_done_exit (Rodata 4096 1 0) demo_rm (at_ns 7 1000) 0x9000 booted = booted.
Proof.
  apply (nfsiosnoop_wakeup_silent (Rodata 4096 1 0) [RpcExit demo_rm (at_ns 7 1000) 0x9000]
    booted); [vm_compute; congruence|].
  apply Forall_singleton. apply demo_env_ok, demo_mem_ok.
Defined.

Lemma nfs_lazy_layout_witness :
  trace_nfs4_xdr_status_lazy (Rodata 0 1 0) (at_ns 7 1000)
    (replicate 8 0 ++ replicate 4 9 ++ replicate 4 1 ++ replicate 4 2 ++ [4; 3; 2; 1] ++
     [3; 0; 0; 0] ++ replicate 4 8 ++ [13; 0; 0; 0; 0; 0; 0; 0]) booted =
  submit booted (Event 7 3 NFSIOSNOOP 0 1000 0x01020304 13 (pad 16 (bytes "demo"))) 0.
Proof.
  rewrite (nfs_lazy_layout (Rodata 0 1 0) (at_ns 7 1000)); [vm_compute; reflexivity|reflexivity ..].
Defined.
