(* ===== verification/NfsslowerBpf.v ===== *)
(** * nfsslower: the kernel program

    Models src/bpf/nfsslower.bpf.c: a task is recorded when it first sets up
    its sequence and reported when it exits.  Each firing has the kernel memory
    that it reads ([rpc_mem]): the address of a task is used again for others.
    The exit probe reads the command of the record after deleting the record
    from the map; the kernel may hand the element to an insertion on another CPU
    in between.  [reused] is what the memory of the deleted element holds at
    that read: the identity when nothing interferes. *)

From S2P Require Import Prelude Bpf BpfModel AodEvent NfsiosnoopBpf.

Record rodata := Rodata { min_lat_ns : Z; wakeup_data_size : Z }.

Record nfs_partial_event := NfsPartial { nfscommand : Z; metric : Z }.

Section Program.
Context {RT : BpfRuntime}.
Variable ro : rodata.

Abbreviation env := (kenv event).

Record st := St {
  denylist : hmap Z Z;
  temp : hmap Z nfs_partial_event;
  aodrb : list (event * Z);
}.

Definition set_temp (s : st) (x : hmap Z nfs_partial_event) : st :=
  St (denylist s) x (aodrb s).
Definition submit (s : st) (e : event) (flags : Z) : st :=
  St (denylist s) (temp s) (aodrb s ++ [(e, flags)]).

Definition get_flags (e : env) : Z :=
  if wakeup_data_size ro =? 0 then 0
  else
    let sz := rb_avail e 0 in
    if wakeup_data_size ro <=? sz then BPF_RB_FORCE_WAKEUP else BPF_RB_NO_WAKEUP.

Definition probe_entry (rm : rpc_mem) (e : env) (task : Z) (s : st) : st :=
  let nfscommand := u16 (p_statidx rm task) in
  match bpf_map_lookup_elem (denylist s) nfscommand with
  | Some _ => s
  | None =>
      let pe := NfsPartial nfscommand (ktime e 0) in
      set_temp s (update_elem (temp s) task pe BPF_NOEXIST)
  end.

Definition probe_exit (rm : rpc_mem) (reused : nfs_partial_event -> nfs_partial_event) (e : env)
    (task : Z) (s : st) : st :=
  match bpf_map_lookup_elem (temp s) task with
  | None => s
  | Some pe =>
      let now := ktime e 0 in
      let latency := u64 (now - latency_ns (metric pe)) in
      let s := set_temp s (delete_elem (temp s) task) in
      if latency <? min_lat_ns ro then s
      else
        match reserve e 0 with
        | None => s
        | Some slot =>
            let ev := {|
              ev_pid := u32 (Z.shiftr (pid_tgid e) 32);
              ev_command := nfscommand (reused pe);
              ev_tool := NFSSLOWER;
              ev_pad := ev_pad slot;
              ev_cmd_end_time_ns := now;
              ev_rqst_id := bpf_ntohl (rq_xid rm task);
              ev_metric := latency;
              ev_task := comm e |} in
            submit s ev (get_flags e)
        end
  end.

Definition nfs4_setup_sequence_entry (rm : rpc_mem) (e : env) (client args res task : Z) (s : st) : st :=
  probe_entry rm e task s.
Definition nfs4_setup_sequence_kprobe (rm : rpc_mem) (e : env) (client args res task : Z) (s : st) : st :=
  probe_entry rm e task s.
Definition rpc_done_entry (rm : rpc_mem) (reused : nfs_partial_event -> nfs_partial_event)
    (e : env) (task : Z) (s : st) : st := probe_exit rm reused e task s.
Definition rpc_done_kprobe (rm : rpc_mem) (reused : nfs_partial_event -> nfs_partial_event)
    (e : env) (task : Z) (s : st) : st := probe_exit rm reused e task s.

(** ** Executions *)

Inductive label :=
| Setup (rm : rpc_mem) (e : env) (task : Z)
| Exit (rm : rpc_mem) (reused : nfs_partial_event -> nfs_partial_event) (e : env) (task : Z).

Definition label_task (l : label) : Z := match l with Setup _ _ t | Exit _ _ _ t => t end.

Definition step (s : st) (l : label) : st :=
  match l with
  | Setup rm e t => nfs4_setup_sequence_entry rm e 0 0 0 t s
  | Exit rm r e t => rpc_done_entry rm r e t s
  end.

Definition exec (ls : list label) (s : st) : st := fold_left step ls s.

(** The report at the exit of a task with record [pe]. *)
Definition reported (rm : rpc_mem) (reused : nfs_partial_event -> nfs_partial_event) (e : env)
    (task : Z) (pe : nfs_partial_event) : list (event * Z) :=
  let latency := u64 (ktime e 0 - metric pe) in
  match reserve e 0 with
  | Some slot =>
      if min_lat_ns ro <=? latency then
        [(Event (u32 (Z.shiftr (pid_tgid e) 32)) (nfscommand (reused pe)) NFSSLOWER
           (ev_pad slot) (ktime e 0) (bpf_ntohl (rq_xid rm task)) latency (comm e), get_flags e)]
      else []
  | None => []
  end.

Lemma nfs_probe_exit_spec rm reused e task s :
  probe_exit rm reused e task s =
  match bpf_map_lookup_elem (temp s) task with
  | None => s
  | Some pe =>
      St (denylist s) (delete_elem (temp s) task) (aodrb s ++ reported rm reused e task pe)
  end.
Proof.
  unfold probe_exit, reported, latency_ns.
  destruct (bpf_map_lookup_elem (temp s) task) as [pe|]; [|done].
  rewrite Z.leb_antisym. destruct (_ <? _); cbn [negb]; destruct (reserve e 0); simpl;
    by rewrite ?app_nil_r.
Qed.

Context {RL : BpfRuntimeLaws RT}.

Lemma nfs_step_other s l t :
  label_task l <> t ->
  bpf_map_lookup_elem (temp (step s l)) t = bpf_map_lookup_elem (temp s) t.
Proof.
  destruct l as [rm e t'|rm r e t']; cbn [label_task step]; intros Ht.
  - unfold nfs4_setup_sequence_entry, probe_entry. case_match; [done|].
    cbn [set_temp temp]. by apply lookup_update_ne.
  - unfold rpc_done_entry. rewrite nfs_probe_exit_spec. case_match; [|done]. cbn [temp].
    rewrite lookup_delete_elem. by rewrite decide_False.
Qed.

Lemma nfs_setup_again s rm e t pe :
  bpf_map_lookup_elem (temp s) t = Some pe ->
  bpf_map_lookup_elem (temp (step s (Setup rm e t))) t = Some pe.
Proof.
  intros Hl. cbn [step]. unfold nfs4_setup_sequence_entry, probe_entry. case_match; [done|].
  cbn [set_temp temp]. rewrite !lookup_view in *. by rewrite update_noexist_keeps by eauto.
Qed.

(** A task that does not exit keeps its first record, however often it sets
    up its sequence. *)
Lemma nfs_exec_keeps ls s t pe :
  Forall (fun l => label_task l = t -> exists rm e, l = Setup rm e t) ls ->
  bpf_map_lookup_elem (temp s) t = Some pe ->
  bpf_map_lookup_elem (temp (exec ls s)) t = Some pe.
Proof.
  intros Hls. revert s. induction Hls as [|l ls Hl Hls IH]; intros s Hs; [done|].
  change (exec (l :: ls) s) with (exec ls (step s l)). apply IH.
  destruct (Z.eq_dec (label_task l) t) as [Ht|Ht].
  - destruct (Hl Ht) as (rm & e & ->). by apply nfs_setup_again.
  - by rewrite nfs_step_other.
Qed.

(** Latency: a task whose procedure is not denied is reported at its exit
    exactly when the time since its first sequence setup reaches the limit,
    however many setups (it retries while it waits for a slot) and whatever
    other tasks come in between; the request is the one of the exit, and if the deleted record is not overwritten
    before it is read again, the report names the recorded procedure. *)
Theorem nfs_task_latency rm rm' e e' t ls s slot reused :
  env_ok e -> env_ok e' ->
  bpf_map_lookup_elem (denylist s) (u16 (p_statidx rm t)) = None ->
  map_view (temp s) !! t = None -> (size (map_view (temp s)) < map_max (temp s))%nat ->
  Forall (fun l => label_task l = t -> exists rm e, l = Setup rm e t) ls ->
  ktime e 0 <= ktime e' 0 -> reserve e' 0 = Some slot ->
  (forall pe, reused pe = pe) ->
  let latency := ktime e' 0 - ktime e 0 in
  let s1 := exec (Setup rm e t :: ls) s in
  let s2 := exec (Setup rm e t :: ls ++ [Exit rm' reused e' t]) s in
  bpf_map_lookup_elem (temp s2) t = None /\
  aodrb s2 = aodrb s1 ++
    if min_lat_ns ro <=? latency then
      [(Event (u32 (Z.shiftr (pid_tgid e') 32)) (u16 (p_statidx rm t)) NFSSLOWER
         (ev_pad slot) (ktime e' 0) (bpf_ntohl (rq_xid rm' t)) latency (comm e'), get_flags e')]
    else [].
Proof.
  intros He He' Hdeny Habs Hroom Hls Hle Hslot Hreused latency s1 s2.
  assert (s2 = step s1 (Exit rm' reused e' t)) as ->.
  { unfold s2, s1, exec. by rewrite app_comm_cons, fold_left_app. }
  assert (bpf_map_lookup_elem (temp s1) t =
    Some (NfsPartial (u16 (p_statidx rm t)) (ktime e 0))) as Hl.
  { change s1 with (exec ls (step s (Setup rm e t))). apply nfs_exec_keeps; [done|].
    cbn [step].
    unfold nfs4_setup_sequence_entry, probe_entry. rewrite Hdeny. cbn [set_temp temp].
    rewrite lookup_view, update_noexist_view by done. apply lookup_insert_eq. }
  cbn [step]. unfold rpc_done_entry. rewrite nfs_probe_exit_spec, Hl. cbn [temp aodrb]. split.
  - rewrite lookup_delete_elem. by rewrite decide_True.
  - unfold reported. rewrite Hslot, Hreused. cbn [metric nfscommand].
    rewrite wrapu_small; [done|].
    pose proof (ktime_u64 e He 0). pose proof (ktime_u64 e' He' 0). unfold fits_u in *. lia.
Qed.

End Program.

(** ** The theorems at concrete inputs *)

Definition booted : st :=
  St (update_elem (map_create 70) 9 1 BPF_ANY) (map_create 8) [].
Definition demo_ro : rodata := Rodata 10000000 0.

(** Two setups, then the exit after 20 milliseconds. *)
Lemma nfs_task_latency_witness :
  aodrb (exec demo_ro
    [Setup demo_rm (at_ns 7 1000) 0x9000; Setup demo_rm (at_ns 7 9000) 0x9000;
     Exit demo_rm id (at_ns 8 20001000) 0x9000] booted) =
  [(Event 8 3 NFSSLOWER 0 20001000 0x01020304 20000000 (pad 16 (bytes "demo")), 0)].
Proof.
  destruct (nfs_task_latency demo_ro demo_rm demo_rm (at_ns 7 1000) (at_ns 8 20001000) 0x9000
    [Setup demo_rm (at_ns 7 9000) 0x9000] booted slot0 id) as [_ H];
    [apply demo_env_ok, demo_mem_ok|apply demo_env_ok, demo_mem_ok|vm_compute; reflexivity
    |vm_compute; reflexivity|vm_compute; lia|apply Forall_singleton; eauto|vm_compute; congruence
    |vm_compute; reflexivity|reflexivity|].
  cbn [app] in H. rewrite H. vm_compute. reflexivity.
Defined.

