(* ===== verification/CLib.v ===== *)
(** * The C library functions that the loaders call

    Text of user space is a list of bytes without its NUL.  The functions are
    those of the C standard, as the loaders use them: [strtol], [strtoll] and
    [strtoull] with their end pointer and [errno], [atoi], [strtok] with one
    separator, [strncmp], [strstr], [strchr] and [snprintf] of a "%s". *)

From Stdlib Require Import Sorting.Sorted.
From S2P Require Import Prelude.

(** ** Numbers *)

Definition is_space (c : Z) : bool := (c =? 32) || ((9 <=? c) && (c <=? 13)).

(** The value of a digit or letter, 36 for other bytes. *)
Definition digit_val (c : Z) : Z :=
  if (48 <=? c) && (c <=? 57) then c - 48
  else if (97 <=? c) && (c <=? 122) then c - 87
  else if (65 <=? c) && (c <=? 90) then c - 55
  else 36.

Fixpoint skip_space (s : list Z) : list Z :=
  match s with
  | c :: t => if is_space c then skip_space t else s
  | [] => []
  end.

(** The digits at the start of [s], with the value they add to [acc], the rest
    and whether there is any. *)
Fixpoint digits_of (base acc : Z) (s : list Z) : Z * list Z :=
  match s with
  | c :: t => if digit_val c <? base then digits_of base (base * acc + digit_val c) t else (acc, s)
  | [] => (acc, [])
  end.

Definition starts_digit (base : Z) (s : list Z) : bool :=
  match s with c :: _ => digit_val c <? base | [] => false end.

(** The base that base 0 stands for, and the text after a hexadecimal prefix. *)
Definition base_prefix (base : Z) (s : list Z) : Z * list Z :=
  match s with
  | 48 :: x :: t =>
      if ((x =? 120) || (x =? 88)) && ((base =? 0) || (base =? 16)) && starts_digit 16 t
      then (16, t)
      else (if base =? 0 then 8 else base, s)
  | 48 :: _ => (if base =? 0 then 8 else base, s)
  | _ => (if base =? 0 then 10 else base, s)
  end.

(** The sign, the magnitude and the unparsed rest; without digits nothing is
    converted: the magnitude is 0 and the rest all of [s]. *)
Definition parse_number (base : Z) (s : list Z) : bool * Z * list Z :=
  let t := skip_space s in
  let '(neg, t) :=
    match t with
    | 45 :: t => (true, t)
    | 43 :: t => (false, t)
    | _ => (false, t)
    end in
  let '(b, t) := base_prefix base t in
  if starts_digit b t then
    let '(v, rest) := digits_of b 0 t in (neg, v, rest)
  else (false, 0, s).

Definition ERANGE : Z := 34.
Definition LONG_MAX : Z := 2 ^ 63 - 1.
Definition LONG_MIN : Z := - 2 ^ 63.
Definition ULLONG_MAX : Z := 2 ^ 64 - 1.
Definition INT_MAX : Z := 2 ^ 31 - 1.
Definition UINT32_MAX : Z := 2 ^ 32 - 1.

(** Value, end of the number and [errno] (0 when it is left alone). *)
Definition strtol (s : list Z) (base : Z) : Z * list Z * Z :=
  let '(neg, v, rest) := parse_number base s in
  let v := if neg : bool then - v else v in
  if LONG_MAX <? v then (LONG_MAX, rest, ERANGE)
  else if v <? LONG_MIN then (LONG_MIN, rest, ERANGE)
  else (v, rest, 0).

Definition strtoull (s : list Z) (base : Z) : Z * list Z * Z :=
  let '(neg, v, rest) := parse_number base s in
  if ULLONG_MAX <? v then (ULLONG_MAX, rest, ERANGE)
  else (if neg : bool then u64 (- v) else v, rest, 0).

(** [(int)strtol(s, NULL, 10)] *)
Definition atoi (s : list Z) : Z := let '(v, _, _) := strtol s 10 in s32 v.

(** ** Text *)

(** The results of [strtok(s, sep)], [strtok(NULL, sep)], ... in order: the
    non-empty runs between separators. *)
Fixpoint tokens_acc (sep : Z) (cur : list Z) (s : list Z) : list (list Z) :=
  match s with
  | [] => match cur with [] => [] | _ => [rev cur] end
  | c :: t =>
      if c =? sep then
        match cur with [] => tokens_acc sep [] t | _ => rev cur :: tokens_acc sep [] t end
      else tokens_acc sep (c :: cur) t
  end.
Definition strtok_all (sep : Z) (s : list Z) : list (list Z) := tokens_acc sep [] s.

(** [strncmp(s, p, strlen(p)) == 0] for a [p] without NUL. *)
Fixpoint has_prefix (p s : list Z) : bool :=
  match p, s with
  | [], _ => true
  | _, [] => false
  | a :: p, b :: s => (a =? b) && has_prefix p s
  end.

(** [strstr(s, p) != NULL] *)
Fixpoint strstr (s p : list Z) : bool :=
  has_prefix p s || match s with [] => false | _ :: t => strstr t p end.

(** [strchr(s, c)], the text from the first [c] on. *)
Fixpoint strchr (s : list Z) (c : Z) : option (list Z) :=
  match s with
  | [] => None
  | a :: t => if a =? c then Some s else strchr t c
  end.

(** What [snprintf(dst, n, "%s", s)] leaves in [dst], as text. *)
Definition snprintf_s (n : nat) (s : list Z) : list Z := take (n - 1) s.

(** [fgets] into [n + 1] bytes: up to and with the first newline, and the rest
    of the file. *)
Fixpoint fgets (n : nat) (s : list Z) : list Z * list Z :=
  match n, s with
  | S n, c :: t =>
      if c =? 10 then ([c], t) else let '(line, rest) := fgets n t in (c :: line, rest)
  | _, _ => ([], s)
  end.

(** The lines that successive calls of [fgets] read, to the end of the file;
    each reads at least a byte, so that the length of the file is enough. *)
Fixpoint fgets_lines (fuel n : nat) (s : list Z) : list (list Z) :=
  match fuel, s with
  | S fuel, _ :: _ => let '(line, rest) := fgets n s in line :: fgets_lines fuel n rest
  | _, _ => []
  end.

(** [bsearch], as the C library implements it: the bounds [l] and [u] close in
    on the element; [compare x] is the comparison of the key with [x] and
    [nmemb] is the number of elements the caller says the array has. *)
Fixpoint bsearch_loop {A} (fuel : nat) (compare : A -> Z) (base : list A) (l u : nat)
  : option nat :=
  match fuel with
  | O => None
  | S fuel =>
      if (l <? u)%nat then
        let idx := ((l + u) / 2)%nat in
        match base !! idx with
        | None => None
        | Some x =>
            if compare x <? 0 then bsearch_loop fuel compare base l idx
            else if 0 <? compare x then bsearch_loop fuel compare base (S idx) u
            else Some idx
        end
      else None
  end.

Definition bsearch {A} (compare : A -> Z) (base : list A) (nmemb : nat) : option nat :=
  bsearch_loop (S nmemb) compare base 0 nmemb.

(** [printf] conversions with a width: "%-wX", "%wX" and "%0wX". *)
Definition pad_right (w : nat) (t : list Z) : list Z := t ++ replicate (w - length t) 32.
Definition pad_left (w : nat) (t : list Z) : list Z := replicate (w - length t) 32 ++ t.
Definition pad_zero (w : nat) (t : list Z) : list Z := replicate (w - length t) 48 ++ t.

(** ** Lemmas *)

Lemma has_prefix_spec p s : has_prefix p s = true <-> exists t, s = p ++ t.
Proof.
  revert s. induction p as [|a p IH]; intros [|b s]; simpl.
  - split; [intros _; by exists []|done].
  - split; [intros _; by exists (b :: s)|done].
  - split; [done|by intros [? ?]].
  - rewrite andb_true_iff, Z.eqb_eq, IH. split.
    + intros [-> [t ->]]. by exists t.
    + intros [t [= -> ->]]. eauto.
Qed.

Lemma strstr_spec s p : strstr s p = true <-> exists a b, s = a ++ p ++ b.
Proof.
  induction s as [|c s IH]; cbn [strstr]; rewrite orb_true_iff, has_prefix_spec.
  - split; [intros [[b Hb]|?]; [by exists [], b|done]|].
    intros (a & b & Hab). left. destruct a; [by exists b|done].
  - rewrite IH. split.
    + intros [[b Hb]|(a & b & ->)]; [by exists [], b|by exists (c :: a), b].
    + intros (a & b & Hab). destruct a as [|a0 a]; [left; by exists b|right].
      injection Hab as <- ->. by exists a, b.
Qed.

(** A text without a newline is found within one line. *)
Lemma strstr_line l rest p :
  ~ In 10 p -> p <> [] -> strstr (l ++ 10 :: rest) p = strstr (l ++ [10]) p || strstr rest p.
Proof.
  intros Hp Hne. apply eq_true_iff_eq. rewrite orb_true_iff, !strstr_spec. split.
  - intros (a & b & Hab). apply app_eq_inv in Hab as [(k & -> & Hk)|(k & -> & Hk)].
    + symmetry in Hk. apply app_eq_inv in Hk as [(k2 & -> & Hk2)|(k2 & -> & Hk2)].
      * left. exists a, (k2 ++ [10]). by rewrite <- !app_assoc.
      * destruct k2 as [|c k2]; [|injection Hk2 as <- _; exfalso; apply Hp, in_app_iff; simpl; tauto].
        left. exists a, [10]. by rewrite app_nil_r, <- app_assoc.
    + destruct k as [|c k]; cbn in Hk.
      * destruct p as [|c p]; [done|]. injection Hk as <- _. exfalso. apply Hp. by left.
      * injection Hk as <- ->. right. by exists k, b.
  - intros [(a & b & Hab)|(a & b & ->)].
    + exists a, (b ++ rest). change (10 :: rest) with ([10] ++ rest).
      by rewrite app_assoc, Hab, <- !app_assoc.
    + exists (l ++ 10 :: a), b. by rewrite <- !app_assoc.
Qed.

Lemma fgets_spec n s :
  let '(line, rest) := fgets n s in
  s = line ++ rest /\
  ((exists l, line = l ++ [10] /\ ~ In 10 l) \/
   (~ In 10 line /\ (rest = [] \/ length line = n))).
Proof.
  revert s. induction n as [|n IH]; intros [|c s]; cbn [fgets].
  1-3: split; [done|right; split; [by intros []|auto]].
  destruct (Z.eqb_spec c 10) as [->|Hc].
  - split; [done|left]. exists []. split; [done|by intros []].
  - specialize (IH s). destruct (fgets n s) as [line rest]. destruct IH as [-> IH].
    split; [done|]. destruct IH as [(l & -> & Hl)|[Hl Hr]]; [left|right].
    + exists (c :: l). split; [done|]. intros [?|?]; congruence.
    + split; [intros [?|?]; congruence|]. cbn [length]. destruct Hr; [auto|right; lia].
Qed.

(** No run of [n] bytes without a newline. *)
Definition short_lines (n : nat) (s : list Z) : Prop :=
  forall a l b, s = a ++ l ++ b -> ~ In 10 l -> (length l < n)%nat.

Lemma fgets_lines_strstr fuel n s p :
  ~ In 10 p -> p <> [] -> short_lines n s -> (length s <= fuel)%nat ->
  existsb (fun line => strstr line p) (fgets_lines fuel n s) = strstr s p.
Proof.
  intros Hp Hne. revert s. induction fuel as [|fuel IH]; intros s Hs Hf.
  - destruct s; [|simpl in Hf; lia]. by destruct p.
  - destruct s as [|c s]; [by destruct p|]. cbn [fgets_lines].
    pose proof (fgets_spec n (c :: s)) as Hg. destruct (fgets n (c :: s)) as [line rest].
    destruct Hg as [Heq Hg]. cbn [existsb].
    assert (short_lines n rest) as Hr.
    { intros a l b -> Hl. apply (Hs (line ++ a) l b); [|done]. by rewrite Heq, <- app_assoc. }
    destruct Hg as [(l & -> & Hl)|[Hl [-> | Hlen]]].
    + rewrite Heq, <- app_assoc. cbn [app]. rewrite (strstr_line l rest p) by done. f_equal. apply IH; [done|].
      apply (f_equal length) in Heq. rewrite !length_app in Heq. cbn in Heq, Hf. lia.
    + rewrite Heq, app_nil_r. destruct fuel; cbn; by rewrite orb_false_r.
    + exfalso. specialize (Hs [] line rest Heq Hl). lia.
Qed.

Lemma strtok_all_no_sep sep s t :
  In t (strtok_all sep s) -> t <> [] /\ ~ In sep t.
Proof.
  assert (forall cur, ~ In sep cur -> forall t, In t (tokens_acc sep cur s) ->
    t <> [] /\ ~ In sep t) as Hgen; [|intros Ht; apply (Hgen []); [by intros []|done]].
  induction s as [|c s IH]; intros cur Hcur t' Ht; simpl in Ht.
  - destruct cur as [|a cur]; [done|]. destruct Ht as [<-|[]]. split.
    + intros He. apply (f_equal length) in He. rewrite length_rev in He. done.
    + by rewrite <- in_rev.
  - destruct (Z.eqb_spec c sep) as [->|Hc].
    + destruct cur as [|a cur]; [apply (IH []); [by intros []|done]|]. destruct Ht as [<-|Ht]; [|apply (IH []); [by intros []|done]].
      split; [|by rewrite <- in_rev].
      intros He. apply (f_equal length) in He. rewrite length_rev in He. done.
    + eapply IH; [|done]. intros [?|?]; congruence.
Qed.

(** In a strictly ascending array, [bsearch] with a three-way comparison finds
    exactly the members. *)
Definition ascending (base : list Z) : Prop :=
  forall i j x y, (i < j)%nat -> base !! i = Some x -> base !! j = Some y -> x < y.

Lemma ascending_Sorted base : Sorted Z.lt base -> ascending base.
Proof.
  intros Hs%Sorted_StronglySorted; [|intros ? ? ?; lia].
  induction Hs as [|a base Hs IH Ha]; intros i j x y Hij Hx Hy; [done|].
  destruct j as [|j]; [lia|]. cbn in Hy. destruct i as [|i]; cbn in Hx.
  - injection Hx as ->. by eapply Forall_lookup_1 in Ha.
  - apply (IH i j); [lia|done|done].
Qed.

Lemma bsearch_loop_spec (compare : Z -> Z) k base fuel l u :
  (forall x, (compare x < 0 <-> k < x) /\ (0 < compare x <-> x < k)) -> ascending base ->
  (u - l < fuel)%nat -> (u <= length base)%nat ->
  is_Some (bsearch_loop fuel compare base l u) <->
  exists i, (l <= i < u)%nat /\ base !! i = Some k.
Proof.
  intros Hc Hasc. revert l u. induction fuel as [|fuel IH]; intros l u Hf Hu; [lia|].
  cbn [bsearch_loop]. destruct (Nat.ltb_spec l u) as [Hlu|Hlu].
  2: { split; [by intros [? ?]|]. intros (i & Hi & _). lia. }
  assert (l <= (l + u) / 2 < u)%nat as Hmid.
  { split; [apply Nat.div_le_lower_bound; lia|apply Nat.Div0.div_lt_upper_bound; lia]. }
  destruct (lookup_lt_is_Some_2 base ((l + u) / 2)%nat ltac:(lia)) as [x Hx]. rewrite Hx.
  set (mid := ((l + u) / 2)%nat) in *.
  destruct (Z.ltb_spec (compare x) 0) as [Hlt|Hge]; [|destruct (Z.ltb_spec 0 (compare x)) as [Hgt|Hle]].
  - apply Hc in Hlt. rewrite IH by lia. split; intros (i & Hi & Hk); exists i; (split; [|done]).
    + lia.
    + destruct (Nat.lt_trichotomy i mid) as [?|[->|Him]]; [lia|simplify_eq; lia|].
      pose proof (Hasc _ _ _ _ Him Hx Hk). lia.
  - apply Hc in Hgt. rewrite IH by lia. split; intros (i & Hi & Hk); exists i; (split; [|done]).
    + lia.
    + destruct (Nat.lt_trichotomy i mid) as [Him|[->|?]]; [|simplify_eq; lia|lia].
      pose proof (Hasc _ _ _ _ Him Hk Hx). lia.
  - split; [intros _|by eexists]. exists mid. split; [lia|]. rewrite Hx. f_equal.
    pose proof (Hc x). lia.
Qed.

Lemma bsearch_spec (compare : Z -> Z) k base :
  (forall x, (compare x < 0 <-> k < x) /\ (0 < compare x <-> x < k)) -> ascending base ->
  is_Some (bsearch compare base (length base)) <-> In k base.
Proof.
  intros Hc Hasc. unfold bsearch. rewrite (bsearch_loop_spec compare k) by (done || lia).
  rewrite <- list_elem_of_In, list_elem_of_lookup. split; [naive_solver|].
  intros [i Hi]. exists i. split; [|done]. apply lookup_lt_Some in Hi. lia.
Qed.

Lemma snprintf_s_fits n s : (0 < n)%nat -> (length (snprintf_s n s) < n)%nat.
Proof. intros Hn. unfold snprintf_s. rewrite length_take. lia. Qed.

Lemma digits_of_nonneg base acc s : 0 <= acc -> 0 <= base -> 0 <= (digits_of base acc s).1.
Proof.
  revert acc. induction s as [|c s IH]; intros acc Ha Hb; simpl; [done|].
  destruct (digit_val c <? base); [|done]. apply IH; [|done].
  assert (0 <= digit_val c); [|nia].
  unfold digit_val. repeat case_match; try (apply andb_true_iff in H as [?%Z.leb_le ?]; lia);
    try (apply andb_true_iff in H0 as [?%Z.leb_le ?]; lia);
    try (apply andb_true_iff in H1 as [?%Z.leb_le ?]; lia); lia.
Qed.

Lemma parse_number_nonneg base s : 0 <= base -> 0 <= (parse_number base s).1.2.
Proof.
  intros Hb. unfold parse_number.
  destruct (match skip_space s with 45 :: t => (true, t) | 43 :: t => (false, t)
    | _ => (false, skip_space s) end) as [neg t].
  assert (0 <= (base_prefix base t).1) as Hp by (unfold base_prefix; repeat case_match; simpl; lia).
  destruct (base_prefix base t) as [b t']. destruct (starts_digit b t'); [|done].
  pose proof (digits_of_nonneg b 0 t' ltac:(lia) Hp) as Hd.
  by destruct (digits_of b 0 t') as [v rest].
Qed.

Lemma strtoull_range s base :
  0 <= base -> let '(v, _, _) := strtoull s base in fits_u 64 v.
Proof.
  intros Hb. pose proof (parse_number_nonneg base s Hb) as Hn. unfold strtoull, ULLONG_MAX.
  destruct (parse_number base s) as [[neg v] rest]. cbn [fst snd] in Hn. unfold fits_u.
  destruct (Z.ltb_spec (2 ^ 64 - 1) v); [lia|]. destruct neg; [|lia].
  apply (wrapu_range 64). lia.
Qed.

Lemma strtol_range s base : let '(v, _, _) := strtol s base in fits_s 64 v.
Proof.
  unfold strtol, fits_s, LONG_MAX, LONG_MIN.
  destruct (parse_number base s) as [[neg v] rest].
  repeat case_match; simplify_eq; lia.
Qed.

Example strtol_ex1 : strtol (bytes "  -12,3") 10 = (-12, bytes ",3", 0).
Proof. vm_compute. reflexivity. Qed.
Example strtol_ex2 : strtol (bytes "0xc0000022") 0 = (0xc0000022, [], 0).
Proof. vm_compute. reflexivity. Qed.
Example strtol_ex3 : strtol (bytes "9223372036854775808") 10 = (LONG_MAX, [], ERANGE).
Proof. vm_compute. reflexivity. Qed.
Example strtol_ex4 : strtol (bytes "abc") 10 = (0, bytes "abc", 0).
Proof. vm_compute. reflexivity. Qed.
Example strtok_ex : strtok_all 44 (bytes ",1,,22,") = [bytes "1"; bytes "22"].
Proof. vm_compute. reflexivity. Qed.
