(* ===== verification/TraceHelpers.v ===== *)
(** * What the loaders find out about the running kernel

    Models src/common/trace_helpers.c: the tests for a tracepoint and for a
    kernel symbol, the search for the BTF of a module, the trial program of
    [fentry_try_attach] and the two functions over BTF, with the descriptors
    and BTF objects they take and give back.  Files and the answers of libbpf
    are arguments ([host_btf]); [scan_symbol] is the one conversion that the
    symbol test uses.  The theorems: which symbols are found in /proc/kallsyms,
    and when a function is said to attach, with the array of instructions and
    the resources in order. *)

From S2P Require Import Prelude CLib.

(** ** Tracepoints *)

(** [snprintf] into [char path[256]] is cut unless its length is below 256. *)
Definition tracepoint_path (root category name : list Z) : list Z :=
  bytes "/sys/kernel/" ++ root ++ bytes "/events/" ++ category ++ bytes "/" ++ name ++ bytes "/id".

Definition tracepoint_exists (readable : list Z -> bool) (category name : list Z) : bool :=
  let path := tracepoint_path (bytes "tracing") category name in
  if 256 <=? Z.of_nat (length path) then false
  else if readable (snprintf_s 256 path) then true
  else
    let path := tracepoint_path (bytes "debug/tracing") category name in
    if 256 <=? Z.of_nat (length path) then false
    else readable (snprintf_s 256 path).

(** ** Kernel symbols *)

(** The bytes up to the next white space, at most [n]. *)
Fixpoint scan_token (n : nat) (s : list Z) : list Z * list Z :=
  match n, s with
  | S n, c :: t =>
      if is_space c then ([], s) else let '(w, rest) := scan_token n t in (c :: w, rest)
  | _, _ => ([], s)
  end.

(** [fscanf(file, "%*s %c %255s", &type, symbol)]: the symbol and what is left
    of the file, when both conversions were done. *)
Definition scan_symbol (s : list Z) : option (list Z * list Z) :=
  match skip_space s with
  | [] => None
  | s =>
      let '(_, s) := scan_token (length s) s in
      match skip_space s with
      | [] => None
      | _ :: s =>
          match skip_space s with
          | [] => None
          | s => Some (scan_token 255 s)
          end
      end
  end.

(** Each round reads at least three bytes: the length of the file is enough. *)
Fixpoint find_symbol (fuel : nat) (s name : list Z) : bool :=
  match fuel with
  | O => false
  | S fuel =>
      match scan_symbol s with
      | None => false
      | Some (symbol, s) => if bool_decide (symbol = name) then true else find_symbol fuel s name
      end
  end.

Definition kernel_function_exists (kallsyms : option (list Z)) (name : list Z) : bool :=
  match kallsyms with
  | None => false
  | Some s => find_symbol (S (length s)) s name
  end.

(** ** Descriptors and objects *)

(** The file descriptors and the number of BTF objects that the process holds. *)
Record res := Res { fds : list Z; objs : nat }.

(** A call that may return a descriptor; [close] of a descriptor that is not
    open, and [btf__free] of an object that is not there, are [None]. *)
Definition opened (fd : Z) (r : res) : res := if fd <? 0 then r else Res (fd :: fds r) (objs r).
Fixpoint remove_fd (fd : Z) (l : list Z) : option (list Z) :=
  match l with
  | [] => None
  | x :: l => if x =? fd then Some l else cons x <$> remove_fd fd l
  end.
Definition close (fd : Z) (r : res) : option res :=
  l ← remove_fd fd (fds r); Some (Res l (objs r)).

(** ** BTF *)

(** What libbpf says of a loaded BTF: the id of a function, or 0 or an error,
    and the number of parameters of its prototype. *)
Record btf := Btf { find_func : list Z -> Z; proto_vlen : Z -> option Z }.

Definition loaded (r : res) : res := Res (fds r) (S (objs r)).
Definition btf__free (b : option btf) (r : res) : option res :=
  match b, objs r with
  | None, _ => Some r
  | Some _, S n => Some (Res (fds r) n)
  | Some _, O => None
  end.

Definition ENOENT : Z := 2.
Definition EINVAL : Z := 22.

(** One id of the list of BTF objects: its descriptor, the error of the query,
    its name, and the BTF that loads for it. *)
Record btf_entry := BtfEntry {
  be_fd : Z; be_err : Z; be_name : list Z; be_load : option btf;
}.

(** The result is the descriptor, with the BTF, or -1. *)
Fixpoint get_module_btf (mod_ : list Z) (entries : list btf_entry) (r : res)
  : option (Z * option btf * res) :=
  match entries with
  | [] => Some (-1, None, r)
  | be :: entries =>
      let fd := be_fd be in
      let r := opened fd r in
      if fd <? 0 then get_module_btf mod_ entries r
      else if (be_err be =? 0) && bool_decide (snprintf_s 64 (be_name be) = mod_) then
        match be_load be with
        | None => r ← close fd r; Some (-1, None, r)
        | Some b => Some (fd, Some b, loaded r)
        end
      else r ← close fd r; get_module_btf mod_ entries r
  end.

(** The instructions of the trial program. *)
Inductive bpf_insn := LoadCtx (off : Z) | MovR0 (imm : Z) | ExitInsn | NoInsn.

(** [insns[instruction_count++] = insn]: [None] outside the array. *)
Definition put (insns : list bpf_insn * nat) (i : bpf_insn) : option (list bpf_insn * nat) :=
  let '(a, n) := insns in
  if (n <? length a)%nat then Some (<[n := i]> a, S n) else None.

Fixpoint load_slots (k : nat) (index : Z) (insns : list bpf_insn * nat)
  : option (list bpf_insn * nat) :=
  match k with
  | O => Some insns
  | S k =>
      match put insns (LoadCtx (index * 8)) with
      | None => None
      | Some insns => load_slots k (index + 1) insns
      end
  end.

(** The array and the count that bpf_prog_load gets; [Some None] when the
    count of parameters is refused. *)
Definition trial_program (parameter_count : Z) : option (option (list bpf_insn)) :=
  if (parameter_count <? 0) || (12 <? parameter_count) then Some None
  else
    match load_slots (Z.to_nat parameter_count) 0 (replicate 14 NoInsn, 0%nat) with
    | None => None
    | Some insns =>
        match put insns (MovR0 0) with
        | None => None
        | Some insns =>
            match put insns ExitInsn with
            | None => None
            | Some (a, n) => Some (Some (take n a))
            end
        end
    end.

(** [prog_load] and [attach] are the descriptors that the kernel returns for
    the function [id] of the BTF behind [btf_fd]. *)
Definition fentry_try_attach (prog_load : Z -> Z -> list bpf_insn -> Z) (attach : Z -> Z)
    (id btf_fd parameter_count : Z) (r : res) : option (bool * res) :=
  trial ← trial_program parameter_count;
  match trial with
  | None => Some (false, r)
  | Some insns =>
      let prog_fd := prog_load id btf_fd insns in
      let r := opened prog_fd r in
      if prog_fd <? 0 then Some (false, r)
      else
        let attach_fd := attach prog_fd in
        let r := opened attach_fd r in
        r ← (if 0 <=? attach_fd then close attach_fd r else Some r);
        r ← close prog_fd r;
        Some (0 <=? attach_fd, r)
  end.

(** What the kernel's calls answer: the BTF of the kernel or an error, the
    BTF objects, and the two calls of the trial. *)
Record host_btf := HostBtf {
  vmlinux : btf + Z; entries : list btf_entry;
  prog_load : Z -> Z -> list bpf_insn -> Z; attach : Z -> Z;
}.

Section Helpers.
Variable h : host_btf.

Definition fentry_can_attach (name : list Z) (mod_ : option (list Z)) (r : res)
  : option (bool * res) :=
  match vmlinux h with
  | inr _ => Some (false, r)
  | inl vmlinux_btf =>
      let r := loaded r in
      '(btf_fd, module_btf, r) ←
        match mod_ with
        | None => Some (0, None, r)
        | Some m => get_module_btf m (entries h) r
        end;
      let btf := match mod_ with None => Some vmlinux_btf | Some _ => module_btf end in
      '(result, r) ←
        (if btf_fd <? 0 then Some (false, r)
         else
           b ← btf;
           let id := find_func b name in
           if id <=? 0 then Some (false, r)
           else
             match proto_vlen b id with
             | None => Some (false, r)
             | Some parameter_count =>
                 fentry_try_attach (prog_load h) (attach h) id btf_fd parameter_count r
             end);
      r ← (if 0 <? btf_fd then close btf_fd r else Some r);
      r ← btf__free module_btf r;
      r ← btf__free (Some vmlinux_btf) r;
      Some (result, r)
  end.

Definition get_func_param_count (name : list Z) (mod_ : option (list Z)) (r : res)
  : option (Z * res) :=
  match vmlinux h with
  | inr err => Some (err, r)
  | inl vmlinux_btf =>
      let r := loaded r in
      '(btf_fd, module_btf, r) ←
        match mod_ with
        | None => Some (-1, None, r)
        | Some m => get_module_btf m (entries h) r
        end;
      let btf := match mod_ with None => Some vmlinux_btf | Some _ => module_btf end in
      err ←
        (if bool_decide (is_Some mod_) && (btf_fd <? 0) then Some (- EINVAL)
         else
           b ← btf;
           let id := find_func b name in
           Some (if id <=? 0 then if id <? 0 then id else - ENOENT
                 else match proto_vlen b id with None => - EINVAL | Some n => n end));
      r ← (if 0 <=? btf_fd then close btf_fd r else Some r);
      r ← btf__free module_btf r;
      r ← btf__free (Some vmlinux_btf) r;
      Some (err, r)
  end.
End Helpers.

#[local] Arguments close : simpl never.
#[local] Arguments btf__free : simpl never.
#[local] Arguments loaded : simpl never.
#[local] Arguments opened : simpl never.

(** ** Lemmas *)

Definition no_space (s : list Z) : Prop := Forall (fun c => is_space c = false) s.

Lemma scan_token_word n w s :
  no_space w -> (length w <= n)%nat ->
  match s with [] => True | c :: _ => is_space c = true end ->
  scan_token n (w ++ s) = (w, s).
Proof.
  intros Hw. revert n. induction Hw as [|c w Hc Hw IH]; intros n Hn Hs; cbn [app].
  - destruct n, s as [|c s]; cbn [scan_token]; try done. by rewrite Hs.
  - destruct n as [|n]; cbn in Hn; [lia|]. cbn [scan_token]. rewrite Hc, IH by (done || lia). done.
Qed.

Lemma skip_space_word w s : no_space w -> w <> [] -> skip_space (w ++ s) = w ++ s.
Proof. intros Hw Hne. destruct Hw as [|c w Hc Hw]; [done|]. cbn. by rewrite Hc. Qed.

Lemma skip_space_space c s : is_space c = true -> skip_space (c :: s) = skip_space s.
Proof. intros Hc. cbn. by rewrite Hc. Qed.

Lemma skip_space_char c s : is_space c = false -> skip_space (c :: s) = c :: s.
Proof. intros Hc. cbn. by rewrite Hc. Qed.

(** A line of /proc/kallsyms for a symbol of the kernel itself. *)
Record core_symbol := CoreSymbol { cs_addr : list Z; cs_type : Z; cs_name : list Z }.

Definition core_line (c : core_symbol) : list Z :=
  cs_addr c ++ [32; cs_type c; 32] ++ cs_name c ++ [10].

Definition core_ok (c : core_symbol) : Prop :=
  no_space (cs_addr c) /\ cs_addr c <> [] /\ is_space (cs_type c) = false /\
  no_space (cs_name c) /\ cs_name c <> [] /\ (length (cs_name c) <= 255)%nat.

Lemma scan_core c rest :
  core_ok c -> scan_symbol (core_line c ++ rest) = Some (cs_name c, 10 :: rest).
Proof.
  intros (Ha & Hna & Ht & Hn & Hnn & Hl). unfold scan_symbol, core_line.
  rewrite <- app_assoc, skip_space_word by done.
  destruct (cs_addr c ++ _) as [|x s] eqn:He.
  { apply app_eq_nil in He as [? _]. done. }
  rewrite <- He. rewrite scan_token_word; [|done| |done].
  2: { rewrite length_app. lia. }
  cbn [app]. rewrite skip_space_space, skip_space_char, skip_space_space by done.
  rewrite <- app_assoc, skip_space_word by done.
  destruct (cs_name c ++ [10] ++ rest) as [|y s'] eqn:He'.
  { apply app_eq_nil in He' as [? _]. done. }
  rewrite <- He'. by rewrite scan_token_word.
Qed.

Lemma scan_symbol_newline s : scan_symbol (10 :: s) = scan_symbol s.
Proof. done. Qed.

Lemma core_line_length c : core_ok c -> (0 < length (core_line c))%nat.
Proof. intros _. unfold core_line. rewrite length_app. cbn. lia. Qed.

(** Searching through the symbols of the kernel. *)
Lemma find_symbol_core cs rest name fuel s :
  Forall core_ok cs -> (length cs < fuel)%nat ->
  scan_symbol s = scan_symbol (concat (map core_line cs) ++ rest) ->
  In name (map cs_name cs) -> find_symbol fuel s name = true.
Proof.
  intros Hcs. revert fuel s. induction Hcs as [|c cs Hc Hcs IH]; intros fuel s Hf Hs Hin; [done|].
  destruct fuel as [|fuel]; [lia|]. cbn [find_symbol]. rewrite Hs. cbn [map concat].
  rewrite <- app_assoc, scan_core by done. case_bool_decide as Hn; [done|].
  destruct Hin as [Hin|Hin]; [done|]. apply IH; [cbn in Hf; lia| |done]. apply scan_symbol_newline.
Qed.

Lemma find_symbol_only cs name fuel s :
  Forall core_ok cs -> scan_symbol s = scan_symbol (concat (map core_line cs)) ->
  find_symbol fuel s name = true -> In name (map cs_name cs).
Proof.
  intros Hcs. revert fuel s. induction Hcs as [|c cs Hc Hcs IH]; intros fuel s Hs;
    (destruct fuel as [|fuel]; [done|]); cbn [find_symbol]; rewrite Hs; [done|]. cbn [map concat].
  rewrite scan_core by done. case_bool_decide as Hn; [by left|].
  intros Hf. right. apply (IH fuel (10 :: concat (map core_line cs))); [apply scan_symbol_newline|done].
Qed.

Lemma concat_lines_length cs :
  Forall core_ok cs -> (length cs <= length (concat (map core_line cs)))%nat.
Proof.
  induction 1 as [|c cs Hc Hcs IH]; [done|]. cbn [map concat length].
  rewrite length_app. pose proof (core_line_length c Hc). lia.
Qed.

(** The symbol of a line of the kernel is found, whatever follows the lines. *)
Lemma kernel_symbol_found cs rest name :
  Forall core_ok cs -> In name (map cs_name cs) ->
  kernel_function_exists (Some (concat (map core_line cs) ++ rest)) name = true.
Proof.
  intros Hcs Hin. pose proof (concat_lines_length cs Hcs) as Hlen.
  apply (find_symbol_core cs rest); [done| |done|done]. rewrite length_app. lia.
Qed.

(** The symbol test finds a function of the kernel itself, whatever
    follows its symbols in /proc/kallsyms; and where nothing follows them it
    finds nothing else. *)
Theorem kernel_function_exists_core cs rest name :
  Forall core_ok cs ->
  (In name (map cs_name cs) ->
   kernel_function_exists (Some (concat (map core_line cs) ++ rest)) name = true) /\
  (kernel_function_exists (Some (concat (map core_line cs))) name = true <->
   In name (map cs_name cs)).
Proof.
  intros Hcs. split; [by apply kernel_symbol_found|]. split; [by apply find_symbol_only|].
  intros Hin. rewrite <- (app_nil_r (concat _)). by apply kernel_symbol_found.
Qed.

(** The symbols of a module end in a column that the conversion does not
    read: the next ones are taken apart at the wrong places. *)
Definition module_lines : list Z :=
  bytes "c0001000 t mod_a" ++ [9] ++ bytes "[cifs]" ++ [10] ++
  bytes "c0001010 t mod_b" ++ [9] ++ bytes "[cifs]" ++ [10].

Example module_symbols_missed :
  map (fun n => kernel_function_exists (Some module_lines) (bytes n))
    ["mod_a"; "mod_b"; "od_b"]%string = [true; false; true].
Proof. vm_compute. reflexivity. Qed.

(** ** The trial program *)

(** A load from every slot of the context, and a return of 0. *)
Definition trial (parameter_count : nat) : list bpf_insn :=
  map (fun i => LoadCtx (8 * Z.of_nat i)) (seq 0 parameter_count) ++ [MovR0 0; ExitInsn].

Lemma trial_cases n : (n <= 12)%nat -> trial_program (Z.of_nat n) = Some (Some (trial n)).
Proof. intros Hn. do 13 (destruct n as [|n]; [reflexivity|]). lia. Qed.

Lemma trial_program_ok p :
  trial_program p = Some (if decide (0 <= p <= 12) then Some (trial (Z.to_nat p)) else None).
Proof.
  case_decide as Hp.
  - rewrite <- (Z2Nat.id p) at 1 by lia. apply trial_cases. lia.
  - unfold trial_program. destruct (Z.ltb_spec p 0), (Z.ltb_spec 12 p); cbn [orb]; (done || lia).
Qed.

(** ** The BTF that a function is looked up in *)

(** The first object that can be opened and has the name, with its BTF. *)
Fixpoint module_target (mod_ : list Z) (es : list btf_entry) : option (Z * btf) :=
  match es with
  | [] => None
  | be :: es =>
      if decide (0 <= be_fd be /\ be_err be = 0 /\ snprintf_s 64 (be_name be) = mod_)
      then pair (be_fd be) <$> be_load be
      else module_target mod_ es
  end.

(** The descriptor and BTF of the kernel, or of a module. *)
Definition target (h : host_btf) (mod_ : option (list Z)) : option (Z * btf) :=
  match vmlinux h, mod_ with
  | inr _, _ => None
  | inl v, None => Some (0, v)
  | inl _, Some m => module_target m (entries h)
  end.

(** No object has the descriptor 0, the standard input: it is open. *)
Definition stdin_open (h : host_btf) : Prop := Forall (fun be => be_fd be <> 0) (entries h).

Lemma close_opened fd r : 0 <= fd -> close fd (opened fd r) = Some r.
Proof.
  intros Hfd. unfold close, opened. rewrite (proj2 (Z.ltb_ge _ _)) by done.
  cbn [fds remove_fd]. rewrite Z.eqb_refl. by destruct r.
Qed.

Lemma opened_none fd r : fd < 0 -> opened fd r = r.
Proof. intros Hfd. unfold opened. by rewrite (proj2 (Z.ltb_lt _ _)). Qed.

Lemma get_module_btf_spec m es r :
  get_module_btf m es r =
  Some (match module_target m es with
        | Some (fd, b) => (fd, Some b, loaded (opened fd r))
        | None => (-1, None, r)
        end).
Proof.
  revert r. induction es as [|be es IH]; intros r; [done|]. cbn [get_module_btf module_target].
  destruct (Z.ltb_spec (be_fd be) 0) as [Hfd|Hfd].
  - rewrite opened_none, IH by done. rewrite decide_False by lia. done.
  - rewrite close_opened by done. cbn. destruct (Z.eqb_spec (be_err be) 0) as [He|He].
    + case_bool_decide as Hn; [rewrite decide_True by done|rewrite decide_False by tauto].
      * by destruct (be_load be).
      * apply IH.
    + rewrite decide_False by tauto. apply IH.
Qed.

Lemma module_target_fd m es fd b : module_target m es = Some (fd, b) -> 0 <= fd /\
  Exists (fun be => be_fd be = fd) es.
Proof.
  induction es as [|be es IH]; [done|]. cbn [module_target]. case_decide as Hd.
  - intros Heq. destruct (be_load be); [|done]. injection Heq as <- <-. split; [tauto|by left].
  - intros [? ?]%IH. split; [done|by right].
Qed.

(** The parameters of a function, when its BTF can be read. *)
Definition parameters (h : host_btf) (name : list Z) (mod_ : option (list Z)) : option Z :=
  '(_, b) ← target h mod_;
  if decide (0 < find_func b name) then proto_vlen b (find_func b name) else None.

(** The kernel accepts, for the function of that BTF, the program that reads
    every parameter. *)
Definition attaches (h : host_btf) (name : list Z) (mod_ : option (list Z)) : Prop :=
  exists fd b n, target h mod_ = Some (fd, b) /\ 0 < find_func b name /\
    proto_vlen b (find_func b name) = Some n /\ 0 <= n <= 12 /\
    let prog_fd := prog_load h (find_func b name) fd (trial (Z.to_nat n)) in
    0 <= prog_fd /\ 0 <= attach h prog_fd.

Lemma try_attach_spec (pl : Z -> Z -> list bpf_insn -> Z) at_ id fd n r :
  fentry_try_attach pl at_ id fd n r =
  Some (bool_decide (0 <= n <= 12 /\ 0 <= pl id fd (trial (Z.to_nat n)) /\
          0 <= at_ (pl id fd (trial (Z.to_nat n)))), r).
Proof.
  unfold fentry_try_attach. rewrite trial_program_ok. cbn. case_decide as Hn.
  2: { rewrite bool_decide_eq_false_2; [done|tauto]. }
  set (p := pl id fd (trial (Z.to_nat n))). destruct (Z.ltb_spec p 0) as [Hp|Hp].
  - rewrite opened_none by done. rewrite bool_decide_eq_false_2; [done|lia].
  - destruct (Z.leb_spec 0 (at_ p)) as [Ha|Ha].
    + rewrite close_opened by done. cbn. rewrite close_opened by done. cbn.
      by rewrite bool_decide_eq_true_2.
    + rewrite opened_none by done. cbn. rewrite close_opened by done. cbn.
      rewrite bool_decide_eq_false_2; [done|lia].
Qed.

Lemma free_loaded b r : btf__free (Some b) (loaded r) = Some r.
Proof. by destruct r. Qed.
Lemma free_none r : btf__free None r = Some r.
Proof. done. Qed.
#[local] Ltac free_kernel := rewrite free_none; cbn; rewrite free_loaded; done.

(** What the end of both functions does to the resources. *)
Lemma release_module fd (b v : btf) r : 0 <= fd ->
  (r ← close fd (loaded (opened fd (loaded r))); r ← btf__free (Some b) r; btf__free (Some v) r)
  = Some r.
Proof.
  intros Hfd. unfold close, loaded, opened. rewrite (proj2 (Z.ltb_ge _ _)) by done. cbn.
  rewrite Z.eqb_refl. cbn. by destruct r.
Qed.

(** The two functions in terms of the target; the descriptor 0 of a module
    is the one case where one is left open. *)
Lemma fentry_can_attach_eq h name mod_ r :
  stdin_open h ->
  exists b, fentry_can_attach h name mod_ r = Some (b, r) /\ (b = true <-> attaches h name mod_).
Proof.
  intros Hin. unfold fentry_can_attach, attaches, target.
  destruct (vmlinux h) as [v|] eqn:Hv; [|exists false; split; [done|naive_solver]].
  assert (forall fd b r', exists res, (if find_func b name <=? 0 then Some (false, r')
    else match proto_vlen b (find_func b name) with
         | None => Some (false, r')
         | Some n => fentry_try_attach (prog_load h) (attach h) (find_func b name) fd n r'
         end) = Some (res, r') /\
    (res = true <-> exists n, 0 < find_func b name /\ proto_vlen b (find_func b name) = Some n /\
      0 <= n <= 12 /\ let prog_fd := prog_load h (find_func b name) fd (trial (Z.to_nat n)) in
      0 <= prog_fd /\ 0 <= attach h prog_fd)) as Htry.
  { intros fd b r'. cbn. destruct (Z.leb_spec (find_func b name) 0) as [Hi|Hi].
    - exists false. split; [done|]. split; [done|]. intros (? & ? & _). lia.
    - destruct (proto_vlen b (find_func b name)) as [n|].
      + rewrite try_attach_spec. eexists. split; [done|]. rewrite bool_decide_eq_true. naive_solver.
      + exists false. split; [done|]. naive_solver. }
  destruct mod_ as [m|].
  - rewrite get_module_btf_spec. cbn.
    destruct (module_target m (entries h)) as [[fd b]|] eqn:Ht; cbn.
    + apply module_target_fd in Ht as [Hfd Hex]. rewrite (proj2 (Z.ltb_ge fd 0) Hfd).
      destruct (Htry fd b (loaded (opened fd (loaded r)))) as (res & -> & Hres). cbn.
      assert (0 <? fd = true) as ->.
      { apply Z.ltb_lt. apply Exists_exists in Hex as (be & Hbe & <-).
        unfold stdin_open in Hin. rewrite Forall_forall in Hin. specialize (Hin be Hbe). lia. }
      exists res. split; [|rewrite Hres; naive_solver].
      pose proof (release_module fd b v r Hfd) as Hrel.
      destruct (close fd (loaded (opened fd (loaded r)))) as [r1|]; cbn in *; [|done].
      destruct (btf__free (Some b) r1) as [r2|]; cbn in *; [|done]. by rewrite Hrel.
    + exists false. split; [by free_kernel|naive_solver].
  - cbn. destruct (Htry 0 v (loaded r)) as (res & -> & Hres). cbn.
    exists res. split; [by free_kernel|rewrite Hres; naive_solver].
Qed.

(** The number that the parameter count answers: an error of libbpf, or the
    number of parameters. *)
Definition count_answer (h : host_btf) (name : list Z) (mod_ : option (list Z)) : Z :=
  match vmlinux h, target h mod_ with
  | inr err, _ => err
  | inl _, None => - EINVAL
  | inl _, Some (_, b) =>
      let id := find_func b name in
      if id <=? 0 then if id <? 0 then id else - ENOENT
      else match proto_vlen b id with None => - EINVAL | Some n => n end
  end.

Lemma get_func_param_count_answer h name mod_ r :
  get_func_param_count h name mod_ r = Some (count_answer h name mod_, r).
Proof.
  unfold get_func_param_count, count_answer, target.
  destruct (vmlinux h) as [v|err]; [|done].
  destruct mod_ as [m|].
  - rewrite get_module_btf_spec. cbn.
    destruct (module_target m (entries h)) as [[fd b]|] eqn:Ht; cbn.
    + apply module_target_fd in Ht as [Hfd _].
      rewrite (proj2 (Z.ltb_ge fd 0) Hfd), (proj2 (Z.leb_le 0 fd) Hfd). cbn.
      pose proof (release_module fd b v r Hfd) as Hrel.
      destruct (close fd (loaded (opened fd (loaded r)))) as [r1|]; cbn in *; [|done].
      destruct (btf__free (Some b) r1) as [r2|]; cbn in *; [|done]. by rewrite Hrel.
    + by free_kernel.
  - cbn. by free_kernel.
Qed.

Lemma get_func_param_count_eq h name mod_ r :
  exists n, get_func_param_count h name mod_ r = Some (n, r) /\
    (forall k, parameters h name mod_ = Some k -> n = k).
Proof.
  rewrite get_func_param_count_answer. eexists. split; [done|]. intros k.
  unfold parameters, count_answer, target. destruct (vmlinux h) as [v|err]; [|done].
  destruct (match mod_ with None => _ | Some m => _ end) as [[fd b]|]; cbn; [|done].
  case_decide; [|done]. rewrite (proj2 (Z.leb_gt _ _)) by done. by intros ->.
Qed.

(** C37. The helpers over BTF: they never write outside the array of
    instructions, never close a descriptor or free an object that they do not
    hold, and give back everything they took.  A function is said to attach, in
    the kernel or in a module, exactly when it has between 0 and 12 parameters
    and the kernel loads and attaches, at that function, the program that reads
    them all; the parameter count is then that of its BTF. *)
Theorem fentry_attach_spec h name mod_ r :
  stdin_open h ->
  exists can n,
    fentry_can_attach h name mod_ r = Some (can, r) /\
    get_func_param_count h name mod_ r = Some (n, r) /\
    (can = true <-> attaches h name mod_) /\
    (can = true -> parameters h name mod_ = Some n).
Proof.
  intros Hin. destruct (fentry_can_attach_eq h name mod_ r Hin) as (can & Hcan & Hiff).
  destruct (get_func_param_count_eq h name mod_ r) as (n & Hn & Hpar). exists can, n.
  split_and!; [done..|]. rewrite Hiff. intros (fd & b & k & Ht & Hf & Hk & _).
  assert (parameters h name mod_ = Some k) as Hp.
  { unfold parameters. rewrite Ht. cbn. by rewrite decide_True. }
  by rewrite Hp, (Hpar k Hp).
Qed.

(** ** The theorems at concrete inputs *)

Definition demo_symbols : list core_symbol :=
  [CoreSymbol (bytes "ffffffff81000000") 84 (bytes "vfs_open");
   CoreSymbol (bytes "ffffffff81000010") 116 (bytes "vfs_read")].

Lemma kernel_function_exists_core_witness :
  kernel_function_exists (Some (concat (map core_line demo_symbols) ++ module_lines))
    (bytes "vfs_read") = true.
Proof.
  apply kernel_function_exists_core; [|vm_compute; tauto].
  repeat constructor; vm_compute; congruence.
Defined.

Definition demo_btf : btf := Btf (fun _ => 7) (fun _ => Some 2).

(** A module [cifs] whose object comes third: the first cannot be opened, the
    second is another one. *)
Definition demo_host (fd : Z) : host_btf :=
  HostBtf (inl demo_btf)
    [BtfEntry (-1) 0 [] None; BtfEntry 5 0 (bytes "nfs") None;
     BtfEntry fd 0 (bytes "cifs") (Some demo_btf)]
    (fun _ _ insns => if (length insns =? 4)%nat then 8 else -22) (fun _ => 9).

Lemma fentry_attach_spec_witness :
  exists can n,
    fentry_can_attach (demo_host 6) (bytes "release_mid") (Some (bytes "cifs")) (Res [0; 1; 2] 0) =
      Some (can, Res [0; 1; 2] 0) /\ can = true /\ n = 2 /\
    parameters (demo_host 6) (bytes "release_mid") (Some (bytes "cifs")) = Some n.
Proof.
  destruct (fentry_attach_spec (demo_host 6) (bytes "release_mid") (Some (bytes "cifs"))
    (Res [0; 1; 2] 0)) as (can & n & Hcan & Hn & _ & Hpar); [repeat constructor; done|].
  exists can, n. assert (can = true) as ->.
  { vm_compute in Hcan. by injection Hcan. }
  assert (n = 2) as -> by (vm_compute in Hn; by injection Hn). auto.
Defined.

(** With the standard input closed, the module's descriptor can be 0: it is not
    closed, and the trial is made against the kernel's BTF. *)
Example stdin_closed_leaks :
  fentry_can_attach (demo_host 0) (bytes "release_mid") (Some (bytes "cifs")) (Res [] 0) =
  Some (true, Res [0] 0).
Proof. vm_compute. reflexivity. Qed.
