(* ===== verification/Sysmacros.v ===== *)
(** * Device numbers of user space

    The C library packs a major and a minor number into a [dev_t] of 64 bits:
    the major in bits 8 to 19 and 44 to 63, the minor in bits 0 to 7 and 20 to
    43.  The loaders of iosnoop and ioslower take the device of the mount path
    apart with [major] and [minor] of sys/sysmacros.h; [makedev] packs. *)

From S2P Require Import Prelude.

Definition gnu_dev_major (dev : Z) : Z :=
  dev / 2 ^ 8 mod 2 ^ 12 + dev / 2 ^ 44 mod 2 ^ 20 * 2 ^ 12.
Definition gnu_dev_minor (dev : Z) : Z :=
  dev mod 2 ^ 8 + dev / 2 ^ 20 mod 2 ^ 24 * 2 ^ 8.

Definition makedev (major minor : Z) : Z :=
  minor mod 2 ^ 8 + major mod 2 ^ 12 * 2 ^ 8 + minor / 2 ^ 8 * 2 ^ 20 + major / 2 ^ 12 * 2 ^ 44.

Lemma makedev_split major minor :
  fits_u 32 major -> fits_u 32 minor ->
  gnu_dev_major (makedev major minor) = major /\ gnu_dev_minor (makedev major minor) = minor.
Proof.
  unfold fits_u, gnu_dev_major, gnu_dev_minor, makedev. intros Hma Hmi.
  assert (0 <= major / 2 ^ 12 < 2 ^ 20 /\ 0 <= major mod 2 ^ 12 < 2 ^ 12 /\
    major = major / 2 ^ 12 * 2 ^ 12 + major mod 2 ^ 12) as (Ha & Hb & Hmaj)
    by (Z.to_euclidean_division_equations; lia).
  assert (0 <= minor / 2 ^ 8 < 2 ^ 24 /\ 0 <= minor mod 2 ^ 8 < 2 ^ 8 /\
    minor = minor / 2 ^ 8 * 2 ^ 8 + minor mod 2 ^ 8) as (Hc & Hd & Hmin)
    by (Z.to_euclidean_division_equations; lia).
  revert Ha Hb Hmaj Hc Hd Hmin. generalize (major / 2 ^ 12), (major mod 2 ^ 12), (minor / 2 ^ 8),
    (minor mod 2 ^ 8). intros a b c d Ha Hb -> Hc Hd ->. clear Hma Hmi.
  set (dev := d + b * 2 ^ 8 + c * 2 ^ 20 + a * 2 ^ 44).
  assert (dev / 2 ^ 8 = b + 2 ^ 12 * (c + 2 ^ 24 * a)) as H8
    by (symmetry; apply Z.div_unique_pos with d; subst dev; lia).
  assert (dev / 2 ^ 20 = c + 2 ^ 24 * a) as H20
    by (symmetry; apply Z.div_unique_pos with (d + 2 ^ 8 * b); subst dev; lia).
  assert (dev / 2 ^ 44 = a) as H44
    by (symmetry; apply Z.div_unique_pos with (d + 2 ^ 8 * b + 2 ^ 20 * c); subst dev; lia).
  assert (dev mod 2 ^ 8 = d) as Hm
    by (symmetry; apply Z.mod_unique_pos with (b + 2 ^ 12 * (c + 2 ^ 24 * a)); subst dev; lia).
  rewrite H8, H20, H44, Hm.
  assert ((b + 2 ^ 12 * (c + 2 ^ 24 * a)) mod 2 ^ 12 = b) as ->
    by (symmetry; apply Z.mod_unique_pos with (c + 2 ^ 24 * a); lia).
  assert ((c + 2 ^ 24 * a) mod 2 ^ 24 = c) as ->
    by (symmetry; apply Z.mod_unique_pos with a; lia).
  rewrite (Z.mod_small a) by lia. lia.
Qed.
