(* ===== verification/IosnoopUser.v ===== *)
(** * iosnoop: the event printer of user space

    Models src/user/iosnoop.c from its event codes to [handle_event]: the
    cache of descriptor paths (a linked list, newest first) and the line that
    an event prints.  The local time of a timestamp and the outcome of an
    allocation are arguments. *)

From S2P Require Import Prelude IosnoopFmt CLib.

(** ** Event codes *)

Definition IO_OPEN : Z := 1.
Definition IO_OPENAT : Z := 2.
Definition IO_READ : Z := 3.
Definition IO_WRITE : Z := 4.
Definition IO_CLOSE : Z := 5.
Definition IO_STAT : Z := 6.
Definition IO_LSTAT : Z := 7.
Definition IO_FSTAT : Z := 8.
Definition IO_MKDIR : Z := 9.
Definition IO_MKDIRAT : Z := 10.
Definition IO_RMDIR : Z := 11.
Definition IO_UNLINK : Z := 12.
Definition IO_UNLINKAT : Z := 13.
Definition IO_RENAME : Z := 14.
Definition IO_RENAMEAT : Z := 15.
Definition IO_RENAMEAT2 : Z := 16.
Definition IO_MOUNT : Z := 17.
Definition IO_UMOUNT2 : Z := 18.
Definition IO_CHMOD : Z := 19.
Definition IO_FCHMOD : Z := 20.
Definition IO_CHOWN : Z := 21.
Definition IO_FCHOWN : Z := 22.
Definition IO_TRUNCATE : Z := 23.
Definition IO_FTRUNCATE : Z := 24.
Definition IO_LINK : Z := 25.
Definition IO_LINKAT : Z := 26.
Definition IO_SYMLINK : Z := 27.
Definition IO_SYMLINKAT : Z := 28.
Definition IO_READLINK : Z := 29.
Definition IO_READLINKAT : Z := 30.
Definition IO_PREAD64 : Z := 31.
Definition IO_PWRITE64 : Z := 32.
Definition IO_READV : Z := 33.
Definition IO_WRITEV : Z := 34.
Definition IO_PREADV : Z := 35.
Definition IO_PWRITEV : Z := 36.
Definition IO_URING_ENTER : Z := 37.
Definition IO_URING_SETUP : Z := 38.
Definition IO_URING_REGISTER : Z := 39.
Definition IO_SETUP : Z := 40.
Definition IO_SUBMIT : Z := 41.
Definition IO_GETEVENTS : Z := 42.
Definition IO_CANCEL : Z := 43.
Definition IO_DESTROY : Z := 44.
Definition IO_MMAP : Z := 45.
Definition IO_MMAP2 : Z := 46.
Definition IO_MUNMAP : Z := 47.
Definition IO_CREATE : Z := 48.
Definition IO_FALLOCATE : Z := 49.
Definition IO_GETDENTS : Z := 50.
Definition IO_LOCK_FCNTL : Z := 51.
Definition IO_LOCK_FLOCK : Z := 52.

(** ** Records *)

Record io_event := IoEvent {
  ts : Z; pid : Z; uid : Z; gid : Z; type : Z; ret : Z;
  comm : list Z;   (* char[16] *)
  fname : list Z;  (* char[256] *)
  args : list Z;   (* char[256] *)
}.

Definition sizeof_io_event : Z := 560.

Record fd_path_entry := FdPath { fp_pid : Z; fp_fd : Z; fp_path : list Z }.

(** ** Options *)

(** [opts.duration = strtol(arg, NULL, 10)], an [int], with the clamp. *)
Definition parse_duration (arg : list Z) : Z :=
  let '(v, _, _) := strtol arg 10 in
  let d := s32 v in
  if d <=? 0 then 0 else d.

(** ** The cache of descriptor paths *)

Definition is_fd_based_type (type : Z) : bool :=
  existsb (Z.eqb type)
    [IO_READ; IO_WRITE; IO_CLOSE; IO_FSTAT; IO_FCHMOD; IO_FCHOWN; IO_FTRUNCATE; IO_PREAD64;
     IO_PWRITE64; IO_READV; IO_WRITEV; IO_PREADV; IO_PWRITEV].

Definition parse_fd_from_args (args : list Z) : Z :=
  if negb (has_prefix (bytes "fd=") args) then -1
  else
    let rest := drop 3 args in
    let '(val, end_, _) := strtol rest 10 in
    if bool_decide (end_ = rest) then -1
    else if (val <? 0) || (INT_MAX <? val) then -1
    else val.

Fixpoint fd_path_lookup (l : list fd_path_entry) (pid fd : Z) : option (list Z) :=
  match l with
  | [] => None
  | it :: next =>
      if (fp_pid it =? pid) && (fp_fd it =? fd) then Some (fp_path it)
      else fd_path_lookup next pid fd
  end.

(** The loop of [fd_path_set]: rewrite the entry of the key, if there is one. *)
Fixpoint fd_path_replace (l : list fd_path_entry) (pid fd : Z) (path : list Z)
  : option (list fd_path_entry) :=
  match l with
  | [] => None
  | it :: next =>
      if (fp_pid it =? pid) && (fp_fd it =? fd)
      then Some (FdPath (fp_pid it) (fp_fd it) (snprintf_s 256 path) :: next)
      else cons it <$> fd_path_replace next pid fd path
  end.

Definition fd_path_set (calloc_ok : bool) (l : list fd_path_entry) (pid fd : Z) (path : list Z)
  : list fd_path_entry :=
  if bool_decide (path = []) || (fd <? 0) then l
  else
    match fd_path_replace l pid fd path with
    | Some l => l
    | None => if calloc_ok then FdPath pid fd (snprintf_s 256 path) :: l else l
    end.

Fixpoint fd_path_del (l : list fd_path_entry) (pid fd : Z) : list fd_path_entry :=
  match l with
  | [] => []
  | it :: next =>
      if (fp_pid it =? pid) && (fp_fd it =? fd) then next else it :: fd_path_del next pid fd
  end.

(** ** Printing *)

Definition io_type_str (type : Z) : list Z :=
  if type =? IO_OPEN then bytes "OPEN"
  else if type =? IO_OPENAT then bytes "OPENAT"
  else if type =? IO_READ then bytes "READ"
  else if type =? IO_WRITE then bytes "WRITE"
  else if type =? IO_CLOSE then bytes "CLOSE"
  else if type =? IO_STAT then bytes "STAT"
  else if type =? IO_LSTAT then bytes "LSTAT"
  else if type =? IO_FSTAT then bytes "FSTAT"
  else if type =? IO_MKDIR then bytes "MKDIR"
  else if type =? IO_MKDIRAT then bytes "MKDIRAT"
  else if type =? IO_RMDIR then bytes "RMDIR"
  else if type =? IO_UNLINK then bytes "UNLINK"
  else if type =? IO_UNLINKAT then bytes "UNLINKAT"
  else if type =? IO_RENAME then bytes "RENAME"
  else if type =? IO_RENAMEAT then bytes "RENAMEAT"
  else if type =? IO_RENAMEAT2 then bytes "RENAMEAT2"
  else if type =? IO_MOUNT then bytes "MOUNT"
  else if type =? IO_UMOUNT2 then bytes "UMOUNT2"
  else if type =? IO_CHMOD then bytes "CHMOD"
  else if type =? IO_FCHMOD then bytes "FCHMOD"
  else if type =? IO_CHOWN then bytes "CHOWN"
  else if type =? IO_FCHOWN then bytes "FCHOWN"
  else if type =? IO_TRUNCATE then bytes "TRUNCATE"
  else if type =? IO_FTRUNCATE then bytes "FTRUNCATE"
  else if type =? IO_LINK then bytes "LINK"
  else if type =? IO_LINKAT then bytes "LINKAT"
  else if type =? IO_SYMLINK then bytes "SYMLINK"
  else if type =? IO_SYMLINKAT then bytes "SYMLINKAT"
  else if type =? IO_READLINK then bytes "READLINK"
  else if type =? IO_READLINKAT then bytes "READLINKAT"
  else if type =? IO_PREAD64 then bytes "PREAD64"
  else if type =? IO_PWRITE64 then bytes "PWRITE64"
  else if type =? IO_READV then bytes "READV"
  else if type =? IO_WRITEV then bytes "WRITEV"
  else if type =? IO_PREADV then bytes "PREADV"
  else if type =? IO_PWRITEV then bytes "PWRITEV"
  else if type =? IO_URING_ENTER then bytes "URING_ENTER"
  else if type =? IO_URING_SETUP then bytes "URING_SETUP"
  else if type =? IO_URING_REGISTER then bytes "URING_REGISTER"
  else if type =? IO_SETUP then bytes "IO_SETUP"
  else if type =? IO_SUBMIT then bytes "IO_SUBMIT"
  else if type =? IO_GETEVENTS then bytes "IO_GETEVENTS"
  else if type =? IO_CANCEL then bytes "IO_CANCEL"
  else if type =? IO_DESTROY then bytes "IO_DESTROY"
  else if type =? IO_MMAP then bytes "MMAP"
  else if type =? IO_MMAP2 then bytes "MMAP2"
  else if type =? IO_MUNMAP then bytes "MUNMAP"
  else if type =? IO_CREATE then bytes "CREATE"
  else if type =? IO_FALLOCATE then bytes "FALLOCATE"
  else if type =? IO_GETDENTS then bytes "GETDENTS"
  else if type =? IO_LOCK_FCNTL then bytes "LOCK_FCNTL"
  else if type =? IO_LOCK_FLOCK then bytes "LOCK_FLOCK"
  else bytes "UNKNOWN".

(** [printf("%-8s %-6d %-16s %-12s %6d %-30s %s")] and a newline. *)
Definition format_line (time : list Z) (e : io_event) (args_disp path_disp : list Z) : list Z :=
  pad_right 8 time ++ [32] ++ pad_right 6 (sdec (s32 (pid e))) ++ [32] ++
  pad_right 16 (cstr (comm e)) ++ [32] ++ pad_right 12 (io_type_str (type e)) ++ [32] ++
  pad_left 6 (sdec (ret e)) ++ [32] ++ pad_right 30 args_disp ++ [32] ++ path_disp ++ [10].

(** The cache and the lines printed so far. *)
Record printer := Printer { fd_paths : list fd_path_entry; out : list (list Z) }.

Section Printer.
(** [strftime("%H:%M:%S")] of the local time. *)
Variable hms : Z -> list Z.

Definition handle_event (calloc_ok : bool) (e : io_event) (data_sz : Z) (p : printer)
  : Z * printer :=
  if data_sz <? sizeof_io_event then (1, p)
  else
    let time := hms (ts e / 1000000000) in
    let path_disp := cstr (fname e) in
    let args_disp :=
      match cstr (args e) with
      | [] => snprintf_s 256 (bytes "-")
      | t => snprintf_s 256 t
      end in
    let l :=
      if ((type e =? IO_OPEN) || (type e =? IO_OPENAT)) && (0 <=? ret e)
      then fd_path_set calloc_ok (fd_paths p) (pid e) (ret e) (cstr (fname e))
      else fd_paths p in
    let fd := parse_fd_from_args (cstr (args e)) in
    let '(args_disp, path_disp) :=
      if (0 <=? fd) && is_fd_based_type (type e) then
        (snprintf_s 256 (bytes "fd=" ++ sdec fd),
         match fd_path_lookup l (pid e) fd with Some mapped => mapped | None => path_disp end)
      else (args_disp, path_disp) in
    let line := format_line time e args_disp path_disp in
    let l := if (type e =? IO_CLOSE) && (0 <=? fd) then fd_path_del l (pid e) fd else l in
    (0, Printer l (out p ++ [line])).
End Printer.

(** ** The cache as a map *)

Definition keys (l : list fd_path_entry) : list (Z * Z) := map (fun it => (fp_pid it, fp_fd it)) l.

Lemma key_eqb it pid fd :
  (fp_pid it =? pid) && (fp_fd it =? fd) = bool_decide ((fp_pid it, fp_fd it) = (pid, fd)).
Proof.
  case_bool_decide as H.
  - injection H as -> ->. by rewrite !Z.eqb_refl.
  - apply not_true_iff_false. rewrite andb_true_iff, !Z.eqb_eq. intros [H1 H2]. apply H. congruence.
Qed.

Lemma lookup_not_in l pid fd : ~ In (pid, fd) (keys l) -> fd_path_lookup l pid fd = None.
Proof.
  induction l as [|it l IH]; simpl; [done|]. intros Hn. rewrite key_eqb, bool_decide_eq_false_2 by tauto.
  apply IH. tauto.
Qed.

Lemma replace_keys l pid fd path :
  match fd_path_replace l pid fd path with
  | Some l' => keys l' = keys l /\ In (pid, fd) (keys l)
  | None => ~ In (pid, fd) (keys l)
  end.
Proof.
  induction l as [|it l IH]; simpl; [tauto|]. rewrite key_eqb. case_bool_decide as Hk; [simpl; auto|].
  destruct (fd_path_replace l pid fd path); simpl.
  - destruct IH as [H1 H2]. split; [by f_equal|by right].
  - intros [?|?]; congruence.
Qed.

Lemma replace_lookup l pid fd path l' pid' fd' :
  fd_path_replace l pid fd path = Some l' ->
  fd_path_lookup l' pid' fd' =
  if decide ((pid', fd') = (pid, fd)) then Some (snprintf_s 256 path)
  else fd_path_lookup l pid' fd'.
Proof.
  revert l'. induction l as [|it l IH]; simpl; [done|]. intros l'. rewrite key_eqb.
  case_bool_decide as Hk.
  - intros [= <-]. simpl. rewrite !key_eqb. simpl. rewrite Hk.
    destruct (decide ((pid', fd') = (pid, fd))) as [[= -> ->]|Hne].
    + by rewrite bool_decide_eq_true_2.
    + rewrite !bool_decide_eq_false_2 by congruence. done.
  - destruct (fd_path_replace l pid fd path) as [l1|]; [|done]. intros [= <-]. simpl.
    rewrite !key_eqb, (IH l1) by done.
    destruct (decide ((pid', fd') = (pid, fd))) as [[= -> ->]|Hne]; [|done].
    by rewrite bool_decide_eq_false_2.
Qed.

Lemma del_lookup l pid fd pid' fd' :
  NoDup (keys l) ->
  fd_path_lookup (fd_path_del l pid fd) pid' fd' =
  if decide ((pid', fd') = (pid, fd)) then None else fd_path_lookup l pid' fd'.
Proof.
  induction l as [|it l IH]; simpl; [by case_decide|]. intros [Hn Hd]%list.NoDup_cons.
  rewrite !key_eqb. case_bool_decide as Hk.
  - destruct (decide ((pid', fd') = (pid, fd))) as [[= -> ->]|Hne].
    + injection Hk as <- <-. apply lookup_not_in. by rewrite <- list_elem_of_In.
    + by rewrite bool_decide_eq_false_2 by congruence.
  - simpl. rewrite key_eqb, IH by done.
    destruct (decide ((pid', fd') = (pid, fd))) as [[= -> ->]|Hne]; [|done].
    by rewrite bool_decide_eq_false_2.
Qed.

Lemma del_keys l pid fd : exists l1 l2, keys l = l1 ++ l2 /\ keys (fd_path_del l pid fd) = l1 ++ l2 \/
  keys l = l1 ++ (pid, fd) :: l2 /\ keys (fd_path_del l pid fd) = l1 ++ l2.
Proof.
  induction l as [|it l (l1 & l2 & IH)]; simpl; [by exists [], []; left|].
  rewrite key_eqb. case_bool_decide as Hk.
  - exists [], (keys l). right. by rewrite Hk.
  - exists ((fp_pid it, fp_fd it) :: l1), l2. simpl.
    destruct IH as [[-> ->]|[-> ->]]; auto.
Qed.

Lemma set_nodup ok l pid fd path : NoDup (keys l) -> NoDup (keys (fd_path_set ok l pid fd path)).
Proof.
  intros Hd. unfold fd_path_set. destruct (_ || _); [done|].
  pose proof (replace_keys l pid fd path) as Hk.
  destruct (fd_path_replace l pid fd path) as [l'|]; [by destruct Hk as [-> _]|].
  destruct ok; [|done]. simpl. apply list.NoDup_cons. split; [|done]. by rewrite list_elem_of_In.
Qed.

Lemma del_nodup l pid fd : NoDup (keys l) -> NoDup (keys (fd_path_del l pid fd)).
Proof.
  destruct (del_keys l pid fd) as (l1 & l2 & [[-> ->]|[-> ->]]); [done|].
  intros (H1 & H2 & H3)%list.NoDup_app. apply list.NoDup_app. apply list.NoDup_cons in H3 as [_ H3].
  split_and!; [done| |done]. intros x Hx Hx2. by apply (H2 x Hx), list_elem_of_further.
Qed.

(** C34. The cache is a map: as long as it has one entry per process and
    descriptor, which both updates keep, a lookup gives the last path set for
    its key, cut to 255 bytes, and nothing after a deletion; other keys are
    not touched. *)
Theorem fd_cache_is_map l pid fd path pid' fd' :
  NoDup (keys l) -> path <> [] -> 0 <= fd ->
  NoDup (keys (fd_path_set true l pid fd path)) /\ NoDup (keys (fd_path_del l pid fd)) /\
  fd_path_lookup (fd_path_set true l pid fd path) pid' fd' =
    (if decide ((pid', fd') = (pid, fd)) then Some (snprintf_s 256 path)
     else fd_path_lookup l pid' fd') /\
  fd_path_lookup (fd_path_del l pid fd) pid' fd' =
    (if decide ((pid', fd') = (pid, fd)) then None else fd_path_lookup l pid' fd').
Proof.
  intros Hd Hp Hfd. split_and!; [by apply set_nodup|by apply del_nodup| |by apply del_lookup].
  unfold fd_path_set. rewrite bool_decide_eq_false_2 by done.
  rewrite (proj2 (Z.ltb_ge fd 0)) by done. simpl.
  destruct (fd_path_replace l pid fd path) as [l'|] eqn:Hr; [by apply replace_lookup|].
  cbn [fd_path_lookup]. rewrite key_eqb. cbn [fp_pid fp_fd].
  destruct (decide ((pid', fd') = (pid, fd))) as [[= -> ->]|Hne].
  - by rewrite bool_decide_eq_true_2.
  - by rewrite bool_decide_eq_false_2 by congruence.
Qed.

Lemma fd_cache_is_map_witness :
  fd_path_lookup (fd_path_set true [FdPath 7 3 (bytes "old")] 7 3 (bytes "a.txt")) 7 3 =
  Some (bytes "a.txt").
Proof.
  destruct (fd_cache_is_map [FdPath 7 3 (bytes "old")] 7 3 (bytes "a.txt") 7 3)
    as (_ & _ & H & _); [|done|lia|].
  - apply list.NoDup_cons. split; [apply not_elem_of_nil|apply NoDup_nil_2].
  - rewrite H. reflexivity.
Defined.

(** An event whose arguments name a descriptor prints the path cached for
    it, and a close then drops it. *)
Theorem handle_event_fd hms ok e sz p fd path :
  sizeof_io_event <= sz -> NoDup (keys (fd_paths p)) -> is_fd_based_type (type e) = true ->
  parse_fd_from_args (cstr (args e)) = fd -> 0 <= fd ->
  fd_path_lookup (fd_paths p) (pid e) fd = Some path ->
  handle_event hms ok e sz p =
  (0, Printer (if type e =? IO_CLOSE then fd_path_del (fd_paths p) (pid e) fd else fd_paths p)
     (out p ++ [format_line (hms (ts e / 1000000000)) e
       (snprintf_s 256 (bytes "fd=" ++ sdec fd)) path])).
Proof.
  intros Hsz Hd Ht Hfd H0 Hl. unfold handle_event.
  rewrite (proj2 (Z.ltb_ge _ _)) by done.
  assert ((type e =? IO_OPEN) || (type e =? IO_OPENAT) = false) as ->.
  { apply orb_false_iff. unfold is_fd_based_type in Ht.
    split; apply Z.eqb_neq; intros He; rewrite He in Ht; vm_compute in Ht; done. }
  rewrite Hfd, (proj2 (Z.leb_le 0 fd)), Ht by done. cbn [andb]. rewrite Hl.
  by rewrite andb_true_r.
Qed.

Definition read_event : io_event :=
  IoEvent 3000000000 7 0 0 IO_READ 5 (pad 16 (bytes "cat")) (pad 256 []) (pad 256 (bytes "fd=3")).

Lemma handle_event_fd_witness :
  out (handle_event (fun _ => bytes "00:00:03") true read_event 560
    (Printer [FdPath 7 3 (bytes "a.txt")] [])).2 =
  [bytes "00:00:03 7      cat              READ              5 fd=3                           a.txt"
   ++ [10]].
Proof.
  rewrite (handle_event_fd (fun _ => bytes "00:00:03") true read_event 560
    (Printer [FdPath 7 3 (bytes "a.txt")] []) 3 (bytes "a.txt"));
    [vm_compute; reflexivity|vm_compute; congruence| |vm_compute; reflexivity
    |vm_compute; reflexivity|lia|vm_compute; reflexivity].
  apply list.NoDup_cons. split; [apply not_elem_of_nil|apply NoDup_nil_2].
Defined.
