(* ===== verification/FdCacheHeap.v ===== *)
(** * iosnoop: the cache of descriptor paths as linked memory

    IosnoopUser models the cache of src/user/iosnoop.c as the list of its
    entries.  Here are the same functions on the memory they work on: entries
    at addresses, the pointer [fd_paths], the pointer to a pointer of
    [fd_path_del], [calloc] and [free].  An access through an address that is
    not allocated, and a second [free] of one, are [None].  The theorem: the
    functions never make such an access, do to the list what IosnoopUser says,
    and [fd_path_free_all] leaves nothing allocated. *)

From S2P Require Import Prelude CLib IosnoopUser.

(** An entry in memory; the address 0 is NULL. *)
Record cell := Cell { c_pid : Z; c_fd : Z; c_path : list Z; c_next : Z }.

Abbreviation memory := (gmap Z cell).

(** The static pointer and what calloc has handed out. *)
Record cache := Cache { head : Z; mem : memory }.

Definition empty_cache : cache := Cache 0 ∅.

Definition free (m : memory) (p : Z) : option memory :=
  match m !! p with Some _ => Some (delete p m) | None => None end.

(** Every loop visits each allocated entry at most once and then the NULL. *)
Definition fuel_of (c : cache) : nat := S (size (mem c)).

(** ** The functions *)

Fixpoint lookup_loop (fuel : nat) (m : memory) (it pid fd : Z) : option (option (list Z)) :=
  match fuel with
  | O => None
  | S fuel =>
      if it =? 0 then Some None
      else
        n ← m !! it;
        if (c_pid n =? pid) && (c_fd n =? fd) then Some (Some (c_path n))
        else lookup_loop fuel m (c_next n) pid fd
  end.

Definition fd_path_lookup (c : cache) (pid fd : Z) : option (option (list Z)) :=
  lookup_loop (fuel_of c) (mem c) (head c) pid fd.

(** The loop of [fd_path_set]: the memory after the entry of the key was
    rewritten, or [Some None] when there is no such entry. *)
Fixpoint set_loop (fuel : nat) (m : memory) (it pid fd : Z) (path : list Z)
  : option (option memory) :=
  match fuel with
  | O => None
  | S fuel =>
      if it =? 0 then Some None
      else
        n ← m !! it;
        if (c_pid n =? pid) && (c_fd n =? fd)
        then Some (Some (<[it := Cell (c_pid n) (c_fd n) (snprintf_s 256 path) (c_next n)]> m))
        else set_loop fuel m (c_next n) pid fd path
  end.

(** [entry] is the result of calloc. *)
Definition fd_path_set (entry : Z) (c : cache) (pid fd : Z) (path : list Z) : option cache :=
  if bool_decide (path = []) || (fd <? 0) then Some c
  else
    r ← set_loop (fuel_of c) (mem c) (head c) pid fd path;
    match r with
    | Some m => Some (Cache (head c) m)
    | None =>
        if entry =? 0 then Some c
        else Some (Cache entry (<[entry := Cell pid fd (snprintf_s 256 path) (head c)]> (mem c)))
    end.

(** What [pp] points to: [fd_paths] or the [next] of an entry. *)
Inductive slot := Head | Next (p : Z).

Definition get_slot (c : cache) (pp : slot) : option Z :=
  match pp with Head => Some (head c) | Next p => c_next <$> mem c !! p end.

Definition put_slot (c : cache) (pp : slot) (v : Z) : option cache :=
  match pp with
  | Head => Some (Cache v (mem c))
  | Next p =>
      n ← mem c !! p;
      Some (Cache (head c) (<[p := Cell (c_pid n) (c_fd n) (c_path n) v]> (mem c)))
  end.

Fixpoint del_loop (fuel : nat) (c : cache) (pp : slot) (pid fd : Z) : option cache :=
  match fuel with
  | O => None
  | S fuel =>
      victim ← get_slot c pp;
      if victim =? 0 then Some c
      else
        n ← mem c !! victim;
        if (c_pid n =? pid) && (c_fd n =? fd) then
          c ← put_slot c pp (c_next n);
          m ← free (mem c) victim;
          Some (Cache (head c) m)
        else del_loop fuel c (Next victim) pid fd
  end.

Definition fd_path_del (c : cache) (pid fd : Z) : option cache :=
  del_loop (fuel_of c) c Head pid fd.

Fixpoint free_loop (fuel : nat) (m : memory) (it : Z) : option memory :=
  match fuel with
  | O => None
  | S fuel =>
      if it =? 0 then Some m
      else
        n ← m !! it;
        let next := c_next n in
        m ← free m it;
        free_loop fuel m next
  end.

Definition fd_path_free_all (c : cache) : option cache :=
  m ← free_loop (fuel_of c) (mem c) (head c);
  Some (Cache 0 m).

(** ** What a cache represents *)

Definition cell_of (x : fd_path_entry) (next : Z) : cell :=
  Cell (fp_pid x) (fp_fd x) (fp_path x) next.

(** From [p], the addresses [ps] in turn hold the entries [l]. *)
Fixpoint chain (m : memory) (p : Z) (ps : list Z) (l : list fd_path_entry) : Prop :=
  match ps, l with
  | [], [] => p = 0
  | q :: ps, x :: l =>
      p = q /\ q <> 0 /\ exists next, m !! q = Some (cell_of x next) /\ chain m next ps l
  | _, _ => False
  end.

(** Nothing else is allocated. *)
Definition repr (c : cache) (l : list fd_path_entry) : Prop :=
  exists ps, chain (mem c) (head c) ps l /\ NoDup ps /\ dom (mem c) =@{gset Z} list_to_set ps.

Lemma chain_length m p ps l : chain m p ps l -> length ps = length l.
Proof.
  revert p l. induction ps as [|q ps IH]; intros p [|x l]; cbn; try done.
  intros (_ & _ & next & _ & H). f_equal. by eapply IH.
Qed.

Lemma repr_fuel c ps l :
  chain (mem c) (head c) ps l -> NoDup ps -> dom (mem c) =@{gset Z} list_to_set ps ->
  (length l < fuel_of c)%nat.
Proof.
  intros Hc Hn Hd. unfold fuel_of. rewrite <- size_dom, Hd, size_list_to_set by done.
  rewrite (chain_length _ _ _ _ Hc). lia.
Qed.

(** A chain only depends on its own addresses. *)
Lemma chain_frame m m' p ps l :
  (forall q, In q ps -> m' !! q = m !! q) -> chain m p ps l -> chain m' p ps l.
Proof.
  revert p l. induction ps as [|q ps IH]; intros p [|x l] Hm; cbn; try done.
  intros (-> & Hq & next & Hl & Hc). split_and!; [done..|]. exists next.
  rewrite Hm by (by left). split; [done|]. apply IH; [|done]. intros r Hr. apply Hm. by right.
Qed.

Lemma chain_insert m p ps l q n : ~ In q ps -> chain m p ps l -> chain (<[q := n]> m) p ps l.
Proof. intros Hq. apply chain_frame. intros r Hr. by rewrite lookup_insert_ne by congruence. Qed.

Lemma chain_delete m p ps l q : ~ In q ps -> chain m p ps l -> chain (delete q m) p ps l.
Proof. intros Hq. apply chain_frame. intros r Hr. by rewrite lookup_delete_ne by congruence. Qed.

Lemma chain_bound m p ps l q : chain m p ps l -> In q ps -> is_Some (m !! q).
Proof.
  revert p l. induction ps as [|r ps IH]; intros p [|x l]; cbn; try done.
  intros (_ & _ & next & Hl & Hc) [<-|Hq]; [eauto|by eapply IH].
Qed.

(** ** The loops on a chain *)

Lemma lookup_loop_chain fuel m p ps l pid fd :
  chain m p ps l -> (length l < fuel)%nat ->
  lookup_loop fuel m p pid fd = Some (IosnoopUser.fd_path_lookup l pid fd).
Proof.
  revert p ps l. induction fuel as [|fuel IH]; intros p [|q ps] [|x l] Hc Hf; cbn in *; try lia;
    try done.
  - by rewrite Hc.
  - destruct Hc as (-> & Hq & next & Hl & Hc). rewrite (proj2 (Z.eqb_neq q 0) Hq), Hl. cbn.
    destruct (_ && _); [done|]. apply (IH next ps l Hc). lia.
Qed.

Lemma set_loop_chain fuel m p ps l pid fd path :
  chain m p ps l -> NoDup ps -> (length l < fuel)%nat ->
  exists r, set_loop fuel m p pid fd path = Some r /\
    match r, fd_path_replace l pid fd path with
    | Some m', Some l' => chain m' p ps l' /\ dom m' =@{gset Z} dom m /\
        forall q, ~ In q ps -> m' !! q = m !! q
    | None, None => True
    | _, _ => False
    end.
Proof.
  revert p ps l. induction fuel as [|fuel IH]; intros p [|q ps] [|x l] Hc Hn Hf; cbn in *; try lia;
    try done.
  - rewrite Hc. by exists None.
  - destruct Hc as (-> & Hq & next & Hl & Hc). apply list.NoDup_cons in Hn as [Hnq Hn].
    rewrite list_elem_of_In in Hnq.
    rewrite (proj2 (Z.eqb_neq q 0) Hq), Hl. cbn. destruct (_ && _).
    + eexists. split; [done|]. cbn. split_and!.
      * done.
      * done.
      * exists next. rewrite lookup_insert_eq. split; [done|]. by apply chain_insert.
      * rewrite dom_insert_L. apply elem_of_dom_2 in Hl. set_solver.
      * intros r Hr. rewrite lookup_insert_ne; [done|]. intros ->. tauto.
    + destruct (IH next ps l Hc Hn) as (r & -> & Hr); [lia|]. exists r. split; [done|].
      destruct r as [m'|], (fd_path_replace l pid fd path) as [l'|]; cbn; try done.
      destruct Hr as (Hc' & Hd & Hm). split_and!; [done|done| |done|].
      * exists next. by rewrite Hm.
      * intros r Hr. apply Hm. tauto.
Qed.

#[export] Instance slot_eq_dec : EqDecision slot.
Proof. solve_decision. Defined.

Definition relink (v : Z) (n : cell) : cell := Cell (c_pid n) (c_fd n) (c_path n) v.

(** [c'] differs from [c] at the addresses [ps] and in the slot [pp], which
    now holds [v]. *)
Definition framed (ps : list Z) (pp : slot) (v : Z) (c c' : cache) : Prop :=
  get_slot c' pp = Some v /\ (pp <> Head -> head c' = head c) /\
  forall q, ~ In q ps ->
    mem c' !! q = if decide (pp = Next q) then relink v <$> mem c !! q else mem c !! q.

(** Unlinking and freeing the entry that a slot points to. *)
Lemma unlink_framed c pp q ps n :
  get_slot c pp = Some q -> (forall r, pp = Next r -> ~ In r (q :: ps)) -> mem c !! q = Some n ->
  exists c', (c1 ← put_slot c pp (c_next n); m ← free (mem c1) q; Some (Cache (head c1) m)) = Some c'
    /\ framed (q :: ps) pp (c_next n) c c' /\ mem c' !! q = None /\
    (forall r, In r ps -> r <> q -> mem c' !! r = mem c !! r).
Proof.
  intros Hs Hpp Hq. unfold framed. destruct pp as [|r]; cbn in *.
  - unfold free. rewrite Hq. eexists. split; [done|]. cbn. split_and!; try done.
    + intros r Hr. rewrite lookup_delete_ne by (cbn in Hr; tauto). done.
    + apply lookup_delete_eq.
    + intros r _ Hr. by rewrite lookup_delete_ne by congruence.
  - pose proof (Hpp r eq_refl) as Hr. cbn in Hr.
    assert (r <> q) as Hne by (intros ->; tauto).
    destruct (mem c !! r) as [k|] eqn:Hk; [|done]. cbn.
    unfold free. rewrite lookup_insert_ne, Hq by done. eexists. split; [done|]. cbn. split_and!; try done.
    + by rewrite lookup_delete_ne, lookup_insert_eq by done.
    + intros s Hs'. cbn in Hs'. rewrite lookup_delete_ne by tauto. case_decide as Hd.
      * injection Hd as <-. by rewrite lookup_insert_eq, Hk.
      * rewrite lookup_insert_ne; [done|congruence].
    + apply lookup_delete_eq.
    + intros s Hs' Hsq. rewrite lookup_delete_ne by congruence.
      rewrite lookup_insert_ne; [done|]. intros ->. tauto.
Qed.

Lemma del_loop_chain fuel c pp p ps l pid fd :
  get_slot c pp = Some p -> chain (mem c) p ps l -> NoDup ps ->
  (forall r, pp = Next r -> ~ In r ps) -> (length l < fuel)%nat ->
  exists c' p' ps', del_loop fuel c pp pid fd = Some c' /\
    chain (mem c') p' ps' (IosnoopUser.fd_path_del l pid fd) /\ NoDup ps' /\
    framed ps pp p' c c' /\ (forall q, In q ps' -> In q ps) /\
    (forall q, In q ps -> ~ In q ps' -> mem c' !! q = None).
Proof.
  revert c pp p ps l. induction fuel as [|fuel IH]; intros c pp p [|q ps] [|x l] Hs Hc Hn Hpp Hf;
    cbn [length chain] in *; try lia; try done; cbn [del_loop IosnoopUser.fd_path_del]; rewrite Hs; cbn.
  - rewrite Hc. exists c, 0, []. unfold framed. subst p. split_and!; try done.
    intros q _. case_decide as Hd; [|done]. subst pp. cbn in Hs.
    destruct (mem c !! q) as [[]|]; cbn in *; [|done]. unfold relink. cbn. by simplify_eq.
  - destruct Hc as (-> & Hq & next & Hl & Hc). apply list.NoDup_cons in Hn as [Hnq Hn].
    rewrite list_elem_of_In in Hnq. rewrite (proj2 (Z.eqb_neq q 0) Hq), Hl. cbn.
    destruct (_ && _).
    + destruct (unlink_framed c pp q ps (cell_of x next) Hs Hpp Hl) as (c' & Hu & Hfr & Hz & Hm).
      exists c', next, ps. split_and!; try done.
      * refine (chain_frame _ _ _ _ _ _ Hc). intros r Hr. apply Hm; [done|congruence].
      * intros r Hr. by right.
      * by intros r [<-|Hr] Hr'.
    + destruct (IH c (Next q) next ps l) as (c' & p' & ps' & -> & Hc' & Hn' & Hfr & Hsub & Hfree).
      * cbn. by rewrite Hl.
      * done.
      * done.
      * by intros r [= <-].
      * lia.
      * destruct Hfr as (Hs' & Hh & Hm). exists c', q, (q :: ps').
        assert (mem c' !! q = Some (cell_of x p')) as Hq'.
        { rewrite Hm by done. rewrite decide_True by done. rewrite Hl. done. }
        split_and!; try done.
        -- cbn. split_and!; [done..|]. by exists p'.
        -- apply list.NoDup_cons. rewrite list_elem_of_In. split; [|done]. intros H. by apply Hnq, Hsub.
        -- unfold framed. specialize (Hh ltac:(done)).
           assert (forall r, ~ In r (q :: ps) -> mem c' !! r = mem c !! r) as Hout.
           { intros r Hr. rewrite Hm by (intros ?; apply Hr; by right).
             rewrite decide_False; [done|]. intros [= ->]. apply Hr. by left. }
           split_and!.
           ++ destruct pp as [|r]; cbn in *; [by rewrite Hh|]. by rewrite Hout by by apply Hpp.
           ++ done.
           ++ intros r Hr. rewrite Hout by done. case_decide as Hd; [|done]. subst pp. cbn in Hs.
              destruct (mem c !! r) as [[]|]; cbn in *; [|done]. unfold relink. cbn. by simplify_eq.
        -- intros r [<-|Hr]; [by left|right; by apply Hsub].
        -- intros r [<-|Hr] Hr'; [exfalso; apply Hr'; by left|]. apply Hfree; [done|].
           intros ?; apply Hr'; by right.
Qed.

Lemma free_loop_chain fuel m p ps l :
  chain m p ps l -> NoDup ps -> (length l < fuel)%nat ->
  exists m', free_loop fuel m p = Some m' /\
    forall r, m' !! r = if decide (r ∈ ps) then None else m !! r.
Proof.
  revert m p ps l. induction fuel as [|fuel IH]; intros m p [|q ps] [|x l] Hc Hn Hf;
    cbn [length chain] in *; try lia; try done; cbn [free_loop].
  - rewrite Hc. exists m. split; [done|]. intros r. by rewrite decide_False by apply not_elem_of_nil.
  - destruct Hc as (-> & Hq & next & Hl & Hc). apply list.NoDup_cons in Hn as [Hnq Hn].
    rewrite (proj2 (Z.eqb_neq q 0) Hq), Hl. cbn. unfold free. rewrite Hl. cbn.
    destruct (IH (delete q m) next ps l) as (m' & Hm' & Hm).
    + apply chain_delete; [by rewrite <- list_elem_of_In|done].
    + done.
    + lia.
    + exists m'. split; [done|]. intros r. rewrite Hm. destruct (decide (r = q)) as [->|Hne].
      * rewrite (decide_True (P := q ∈ q :: ps)) by apply list_elem_of_here.
        case_decide; [done|apply lookup_delete_eq].
      * rewrite lookup_delete_ne by congruence.
        destruct (decide (r ∈ ps)) as [Hr|Hr].
        -- by rewrite decide_True by by apply list_elem_of_further.
        -- rewrite decide_False; [done|]. by intros [?|?]%elem_of_cons.
Qed.

(** ** The functions on what a cache represents *)

Lemma repr_empty : repr empty_cache [].
Proof. exists []. split_and!; [done|apply NoDup_nil_2|]. cbn. by rewrite dom_empty_L. Qed.

Lemma lookup_repr c l pid fd :
  repr c l -> fd_path_lookup c pid fd = Some (IosnoopUser.fd_path_lookup l pid fd).
Proof.
  intros (ps & Hc & Hn & Hd). eapply lookup_loop_chain; [done|]. by eapply repr_fuel.
Qed.

(** calloc fails, or returns an address that is not in use. *)
Definition calloc_ok (c : cache) (entry : Z) : Prop := entry = 0 \/ mem c !! entry = None.

Lemma set_repr c l entry pid fd path :
  repr c l -> calloc_ok c entry ->
  exists c', fd_path_set entry c pid fd path = Some c' /\
    repr c' (IosnoopUser.fd_path_set (negb (entry =? 0)) l pid fd path).
Proof.
  intros (ps & Hc & Hn & Hd) He. unfold fd_path_set, IosnoopUser.fd_path_set.
  destruct (_ || _); [exists c; split; [done|by exists ps]|].
  pose proof (repr_fuel c ps l Hc Hn Hd) as Hf.
  destruct (set_loop_chain _ _ _ _ _ pid fd path Hc Hn Hf) as (r & -> & Hr). cbn.
  destruct r as [m'|], (fd_path_replace l pid fd path) as [l'|]; try done.
  - destruct Hr as (Hc' & Hdom & _). eexists. split; [done|]. exists ps. cbn.
    split_and!; [done|done|]. by rewrite Hdom.
  - destruct (Z.eqb_spec entry 0) as [->|Hne]; cbn; [exists c; split; [done|by exists ps]|].
    destruct He as [?|He]; [done|]. eexists. split; [done|]. exists (entry :: ps). cbn [mem head].
    assert (~ In entry ps) as Hin by (intros Hin; destruct (chain_bound _ _ _ _ _ Hc Hin); congruence).
    split_and!.
    + cbn. split_and!; [done|done|]. exists (head c). rewrite lookup_insert_eq.
      split; [done|]. by apply chain_insert.
    + apply list.NoDup_cons. by rewrite list_elem_of_In.
    + rewrite dom_insert_L, Hd. done.
Qed.

Lemma del_repr c l pid fd :
  repr c l ->
  exists c', fd_path_del c pid fd = Some c' /\ repr c' (IosnoopUser.fd_path_del l pid fd).
Proof.
  intros (ps & Hc & Hn & Hd). pose proof (repr_fuel c ps l Hc Hn Hd) as Hf.
  destruct (del_loop_chain _ c Head (head c) ps l pid fd eq_refl Hc Hn ltac:(done) Hf)
    as (c' & p' & ps' & Hdel & Hc' & Hn' & (Hs & _ & Hm) & Hsub & Hfree).
  exists c'. split; [done|]. injection Hs as Hs. exists ps'. rewrite Hs. split_and!; [done..|].
  apply set_eq. intros q. rewrite elem_of_dom, elem_of_list_to_set, list_elem_of_In. split.
  - intros Hq. destruct (in_dec Z.eq_dec q ps') as [|Hq']; [done|].
    destruct (in_dec Z.eq_dec q ps) as [Hin|Hin].
    + rewrite Hfree in Hq by done. by destruct Hq.
    + rewrite Hm, decide_False in Hq by done. apply elem_of_dom in Hq.
      rewrite Hd, elem_of_list_to_set, list_elem_of_In in Hq. done.
  - by eapply chain_bound.
Qed.

Lemma free_all_repr c l : repr c l -> fd_path_free_all c = Some empty_cache.
Proof.
  intros (ps & Hc & Hn & Hd). pose proof (repr_fuel c ps l Hc Hn Hd) as Hf.
  unfold fd_path_free_all. destruct (free_loop_chain _ _ _ _ _ Hc Hn Hf) as (m' & -> & Hm). cbn.
  unfold empty_cache. do 2 f_equal. apply map_empty. intros r. rewrite Hm. case_decide as Hr; [done|].
  apply not_elem_of_dom. by rewrite Hd, elem_of_list_to_set.
Qed.

(** ** Runs of the printer *)

(** The updates that [handle_event] makes, with the results of calloc. *)
Inductive update := Set_ (entry pid fd : Z) (path : list Z) | Del (pid fd : Z).

Definition apply_update (u : update) (c : cache) : option cache :=
  match u with
  | Set_ entry pid fd path => fd_path_set entry c pid fd path
  | Del pid fd => fd_path_del c pid fd
  end.

Definition list_update (l : list fd_path_entry) (u : update) : list fd_path_entry :=
  match u with
  | Set_ entry pid fd path => IosnoopUser.fd_path_set (negb (entry =? 0)) l pid fd path
  | Del pid fd => IosnoopUser.fd_path_del l pid fd
  end.

(** A run from [c]: every result of calloc is possible when it is returned. *)
Inductive runs : cache -> list update -> option cache -> Prop :=
| runs_done c : runs c [] (Some c)
| runs_fault c u us :
    match u with Set_ entry _ _ _ => calloc_ok c entry | Del _ _ => True end ->
    apply_update u c = None -> runs c (u :: us) None
| runs_step c u us c' r :
    match u with Set_ entry _ _ _ => calloc_ok c entry | Del _ _ => True end ->
    apply_update u c = Some c' -> runs c' us r -> runs c (u :: us) r.

Lemma update_repr c l u :
  repr c l -> match u with Set_ entry _ _ _ => calloc_ok c entry | Del _ _ => True end ->
  exists c', apply_update u c = Some c' /\ repr c' (list_update l u).
Proof. destruct u; intros; [by apply set_repr|by apply del_repr]. Qed.

Lemma runs_repr c us r l :
  runs c us r -> repr c l -> exists c', r = Some c' /\ repr c' (fold_left list_update us l).
Proof.
  intros Hrun. revert l. induction Hrun as [c|c u us Hu Ha|c u us c' r Hu Ha Hrun IH]; intros l Hl.
  - by exists c.
  - destruct (update_repr c l u Hl Hu) as (? & ? & _). congruence.
  - destruct (update_repr c l u Hl Hu) as (c2 & ? & Hl'). simplify_eq. by apply IH.
Qed.

(** C35. The linked list of descriptor paths, whatever addresses calloc returns
    and whenever it fails: no run of its updates reads, writes or frees memory
    that is not allocated; after it a lookup finds what it finds in the list
    of entries, and freeing the list at the end frees every entry once and
    leaves none. *)
Theorem fd_cache_memory us r :
  runs empty_cache us r ->
  exists c, r = Some c /\
    (forall pid fd,
       fd_path_lookup c pid fd =
       Some (IosnoopUser.fd_path_lookup (fold_left list_update us []) pid fd)) /\
    fd_path_free_all c = Some empty_cache.
Proof.
  intros Hrun. destruct (runs_repr _ _ _ _ Hrun repr_empty) as (c & -> & Hc). exists c.
  split_and!; [done|intros; by apply lookup_repr|by eapply free_all_repr].
Qed.

(** Two entries, the older of which is unlinked; its address is then reused. *)
Definition demo_updates : list update :=
  [Set_ 4096 7 3 (bytes "a.txt"); Set_ 8192 7 4 (bytes "b.txt"); Del 7 3;
   Set_ 4096 8 3 (bytes "c.txt"); Set_ 0 9 3 (bytes "d.txt")].

Lemma fd_cache_memory_witness :
  exists c, runs empty_cache demo_updates (Some c) /\
    fd_path_lookup c 7 3 = Some None /\ fd_path_lookup c 8 3 = Some (Some (bytes "c.txt")) /\
    fd_path_free_all c = Some empty_cache.
Proof.
  assert (exists c, runs empty_cache demo_updates (Some c)) as [c Hrun].
  { eexists. unfold demo_updates.
    do 5 (eapply runs_step;
      [first [exact I|left; reflexivity|right; vm_compute; reflexivity]
      |vm_compute; reflexivity|]). apply runs_done. }
  exists c. destruct (fd_cache_memory _ _ Hrun) as (c' & [= <-] & Hl & Hfree).
  rewrite !Hl. split_and!; [done|vm_compute; reflexivity|vm_compute; reflexivity|done].
Defined.
