(* ===== verification/IosnoopEnd.v ===== *)
(** * iosnoop from the kernel to the printed line

    The kernel program and the printer of user space together.  No probe
    writes arguments that start with "fd=", so the printer never takes a path
    from its cache of descriptors: the line of every event shows the name the
    kernel recorded. *)

From S2P Require Import Prelude Bpf BpfModel Hooks IosnoopFmt CLib IosnoopUser.
From S2P Require Import IosnoopBpf IosnoopProbes IosnoopSpec IosnoopTrace IosnoopDemo.

(** The record as user space sees it; the padding is not read. *)
Definition of_kernel (ev : iosnoop_event) : io_event :=
  IoEvent (ev_ts ev) (ev_pid ev) (ev_uid ev) (ev_gid ev) (ev_type ev) (ev_ret ev)
    (ev_comm ev) (ev_fname ev) (ev_args ev).

Definition fd_prefix : list Z := bytes "fd=".

Lemma has_prefix_take p n s : has_prefix p (take n s) = true -> has_prefix p s = true.
Proof.
  rewrite !has_prefix_spec. intros [t Ht]. exists (t ++ drop n s).
  by rewrite app_assoc, <- Ht, take_drop.
Qed.

Lemma describe_no_fd m vma id c d :
  describe m vma id c = Some d -> has_prefix fd_prefix (d_args d) = false.
Proof. destruct c; cbn [describe]; intros Hd; repeat case_match; simplify_eq; reflexivity. Qed.

Lemma parse_fd_none s : has_prefix fd_prefix s = false -> parse_fd_from_args s = -1.
Proof. unfold parse_fd_from_args, fd_prefix. by intros ->. Qed.

Section End2End.
Context {RT : BpfRuntime} {RL : BpfRuntimeLaws RT}.

Definition op_no_fd (op : op_ctx) : Prop :=
  has_prefix fd_prefix (cstr (op_args op)) = false /\ nul_terminated (op_args op).

Definition no_fd (s : st) : Prop :=
  (forall k op, bpf_map_lookup_elem (op_state s) k = Some op -> op_no_fd op) /\
  Forall (fun ev => has_prefix fd_prefix (cstr (ev_args ev)) = false) (events s).

Lemma op_of_no_fd m vma id c d :
  kmem_ok m -> call_ok c -> describe m vma id c = Some d -> op_no_fd (op_of d).
Proof.
  intros Hm Hc Hd. destruct (describe_ok _ _ _ _ _ Hm Hc Hd) as (Hn & Hl & Ha).
  destruct (op_of_texts d Hn Hl Ha) as (_ & _ & _ & Ht). split.
  - rewrite Ht. apply not_true_iff_false. intros Hp%has_prefix_take.
    by rewrite (describe_no_fd _ _ _ _ _ Hd) in Hp.
  - cbn [op_of op_args]. apply nul_terminated_pad. rewrite length_take. lia.
Qed.

Lemma no_fd_step s l : no_fd s -> label_ok l -> no_fd (spec_step s l).
Proof.
  intros [Hops Hev] Hl. destruct l as [e c|e c ret], Hl as [He Hc]; cbn [spec_step]; split.
  - intros k op Hk. apply spec_entry_lookup in Hk as [Hk|(d & Hd & _ & -> & _)];
      [by eapply Hops|]. apply (op_of_no_fd _ _ _ _ _ (mem_ok e He) Hc Hd).
  - by rewrite spec_entry_events.
  - intros k op Hk. rewrite spec_exit_lookup in Hk. case_decide; [done|by eapply Hops].
  - rewrite spec_exit_events. apply Forall_app. split; [done|].
    destruct (bpf_map_lookup_elem (op_state s) _) as [op|] eqn:Hk; [|constructor].
    destruct (reserve e 0) as [slot|]; [|constructor]. apply Forall_singleton.
    cbn [event_of ev_args]. destruct (Hops _ _ Hk) as [Hp Hn]. unfold copy_into_256.
    by rewrite cstr_app_terminated.
Qed.

Lemma no_fd_reachable b cfg s : reachable b cfg s -> no_fd s.
Proof.
  induction 1 as [|s l s' Hs IH Hl Hst].
  - split; [intros k op; cbn; by rewrite lookup_create|constructor].
  - rewrite step_refines in Hst by done. injection Hst as <-. by apply no_fd_step.
Qed.

(** C31. End to end: for every event that the kernel program can emit, in any
    execution, the printer writes one line with the name that the kernel
    recorded, and its arguments or a dash; the cache of descriptor paths is
    never consulted, and no entry of it is ever dropped. *)
Theorem printed_line hms ok b cfg s ev p :
  reachable b cfg s -> In ev (events s) ->
  let e := of_kernel ev in
  let args_disp := match cstr (ev_args ev) with [] => bytes "-" | t => snprintf_s 256 t end in
  exists l,
    handle_event hms ok e sizeof_io_event p =
      (0, Printer l (out p ++ [format_line (hms (ev_ts ev / 1000000000)) e args_disp
                                 (cstr (ev_fname ev))])) /\
    (length (fd_paths p) <= length l)%nat.
Proof.
  intros Hs Hin e args_disp.
  assert (parse_fd_from_args (cstr (args e)) = -1) as Hfd.
  { apply parse_fd_none. apply no_fd_reachable in Hs as [_ Hev].
    by apply (proj1 (List.Forall_forall _ _) Hev). }
  unfold handle_event. rewrite Hfd. cbn [andb Z.leb Z.compare].
  rewrite andb_false_r. eexists. split; [reflexivity|].
  destruct (_ && _); [|done]. unfold fd_path_set. destruct (_ || _); [done|].
  pose proof (replace_keys (fd_paths p) (pid e) (ret e) (cstr (fname e))) as Hk.
  destruct (fd_path_replace _ _ _ _) as [l'|].
  - destruct Hk as [Hk _]. apply (f_equal length) in Hk. unfold keys in Hk.
    rewrite !length_map in Hk. lia.
  - destruct ok; simpl; lia.
Qed.
End End2End.

Lemma hd_In {A} (x : A) l : l <> [] -> In (hd x l) l.
Proof. destruct l; [done|by left]. Qed.

Definition demo_s : st := spec_exec demo_run (boot demo_cfg).

Lemma printed_line_witness :
  exists l, (handle_event (fun _ => bytes "00:00:00") true (of_kernel (hd slot0 (events demo_s)))
      sizeof_io_event (Printer [] [])).2 =
    Printer l [bytes "00:00:00 8      demo             READ              5 count=5 pos=-1                 a.txt"
               ++ [10]].
Proof.
  assert (Forall label_ok demo_run) as Hok by labels.
  assert (reachable true demo_cfg demo_s) as Hr.
  { apply (reachable_exec true demo_cfg (boot demo_cfg) demo_run); [constructor|done|].
    by apply exec_spec. }
  destruct (printed_line (fun _ => bytes "00:00:00") true true demo_cfg demo_s
    (hd slot0 (events demo_s)) (Printer [] []) Hr) as (l & H & _).
  { apply hd_In. vm_compute. congruence. }
  exists l. rewrite H. cbn [snd]. vm_compute. reflexivity.
Defined.
