(* ===== verification/HookSelect.v ===== *)
(** * Choosing the probes of iosnoop and ioslower

    Models [vfs_fentry_family_supported] and [select_vfs_hook_family] of
    src/user/iosnoop.c and src/user/ioslower.c, on the lists of programs that
    the two kernel objects define, in their order.  What the helpers of
    trace_helpers.c find out about the running kernel is an argument.  The
    theorem: whatever the kernel, every hooked function that it has gets
    exactly one program at its entry, from one family. *)

From S2P Require Import Prelude CLib.

Local Open Scope string_scope.

(** A program of a BPF object, by its name and its section. *)
Record program := Program_ { name : string; section : string }.

(** What the helpers report of the running kernel, by function name. *)
Record kernel := Kernel {
  fentry_can_attach : string -> bool;
  get_func_param_count : string -> Z;
  kernel_function_exists : string -> bool;
}.

Record vfs_hook_spec := HookSpec { hook_name : string; parameter_count : Z }.

Definition vfs_hooks : list vfs_hook_spec :=
  [HookSpec "vfs_open" 2; HookSpec "vfs_read" 4; HookSpec "vfs_write" 4;
   HookSpec "vfs_create" 5; HookSpec "vfs_mkdir" 4; HookSpec "vfs_rmdir" 3;
   HookSpec "vfs_symlink" 4; HookSpec "vfs_rename" 1; HookSpec "vfs_getattr" 4;
   HookSpec "vfs_truncate" 2; HookSpec "vfs_fchmod" 2; HookSpec "vfs_readlink" 3;
   HookSpec "vfs_readv" 5; HookSpec "vfs_writev" 5; HookSpec "iterate_dir" 2;
   HookSpec "vfs_lock_file" 4].

(** The loop returns false at the first hook that fails. *)
Fixpoint family_loop (k : kernel) (hs : list vfs_hook_spec) : bool :=
  match hs with
  | [] => true
  | h :: hs =>
      if negb (fentry_can_attach k (hook_name h)) ||
         negb (get_func_param_count k (hook_name h) =? parameter_count h)%Z
      then false else family_loop k hs
  end.
Definition vfs_fentry_family_supported (k : kernel) : bool := family_loop k vfs_hooks.

(** String tests on program names and sections. *)
Definition starts (s p : string) : bool := has_prefix (bytes p) (bytes s).
Definition contains (s p : string) : bool := strstr (bytes s) (bytes p).

(** [strchr(section, '/') + 1], as a string. *)
Fixpoint after_slash (s : string) : option string :=
  match s with
  | EmptyString => None
  | String a t => if Ascii.eqb a (Ascii.ascii_of_nat 47) then Some t else after_slash t
  end.

Definition syscall_program (p : program) : bool :=
  starts (section p) "tracepoint/syscalls/" || starts (section p) "kprobe/__x64_sys_" ||
  starts (section p) "kretprobe/__x64_sys_".
Definition fentry_program (p : program) : bool :=
  starts (section p) "fentry/" || starts (section p) "fexit/".
Definition fallback_program (p : program) : bool := contains (name p) "_fallback".
Definition legacy_program (p : program) : bool := contains (name p) "_legacy_fallback".

(** The branch for fallback programs. *)
Definition fallback_enable (k : kernel) (use_fentry legacy_vfs_create legacy_vfs_rename : bool)
    (p : program) : bool :=
  let enable := negb use_fentry in
  let enable :=
    match after_slash (section p) with
    | Some target => if negb (kernel_function_exists k target) then false else enable
    | None => enable
    end in
  if contains (name p) "vfs_rename_legacy_kprobe_fallback" then enable && legacy_vfs_rename
  else if contains (name p) "vfs_rename_kprobe_fallback" then enable && negb legacy_vfs_rename
  else if contains (name p) "vfs_create_kprobe_fallback" then enable && negb legacy_vfs_create
  else if legacy_program p then enable && legacy_vfs_create
  else enable.

(** Whether a program is loaded and attached after [select_vfs_hook_family]:
    the two flags are set together, and stay set for the other programs. *)
Definition enabled_iosnoop (k : kernel) (p : program) : bool :=
  let use_fentry := vfs_fentry_family_supported k in
  let legacy_vfs_create := (get_func_param_count k "vfs_create" =? 4)%Z in
  let legacy_vfs_rename := (get_func_param_count k "vfs_rename" =? 6)%Z in
  if syscall_program p then false
  else if fentry_program p then use_fentry
  else if fallback_program p then
    fallback_enable k use_fentry legacy_vfs_create legacy_vfs_rename p
  else true.

Definition enabled_ioslower (k : kernel) (p : program) : bool :=
  let use_fentry := vfs_fentry_family_supported k in
  let legacy_vfs_create := (get_func_param_count k "vfs_create" =? 4)%Z in
  let legacy_vfs_rename := (get_func_param_count k "vfs_rename" =? 6)%Z in
  if fentry_program p then use_fentry
  else if fallback_program p then
    fallback_enable k use_fentry legacy_vfs_create legacy_vfs_rename p
  else true.

Definition select_vfs_hook_family (k : kernel) (enabled : kernel -> program -> bool)
    (ps : list program) : list program := List.filter (enabled k) ps.

(** ** The programs of the two objects *)

Definition iosnoop_programs : list program :=
  [Program_ "trace_sys_open_entry" "kprobe/__x64_sys_open";
   Program_ "trace_sys_open_exit" "kretprobe/__x64_sys_open";
   Program_ "trace_sys_openat_entry" "kprobe/__x64_sys_openat";
   Program_ "trace_sys_openat_exit" "kretprobe/__x64_sys_openat";
   Program_ "trace_sys_read_entry" "kprobe/__x64_sys_read";
   Program_ "trace_sys_read_exit" "kretprobe/__x64_sys_read";
   Program_ "trace_sys_write_entry" "kprobe/__x64_sys_write";
   Program_ "trace_sys_write_exit" "kretprobe/__x64_sys_write";
   Program_ "trace_sys_mkdir_entry" "kprobe/__x64_sys_mkdir";
   Program_ "trace_sys_mkdir_exit" "kretprobe/__x64_sys_mkdir";
   Program_ "trace_sys_enter_mkdir" "tracepoint/syscalls/sys_enter_mkdir";
   Program_ "trace_sys_exit_mkdir" "tracepoint/syscalls/sys_exit_mkdir";
   Program_ "trace_sys_unlink_entry" "kprobe/__x64_sys_unlink";
   Program_ "trace_sys_unlink_exit" "kretprobe/__x64_sys_unlink";
   Program_ "trace_sys_enter_unlink" "tracepoint/syscalls/sys_enter_unlink";
   Program_ "trace_sys_exit_unlink" "tracepoint/syscalls/sys_exit_unlink";
   Program_ "trace_sys_rename_entry" "kprobe/__x64_sys_rename";
   Program_ "trace_sys_rename_exit" "kretprobe/__x64_sys_rename";
   Program_ "trace_sys_enter_rename" "tracepoint/syscalls/sys_enter_rename";
   Program_ "trace_sys_exit_rename" "tracepoint/syscalls/sys_exit_rename";
   Program_ "trace_sys_link_entry" "kprobe/__x64_sys_link";
   Program_ "trace_sys_link_exit" "kretprobe/__x64_sys_link";
   Program_ "trace_sys_enter_link" "tracepoint/syscalls/sys_enter_link";
   Program_ "trace_sys_exit_link" "tracepoint/syscalls/sys_exit_link";
   Program_ "trace_sys_symlink_entry" "kprobe/__x64_sys_symlink";
   Program_ "trace_sys_symlink_exit" "kretprobe/__x64_sys_symlink";
   Program_ "trace_sys_enter_symlink" "tracepoint/syscalls/sys_enter_symlink";
   Program_ "trace_sys_exit_symlink" "tracepoint/syscalls/sys_exit_symlink";
   Program_ "trace_sys_readlink_entry" "kprobe/__x64_sys_readlink";
   Program_ "trace_sys_readlink_exit" "kretprobe/__x64_sys_readlink";
   Program_ "trace_sys_truncate_entry" "kprobe/__x64_sys_truncate";
   Program_ "trace_sys_truncate_exit" "kretprobe/__x64_sys_truncate";
   Program_ "trace_sys_enter_truncate" "tracepoint/syscalls/sys_enter_truncate";
   Program_ "trace_sys_exit_truncate" "tracepoint/syscalls/sys_exit_truncate";
   Program_ "trace_sys_mmap_entry" "kprobe/__x64_sys_mmap";
   Program_ "trace_sys_mmap_exit" "kretprobe/__x64_sys_mmap";
   Program_ "trace_vfs_open_enter" "fentry/vfs_open";
   Program_ "trace_vfs_open_exit" "fexit/vfs_open";
   Program_ "trace_vfs_read_enter" "fentry/vfs_read";
   Program_ "trace_vfs_read_exit" "fexit/vfs_read";
   Program_ "trace_vfs_write_enter" "fentry/vfs_write";
   Program_ "trace_vfs_write_exit" "fexit/vfs_write";
   Program_ "trace_vfs_create_enter" "fentry/vfs_create";
   Program_ "trace_vfs_create_exit" "fexit/vfs_create";
   Program_ "trace_vfs_mkdir_enter" "fentry/vfs_mkdir";
   Program_ "trace_vfs_mkdir_exit" "fexit/vfs_mkdir";
   Program_ "trace_vfs_rmdir_enter" "fentry/vfs_rmdir";
   Program_ "trace_vfs_rmdir_exit" "fexit/vfs_rmdir";
   Program_ "trace_vfs_symlink_enter" "fentry/vfs_symlink";
   Program_ "trace_vfs_symlink_exit" "fexit/vfs_symlink";
   Program_ "trace_vfs_rename_enter" "fentry/vfs_rename";
   Program_ "trace_vfs_rename_exit" "fexit/vfs_rename";
   Program_ "trace_vfs_getattr_enter" "fentry/vfs_getattr";
   Program_ "trace_vfs_getattr_exit" "fexit/vfs_getattr";
   Program_ "trace_vfs_truncate_enter" "fentry/vfs_truncate";
   Program_ "trace_vfs_truncate_exit" "fexit/vfs_truncate";
   Program_ "trace_vfs_fchmod_enter" "fentry/vfs_fchmod";
   Program_ "trace_vfs_fchmod_exit" "fexit/vfs_fchmod";
   Program_ "trace_vfs_readlink_enter" "fentry/vfs_readlink";
   Program_ "trace_vfs_readlink_exit" "fexit/vfs_readlink";
   Program_ "trace_vfs_readv_enter" "fentry/vfs_readv";
   Program_ "trace_vfs_readv_exit" "fexit/vfs_readv";
   Program_ "trace_vfs_writev_enter" "fentry/vfs_writev";
   Program_ "trace_vfs_writev_exit" "fexit/vfs_writev";
   Program_ "trace_vfs_unlink_kp" "kprobe/vfs_unlink";
   Program_ "trace_vfs_unlink_krp" "kretprobe/vfs_unlink";
   Program_ "trace_vfs_link_kp" "kprobe/vfs_link";
   Program_ "trace_vfs_link_krp" "kretprobe/vfs_link";
   Program_ "trace_vfs_fallocate_kp" "kprobe/vfs_fallocate";
   Program_ "trace_vfs_fallocate_krp" "kretprobe/vfs_fallocate";
   Program_ "trace_iterate_dir_enter" "fentry/iterate_dir";
   Program_ "trace_iterate_dir_exit" "fexit/iterate_dir";
   Program_ "trace_do_mmap_kp" "kprobe/do_mmap";
   Program_ "trace_do_mmap_krp" "kretprobe/do_mmap";
   Program_ "trace_vm_munmap_kp" "kprobe/vm_munmap";
   Program_ "trace_vm_munmap_krp" "kretprobe/vm_munmap";
   Program_ "trace_vfs_lock_file_enter" "fentry/vfs_lock_file";
   Program_ "trace_vfs_lock_file_exit" "fexit/vfs_lock_file";
   Program_ "trace_vfs_open_kprobe_fallback" "kprobe/vfs_open";
   Program_ "trace_vfs_open_kretprobe_fallback" "kretprobe/vfs_open";
   Program_ "trace_vfs_read_kprobe_fallback" "kprobe/vfs_read";
   Program_ "trace_vfs_read_kretprobe_fallback" "kretprobe/vfs_read";
   Program_ "trace_vfs_write_kprobe_fallback" "kprobe/vfs_write";
   Program_ "trace_vfs_write_kretprobe_fallback" "kretprobe/vfs_write";
   Program_ "trace_vfs_create_kprobe_fallback" "kprobe/vfs_create";
   Program_ "trace_vfs_create_legacy_fallback" "kprobe/vfs_create";
   Program_ "trace_vfs_create_kretprobe_fallback" "kretprobe/vfs_create";
   Program_ "trace_vfs_mkdir_kprobe_fallback" "kprobe/vfs_mkdir";
   Program_ "trace_vfs_mkdir_kretprobe_fallback" "kretprobe/vfs_mkdir";
   Program_ "trace_vfs_rmdir_kprobe_fallback" "kprobe/vfs_rmdir";
   Program_ "trace_vfs_rmdir_kretprobe_fallback" "kretprobe/vfs_rmdir";
   Program_ "trace_vfs_symlink_kprobe_fallback" "kprobe/vfs_symlink";
   Program_ "trace_vfs_symlink_kretprobe_fallback" "kretprobe/vfs_symlink";
   Program_ "trace_vfs_rename_kprobe_fallback" "kprobe/vfs_rename";
   Program_ "trace_vfs_rename_kretprobe_fallback" "kretprobe/vfs_rename";
   Program_ "trace_vfs_rename_legacy_kprobe_fallback" "kprobe/vfs_rename";
   Program_ "trace_vfs_rename_legacy_kretprobe_fallback" "kretprobe/vfs_rename";
   Program_ "trace_vfs_getattr_kprobe_fallback" "kprobe/vfs_getattr";
   Program_ "trace_vfs_getattr_kretprobe_fallback" "kretprobe/vfs_getattr";
   Program_ "trace_vfs_truncate_kprobe_fallback" "kprobe/vfs_truncate";
   Program_ "trace_vfs_truncate_kretprobe_fallback" "kretprobe/vfs_truncate";
   Program_ "trace_vfs_fchmod_kprobe_fallback" "kprobe/vfs_fchmod";
   Program_ "trace_vfs_fchmod_kretprobe_fallback" "kretprobe/vfs_fchmod";
   Program_ "trace_vfs_readlink_kprobe_fallback" "kprobe/vfs_readlink";
   Program_ "trace_vfs_readlink_kretprobe_fallback" "kretprobe/vfs_readlink";
   Program_ "trace_vfs_readv_kprobe_fallback" "kprobe/vfs_readv";
   Program_ "trace_vfs_readv_kretprobe_fallback" "kretprobe/vfs_readv";
   Program_ "trace_vfs_writev_kprobe_fallback" "kprobe/vfs_writev";
   Program_ "trace_vfs_writev_kretprobe_fallback" "kretprobe/vfs_writev";
   Program_ "trace_iterate_dir_kprobe_fallback" "kprobe/iterate_dir";
   Program_ "trace_iterate_dir_kretprobe_fallback" "kretprobe/iterate_dir";
   Program_ "trace_vfs_lock_file_kprobe_fallback" "kprobe/vfs_lock_file";
   Program_ "trace_vfs_lock_file_kretprobe_fallback" "kretprobe/vfs_lock_file"].

Definition ioslower_programs : list program :=
  [Program_ "trace_vfs_open_enter" "fentry/vfs_open";
   Program_ "trace_vfs_open_exit" "fexit/vfs_open";
   Program_ "trace_vfs_read_enter" "fentry/vfs_read";
   Program_ "trace_vfs_read_exit" "fexit/vfs_read";
   Program_ "trace_vfs_write_enter" "fentry/vfs_write";
   Program_ "trace_vfs_write_exit" "fexit/vfs_write";
   Program_ "trace_vfs_create_enter" "fentry/vfs_create";
   Program_ "trace_vfs_create_exit" "fexit/vfs_create";
   Program_ "trace_vfs_mkdir_enter" "fentry/vfs_mkdir";
   Program_ "trace_vfs_mkdir_exit" "fexit/vfs_mkdir";
   Program_ "trace_vfs_rmdir_enter" "fentry/vfs_rmdir";
   Program_ "trace_vfs_rmdir_exit" "fexit/vfs_rmdir";
   Program_ "trace_vfs_symlink_enter" "fentry/vfs_symlink";
   Program_ "trace_vfs_symlink_exit" "fexit/vfs_symlink";
   Program_ "trace_vfs_rename_enter" "fentry/vfs_rename";
   Program_ "trace_vfs_rename_exit" "fexit/vfs_rename";
   Program_ "trace_vfs_getattr_enter" "fentry/vfs_getattr";
   Program_ "trace_vfs_getattr_exit" "fexit/vfs_getattr";
   Program_ "trace_vfs_truncate_enter" "fentry/vfs_truncate";
   Program_ "trace_vfs_truncate_exit" "fexit/vfs_truncate";
   Program_ "trace_vfs_fchmod_enter" "fentry/vfs_fchmod";
   Program_ "trace_vfs_fchmod_exit" "fexit/vfs_fchmod";
   Program_ "trace_vfs_readlink_enter" "fentry/vfs_readlink";
   Program_ "trace_vfs_readlink_exit" "fexit/vfs_readlink";
   Program_ "trace_vfs_readv_enter" "fentry/vfs_readv";
   Program_ "trace_vfs_readv_exit" "fexit/vfs_readv";
   Program_ "trace_vfs_writev_enter" "fentry/vfs_writev";
   Program_ "trace_vfs_writev_exit" "fexit/vfs_writev";
   Program_ "trace_vfs_unlink_kp" "kprobe/vfs_unlink";
   Program_ "trace_vfs_unlink_krp" "kretprobe/vfs_unlink";
   Program_ "trace_vfs_link_kp" "kprobe/vfs_link";
   Program_ "trace_vfs_link_krp" "kretprobe/vfs_link";
   Program_ "trace_vfs_fallocate_kp" "kprobe/vfs_fallocate";
   Program_ "trace_vfs_fallocate_krp" "kretprobe/vfs_fallocate";
   Program_ "trace_iterate_dir_enter" "fentry/iterate_dir";
   Program_ "trace_iterate_dir_exit" "fexit/iterate_dir";
   Program_ "trace_do_mmap_kp" "kprobe/do_mmap";
   Program_ "trace_do_mmap_krp" "kretprobe/do_mmap";
   Program_ "trace_vm_munmap_kp" "kprobe/vm_munmap";
   Program_ "trace_vm_munmap_krp" "kretprobe/vm_munmap";
   Program_ "trace_vfs_lock_file_enter" "fentry/vfs_lock_file";
   Program_ "trace_vfs_lock_file_exit" "fexit/vfs_lock_file";
   Program_ "trace_vfs_open_kprobe_fallback" "kprobe/vfs_open";
   Program_ "trace_vfs_open_kretprobe_fallback" "kretprobe/vfs_open";
   Program_ "trace_vfs_read_kprobe_fallback" "kprobe/vfs_read";
   Program_ "trace_vfs_read_kretprobe_fallback" "kretprobe/vfs_read";
   Program_ "trace_vfs_write_kprobe_fallback" "kprobe/vfs_write";
   Program_ "trace_vfs_write_kretprobe_fallback" "kretprobe/vfs_write";
   Program_ "trace_vfs_create_kprobe_fallback" "kprobe/vfs_create";
   Program_ "trace_vfs_create_legacy_fallback" "kprobe/vfs_create";
   Program_ "trace_vfs_create_kretprobe_fallback" "kretprobe/vfs_create";
   Program_ "trace_vfs_mkdir_kprobe_fallback" "kprobe/vfs_mkdir";
   Program_ "trace_vfs_mkdir_kretprobe_fallback" "kretprobe/vfs_mkdir";
   Program_ "trace_vfs_rmdir_kprobe_fallback" "kprobe/vfs_rmdir";
   Program_ "trace_vfs_rmdir_kretprobe_fallback" "kretprobe/vfs_rmdir";
   Program_ "trace_vfs_symlink_kprobe_fallback" "kprobe/vfs_symlink";
   Program_ "trace_vfs_symlink_kretprobe_fallback" "kretprobe/vfs_symlink";
   Program_ "trace_vfs_rename_kprobe_fallback" "kprobe/vfs_rename";
   Program_ "trace_vfs_rename_kretprobe_fallback" "kretprobe/vfs_rename";
   Program_ "trace_vfs_rename_legacy_kprobe_fallback" "kprobe/vfs_rename";
   Program_ "trace_vfs_rename_legacy_kretprobe_fallback" "kretprobe/vfs_rename";
   Program_ "trace_vfs_getattr_kprobe_fallback" "kprobe/vfs_getattr";
   Program_ "trace_vfs_getattr_kretprobe_fallback" "kretprobe/vfs_getattr";
   Program_ "trace_vfs_truncate_kprobe_fallback" "kprobe/vfs_truncate";
   Program_ "trace_vfs_truncate_kretprobe_fallback" "kretprobe/vfs_truncate";
   Program_ "trace_vfs_fchmod_kprobe_fallback" "kprobe/vfs_fchmod";
   Program_ "trace_vfs_fchmod_kretprobe_fallback" "kretprobe/vfs_fchmod";
   Program_ "trace_vfs_readlink_kprobe_fallback" "kprobe/vfs_readlink";
   Program_ "trace_vfs_readlink_kretprobe_fallback" "kretprobe/vfs_readlink";
   Program_ "trace_vfs_readv_kprobe_fallback" "kprobe/vfs_readv";
   Program_ "trace_vfs_readv_kretprobe_fallback" "kretprobe/vfs_readv";
   Program_ "trace_vfs_writev_kprobe_fallback" "kprobe/vfs_writev";
   Program_ "trace_vfs_writev_kretprobe_fallback" "kretprobe/vfs_writev";
   Program_ "trace_iterate_dir_kprobe_fallback" "kprobe/iterate_dir";
   Program_ "trace_iterate_dir_kretprobe_fallback" "kretprobe/iterate_dir";
   Program_ "trace_vfs_lock_file_kprobe_fallback" "kprobe/vfs_lock_file";
   Program_ "trace_vfs_lock_file_kretprobe_fallback" "kretprobe/vfs_lock_file"].

(** The functions that the programs hook, and those without a fentry variant,
    whose probes are always attached. *)
Definition hooks : list string := map hook_name vfs_hooks.
Definition plain_hooks : list string :=
  ["vfs_unlink"; "vfs_link"; "vfs_fallocate"; "do_mmap"; "vm_munmap"].

(** The programs of a list at the entry and at the return of a function. *)
Definition entry_programs (h : string) (ps : list program) : list program :=
  List.filter (fun p => String.eqb (section p) ("fentry/" ++ h) ||
                        String.eqb (section p) ("kprobe/" ++ h)) ps.
Definition return_programs (h : string) (ps : list program) : list program :=
  List.filter (fun p => String.eqb (section p) ("fexit/" ++ h) ||
                        String.eqb (section p) ("kretprobe/" ++ h)) ps.

(** ** Evaluating a selection *)

(** The same selection with the answers that the branches use. *)
Definition enabled_with (syscalls use_fentry lc lr : bool) (ex : string -> bool) (p : program)
  : bool :=
  if syscalls && syscall_program p then false
  else if fentry_program p then use_fentry
  else if fallback_program p then
    fallback_enable (Kernel (fun _ => true) (fun _ => 0%Z) ex) use_fentry lc lr p
  else true.

(** How many return programs a hook has: both return probes of [vfs_rename]
    are attached in the kprobe family. *)
Definition returns_of (use_fentry : bool) (h : string) : nat :=
  if negb use_fentry && String.eqb h "vfs_rename" then 2 else 1.

(** What must hold of the selection for one hook that the kernel has; the
    programs of a hook name the hook after the slash of their section. *)
Definition hook_ok (syscalls use_fentry lc lr : bool) (ps : list program) (h : string) : bool :=
  let en := enabled_with syscalls use_fentry lc lr (String.eqb h) in
  let here := forallb (fun p =>
    match after_slash (section p) with Some t => String.eqb t h | None => false end) in
  Nat.eqb (length (List.filter en (entry_programs h ps))) 1 &&
  Nat.eqb (length (List.filter en (return_programs h ps))) (returns_of use_fentry h) &&
  here (entry_programs h ps) && here (return_programs h ps).

Lemma forallb_In {A} (f : A -> bool) l x : forallb f l = true -> In x l -> f x = true.
Proof. intros H Hx. by apply (proj1 (forallb_forall f l) H). Qed.

(** Every hook, in both objects. *)
Definition selection_ok (uf lc lr : bool) : bool :=
  forallb (hook_ok true uf lc lr iosnoop_programs) (hooks ++ plain_hooks)%list &&
  forallb (hook_ok false uf lc lr ioslower_programs) (hooks ++ plain_hooks)%list.

Lemma selection_all uf lc lr : selection_ok uf lc lr = true.
Proof. destruct uf, lc, lr; vm_compute; reflexivity. Qed.

Lemma filter_comm {A} (f g : A -> bool) l :
  List.filter f (List.filter g l) = List.filter g (List.filter f l).
Proof.
  induction l as [|x l IH]; [done|]. simpl. destruct (g x) eqn:Hg, (f x) eqn:Hf; simpl;
    rewrite ?Hg, ?Hf, ?IH; done.
Qed.

(** Only the answer for the hook itself matters to its programs. *)
Lemma fallback_enable_here k uf lc lr p h ex :
  after_slash (section p) = Some h -> kernel_function_exists k h = ex h ->
  fallback_enable k uf lc lr p =
  fallback_enable (Kernel (fun _ => true) (fun _ => 0%Z) ex) uf lc lr p.
Proof. intros Hs He. unfold fallback_enable. rewrite Hs. simpl. by rewrite He. Qed.

Lemma filter_here (en en' : program -> bool) h ps :
  (forall p, after_slash (section p) = Some h -> en p = en' p) ->
  forallb (fun p => match after_slash (section p) with Some t => String.eqb t h | None => false end)
    ps = true ->
  List.filter en ps = List.filter en' ps.
Proof.
  intros He. rewrite forallb_forall. intros Hall. induction ps as [|p ps IH]; [done|].
  simpl. rewrite IH by (intros q Hq; apply Hall; by right).
  assert (en p = en' p) as ->; [|done]. apply He.
  specialize (Hall p (or_introl eq_refl)). destruct (after_slash (section p)); [|done].
  by apply String.eqb_eq in Hall as ->.
Qed.

(** One object: its list, and whether it has syscall programs to skip. *)
Inductive object := Iosnoop | Ioslower.
Definition object_programs (o : object) : list program :=
  match o with Iosnoop => iosnoop_programs | Ioslower => ioslower_programs end.
Definition object_enabled (o : object) : kernel -> program -> bool :=
  match o with Iosnoop => enabled_iosnoop | Ioslower => enabled_ioslower end.
Definition has_syscalls (o : object) : bool := match o with Iosnoop => true | Ioslower => false end.

#[local] Opaque hook_ok.

Lemma table_lookup o uf lc lr h :
  In h (hooks ++ plain_hooks)%list ->
  hook_ok (has_syscalls o) uf lc lr (object_programs o) h = true.
Proof.
  intros Hh. destruct (proj1 (andb_true_iff _ _) (selection_all uf lc lr)) as [H1 H2].
  destruct o; [exact (forallb_In _ _ _ H1 Hh)|exact (forallb_In _ _ _ H2 Hh)].
Qed.

#[local] Transparent hook_ok.

Lemma object_enabled_with o k p h :
  kernel_function_exists k h = true -> after_slash (section p) = Some h ->
  object_enabled o k p =
  enabled_with (has_syscalls o) (vfs_fentry_family_supported k)
    (get_func_param_count k "vfs_create" =? 4)%Z (get_func_param_count k "vfs_rename" =? 6)%Z
    (String.eqb h) p.
Proof.
  intros He Hs. assert (kernel_function_exists k h = String.eqb h h) as He'
    by (by rewrite String.eqb_refl).
  destruct o; cbn [object_enabled has_syscalls]; unfold enabled_iosnoop, enabled_ioslower,
    enabled_with; cbn [andb];
    rewrite (fallback_enable_here _ _ _ _ _ h (String.eqb h) Hs He'); done.
Qed.

(** Every hooked function that the kernel has gets exactly one program at
    its entry, for iosnoop and for ioslower, whatever attaches and whatever
    prototypes the kernel has; and one at its return, except that both return
    probes of vfs_rename run in the kprobe family. *)
Theorem one_program_per_hook o k h :
  In h (hooks ++ plain_hooks)%list -> kernel_function_exists k h = true ->
  let sel := select_vfs_hook_family k (object_enabled o) (object_programs o) in
  length (entry_programs h sel) = 1%nat /\
  length (return_programs h sel) = returns_of (vfs_fentry_family_supported k) h.
Proof.
  intros Hh He sel.
  pose proof (table_lookup o (vfs_fentry_family_supported k)
    (get_func_param_count k "vfs_create" =? 4)%Z (get_func_param_count k "vfs_rename" =? 6)%Z
    h Hh) as Ht.
  unfold hook_ok in Ht. rewrite !andb_true_iff, !Nat.eqb_eq in Ht.
  destruct Ht as [[[H1 H2] H3] H4].
  unfold sel, select_vfs_hook_family, entry_programs, return_programs in *.
  rewrite !(filter_comm _ (object_enabled o k)).
  split; (erewrite filter_here; [eassumption|intros p; by apply object_enabled_with|eassumption]).
Qed.

(** The selected programs come from one family: no syscall program is ever
    selected, fentry programs only where the whole family attaches, and
    fallbacks only where it does not. *)
Theorem one_family o k p :
  In p (select_vfs_hook_family k (object_enabled o) (object_programs o)) ->
  syscall_program p = false /\
  (fentry_program p = true -> vfs_fentry_family_supported k = true) /\
  (fentry_program p = false -> fallback_program p = true ->
   vfs_fentry_family_supported k = false).
Proof.
  unfold select_vfs_hook_family. rewrite filter_In. intros [Hin He].
  assert (forall uf lc lr, fallback_enable k uf lc lr p = true -> uf = false) as Hf.
  { intros [] lc lr; [|done]. unfold fallback_enable. cbn [negb].
    repeat case_match; rewrite ?andb_false_l; done. }
  assert (syscall_program p = false) as Hsys.
  { destruct o; cbn [object_enabled object_programs] in *.
    - unfold enabled_iosnoop in He. by destruct (syscall_program p).
    - assert (forallb (fun p => negb (syscall_program p)) ioslower_programs = true) as Hs
        by (vm_compute; reflexivity).
      apply negb_true_iff. exact (proj1 (forallb_forall _ _) Hs p Hin). }
  split; [done|]. destruct o; cbn [object_enabled] in He;
    unfold enabled_iosnoop, enabled_ioslower in He; rewrite ?Hsys in He;
    (split; [intros Hp; by rewrite Hp in He|]);
    intros Hp Hb; rewrite Hp, Hb in He; by eapply Hf.
Qed.

(** Some fentry program is selected exactly when the family attaches. *)
Lemma fentry_selected o k :
  Exists (fun p => fentry_program p = true)
    (select_vfs_hook_family k (object_enabled o) (object_programs o)) <->
  vfs_fentry_family_supported k = true.
Proof.
  unfold select_vfs_hook_family. rewrite List.Exists_exists. split.
  - intros (p & [_ He]%filter_In & Hp). destruct o; cbn [object_enabled] in He;
      unfold enabled_iosnoop, enabled_ioslower in He; rewrite Hp in He; [|done].
    by destruct (syscall_program p).
  - intros Hf. exists (Program_ "trace_vfs_open_enter" "fentry/vfs_open").
    split; [|reflexivity]. apply filter_In. split.
    + destruct o; [apply (nth_error_In _ 36)|apply (nth_error_In _ 0)]; reflexivity.
    + destruct o; cbn [object_enabled]; unfold enabled_iosnoop, enabled_ioslower; rewrite Hf;
        reflexivity.
Qed.

(** ** The theorems at concrete kernels *)

(** A kernel that attaches everything with the current prototypes, and one
    with the legacy prototypes and no fentry. *)
Definition new_kernel : kernel :=
  Kernel (fun _ => true)
    (fun f => match List.find (fun h => String.eqb (hook_name h) f) vfs_hooks with
              | Some h => parameter_count h | None => (-2)%Z end)
    (fun _ => true).
Definition old_kernel : kernel :=
  Kernel (fun _ => false)
    (fun f => if String.eqb f "vfs_create" then 4%Z else if String.eqb f "vfs_rename" then 6%Z else 3%Z)
    (fun _ => true).

Lemma one_program_per_hook_witness :
  map name (entry_programs "vfs_rename"
    (select_vfs_hook_family old_kernel (object_enabled Iosnoop) iosnoop_programs)) =
    ["trace_vfs_rename_legacy_kprobe_fallback"] /\
  length (return_programs "vfs_rename"
    (select_vfs_hook_family old_kernel (object_enabled Iosnoop) iosnoop_programs)) = 2%nat.
Proof.
  split; [vm_compute; reflexivity|].
  refine (proj2 (one_program_per_hook Iosnoop old_kernel "vfs_rename" _ _));
    [apply (nth_error_In _ 7); reflexivity|reflexivity].
Defined.

Lemma one_family_witness :
  vfs_fentry_family_supported new_kernel = true.
Proof.
  refine (proj1 (proj2 (one_family Iosnoop new_kernel
    (Program_ "trace_vfs_open_enter" "fentry/vfs_open") _)) _); [|vm_compute; reflexivity].
  apply filter_In. split; [|vm_compute; reflexivity].
  apply (nth_error_In iosnoop_programs 36). reflexivity.
Defined.
