(* ===== verification/HookHost.v ===== *)
(** * The probes of iosnoop and ioslower on a running kernel

    HookSelect chooses programs by what the helpers answer, TraceHelpers says
    what the helpers answer on a kernel with given symbols and BTF.  Here they
    are put together: [kernel_of] is the kernel that the loaders see. *)

From S2P Require Import Prelude CLib TraceHelpers HookSelect.

(** What the loaders read: /proc/kallsyms, and what libbpf answers. *)
Record host := Host { kallsyms : option (list Z); host_btfs : host_btf }.

(** A call returns to the resources it started from ([fentry_attach_spec]):
    here from those of a process with its three standard descriptors. *)
Definition standard : res := Res [0; 1; 2] 0.

Definition kernel_of (h : host) : kernel :=
  Kernel
    (fun f => match TraceHelpers.fentry_can_attach (host_btfs h) (bytes f) None standard with
              | Some (can, _) => can | None => false end)
    (fun f => match TraceHelpers.get_func_param_count (host_btfs h) (bytes f) None standard with
              | Some (n, _) => n | None => 0 end)
    (fun f => TraceHelpers.kernel_function_exists (kallsyms h) (bytes f)).

Lemma family_loop_spec k hs :
  family_loop k hs = true <->
  Forall (fun h => HookSelect.fentry_can_attach k (hook_name h) = true /\
    HookSelect.get_func_param_count k (hook_name h) = parameter_count h) hs.
Proof.
  induction hs as [|h hs IH]; [done|]. cbn [family_loop]. rewrite list.Forall_cons, <- IH.
  destruct (HookSelect.fentry_can_attach k (hook_name h)); cbn [negb orb]; [|naive_solver].
  destruct (Z.eqb_spec (HookSelect.get_func_param_count k (hook_name h)) (parameter_count h));
    cbn [negb]; naive_solver.
Qed.

(** The fentry family is used exactly when the kernel accepts a program that
    reads every parameter of every hooked function, and each function has the
    number of parameters that the probes are written for. *)
Lemma family_on_host h :
  stdin_open (host_btfs h) ->
  vfs_fentry_family_supported (kernel_of h) = true <->
  Forall (fun g => attaches (host_btfs h) (bytes (hook_name g)) None /\
    parameters (host_btfs h) (bytes (hook_name g)) None = Some (parameter_count g)) vfs_hooks.
Proof.
  intros Hin. unfold vfs_fentry_family_supported. rewrite family_loop_spec.
  apply Forall_iff. intros g. cbn [kernel_of HookSelect.fentry_can_attach
    HookSelect.get_func_param_count].
  destruct (fentry_can_attach_eq (host_btfs h) (bytes (hook_name g)) None standard Hin)
    as (can & -> & Hcan).
  destruct (get_func_param_count_eq (host_btfs h) (bytes (hook_name g)) None standard)
    as (n & -> & Hn).
  rewrite Hcan. split; intros [Ha Hp]; (split; [done|]).
  - destruct Ha as (fd & b & k & Ht & Hf & Hk & _).
    assert (parameters (host_btfs h) (bytes (hook_name g)) None = Some k) as Hpar.
    { unfold parameters. rewrite Ht. cbn. by rewrite decide_True. }
    rewrite Hpar. f_equal. rewrite <- (Hn k Hpar). done.
  - by apply Hn.
Qed.

(** C21. On a running kernel, whatever its prototypes and whatever attaches: a
    hooked function that /proc/kallsyms lists among the symbols of the kernel
    gets exactly one program at its entry, and one at its return but for
    vfs_rename in the kprobe family; and fentry programs are chosen exactly
    when the kernel accepts, for every hooked function, a program that reads as
    many parameters as the probe for it takes. *)
Theorem hooked_once o h cs rest f :
  stdin_open (host_btfs h) -> kallsyms h = Some (concat (map core_line cs) ++ rest) ->
  Forall core_ok cs -> In (bytes f) (map cs_name cs) -> In f (hooks ++ plain_hooks) ->
  let sel := select_vfs_hook_family (kernel_of h) (object_enabled o) (object_programs o) in
  length (entry_programs f sel) = 1%nat /\
  length (return_programs f sel) =
    returns_of (vfs_fentry_family_supported (kernel_of h)) f /\
  (Exists (fun p => fentry_program p = true) sel <->
   Forall (fun g => attaches (host_btfs h) (bytes (hook_name g)) None /\
     parameters (host_btfs h) (bytes (hook_name g)) None = Some (parameter_count g)) vfs_hooks).
Proof.
  intros Hin Hk Hcs Hf Hh sel.
  assert (HookSelect.kernel_function_exists (kernel_of h) f = true) as He.
  { cbn. rewrite Hk. by apply kernel_symbol_found. }
  destruct (one_program_per_hook o (kernel_of h) f Hh He) as [H1 H2].
  split_and!; [done..|]. rewrite <- family_on_host by done. apply fentry_selected.
Qed.

(** A kernel with the current prototypes: the id of a function is its place in
    the list of hooks, and a program that reads fewer than six slots loads. *)
Definition id_of (f : list Z) : Z :=
  match list_find (fun g => bytes (hook_name g) = f) vfs_hooks with
  | Some (i, _) => Z.of_nat i + 1 | None => -2 end.
Definition demo_btfs : host_btf :=
  HostBtf (inl (Btf id_of (fun id => parameter_count <$> vfs_hooks !! Z.to_nat (id - 1)))) []
    (fun _ _ insns => if (length insns <? 8)%nat then 7 else -22) (fun _ => 8).

Lemma hooked_once_witness :
  let h := Host (Some (concat (map core_line demo_symbols) ++ module_lines)) demo_btfs in
  let sel := select_vfs_hook_family (kernel_of h) (object_enabled Iosnoop) iosnoop_programs in
  length (entry_programs "vfs_read" sel) = 1%nat /\
  Exists (fun p => fentry_program p = true) sel.
Proof.
  intros h sel.
  destruct (hooked_once Iosnoop h demo_symbols module_lines "vfs_read") as (H1 & _ & H3).
  - apply Forall_nil_2.
  - reflexivity.
  - repeat constructor; vm_compute; congruence.
  - vm_compute. tauto.
  - vm_compute. tauto.
  - split; [exact H1|]. apply H3.
    apply (family_on_host h); [apply Forall_nil_2|]. vm_compute. reflexivity.
Defined.
