(* ===== verification/LowerFilter.v ===== *)
(** * Options and command filters of smbslower and nfsslower

    Models the option parser, [parse_cmd_list] and [update_denylist_map] of
    src/user/smbslower.c and src/user/nfsslower.c, which share their text but
    for the number of commands and one option of smbslower.  An option runs to
    the next state, stops the program (argp_usage exits) or is an error.  The
    theorems: what a list of commands marks, and which commands the denylist
    of the kernel program holds after an option named them. *)

From S2P Require Import Prelude Bpf BpfModel CLib.

(** The options of the two programs; [KeyOther] is any other key. *)
Inductive key :=
| KeyWakeup | KeyInclude | KeyExclude | KeyMin | KeyHelp | KeyVerbose
| KeySkipTracepoints | KeyOther.

Record options := Options {
  verbose : bool; skip_tracepoints : bool;
  min_lat_ms : Z; wakeup_data_size : Z;
  include_mode : bool; exclude_mode : bool;
  cmd_filter : list Z;
}.

Definition initial_options (max_commands : nat) : options :=
  Options false false 10 0 false false (replicate max_commands 0).

(** [Usage]: the program prints its usage and exits. *)
Inductive outcome := Next (o : options) | Usage | Unknown.

Section Program.
(** MAX_SMB_COMMANDS or MAX_NFS_COMMANDS, and whether the program has the
    option --skip-tracepoints. *)
Variable max_commands : nat.
Variable has_skip : bool.

(** The loop over the tokens; [count] stops it at [max_cmds]. *)
Fixpoint parse_cmd_loop (ts : list (list Z)) (count max_cmds : Z) (filter : list Z)
  : Z * list Z :=
  match ts with
  | [] => (count, filter)
  | token :: ts =>
      if negb (count <? max_cmds) then (count, filter)
      else
        let cmd := atoi token in
        if (0 <=? cmd) && (cmd <? Z.of_nat max_commands)
        then parse_cmd_loop ts (count + 1) max_cmds (<[Z.to_nat cmd := 1]> filter)
        else parse_cmd_loop ts count max_cmds filter
  end.

(** A failing strdup gives -1. *)
Definition parse_cmd_list (strdup_ok : bool) (arg : list Z) (max_cmds : Z) (filter : list Z)
  : Z * list Z :=
  if negb strdup_ok then (-1, filter) else parse_cmd_loop (strtok_all 44 arg) 0 max_cmds filter.

Definition parse_arg (strdup_ok : bool) (k : key) (arg : list Z) (o : options) : outcome :=
  match k with
  | KeyWakeup =>
      let '(v, _, errno) := strtol arg 10 in
      if negb (errno =? 0) then Usage
      else Next (Options (verbose o) (skip_tracepoints o) (min_lat_ms o) (u64 v)
                   (include_mode o) (exclude_mode o) (cmd_filter o))
  | KeyInclude =>
      if exclude_mode o then Usage
      else
        let '(err, filter) :=
          parse_cmd_list strdup_ok arg (Z.of_nat max_commands) (cmd_filter o) in
        if err <=? 0 then Usage
        else Next (Options (verbose o) (skip_tracepoints o) (min_lat_ms o) (wakeup_data_size o)
                     true (exclude_mode o) filter)
  | KeyExclude =>
      if include_mode o then Usage
      else
        let '(err, filter) :=
          parse_cmd_list strdup_ok arg (Z.of_nat max_commands) (cmd_filter o) in
        if err <=? 0 then Usage
        else Next (Options (verbose o) (skip_tracepoints o) (min_lat_ms o) (wakeup_data_size o)
                     (include_mode o) true filter)
  | KeyMin =>
      let '(v, _, errno) := strtol arg 10 in
      if negb (errno =? 0) then Usage
      else Next (Options (verbose o) (skip_tracepoints o) (u64 v) (wakeup_data_size o)
                   (include_mode o) (exclude_mode o) (cmd_filter o))
  | KeyHelp => Usage
  | KeyVerbose =>
      Next (Options true (skip_tracepoints o) (min_lat_ms o) (wakeup_data_size o)
              (include_mode o) (exclude_mode o) (cmd_filter o))
  | KeySkipTracepoints =>
      if has_skip then
        Next (Options (verbose o) true (min_lat_ms o) (wakeup_data_size o)
                (include_mode o) (exclude_mode o) (cmd_filter o))
      else Unknown
  | KeyOther => Unknown
  end.

(** argp_parse on the options of the command line, in their order. *)
Fixpoint parse_args (strdup_ok : bool) (args : list (key * list Z)) (o : options) : outcome :=
  match args with
  | [] => Next o
  | (k, arg) :: args =>
      match parse_arg strdup_ok k arg o with
      | Next o => parse_args strdup_ok args o
      | r => r
      end
  end.

(** ** The denylist *)

Context {RT : BpfRuntime}.

Definition deny (o : options) (cmd : nat) : bool :=
  let set := negb (default 0 (cmd_filter o !! cmd) =? 0) in
  if exclude_mode o && set then true
  else if include_mode o && negb set then true
  else false.

(** The loop from [cmd] on, for [n] commands; -1 when an update fails. *)
Fixpoint update_denylist_loop (o : options) (n : nat) (cmd : nat) (m : hmap Z Z)
  : Z * hmap Z Z :=
  match n with
  | O => (0, m)
  | S n =>
      if deny o cmd then
        let '(r, m) := bpf_map_update_elem m (Z.of_nat cmd) 1 BPF_ANY in
        if r <? 0 then (-1, m) else update_denylist_loop o n (S cmd) m
      else update_denylist_loop o n (S cmd) m
  end.

Definition update_denylist_map (o : options) (m : hmap Z Z) : Z * hmap Z Z :=
  update_denylist_loop o max_commands 0 m.

(** The constants of the kernel program: an [__u64] limit in nanoseconds and
    an [int] wakeup size. *)
Definition rodata_of (o : options) : Z * Z :=
  (u64 (min_lat_ms o * 1000 * 1000), s32 (wakeup_data_size o)).

(** ** What a list of commands marks *)

(** The commands of a list: the tokens that denote one, at most [max_cmds]. *)
Definition valid_commands (ts : list (list Z)) : list nat :=
  map (fun t => Z.to_nat (atoi t))
    (List.filter (fun t => (0 <=? atoi t) && (atoi t <? Z.of_nat max_commands)) ts).

Definition mark (filter : list Z) (cs : list nat) : list Z :=
  fold_left (fun f c => <[c := 1]> f) cs filter.

Lemma lower_parse_cmd_loop_spec ts count max_cmds filter :
  0 <= count <= max_cmds ->
  let cs := take (Z.to_nat (max_cmds - count)) (valid_commands ts) in
  parse_cmd_loop ts count max_cmds filter = (count + Z.of_nat (length cs), mark filter cs).
Proof.
  revert count filter. induction ts as [|t ts IH]; intros count filter Hc cs; subst cs.
  - cbn. rewrite firstn_nil. cbn. f_equal. lia.
  - cbn [parse_cmd_loop]. destruct (Z.ltb_spec count max_cmds) as [Hlt|Hge]; cbn [negb].
    2: { replace (Z.to_nat (max_cmds - count)) with 0%nat by lia. simpl. f_equal. lia. }
    unfold valid_commands. cbn [List.filter].
    destruct ((0 <=? atoi t) && (atoi t <? Z.of_nat max_commands)) eqn:Hv.
    + rewrite IH by lia. cbn [map].
      replace (Z.to_nat (max_cmds - count)) with (S (Z.to_nat (max_cmds - (count + 1)))) by lia.
      rewrite firstn_cons. cbn [length]. fold (valid_commands ts). unfold mark at 2.
      cbn [fold_left]. f_equal. lia.
    + by rewrite IH.
Qed.

Lemma mark_lookup filter cs i :
  Forall (fun c => (c < length filter)%nat) cs ->
  mark filter cs !! i = if decide (i ∈ cs) then Some 1 else filter !! i.
Proof.
  revert filter. induction cs as [|c cs IH]; intros filter Hc; [done|].
  apply Forall_cons_1 in Hc as [H1 H2]. unfold mark. cbn [fold_left]. fold (mark (<[c:=1]> filter) cs).
  rewrite IH by (rewrite length_insert; done).
  destruct (decide (i ∈ cs)) as [Hi|Hi].
  - by rewrite decide_True by (by apply elem_of_cons; right).
  - destruct (Nat.eq_dec i c) as [->|Hne].
    + rewrite decide_True by (by apply elem_of_cons; left). by apply list_lookup_insert_eq.
    + rewrite decide_False by (rewrite elem_of_cons; intros [?|?]; congruence).
      by apply list_lookup_insert_ne.
Qed.

Lemma valid_commands_range ts :
  Forall (fun c => (c < max_commands)%nat) (valid_commands ts).
Proof.
  unfold valid_commands. apply List.Forall_forall. intros c.
  rewrite in_map_iff. intros (t & <- & Ht). apply filter_In in Ht as [_ Ht].
  apply andb_true_iff in Ht as [H1%Z.leb_le H2%Z.ltb_lt]. lia.
Qed.

Lemma mark_length l f : length (mark f l) = length f.
Proof.
  revert f. induction l as [|c l IH]; intros f; [done|].
  unfold mark. cbn [fold_left]. fold (mark (<[c:=1]> f) l). by rewrite IH, length_insert.
Qed.

(** The commands that the text of an option denotes. *)
Definition listed (arg : list Z) : list nat :=
  take max_commands (valid_commands (strtok_all 44 arg)).

Lemma parse_cmd_list_spec arg filter :
  parse_cmd_list true arg (Z.of_nat max_commands) filter =
  (Z.of_nat (length (listed arg)), mark filter (listed arg)).
Proof.
  unfold parse_cmd_list. cbn [negb]. rewrite lower_parse_cmd_loop_spec by lia.
  rewrite Z.sub_0_r, Nat2Z.id. fold (listed arg). f_equal.
Qed.

Lemma listed_range arg : Forall (fun c => (c < max_commands)%nat) (listed arg).
Proof. apply Forall_take, valid_commands_range. Qed.

(** A list of commands marks, in the filter of the program, exactly the
    commands that its first [max_commands] numeric tokens denote, and keeps
    the marks that are there; it counts them, with repetitions. *)
Theorem parse_cmd_list_marks arg filter i :
  length filter = max_commands ->
  let '(count, filter') := parse_cmd_list true arg (Z.of_nat max_commands) filter in
  count = Z.of_nat (length (listed arg)) /\ length filter' = max_commands /\
  filter' !! i = if decide (i ∈ listed arg) then Some 1 else filter !! i.
Proof.
  intros Hl. rewrite parse_cmd_list_spec. split_and!; [done|by rewrite mark_length|].
  apply mark_lookup. rewrite Hl. apply listed_range.
Qed.

(** ** The denylist of the kernel program *)

Context {RL : BpfRuntimeLaws RT}.

Lemma update_loop_spec o n cmd (m : hmap Z Z) :
  (forall c, is_Some (map_view m !! c) -> 0 <= c < Z.of_nat cmd) ->
  (size (map_view m) + n <= map_max m)%nat ->
  let '(r, m') := update_denylist_loop o n cmd m in
  r = 0 /\ forall c, bpf_map_lookup_elem m' c =
    if decide (Z.of_nat cmd <= c < Z.of_nat (cmd + n) /\ deny o (Z.to_nat c) = true)
    then Some 1 else bpf_map_lookup_elem m c.
Proof.
  revert cmd m. induction n as [|n IH]; intros cmd m Hdom Hroom; cbn [update_denylist_loop].
  - split; [done|]. intros c. by rewrite decide_False by lia.
  - assert (forall c, Z.of_nat cmd <= c < Z.of_nat (cmd + S n) <->
      c = Z.of_nat cmd \/ Z.of_nat (S cmd) <= c < Z.of_nat (S cmd + n)) as Hsplit by lia.
    destruct (deny o cmd) eqn:Hd.
    + pose proof (update_cases Z Z m (Z.of_nat cmd) 1 BPF_ANY) as Hc.
      pose proof (update_any_ok Z Z m (Z.of_nat cmd) 1 ltac:(right; lia)) as H0.
      assert (map_view m !! Z.of_nat cmd = None) as Habs.
      { apply eq_None_not_Some. intros Hs. apply Hdom in Hs. lia. }
      destruct (bpf_map_update_elem m (Z.of_nat cmd) 1 BPF_ANY) as [r m']. cbn [fst] in H0.
      subst r. destruct Hc as [Hmax [[_ Hv]|[? _]]]; [|lia]. cbn [Z.ltb Z.compare].
      specialize (IH (S cmd) m'). destruct (update_denylist_loop o n (S cmd) m') as [r m2].
      destruct IH as [-> IH].
      * intros c. rewrite Hv, lookup_insert_is_Some. intros [<-|[_ Hs]]; [lia|].
        apply Hdom in Hs. lia.
      * rewrite Hv, Hmax, map_size_insert_None by done. lia.
      * split; [done|]. intros c. rewrite IH, !lookup_view, Hv.
        destruct (decide (c = Z.of_nat cmd)) as [->|Hne].
        -- rewrite decide_False by lia. rewrite lookup_insert_eq.
           rewrite decide_True; [done|]. rewrite Nat2Z.id. split; [lia|done].
        -- rewrite lookup_insert_ne by done. apply decide_ext. naive_solver lia.
    + specialize (IH (S cmd) m). destruct (update_denylist_loop o n (S cmd) m) as [r m2].
      destruct IH as [-> IH]; [intros c Hs%Hdom; lia|lia|]. split; [done|].
      intros c. rewrite IH. apply decide_ext. rewrite Hsplit. split; [naive_solver|].
      intros [[->|?] Hdc]; [|done]. rewrite Nat2Z.id in Hdc. congruence.
Qed.

Lemma denylist_spec o :
  let '(r, m) := update_denylist_map o (map_create max_commands) in
  r = 0 /\ forall c, bpf_map_lookup_elem m c <> None <->
    0 <= c < Z.of_nat max_commands /\ deny o (Z.to_nat c) = true.
Proof.
  pose proof (update_loop_spec o max_commands 0 (map_create max_commands)) as H.
  unfold update_denylist_map.
  destruct (update_denylist_loop o max_commands 0 (map_create max_commands)) as [r m].
  destruct H as [-> H].
  - intros c. rewrite view_create, lookup_empty. by intros [? ?].
  - rewrite view_create, max_create, map_size_empty. lia.
  - split; [done|]. intros c. rewrite H, lookup_create. case_decide; naive_solver lia.
Qed.

Lemma deny_marked o arg c :
  (c < max_commands)%nat -> cmd_filter o = mark (replicate max_commands 0) (listed arg) ->
  negb (default 0 (cmd_filter o !! c) =? 0) = bool_decide (c ∈ listed arg).
Proof.
  intros Hc ->. rewrite mark_lookup by (rewrite length_replicate; apply listed_range).
  case_decide as Hin; [by rewrite bool_decide_eq_true_2|].
  rewrite bool_decide_eq_false_2 by done. by rewrite lookup_replicate_2.
Qed.

(** The denylist: after the program read one list of commands, the update
    of the kernel program's empty map does not fail, and denies a command
    exactly when it is a command of the protocol that the list of -c does not
    denote, or the list of -x denotes. *)
Theorem command_option_denylist (include : bool) arg o :
  parse_arg true (if include then KeyInclude else KeyExclude) arg (initial_options max_commands)
    = Next o ->
  let '(r, m) := update_denylist_map o (map_create max_commands) in
  r = 0 /\ forall c, bpf_map_lookup_elem m c <> None <->
    0 <= c < Z.of_nat max_commands /\
    (if include then Z.to_nat c ∉ listed arg else Z.to_nat c ∈ listed arg).
Proof.
  intros Hp. pose proof (denylist_spec o) as H.
  destruct (update_denylist_map o (map_create max_commands)) as [r m].
  destruct H as [-> H]. split; [done|]. intros c. rewrite H. clear H.
  assert (include_mode o = include /\ exclude_mode o = negb include /\
    cmd_filter o = mark (replicate max_commands 0) (listed arg)) as (Hi & He & Hf).
  { destruct include; cbn [parse_arg initial_options exclude_mode include_mode cmd_filter] in Hp;
      rewrite parse_cmd_list_spec in Hp; case_match; simplify_eq; done. }
  destruct (decide (0 <= c < Z.of_nat max_commands)) as [Hc|Hc]; [|naive_solver].
  unfold deny. rewrite (deny_marked o arg) by (done || lia). rewrite Hi, He.
  destruct include; cbn [negb andb]; case_bool_decide; naive_solver.
Qed.
End Program.

(** ** The two programs *)

Definition smbslower_parse_cmd_list := parse_cmd_list 20.
Definition smbslower_parse_arg := parse_arg 20 true.
Definition smbslower_update_denylist_map `{BpfRuntime} := update_denylist_map 20.
Definition nfsslower_parse_cmd_list := parse_cmd_list 70.
Definition nfsslower_parse_arg := parse_arg 70 false.
Definition nfsslower_update_denylist_map `{BpfRuntime} := update_denylist_map 70.

(** The text of an option may denote command 0 without naming it: [atoi] gives
    0 for a token without digits. *)
Example garbage_is_command_0 : listed 20 (bytes "read,write") = [0; 0]%nat.
Proof. vm_compute. reflexivity. Qed.

Definition demo_options : options :=
  match parse_arg 20 true true KeyExclude (bytes "3,5,99") (initial_options 20) with
  | Next o => o
  | _ => initial_options 20
  end.

Lemma parse_cmd_list_marks_witness :
  snd (smbslower_parse_cmd_list true (bytes "3,5,99") 20 (replicate 20 0)) !! 5%nat = Some 1.
Proof.
  pose proof (parse_cmd_list_marks 20 (bytes "3,5,99") (replicate 20 0) 5 eq_refl) as H.
  unfold smbslower_parse_cmd_list. change (Z.of_nat 20) with 20 in H.
  destruct (parse_cmd_list 20 true (bytes "3,5,99") 20 (replicate 20 0)) as [n f].
  destruct H as (_ & _ & H). cbn [snd]. rewrite H. vm_compute. reflexivity.
Defined.

Lemma command_option_denylist_witness :
  let '(r, m) := smbslower_update_denylist_map demo_options (map_create 20) in
  r = 0 /\ bpf_map_lookup_elem m 5 <> None /\ bpf_map_lookup_elem m 4 = None.
Proof.
  pose proof (command_option_denylist 20 true false (bytes "3,5,99") demo_options) as H.
  unfold smbslower_update_denylist_map.
  destruct (update_denylist_map 20 demo_options (map_create 20)) as [r m].
  destruct H as [Hr H]; [vm_compute; reflexivity|]. split; [done|]. split.
  - apply H. split; [lia|]. apply (bool_decide_unpack _). vm_compute. exact I.
  - destruct (bpf_map_lookup_elem m 4) eqn:E; [|done]. exfalso.
    assert (bpf_map_lookup_elem m 4 <> None) as Hn by (rewrite E; done).
    apply H in Hn as [_ Hn]. revert Hn. apply (bool_decide_unpack _). vm_compute. exact I.
Defined.
