(* ===== verification/NfsslowerMain.v ===== *)
(** * nfsslower: choosing the probes and the exit status

    Models [main] of src/user/nfsslower.c after its options (LowerFilter): for
    each of the two probed functions the program that fits the kernel is kept,
    then the object is loaded, its denylist filled and its programs attached. *)

From S2P Require Import Prelude Bpf BpfModel LowerFilter.

Record programs := Programs {
  nfs4_setup_sequence_entry : bool; nfs4_setup_sequence_kprobe : bool;
  rpc_done_entry : bool; rpc_done_kprobe : bool;
}.

(** The arguments are [fentry_can_attach("nfs4_setup_sequence", "nfsv4")] and
    [fentry_can_attach("rpc_exit_task", "sunrpc")]; the load and attach flags
    of a program are cleared together. *)
Definition select_programs (setup_attaches exit_attaches : bool) : programs :=
  let '(setup_entry, setup_kprobe) :=
    if setup_attaches then (true, false) else (false, true) in
  let '(done_entry, done_kprobe) :=
    if exit_attaches then (true, false) else (false, true) in
  Programs setup_entry setup_kprobe done_entry done_kprobe.

Section Main.
Context {RT : BpfRuntime}.

(** The exit status, and the denylist with which the programs were attached. *)
Definition main (opened_ok : bool) (load attach : Z) (o : options) (denylist : hmap Z Z)
  : Z * option (hmap Z Z) :=
  if negb opened_ok then (1, None)
  else
    let '(err, m) :=
      if negb (load =? 0) then (load, None)
      else
        let '(r, m) := nfsslower_update_denylist_map o denylist in
        if r <? 0 then (load, None)
        else if negb (attach =? 0) then (attach, None) else (attach, Some m) in
    (if err <? 0 then - err else 0, m).

(** One program of each pair stays. *)
Lemma nfsslower_selection setup_attaches exit_attaches :
  let p := select_programs setup_attaches exit_attaches in
  nfs4_setup_sequence_entry p = setup_attaches /\
  nfs4_setup_sequence_kprobe p = negb setup_attaches /\
  rpc_done_entry p = exit_attaches /\ rpc_done_kprobe p = negb exit_attaches.
Proof. by destruct setup_attaches, exit_attaches. Qed.

(** The status 0 also covers a denylist that could not be filled. *)
Lemma nfsslower_exit_status opened_ok load attach o m :
  load <= 0 -> attach <= 0 ->
  fst (main opened_ok load attach o m) = 0 <->
  opened_ok = true /\ load = 0 /\
  (attach = 0 \/ fst (nfsslower_update_denylist_map o m) < 0).
Proof.
  intros Hl Ha. unfold main. destruct opened_ok; cbn [negb fst]; [|naive_solver lia].
  destruct (nfsslower_update_denylist_map o m) as [r m']. cbn [fst].
  destruct (Z.eqb_spec load 0), (Z.ltb_spec r 0), (Z.eqb_spec attach 0); cbn [negb fst];
    case_match eqn:Hlt; cbn [fst]; rewrite ?Z.ltb_lt, ?Z.ltb_ge in Hlt; intuition lia.
Qed.

Context {RL : BpfRuntimeLaws RT}.

(** Once attached, the denylist is the one of the options. *)
Lemma nfsslower_attached attach o m st :
  main true 0 attach o (map_create 70) = (st, Some m) ->
  forall c, bpf_map_lookup_elem m c <> None <-> 0 <= c < 70 /\ deny o (Z.to_nat c) = true.
Proof.
  unfold main. pose proof (denylist_spec 70 o) as H. unfold nfsslower_update_denylist_map.
  destruct (update_denylist_map 70 o (map_create 70)) as [r m']. destruct H as [-> H]. cbn.
  destruct (attach =? 0); cbn; [|congruence]. intros [= _ <-]. exact H.
Qed.
End Main.
