(* ===== verification/SmbslowerMain.v ===== *)
(** * smbslower: choosing the probes of the CIFS module

    Models [file_equals], [run_modprobe], [ensure_cifs_module_loaded] and [main]
    of src/user/smbslower.c: which of the seventeen kernel programs are loaded and
    attached for a running kernel, and the exit status.  What the kernel and
    the helpers of trace_helpers.c report is an argument ([system]).  The
    theorems: a selection is the three tracepoints or the allocation probe
    and the release probe that fit the kernel ([alloc_fits], [release_fits]: by
    the function they hook, its parameters and the kind of program), but for one
    kind of kernel ([release_mid_takes_server]); a kernel without a verified
    layout is refused; and what the exit status says. *)

From S2P Require Import Prelude CLib.

Local Open Scope string_scope.

(** The programs of the kernel object. *)
Inductive prog :=
| trace_smb3_cmd_enter | trace_smb3_cmd_done | trace_smb3_cmd_err
| mid_alloc_fexit | mid_alloc_kretprobe
| mid_alloc_rhel810_kretprobe | mid_alloc_rhel810_553_134_kretprobe
| mid_release_kref_fentry | mid_release_kref_kprobe
| mid_release_legacy_fentry | mid_release_legacy_kprobe
| mid_release_rhel810_kprobe | mid_release_rhel810_553_134_kprobe
| mid_release_single_direct_fentry | mid_release_single_direct_kprobe
| mid_release_direct_fentry | mid_release_direct_kprobe.

#[export] Instance prog_eq_dec : EqDecision prog.
Proof. solve_decision. Defined.

(** What the program asks of the system; [BTF] is "/sys/kernel/btf/cifs". *)
Record system := System {
  tracepoint_exists : string -> bool;          (* category "cifs" *)
  btf_readable : bool;                         (* access(BTF, R_OK) == 0 *)
  uname_release : option string;               (* None when uname fails *)
  srcversion : option (list Z);                (* /sys/module/cifs/srcversion *)
  fentry_can_attach : string -> bool;          (* module "cifs" *)
  get_func_param_count : string -> Z;          (* module "cifs" *)
}.

Definition ENOENT : Z := 2.
Definition EIO : Z := 5.
Definition ENOTSUP : Z := 95.

(** ** Helpers of the loader *)

(** [fgets] into 128 bytes: up to and with the first newline. *)
Fixpoint fgets_loop (n : nat) (s : list Z) : list Z :=
  match n, s with
  | S n, c :: t => if (c =? 10)%Z then [c] else c :: fgets_loop n t
  | _, _ => []
  end.

(** The text before the first byte of "\r\n". *)
Fixpoint until_crlf (s : list Z) : list Z :=
  match s with
  | [] => []
  | c :: t => if ((c =? 13) || (c =? 10))%Z then [] else c :: until_crlf t
  end.

(** Contents without a byte have no line; a NUL ends the C string. *)
Definition file_equals (contents : option (list Z)) (expected : string) : bool :=
  match contents with
  | None => false
  | Some [] => false
  | Some s => bool_decide (until_crlf (cstr (fgets_loop 127 s)) = bytes expected)
  end.

(** One result of waitpid: interrupted, another error with its number, or the
    status of the child, [None] when a signal ended it. *)
Inductive wait := WaitIntr | WaitError (errno : Z) | WaitStatus (status : option Z).

#[export] Instance wait_eq_dec : EqDecision wait.
Proof. solve_decision. Defined.

(** What a path of modprobe does when it is run: whether it is executable, what
    fork returns in the parent, or the error, and the results of waitpid. *)
Record modprobe := Modprobe { executable : bool; fork : Z + Z; waits : list wait }.

(** [None]: still waiting for the child. *)
Fixpoint wait_loop (ws : list wait) : option Z :=
  match ws with
  | [] => None
  | WaitIntr :: ws => wait_loop ws
  | WaitError errno :: _ => Some (- errno)%Z
  | WaitStatus (Some 0%Z) :: _ => Some 0%Z
  | WaitStatus _ :: _ => Some (- EIO)%Z
  end.

Definition run_modprobe (m : modprobe) : option Z :=
  if negb (executable m) then Some (- ENOENT)%Z
  else match fork m with inr errno => Some (- errno)%Z | inl _ => wait_loop (waits m) end.

Definition modprobe_paths : list string := ["/usr/sbin/modprobe"; "/sbin/modprobe"].

Fixpoint try_modprobe (at_path : string -> modprobe) (paths : list string) (err : Z) : option Z :=
  match paths with
  | [] => Some err
  | path :: paths =>
      match run_modprobe (at_path path) with
      | None => None
      | Some err => if (err =? 0)%Z then Some 0%Z else try_modprobe at_path paths err
      end
  end.

Definition ensure_cifs_module_loaded (loaded : bool) (at_path : string -> modprobe) : option Z :=
  if loaded then Some 0%Z else try_modprobe at_path modprobe_paths (- ENOENT).

(** ** The selection *)

(** The autoload and autoattach flags of the programs of an open skeleton. *)
Record flags := Flags { autoload : prog -> bool; autoattach : prog -> bool }.

Definition opened : flags := Flags (fun _ => true) (fun _ => true).

Definition set_flag (f : prog -> bool) (p : prog) (b : bool) : prog -> bool :=
  fun q => if decide (q = p) then b else f q.

Definition set_autoload (p : prog) (b : bool) (f : flags) : flags :=
  Flags (set_flag (autoload f) p b) (autoattach f).
Definition set_autoattach (p : prog) (b : bool) (f : flags) : flags :=
  Flags (autoload f) (set_flag (autoattach f) p b).

Definition set_both (b : bool) (p : prog) (f : flags) : flags :=
  set_autoattach p b (set_autoload p b f).

Definition set_all (b : bool) (ps : list prog) (f : flags) : flags :=
  fold_left (fun f p => set_both b p f) ps f.

Definition trace_progs : list prog :=
  [trace_smb3_cmd_enter; trace_smb3_cmd_done; trace_smb3_cmd_err].
Definition alloc_progs : list prog :=
  [mid_alloc_fexit; mid_alloc_kretprobe; mid_alloc_rhel810_kretprobe;
   mid_alloc_rhel810_553_134_kretprobe].
Definition release_progs : list prog :=
  [mid_release_kref_fentry; mid_release_kref_kprobe; mid_release_direct_fentry;
   mid_release_direct_kprobe; mid_release_legacy_fentry; mid_release_legacy_kprobe;
   mid_release_rhel810_kprobe; mid_release_rhel810_553_134_kprobe;
   mid_release_single_direct_fentry; mid_release_single_direct_kprobe].

(** The verified layouts for kernels without module BTF: [Some errata], or
    [None] when the pair of release and source version is not known. *)
Definition verified_layout (sys : system) : option bool :=
  let pair r v := bool_decide (uname_release sys = Some r) && file_equals (srcversion sys) v in
  if pair "4.18.0-553.el8_10.x86_64" "77983F3F095C933642E503B" then Some false
  else if pair "4.18.0-553.134.1.el8_10.x86_64" "E89B9572651524136F71AD9" then Some true
  else if pair "4.18.0-553.164.1.el8_10.x86_64" "16DF298BB09E70BCC9C148F" then Some true
  else None.

(** [rhel810_no_module_btf] and [rhel810_553_errata] of the branch without
    tracepoints; an error stops the program. *)
Definition no_module_btf (sys : system) : (bool * bool) + Z :=
  if btf_readable sys then inl (false, false)
  else
    match verified_layout sys with
    | Some errata => inl (true, errata)
    | None => inr (- ENOTSUP)%Z
    end.

Definition select_alloc (sys : system) (rhel810 errata : bool) (f : flags) : flags :=
  let f := set_all false trace_progs f in
  let f := set_all false [mid_alloc_rhel810_kretprobe; mid_alloc_rhel810_553_134_kretprobe] f in
  if rhel810 then
    let f := set_all false [mid_alloc_fexit; mid_alloc_kretprobe] f in
    if errata then set_both true mid_alloc_rhel810_553_134_kretprobe f
    else set_both true mid_alloc_rhel810_kretprobe f
  else if fentry_can_attach sys "smb2_mid_entry_alloc" then set_both false mid_alloc_kretprobe f
  else set_both false mid_alloc_fexit f.

(** The function that releases an entry: its name, its number of parameters,
    and whether it is the single direct or the legacy one. *)
Record release := Release {
  release_func : string; release_mid_params : Z;
  single_direct_release : bool; legacy_release : bool;
}.

Definition find_release (sys : system) (rhel810 errata : bool) : release :=
  let r :=
    if rhel810 then
      Release (if errata then "__release_mid" else "_cifs_mid_q_entry_release") 1 false true
    else Release "__release_mid" (get_func_param_count sys "__release_mid") false false in
  let r :=
    if (release_mid_params r =? - ENOENT)%Z then
      let n := get_func_param_count sys "release_mid" in
      Release "release_mid" n (n =? 1)%Z (legacy_release r)
    else r in
  if (release_mid_params r =? - ENOENT)%Z then
    Release "_cifs_mid_q_entry_release" (get_func_param_count sys "_cifs_mid_q_entry_release")
      (single_direct_release r) true
  else r.

Definition release_supported (r : release) : bool :=
  negb ((negb (release_mid_params r =? 1)%Z && negb (release_mid_params r =? 2)%Z) ||
        (legacy_release r && negb (release_mid_params r =? 1)%Z)).

Definition select_release (sys : system) (rhel810 errata : bool) (r : release) : prog :=
  let can_attach_fentry := btf_readable sys && fentry_can_attach sys (release_func r) in
  if rhel810 then
    if errata then mid_release_rhel810_553_134_kprobe else mid_release_rhel810_kprobe
  else if single_direct_release r then
    if can_attach_fentry then mid_release_single_direct_fentry
    else mid_release_single_direct_kprobe
  else if legacy_release r then
    if can_attach_fentry then mid_release_legacy_fentry else mid_release_legacy_kprobe
  else if (release_mid_params r =? 2)%Z then
    if can_attach_fentry then mid_release_direct_fentry else mid_release_direct_kprobe
  else
    if can_attach_fentry then mid_release_kref_fentry else mid_release_kref_kprobe.

Definition use_tracepoints (sys : system) (skip_tracepoints : bool) : bool :=
  negb skip_tracepoints && tracepoint_exists sys "smb3_cmd_enter" &&
  tracepoint_exists sys "smb3_cmd_done" && tracepoint_exists sys "smb3_cmd_err".

(** The flags when the skeleton is loaded, or the error. *)
Definition select_programs (sys : system) (skip_tracepoints : bool) : flags + Z :=
  if use_tracepoints sys skip_tracepoints then
    inl (set_all false release_progs (set_all false alloc_progs opened))
  else
    match no_module_btf sys with
    | inr err => inr err
    | inl (rhel810, errata) =>
        let f := set_all false release_progs (select_alloc sys rhel810 errata opened) in
        let r := find_release sys rhel810 errata in
        if release_supported r then inl (set_both true (select_release sys rhel810 errata r) f)
        else inr (- ENOTSUP)%Z
    end.

(** [main] after the options: the results of opening, of the selection, and
    of loading, filling the denylist and attaching, which are run in this
    order until one fails. *)
Definition main (opened_ok : bool) (selected : flags + Z) (load denylist attach : Z) : Z :=
  if negb opened_ok then 1
  else
    let err :=
      match selected with
      | inr err => err
      | inl _ =>
          if negb (load =? 0) then load
          else if denylist <? 0 then load
          else attach
      end%Z in
    if (err <? 0)%Z then (- err)%Z else 0%Z.

(** ** Loading the module *)

(** The error numbers of fork and waitpid are positive. *)
Definition errno_ok (m : modprobe) : Prop :=
  match fork m with inr errno => (errno > 0)%Z | inl _ => True end /\
  Forall (fun w => match w with WaitError errno => (errno > 0)%Z | _ => True end) (waits m).

(** The child was started and, after interruptions only, it was seen to exit
    with status 0. *)
Definition succeeds (m : modprobe) : Prop :=
  executable m = true /\ (exists pid, fork m = inl pid) /\
  exists n rest, waits m = (replicate n WaitIntr ++ WaitStatus (Some 0%Z) :: rest)%list.

Lemma wait_loop_zero ws :
  Forall (fun w => match w with WaitError errno => (errno > 0)%Z | _ => True end) ws ->
  wait_loop ws = Some 0%Z <->
  exists n rest, ws = (replicate n WaitIntr ++ WaitStatus (Some 0%Z) :: rest)%list.
Proof.
  induction 1 as [|w ws Hw Hws IH].
  - split; [done|]. by intros ([] & ? & ?).
  - assert (w <> WaitIntr -> (wait_loop (w :: ws) = Some 0%Z <-> w = WaitStatus (Some 0%Z))) as Hone.
    { intros Hi. destruct w as [|errno|[[]|]]; cbn; try done; split; intros [=]; lia. }
    destruct (decide (w = WaitIntr)) as [->|Hi].
    + cbn [wait_loop]. rewrite IH. split; intros (n & rest & Heq).
      * exists (S n), rest. cbn. by rewrite Heq.
      * destruct n as [|n]; [done|]. exists n, rest. by injection Heq.
    + rewrite Hone by done. split; [intros ->; by exists 0%nat, ws|].
      intros ([|n] & rest & Heq); [by injection Heq|]. injection Heq as -> _. done.
Qed.

Lemma run_modprobe_zero m : errno_ok m -> run_modprobe m = Some 0%Z <-> succeeds m.
Proof.
  intros [Hf Hw]. unfold run_modprobe, succeeds.
  destruct (executable m); cbn [negb]; [|naive_solver].
  destruct (fork m) as [pid|errno].
  - rewrite wait_loop_zero by done. naive_solver.
  - split; [intros [=]; lia|]. by intros (_ & [? ?] & _).
Qed.

(** The loader goes on as with a loaded module exactly when the module is
    there or one of the two paths ran and succeeded, the first one or, once
    that has failed, the second. *)
Theorem module_loaded loaded at_path :
  (forall path, errno_ok (at_path path)) ->
  ensure_cifs_module_loaded loaded at_path = Some 0%Z <->
  loaded = true \/ succeeds (at_path "/usr/sbin/modprobe") \/
  (is_Some (run_modprobe (at_path "/usr/sbin/modprobe")) /\ succeeds (at_path "/sbin/modprobe")).
Proof.
  intros Hok. unfold ensure_cifs_module_loaded, modprobe_paths. destruct loaded; [naive_solver|].
  rewrite <- !run_modprobe_zero by done. cbn [try_modprobe].
  destruct (run_modprobe (at_path "/usr/sbin/modprobe")) as [e|]; [|naive_solver].
  destruct (Z.eqb_spec e 0) as [->|He]; [naive_solver|].
  destruct (run_modprobe (at_path "/sbin/modprobe")) as [e'|]; [|naive_solver].
  destruct (Z.eqb_spec e' 0) as [->|He']; naive_solver.
Qed.

(** ** What is selected *)

Lemma set_all_autoload b ps f p :
  autoload (set_all b ps f) p = if decide (p ∈ ps) then b else autoload f p.
Proof.
  revert f. induction ps as [|q ps IH]; intros f; cbn [set_all fold_left].
  - by rewrite decide_False by apply not_elem_of_nil.
  - fold (set_all b ps (set_both b q f)). rewrite IH. cbn [set_both set_autoload set_autoattach autoload].
    unfold set_flag. repeat case_decide; set_solver.
Qed.

(** A program is attached exactly when it is loaded. *)
Definition agree (f : flags) : Prop := forall q, autoattach f q = autoload f q.

Lemma set_both_agree b p f : agree f -> agree (set_both b p f).
Proof. intros H q. cbn. unfold set_flag. by rewrite H. Qed.

Lemma set_all_agree b ps f : agree f -> agree (set_all b ps f).
Proof.
  revert f. induction ps as [|p ps IH]; intros f H; [done|]. apply IH. by apply set_both_agree.
Qed.

(** ** What fits a kernel *)

(** The function in the section name of a program, the number of parameters
    that a release handler declares (the others read a return value),
    and whether the program is attached with fentry or fexit. *)
Definition hooked (p : prog) : option string :=
  match p with
  | trace_smb3_cmd_enter | trace_smb3_cmd_done | trace_smb3_cmd_err => None
  | mid_alloc_fexit | mid_alloc_kretprobe
  | mid_alloc_rhel810_kretprobe | mid_alloc_rhel810_553_134_kretprobe =>
      Some "smb2_mid_entry_alloc"
  | mid_release_kref_fentry | mid_release_kref_kprobe
  | mid_release_rhel810_553_134_kprobe
  | mid_release_direct_fentry | mid_release_direct_kprobe => Some "__release_mid"
  | mid_release_legacy_fentry | mid_release_legacy_kprobe
  | mid_release_rhel810_kprobe => Some "_cifs_mid_q_entry_release"
  | mid_release_single_direct_fentry | mid_release_single_direct_kprobe =>
      Some "release_mid"
  end.

Definition reads (p : prog) : Z :=
  (match p with
  | mid_release_direct_fentry | mid_release_direct_kprobe => 2
  | mid_release_kref_fentry | mid_release_kref_kprobe
  | mid_release_legacy_fentry | mid_release_legacy_kprobe
  | mid_release_rhel810_kprobe | mid_release_rhel810_553_134_kprobe
  | mid_release_single_direct_fentry | mid_release_single_direct_kprobe => 1
  | _ => 0
  end)%Z.

Definition is_fentry (p : prog) : bool :=
  match p with
  | mid_alloc_fexit | mid_release_kref_fentry | mid_release_legacy_fentry
  | mid_release_single_direct_fentry | mid_release_direct_fentry => true
  | _ => false
  end.

(** The errata of the layout that a program has built in. *)
Definition fixed_layout (p : prog) : option bool :=
  match p with
  | mid_alloc_rhel810_kretprobe | mid_release_rhel810_kprobe => Some false
  | mid_alloc_rhel810_553_134_kretprobe | mid_release_rhel810_553_134_kprobe => Some true
  | _ => None
  end.

(** The kernel's release function is the first of these that the module has. *)
Definition release_functions : list string :=
  ["__release_mid"; "release_mid"; "_cifs_mid_q_entry_release"].
Definition release_function (sys : system) : option string :=
  find (fun g => negb (get_func_param_count sys g =? - ENOENT)%Z) release_functions.

(** A program fits when it hooks the function that the kernel has, declares as
    many parameters as that function and is a fentry program exactly where the
    kernel accepts one; without BTF, when it has the verified layout built in. *)
Definition alloc_fits (sys : system) (p : prog) : Prop :=
  In p alloc_progs /\
  if btf_readable sys
  then is_fentry p = fentry_can_attach sys "smb2_mid_entry_alloc" /\ fixed_layout p = None
  else is_Some (fixed_layout p) /\ fixed_layout p = verified_layout sys.

Definition release_fits (sys : system) (p : prog) : Prop :=
  In p release_progs /\
  if btf_readable sys then
    exists func, release_function sys = Some func /\ hooked p = Some func /\
      reads p = get_func_param_count sys func /\
      is_fentry p = fentry_can_attach sys func /\ fixed_layout p = None
  else is_Some (fixed_layout p) /\ fixed_layout p = verified_layout sys.

(** A module whose [release_mid] takes a server and an entry, for which there is
    no program. *)
Definition release_mid_takes_server (sys : system) : Prop :=
  btf_readable sys = true /\ release_function sys = Some "release_mid" /\
  get_func_param_count sys "release_mid" = 2%Z.

(** What the loader takes there. *)
Definition misfit (sys : system) : prog :=
  if fentry_can_attach sys "release_mid" then mid_release_direct_fentry else mid_release_direct_kprobe.

Lemma prog_eq p q :
  is_Some (hooked p) -> hooked p = hooked q -> reads p = reads q -> is_fentry p = is_fentry q ->
  fixed_layout p = fixed_layout q -> p = q.
Proof. intros [g Hg]. revert Hg. destruct p; intros [= <-]; destruct q; cbn; congruence. Qed.

Lemma release_hooked p : In p release_progs -> is_Some (hooked p).
Proof. by destruct p; vm_compute; intuition (try congruence); eexists. Qed.

(** No two programs fit the same kernel. *)
Lemma alloc_fits_unique sys p q : alloc_fits sys p -> alloc_fits sys q -> p = q.
Proof.
  intros [Hp Hp'] [Hq Hq'].
  assert (forall p, In p alloc_progs -> hooked p = Some "smb2_mid_entry_alloc" /\ reads p = 0%Z) as H
    by (intros []; vm_compute; intuition congruence).
  destruct (H p Hp) as [H1 H2], (H q Hq) as [H3 H4].
  assert (forall p, In p alloc_progs -> is_Some (fixed_layout p) -> is_fentry p = false) as Hf
    by (intros []; vm_compute; try done; intros ? []; congruence).
  apply prog_eq; [rewrite H1; by eexists|congruence|congruence| |]; destruct (btf_readable sys);
    destruct Hp' as [? ?], Hq' as [? ?]; try congruence. by rewrite !Hf.
Qed.

Lemma release_fits_unique sys p q : release_fits sys p -> release_fits sys q -> p = q.
Proof.
  intros [Hp Hp'] [Hq Hq']. destruct (btf_readable sys).
  - destruct Hp' as (g & Hg & H1 & H2 & H3 & H4), Hq' as (g' & Hg' & H5 & H6 & H7 & H8).
    apply prog_eq; [by apply release_hooked|congruence..].
  - destruct Hp' as [H1 H2], Hq' as [H3 H4].
    assert (fixed_layout p = fixed_layout q) as H by congruence. revert H.
    destruct p; try (by destruct H1); destruct q; try (by destruct H3); try done;
      vm_compute in Hp, Hq; intuition congruence.
Qed.

(** On the module without a program, nothing fits. *)
Lemma misfit_not_fits sys p : release_mid_takes_server sys -> ~ release_fits sys p.
Proof.
  intros (Hb & Hf & Hn) [Hp Hp']. rewrite Hb in Hp'. destruct Hp' as (g & Hg & H1 & H2 & _).
  assert (g = "release_mid") as -> by congruence. rewrite Hn in H2.
  revert H1 H2. by destruct p.
Qed.

(** The allocation program that [select_alloc] leaves on. *)
Definition alloc_choice (sys : system) (rhel810 errata : bool) : prog :=
  if rhel810 then
    if errata then mid_alloc_rhel810_553_134_kretprobe else mid_alloc_rhel810_kretprobe
  else if fentry_can_attach sys "smb2_mid_entry_alloc" then mid_alloc_fexit
  else mid_alloc_kretprobe.

Lemma select_alloc_spec sys rhel810 errata r p :
  In r release_progs ->
  autoload (set_both true r
    (set_all false release_progs (select_alloc sys rhel810 errata opened))) p = true <->
  p = alloc_choice sys rhel810 errata \/ p = r.
Proof.
  intros Hr. cbn [set_both set_autoload set_autoattach autoload]. unfold set_flag.
  case_decide as Hp; [tauto|]. rewrite set_all_autoload.
  unfold select_alloc, alloc_choice.
  destruct (fentry_can_attach sys "smb2_mid_entry_alloc"), rhel810, errata, p;
    vm_compute in Hr |- *; intuition congruence.
Qed.

Lemma select_alloc_agree sys rhel810 errata : agree (select_alloc sys rhel810 errata opened).
Proof.
  unfold select_alloc.
  repeat case_match; repeat first [apply set_both_agree|apply set_all_agree]; done.
Qed.

Lemma no_module_btf_spec sys rhel810 errata :
  no_module_btf sys = inl (rhel810, errata) ->
  (btf_readable sys = true /\ rhel810 = false /\ errata = false) \/
  (btf_readable sys = false /\ rhel810 = true /\ verified_layout sys = Some errata).
Proof. unfold no_module_btf. repeat case_match; intros; simplify_eq; auto. Qed.

Lemma select_release_fits sys rhel810 errata :
  no_module_btf sys = inl (rhel810, errata) ->
  let r := find_release sys rhel810 errata in
  release_supported r = true ->
  In (select_release sys rhel810 errata r) release_progs /\
  (release_fits sys (select_release sys rhel810 errata r) \/
   release_mid_takes_server sys /\ select_release sys rhel810 errata r = misfit sys).
Proof.
  intros [(Hb & -> & ->)|(Hb & -> & Hl)]%no_module_btf_spec r.
  - subst r. unfold release_supported, select_release, find_release, release_fits,
      release_mid_takes_server, misfit, release_function, release_functions.
    rewrite Hb. cbn [find release_mid_params legacy_release single_direct_release release_func andb].
    repeat (case_match; cbn [release_mid_params legacy_release single_direct_release
      release_func negb find] in *); intros Hs;
      rewrite ?Z.eqb_eq, ?Z.eqb_neq in *; (split; [vm_compute; tauto|]);
      apply negb_true_iff, orb_false_iff in Hs as [? ?];
      rewrite ?andb_false_iff, ?negb_false_iff, ?Z.eqb_eq in *; unfold ENOENT in *;
      try (exfalso; lia);
      first [by right|left; (split; [vm_compute; tauto|]); eexists; split_and!; try done; cbn; lia].
  - destruct errata; intros _; (split; [vm_compute; tauto|]); left;
      (split; [vm_compute; tauto|]); rewrite Hb; (split; [by eexists|done]).
Qed.

Lemma alloc_choice_fits sys rhel810 errata :
  no_module_btf sys = inl (rhel810, errata) -> alloc_fits sys (alloc_choice sys rhel810 errata).
Proof.
  intros [(Hb & -> & ->)|(Hb & -> & Hl)]%no_module_btf_spec; unfold alloc_choice, alloc_fits; rewrite Hb.
  - destruct (fentry_can_attach _ _) eqn:Hf; (split; [vm_compute; tauto|by split]).
  - destruct errata; (split; [vm_compute; tauto|]); (split; [by eexists|done]).
Qed.

Lemma selection_spec sys skip f :
  select_programs sys skip = inl f ->
  agree f /\
  if use_tracepoints sys skip then forall p, autoload f p = true <-> In p trace_progs
  else exists a r, alloc_fits sys a /\
    (release_fits sys r \/ release_mid_takes_server sys /\ r = misfit sys) /\
    forall p, autoload f p = true <-> p = a \/ p = r.
Proof.
  unfold select_programs. destruct (use_tracepoints sys skip) eqn:Hu.
  - intros <-%(inj inl). split; [apply set_all_agree, set_all_agree; done|].
    intros p. rewrite !set_all_autoload. destruct p; vm_compute; intuition congruence.
  - destruct (no_module_btf sys) as [[rhel810 errata]|] eqn:Hn; [|done].
    case_match eqn:Hs; [|done]. intros <-%(inj inl).
    destruct (select_release_fits sys rhel810 errata Hn Hs) as [Hin Hfit]. split.
    + apply set_both_agree, set_all_agree, select_alloc_agree.
    + exists (alloc_choice sys rhel810 errata), (select_release sys rhel810 errata
        (find_release sys rhel810 errata)).
      split_and!; [by apply alloc_choice_fits|done|]. intros p. by apply select_alloc_spec.
Qed.

(** C22. The selected programs: either the three tracepoints, when the kernel
    has them all and they are not skipped, or exactly the allocation probe and
    the release probe that fit the kernel, one of each: the release probe hooks
    the first release function that the module has, declares its number of
    parameters and is a fentry program where the kernel accepts one, or has the
    verified layout built in.  The one exception is a module whose release
    function is a [release_mid] with two parameters: no release probe fits it,
    and one is loaded that hooks [__release_mid], which the module does not have.
    Every other program is neither loaded nor attached. *)
Theorem selection_exact sys skip f :
  select_programs sys skip = inl f ->
  agree f /\
  if use_tracepoints sys skip then forall p, autoload f p = true <-> In p trace_progs
  else
    (exists a, forall p, alloc_fits sys p <-> p = a) /\
    ((exists r, forall p, release_fits sys p <-> p = r) /\
     (forall p, autoload f p = true <-> alloc_fits sys p \/ release_fits sys p)
     \/
     release_mid_takes_server sys /\ (forall p, ~ release_fits sys p) /\
     hooked (misfit sys) = Some "__release_mid" /\
     get_func_param_count sys "__release_mid" = (- ENOENT)%Z /\
     (forall p, autoload f p = true <-> alloc_fits sys p \/ p = misfit sys)).
Proof.
  intros [Ha Hsel]%selection_spec. split; [done|]. destruct (use_tracepoints sys skip); [done|].
  destruct Hsel as (a & r & Hal & Hr & Hp).
  assert (forall p, alloc_fits sys p <-> p = a) as Hau.
  { intros p. split; [intros H; by eapply alloc_fits_unique|by intros ->]. }
  split; [by exists a|]. destruct Hr as [Hr|[Hs ->]].
  - assert (forall p, release_fits sys p <-> p = r) as Hru.
    { intros p. split; [intros H; by eapply release_fits_unique|by intros ->]. }
    left. split; [by exists r|]. intros p. by rewrite Hau, Hru.
  - right. split; [done|]. split; [intros p; by apply misfit_not_fits|].
    split; [unfold misfit; by case_match|]. split; [|intros p; by rewrite Hau].
    destruct Hs as (_ & Hf & _). revert Hf. unfold release_function. cbn.
    by destruct (Z.eqb_spec (get_func_param_count sys "__release_mid") (- ENOENT)).
Qed.

(** The loader refuses a kernel, with ENOTSUP and before anything is
    loaded, exactly when it does not use the tracepoints and either the module
    has no BTF and its release and source version are not a verified pair, or
    the module's release function has not one of the supported prototypes. *)
Theorem selection_refuses sys skip e :
  select_programs sys skip = inr e <->
  e = (- ENOTSUP)%Z /\ use_tracepoints sys skip = false /\
  if btf_readable sys then release_supported (find_release sys false false) = false
  else verified_layout sys = None.
Proof.
  unfold select_programs, no_module_btf.
  destruct (use_tracepoints sys skip), (btf_readable sys); [naive_solver..| |].
  - destruct (release_supported (find_release sys false false)); naive_solver.
  - destruct (verified_layout sys) as [[]|]; cbn; naive_solver.
Qed.

(** The exit status 0 means that the programs were selected, loaded and
    attached, or that filling the denylist failed after loading: that failure
    is not reported. *)
Theorem smb_exit_status opened_ok sys skip load denylist attach :
  (load <= 0)%Z -> (attach <= 0)%Z ->
  main opened_ok (select_programs sys skip) load denylist attach = 0%Z <->
  opened_ok = true /\ (exists f, select_programs sys skip = inl f) /\ load = 0%Z /\
  (attach = 0%Z \/ (denylist < 0)%Z).
Proof.
  intros Hl Ha. unfold main. destruct opened_ok; cbn [negb]; [|naive_solver].
  destruct (select_programs sys skip) as [f|e] eqn:Hs.
  - destruct (Z.eqb_spec load 0), (Z.ltb_spec denylist 0); cbn [negb];
      repeat case_match; rewrite ?Z.ltb_lt, ?Z.ltb_ge in *; split; intros; naive_solver lia.
  - assert (e = (- ENOTSUP)%Z) as ->; [|naive_solver].
    revert Hs. unfold select_programs, no_module_btf. repeat case_match; intros; congruence.
Qed.

(** ** Concrete kernels *)

(** Upstream 6.19: module BTF, and a release function with two parameters. *)
Definition linux_6_19 : system :=
  System (fun _ => false) true (Some "6.19.0") None (fun _ => true)
    (fun f => if String.eqb f "__release_mid" then 2 else -2)%Z.

(** RHEL 8.10 without module BTF, and its source version file. *)
Definition rhel_8_10 : system :=
  System (fun _ => false) false (Some "4.18.0-553.el8_10.x86_64")
    (Some (bytes "77983F3F095C933642E503B" ++ [10]%Z)%list) (fun _ => false) (fun _ => (-22)%Z).

(** A kernel whose [release_mid] takes a server and an entry: the program that
    is selected hooks [__release_mid], which this kernel does not have. *)
Definition release_mid_2 : system :=
  System (fun _ => false) true (Some "x") None (fun _ => true)
    (fun f => if String.eqb f "release_mid" then 2 else -2)%Z.

Definition selected (sys : system) : flags :=
  match select_programs sys false with inl f => f | inr _ => opened end.

Example release_mid_2_selects :
  autoload (selected release_mid_2) mid_release_direct_fentry = true /\
  get_func_param_count release_mid_2 "__release_mid" = (- ENOENT)%Z.
Proof. split; vm_compute; reflexivity. Qed.

(** RHEL 8.10 has one program of each kind. *)
Lemma selection_exact_witness :
  (exists a, forall p, alloc_fits rhel_8_10 p <-> p = a) /\
  (exists r, forall p, release_fits rhel_8_10 p <-> p = r) /\
  (forall p, autoload (selected rhel_8_10) p = true <-> alloc_fits rhel_8_10 p \/ release_fits rhel_8_10 p).
Proof.
  destruct (selection_exact rhel_8_10 false (selected rhel_8_10) eq_refl)
    as [_ [Ha [[Hr H]|[[Hn _] _]]]]; [|discriminate Hn].
  split; [exact Ha|]. split; [exact Hr|exact H].
Defined.

Lemma smb_exit_status_witness :
  main true (select_programs linux_6_19 false) 0 0 (-2) = 2%Z /\
  main true (select_programs linux_6_19 false) 0 (-1) 0 = 0%Z.
Proof.
  split; [vm_compute; reflexivity|].
  apply (smb_exit_status true linux_6_19 false 0 (-1) 0); [lia|lia|].
  split; [done|]. split; [|split; [done|by left]]. eexists. reflexivity.
Defined.

(** The first path is not there, the second is interrupted once. *)
Lemma module_loaded_witness :
  ensure_cifs_module_loaded false (fun path =>
    if String.eqb path "/sbin/modprobe" then Modprobe true (inl 42%Z) [WaitIntr; WaitStatus (Some 0%Z)]
    else Modprobe false (inr 1%Z) []) = Some 0%Z.
Proof.
  apply module_loaded.
  - intros path. case_match; split; cbn; repeat constructor.
  - right. right. split; [by eexists|]. split; [done|]. split; [by eexists|].
    exists 1%nat, []. reflexivity.
Defined.
