(* ===== verification/LowerOptions.v ===== *)
(** * smbslower and nfsslower: what a command line says

    LowerFilter models the option parser and the filling of the denylist.  Here
    is what they come to for a whole command line: which commands are allowed,
    which limit and wakeup size the kernel program gets.  [parse_args_spec]
    relates the options that the parser builds to the command line, and
    [denylist_allowed] the denylist. *)

From S2P Require Import Prelude Bpf BpfModel CLib LowerFilter.

#[export] Instance key_eq_dec : EqDecision key.
Proof. solve_decision. Defined.

Definition args := list (key * list Z).

(** An option is on the command line, and the texts it has there. *)
Definition given (k : key) (a : args) : bool := existsb (fun x => bool_decide (x.1 = k)) a.
Definition texts (k : key) (a : args) : list (list Z) :=
  map snd (List.filter (fun x => bool_decide (x.1 = k)) a).

Section Options.
Variable max_commands : nat.
Variable has_skip : bool.

(** The commands that the lists of an option name. *)
Definition named (k : key) (a : args) : list nat :=
  concat (map (listed max_commands) (texts k a)).

(** The commands that are traced: with -c the named ones, with -x the others. *)
Definition allowed (a : args) (c : nat) : Prop :=
  (given KeyInclude a = true -> c ∈ named KeyInclude a) /\
  (given KeyExclude a = true -> c ∉ named KeyExclude a).

(** The value of the last option [k], or [v]. *)
Definition last_number (k : key) (a : args) (v : Z) : Z :=
  fold_left (fun v x => if bool_decide (x.1 = k) then u64 (strtol x.2 10).1.1 else v) a v.

(** The command line [a] takes the options [o] to [o']. *)
Record describes (a : args) (o o' : options) : Prop := {
  d_include : include_mode o' = include_mode o || given KeyInclude a;
  d_exclude : exclude_mode o' = exclude_mode o || given KeyExclude a;
  d_apart : include_mode o && exclude_mode o = false -> include_mode o' && exclude_mode o' = false;
  d_length : length (cmd_filter o') = length (cmd_filter o);
  d_filter : length (cmd_filter o) = max_commands -> forall i,
    cmd_filter o' !! i =
    if decide (i ∈ named KeyInclude a ++ named KeyExclude a) then Some 1 else cmd_filter o !! i;
  d_min : min_lat_ms o' = last_number KeyMin a (min_lat_ms o);
  d_wakeup : wakeup_data_size o' = last_number KeyWakeup a (wakeup_data_size o);
  d_skip : skip_tracepoints o' = skip_tracepoints o || given KeySkipTracepoints a;
}.

Lemma describes_nil o : describes [] o o.
Proof.
  split; cbn; rewrite ?orb_false_r; done.
Qed.

Lemma named_cons k x a i :
  i ∈ named k (x :: a) <-> (x.1 = k /\ i ∈ listed max_commands x.2) \/ i ∈ named k a.
Proof.
  unfold named, texts. cbn. case_bool_decide; cbn; [rewrite elem_of_app|]; tauto.
Qed.

Lemma describes_cons x a o o1 o2 :
  describes [x] o o1 -> describes a o1 o2 -> describes (x :: a) o o2.
Proof.
  intros [I1 E1 A1 L1 F1 M1 W1 S1] [I2 E2 A2 L2 F2 M2 W2 S2].
  split.
  - rewrite I2, I1. cbn. by rewrite orb_false_r, orb_assoc.
  - rewrite E2, E1. cbn. by rewrite orb_false_r, orb_assoc.
  - tauto.
  - congruence.
  - intros Hl i. rewrite F2 by congruence. rewrite F1 by done.
    assert (forall k, i ∉ named k []) as Hnil by (intros k; apply not_elem_of_nil).
    pose proof (Hnil KeyInclude). pose proof (Hnil KeyExclude).
    repeat case_decide; try done; exfalso;
      repeat match goal with H : _ |- _ => progress rewrite ?elem_of_app, ?named_cons in H end; tauto.
  - by rewrite M2, M1.
  - by rewrite W2, W1.
  - rewrite S2, S1. cbn. by rewrite orb_false_r, orb_assoc.
Qed.

Lemma listed_option ok arg o n filter :
  parse_cmd_list max_commands ok arg (Z.of_nat max_commands) (cmd_filter o) = (n, filter) ->
  0 < n -> filter = mark (cmd_filter o) (listed max_commands arg).
Proof.
  destruct ok; [rewrite parse_cmd_list_spec|]; intros Hp Hn; [by simplify_eq|].
  unfold parse_cmd_list in Hp. cbn in Hp. simplify_eq. lia.
Qed.

(** One option; the cases that change nothing that [describes] speaks of are
    the ones of the other keys. *)
Lemma parse_arg_describes ok k arg o o' :
  parse_arg max_commands has_skip ok k arg o = Next o' -> describes [(k, arg)] o o'.
Proof.
  assert (forall f, f = mark (cmd_filter o) (listed max_commands arg) ->
    length (cmd_filter o) = max_commands -> forall i,
    f !! i = if decide (i ∈ listed max_commands arg) then Some 1 else cmd_filter o !! i) as Hmark.
  { intros f -> Hl i. apply mark_lookup. rewrite Hl. apply listed_range. }
  destruct k; cbn [parse_arg]; intros Hp; try done;
    repeat match type of Hp with
    | context [strtol arg 10] => let Hs := fresh "Hs" in destruct (strtol arg 10) as [[v rest] errno] eqn:Hs
    | context [parse_cmd_list ?a ?b ?c ?d ?e] =>
        let Hc := fresh "Hc" in destruct (parse_cmd_list a b c d e) as [n filter] eqn:Hc
    end; repeat case_match; simplify_eq;
    split; cbn [include_mode exclude_mode cmd_filter min_lat_ms wakeup_data_size skip_tracepoints
      given existsb fst snd]; unfold last_number; cbn [fold_left fst snd];
    repeat first [rewrite bool_decide_eq_true_2 by done|rewrite bool_decide_eq_false_2 by done];
    rewrite ?orb_false_r, ?orb_true_r; try done; try congruence.
  1, 6: by rewrite Hs.
  1, 3: destruct (Z.leb_spec n 0); [done|]; rewrite (listed_option _ _ _ _ _ Hc) by done;
    apply mark_length.
  all: intros Hl i; destruct (Z.leb_spec n 0); [done|];
    rewrite (Hmark _ (listed_option _ _ _ _ _ Hc ltac:(done)) Hl); apply decide_ext;
    rewrite elem_of_app, !named_cons; cbn [fst snd];
    pose proof (not_elem_of_nil i : i ∉ named KeyInclude []);
    pose proof (not_elem_of_nil i : i ∉ named KeyExclude []); intuition congruence.
Qed.

Lemma parse_args_spec ok a o o' :
  parse_args max_commands has_skip ok a o = Next o' -> describes a o o'.
Proof.
  revert o. induction a as [|[k arg] a IH]; intros o; cbn [parse_args].
  - intros [= <-]. apply describes_nil.
  - destruct (parse_arg max_commands has_skip ok k arg o) as [o1| |] eqn:H1; try done.
    intros H2. eapply describes_cons; [by eapply parse_arg_describes|by apply IH].
Qed.

(** ** The denylist of a command line *)

Lemma named_given k a c : c ∈ named k a -> given k a = true.
Proof.
  induction a as [|x a IH]; [by intros ?%not_elem_of_nil|]. rewrite named_cons. cbn [given existsb].
  intros [[Hk _]|H]; [by rewrite bool_decide_eq_true_2|].
  unfold given in IH. by rewrite IH, orb_true_r.
Qed.

#[export] Instance allowed_decision a c : Decision (allowed a c).
Proof. unfold allowed. apply _. Defined.

(** The parser stops at -c together with -x. *)
Lemma deny_allowed ok a o c :
  parse_args max_commands has_skip ok a (initial_options max_commands) = Next o ->
  (c < max_commands)%nat -> deny o c = true <-> ~ allowed a c.
Proof.
  intros [Hi He Ha _ Hf _ _ _]%parse_args_spec Hc. cbn in Hi, He, Ha. specialize (Ha eq_refl).
  specialize (Hf (length_replicate _ _) c). cbn [initial_options cmd_filter] in Hf.
  rewrite lookup_replicate_2 in Hf by done. unfold deny, allowed. rewrite Hi, He in *.
  pose proof (named_given KeyInclude a c) as Hgi. pose proof (named_given KeyExclude a c) as Hge.
  rewrite Hf. case_decide as Hin; rewrite elem_of_app in Hin; cbn [default Z.eqb negb];
    destruct (given KeyInclude a), (given KeyExclude a); cbn [andb] in *; try done;
    split; try done; naive_solver.
Qed.

(** The limit in nanoseconds, an [__u64], and the wakeup size, an [int]. *)
Definition limit_ns (a : args) : Z := u64 (last_number KeyMin a 10 * 1000 * 1000).
Definition wakeup (a : args) : Z := s32 (last_number KeyWakeup a 0).

Lemma rodata_command_line ok a o :
  parse_args max_commands has_skip ok a (initial_options max_commands) = Next o ->
  rodata_of o = (limit_ns a, wakeup a).
Proof.
  intros [_ _ _ _ _ Hm Hw _]%parse_args_spec. unfold rodata_of, limit_ns, wakeup.
  by rewrite Hm, Hw.
Qed.

Context {RT : BpfRuntime} {RL : BpfRuntimeLaws RT}.

(** Filling the empty denylist succeeds, and what is not in it is allowed, or
    not a command that the program knows. *)
Lemma denylist_allowed ok a o :
  parse_args max_commands has_skip ok a (initial_options max_commands) = Next o ->
  exists m, update_denylist_map max_commands o (map_create max_commands) = (0, m) /\
    forall c, 0 <= c ->
      bpf_map_lookup_elem m c = None <-> (c < Z.of_nat max_commands -> allowed a (Z.to_nat c)).
Proof.
  intros Hp. pose proof (denylist_spec max_commands o) as H.
  destruct (update_denylist_map max_commands o (map_create max_commands)) as [r m].
  destruct H as [-> H]. exists m. split; [done|]. intros c Hc. specialize (H c).
  destruct (decide (c < Z.of_nat max_commands)) as [Hlt|Hge].
  - rewrite (deny_allowed ok a o (Z.to_nat c)) in H by (done || lia).
    destruct (bpf_map_lookup_elem m c) as [v|].
    + split; [done|]. intros Ha. destruct (proj1 H ltac:(done)) as [_ Hn]. by destruct Hn; auto.
    + split; [|done]. intros _ _. destruct (decide (allowed a (Z.to_nat c))) as [|Hn]; [done|].
      exfalso. apply (proj2 H); [split; [lia|done]|done].
  - destruct (bpf_map_lookup_elem m c) as [v|]; [|naive_solver].
    destruct (proj1 H ltac:(done)) as [? _]. lia.
Qed.
End Options.

(** -m takes any text: one without digits is the limit 0, and a negative or a
    large number wraps around in the conversion to nanoseconds. *)
Example limit_of_text : limit_ns [(KeyMin, bytes "ten")] = 0.
Proof. vm_compute. reflexivity. Qed.

Example limit_wraps : limit_ns [(KeyMin, bytes "18446744073710")] = 448384.
Proof. vm_compute. reflexivity. Qed.

Example limit_accepted :
  match parse_args 20 true true [(KeyMin, bytes "ten")] (initial_options 20) with
  | Next o => (rodata_of o).1 = 0
  | _ => False
  end.
Proof. vm_compute. reflexivity. Qed.
