(* ===== verification/SmbslowerEnd.v ===== *)
(** * smbslower from the command line to the ring

    The loader (LowerFilter, LowerOptions, SmbslowerMain) and the kernel program
    (SmbslowerTrace) together: [launch] is what a command line sets up on a
    kernel, and the theorem says which commands the programs that it loads
    report. *)

From S2P Require Import Prelude Bpf BpfModel CLib AodEvent LowerFilter LowerOptions.
From S2P Require Import SmbslowerMain SmbslowerBpf SmbslowerTrace.

(** ** The loader *)

Section Launch.
Context {RT : BpfRuntime}.

(** What the calls of libbpf return: opening, loading and attaching. *)
Record outcomes := Outcomes { opened_ok : bool; load : Z; attach : Z }.

(** [main] up to its wait: the flags of the programs, the constants and the
    maps of the kernel program when the programs are attached; [None] when the
    loader stops before. *)
Definition launch (strdup_ok : bool) (a : args) (sys : system) (lib : outcomes)
  : option (flags * rodata * st) :=
  match parse_args 20 true strdup_ok a (initial_options 20) with
  | Next o =>
      if negb (opened_ok lib) then None
      else
        match select_programs sys (skip_tracepoints o) with
        | inr _ => None
        | inl f =>
            if negb (load lib =? 0) then None
            else
              let '(r, m) := smbslower_update_denylist_map o (map_create 20) in
              if r <? 0 then None
              else if negb (attach lib =? 0) then None
              else Some (f, Rodata (rodata_of o).1 (rodata_of o).2, SmbslowerTrace.boot m)
        end
  | _ => None
  end.

Context {RL : BpfRuntimeLaws RT}.

Lemma smb_launch_spec ok a sys lib f ro s :
  launch ok a sys lib = Some (f, ro, s) ->
  select_programs sys (given KeySkipTracepoints a) = inl f /\
  ro = Rodata (limit_ns a) (wakeup a) /\
  exists m, s = SmbslowerTrace.boot m /\ forall c, 0 <= c ->
    bpf_map_lookup_elem m c = None <-> (c < 20 -> allowed 20 a (Z.to_nat c)).
Proof.
  unfold launch, smbslower_update_denylist_map.
  destruct (parse_args 20 true ok a (initial_options 20)) as [o| |] eqn:Hp; [|done..].
  destruct (denylist_allowed 20 true ok a o Hp) as (m & -> & Hm).
  pose proof (rodata_command_line 20 true ok a o Hp) as ->.
  pose proof (d_skip _ _ _ _ (parse_args_spec 20 true ok a _ o Hp)) as Hskip. cbn in Hskip.
  rewrite Hskip. destruct (opened_ok lib); [|done].
  destruct (select_programs sys _) as [f'|]; [|done]. destruct (load lib =? 0); [|done].
  cbn. destruct (attach lib =? 0); [|done]. intros [= -> <- <-].
  split_and!; [done|done|]. exists m. split; [done|exact Hm].
Qed.

Lemma smb_launch_eq ok a sys o f :
  parse_args 20 true ok a (initial_options 20) = Next o ->
  select_programs sys (skip_tracepoints o) = inl f ->
  (smbslower_update_denylist_map o (map_create 20)).1 = 0 ->
  launch ok a sys (Outcomes true 0 0) = Some (f, Rodata (rodata_of o).1 (rodata_of o).2,
    SmbslowerTrace.boot (smbslower_update_denylist_map o (map_create 20)).2).
Proof.
  intros Hp Hs Hd. unfold launch. rewrite Hp, Hs.
  destruct (smbslower_update_denylist_map o (map_create 20)) as [r m]. cbn in *. by rewrite Hd.
Qed.
End Launch.

(** ** The programs of the labels *)

Definition alloc_program (p : alloc_prog) : prog :=
  match p with
  | AllocFexit => SmbslowerMain.mid_alloc_fexit
  | AllocKretprobe => SmbslowerMain.mid_alloc_kretprobe
  | AllocRhel810 => SmbslowerMain.mid_alloc_rhel810_kretprobe
  | AllocRhel810_553_134 => SmbslowerMain.mid_alloc_rhel810_553_134_kretprobe
  end.

Definition release_program (p : release_prog) : prog :=
  match p with
  | ReleaseKrefFentry => SmbslowerMain.mid_release_kref_fentry
  | ReleaseKrefKprobe => SmbslowerMain.mid_release_kref_kprobe
  | ReleaseLegacyFentry => SmbslowerMain.mid_release_legacy_fentry
  | ReleaseLegacyKprobe => SmbslowerMain.mid_release_legacy_kprobe
  | ReleaseRhel810 => SmbslowerMain.mid_release_rhel810_kprobe
  | ReleaseRhel810_553_134 => SmbslowerMain.mid_release_rhel810_553_134_kprobe
  | ReleaseSingleFentry => SmbslowerMain.mid_release_single_direct_fentry
  | ReleaseSingleKprobe => SmbslowerMain.mid_release_single_direct_kprobe
  | ReleaseDirectFentry => SmbslowerMain.mid_release_direct_fentry
  | ReleaseDirectKprobe => SmbslowerMain.mid_release_direct_kprobe
  end.

Section Run.
Context {RT : BpfRuntime}.
Variable ly : cifs_layout.

(** Which program a label is a firing of. *)
Definition program_of (l : label) : prog :=
  match l with
  | CmdEnter _ _ => SmbslowerMain.trace_smb3_cmd_enter
  | CmdDone _ _ => SmbslowerMain.trace_smb3_cmd_done
  | CmdErr _ _ => SmbslowerMain.trace_smb3_cmd_err
  | Alloc p _ _ _ => alloc_program p
  | Release p _ _ => release_program p
  end.

(** ** Operations: a start and an end with the same key *)

Definition op_key : Type := smb_trace_key + Z.

Definition label_env (l : label) : kenv event :=
  match l with
  | CmdEnter e _ | CmdDone e _ | CmdErr e _ | Alloc _ _ e _ | Release _ e _ => e
  end.

Definition label_key (l : label) : op_key :=
  match l with
  | CmdEnter e c | CmdDone e c => inl (trace_key_of e (tid c) (sesid c) (ctx_mid c))
  | CmdErr e c => inl (trace_key_of e (err_tid c) (err_sesid c) (err_mid c))
  | Alloc _ _ _ m | Release _ _ m => inr m
  end.

(** The command and the message id that a start reads. *)
Definition starts (l : label) : option (Z * Z) :=
  match l with
  | CmdEnter _ c => Some (cmd c, ctx_mid c)
  | Alloc p km _ m => Some (alloc_command ly p km m, alloc_mid ly p km m)
  | _ => None
  end.
Definition ends (l : label) : bool :=
  match l with CmdDone _ _ | CmdErr _ _ | Release _ _ _ => true | _ => false end.

Definition in_flight (k : op_key) (s : st) : option smb_partial_event :=
  match k with
  | inl t => bpf_map_lookup_elem (trace_temp s) t
  | inr m => bpf_map_lookup_elem (temp s) m
  end.
Definition space (k : op_key) (s : st) : Prop :=
  match k with
  | inl _ => (size (map_view (trace_temp s)) < map_max (trace_temp s))%nat
  | inr _ => (size (map_view (temp s)) < map_max (temp s))%nat
  end.

Variable ro : rodata.
Context {RL : BpfRuntimeLaws RT}.

Abbreviation step := (SmbslowerTrace.step ro ly).
Abbreviation exec := (SmbslowerTrace.exec ro ly).
Abbreviation label_ok := SmbslowerTrace.label_ok.

Lemma in_flight_other l s k :
  label_ok l -> label_key l <> k -> in_flight k (step s l) = in_flight k s.
Proof.
  intros Hl Hk. destruct k as [t|m]; cbn [in_flight].
  - apply (smb_step_trace_other ro ly); [done|]. destruct l; cbn in *; congruence.
  - apply (smb_step_temp_other ro ly); [done|]. destruct l; cbn in *; congruence.
Qed.

Lemma in_flight_exec ls s k :
  Forall label_ok ls -> Forall (fun l => label_key l <> k) ls ->
  in_flight k (exec ls s) = in_flight k s.
Proof.
  intros Hok Hk. revert s. induction ls as [|l ls IH]; intros s; [done|].
  apply Forall_cons_1 in Hok as [H1 H2]. apply Forall_cons_1 in Hk as [H3 H4].
  change (exec (l :: ls) s) with (exec ls (step s l)). rewrite IH by done.
  by apply in_flight_other.
Qed.

Lemma exec_denylist ls s : Forall label_ok ls -> denylist (exec ls s) = denylist s.
Proof.
  intros Hok. revert s. induction Hok as [|l ls Hl Hok IH]; intros s; [done|].
  change (exec (l :: ls) s) with (exec ls (step s l)). rewrite IH.
  by apply (smb_step_denylist ro ly).
Qed.

(** A start is not the firing of a release program, an end not of an allocation
    program. *)
Lemma start_no_release l c i : starts l = Some (c, i) -> ~ In (program_of l) release_progs.
Proof. by destruct l as [| | |[]|]; cbn; intros Hs; vm_compute; intuition congruence. Qed.

Lemma end_no_alloc l : ends l = true -> ~ In (program_of l) alloc_progs.
Proof. by destruct l as [| | | |[]]; cbn; intros Hs; vm_compute; intuition congruence. Qed.

(** A start records its command unless it is denied. *)
Lemma start_records l s c i :
  label_ok l -> starts l = Some (c, i) -> in_flight (label_key l) s = None ->
  space (label_key l) s ->
  in_flight (label_key l) (step s l) =
  match bpf_map_lookup_elem (denylist s) c with
  | Some _ => None
  | None => Some (SmbPartial c (ktime (label_env l) 0) i)
  end.
Proof.
  destruct l as [e x|e x|e x|p km e m|p e m]; cbn [starts label_key label_env in_flight space];
    intros Hl Hs Hf Hroom; try done; injection Hs as <- <-.
  - cbn [SmbslowerTrace.step]. unfold trace_smb3_cmd_enter.
    destruct (bpf_map_lookup_elem (denylist s) (cmd x)); [done|]. cbn [set_trace_temp trace_temp].
    apply lookup_update_any. by right.
  - cbn [SmbslowerTrace.step]. destruct Hl as (_ & Hm & _). rewrite run_alloc_spec by lia.
    destruct (bpf_map_lookup_elem (denylist s) _); [done|]. cbn [set_temp temp].
    rewrite lookup_view in Hf. rewrite lookup_view, update_noexist_view by done.
    apply lookup_insert_eq.
Qed.

(** An end reports what is in flight. *)
Lemma end_reports l s :
  label_ok l -> ends l = true ->
  aodrb (step s l) = aodrb s ++
    match in_flight (label_key l) s with
    | Some pe => reported ro (label_env l) pe
    | None => []
    end.
Proof.
  destruct l as [e x|e x|e x|p km e m|p e m]; intros Hl He; try done;
    cbn [SmbslowerTrace.step label_key label_env in_flight].
  - unfold trace_smb3_cmd_done. rewrite complete_trace_event_spec. unfold complete_trace.
    case_match; cbn; by rewrite ?app_nil_r.
  - unfold trace_smb3_cmd_err. rewrite complete_trace_event_spec. unfold complete_trace.
    case_match; cbn; by rewrite ?app_nil_r.
  - destruct Hl as (_ & Hm). rewrite run_release_spec by (unfold fits_u; lia).
    unfold complete_mid. case_match; cbn; by rewrite ?app_nil_r.
Qed.

(** The start of an operation, then labels of other operations, then its end. *)
Lemma operation_reports l1 mids l2 s c i slot :
  Forall label_ok (l1 :: mids ++ [l2]) ->
  starts l1 = Some (c, i) -> ends l2 = true -> label_key l2 = label_key l1 ->
  Forall (fun l => label_key l <> label_key l1) mids ->
  in_flight (label_key l1) s = None -> space (label_key l1) s ->
  ktime (label_env l1) 0 <= ktime (label_env l2) 0 -> reserve (label_env l2) 0 = Some slot ->
  let e := label_env l2 in
  let latency := ktime e 0 - ktime (label_env l1) 0 in
  aodrb (exec (l1 :: mids ++ [l2]) s) = aodrb (exec (l1 :: mids) s) ++
    if decide (bpf_map_lookup_elem (denylist s) c = None /\ min_lat_ns ro <= latency) then
      [(Event (u32 (Z.shiftr (pid_tgid e) 32)) c SMBSLOWER (ev_pad slot) (ktime e 0) i latency
          (comm e), get_flags ro e)]
    else [].
Proof.
  intros Hok Hst Hen Hkey Hmids Hf Hroom Hle Hslot e latency.
  apply Forall_cons_1 in Hok as [H1 Hok]. apply Forall_app in Hok as [H2 H3].
  apply Forall_cons_1 in H3 as [H3 _].
  assert (exec (l1 :: mids ++ [l2]) s = step (exec (l1 :: mids) s) l2) as ->.
  { unfold SmbslowerTrace.exec. by rewrite app_comm_cons, fold_left_app. }
  rewrite end_reports, Hkey by done.
  change (exec (l1 :: mids) s) with (exec mids (step s l1)) at 2.
  rewrite in_flight_exec, (start_records l1 s c i) by done. f_equal.
  destruct (bpf_map_lookup_elem (denylist s) c) as [v|].
  { rewrite decide_False; [done|naive_solver]. }
  unfold reported. rewrite Hslot.
  assert (forall l, label_ok l -> env_ok (label_env l)) as Henv.
  { intros l Hl. destruct l; cbn in *; try apply Hl; by destruct Hl as [[? _] _]. }
  rewrite reported_clock by (done || by apply Henv). cbn [smbcommand mid].
  subst e latency. case_match eqn:Hcmp.
  - apply Z.leb_le in Hcmp. by rewrite decide_True.
  - apply Z.leb_gt in Hcmp. rewrite decide_False; [done|]. intros [_ ?]. lia.
Qed.

End Run.

(** ** From the command line to the ring *)

Section CommandLine.
Context {RT : BpfRuntime} {RL : BpfRuntimeLaws RT}.

Lemma smb_boot_space k m : space k (SmbslowerTrace.boot m).
Proof.
  destruct k; cbn [space SmbslowerTrace.boot trace_temp temp];
    rewrite view_create, max_create, map_size_empty; unfold MAX_ENTRIES; lia.
Qed.

(** C11. smbslower, from its command line to the ring: when the loader has set up
    a kernel for a command line and only the programs that it loaded run, then
    an operation that starts and ends (a command by its tracepoints with one key,
    an entry by its allocation and release probes), for which nothing was in flight and
    there was room, is reported at its end exactly when -c and -x allow its
    command and it took as long as -m says; and its programs are the
    tracepoints where the kernel has them and they are not skipped, the probes
    that fit the kernel otherwise ([release_mid_takes_server] is the module for
    whose release function there is none). *)
Theorem smbslower_command_line ok a sys lib f ro s0 ly ls l1 mids l2 c i slot :
  launch ok a sys lib = Some (f, ro, s0) ->
  Forall (fun l => label_ok l /\ autoload f (program_of l) = true) (ls ++ l1 :: mids ++ [l2]) ->
  starts ly l1 = Some (c, i) -> ends l2 = true -> label_key l2 = label_key l1 ->
  Forall (fun l => label_key l <> label_key l1) mids ->
  in_flight (label_key l1) (exec ro ly ls s0) = None -> space (label_key l1) (exec ro ly ls s0) ->
  ktime (label_env l1) 0 <= ktime (label_env l2) 0 -> reserve (label_env l2) 0 = Some slot ->
  let e := label_env l2 in
  let latency := ktime e 0 - ktime (label_env l1) 0 in
  aodrb (exec ro ly (ls ++ l1 :: mids ++ [l2]) s0) = aodrb (exec ro ly (ls ++ l1 :: mids) s0) ++
    (if decide ((c < 20 -> allowed 20 a (Z.to_nat c)) /\ limit_ns a <= latency) then
       [(Event (u32 (Z.shiftr (pid_tgid e) 32)) c SMBSLOWER (ev_pad slot) (ktime e 0) i latency
           (comm e), get_flags ro e)]
     else []) /\
  if use_tracepoints sys (given KeySkipTracepoints a)
  then In (program_of l1) trace_progs /\ In (program_of l2) trace_progs
  else alloc_fits sys (program_of l1) /\
    (release_fits sys (program_of l2) \/
     release_mid_takes_server sys /\ program_of l2 = misfit sys).
Proof.
  intros (Hsel & Hro & m & -> & Hm)%smb_launch_spec Hall Hst Hen Hkey Hmids Hf Hroom Hle Hslot e latency.
  assert (Forall label_ok (ls ++ l1 :: mids ++ [l2])) as Hok
    by (eapply Forall_impl; [|exact Hall]; cbn; tauto).
  apply Forall_app in Hok as [Hls Hok].
  assert (0 <= c) as Hc0.
  { apply Forall_cons_1 in Hok as [Hl _].
    destruct l1; try done; cbn in Hst, Hl; injection Hst as <- <-; destruct Hl as (_ & H1 & H2);
      [apply H1|apply H2]. }
  split.
  - pose proof (operation_reports ly ro l1 mids l2 (exec ro ly ls (SmbslowerTrace.boot m)) c i slot
      Hok Hst Hen Hkey Hmids Hf Hroom Hle Hslot) as Hrep. cbn zeta in Hrep.
    unfold SmbslowerTrace.exec in *. rewrite !fold_left_app. etransitivity; [exact Hrep|]. f_equal.
    fold (exec ro ly ls (SmbslowerTrace.boot m)). rewrite exec_denylist by done.
    rewrite Hro. cbn [SmbslowerTrace.boot denylist min_lat_ns]. subst e latency.
    apply decide_ext. by rewrite (Hm c Hc0).
  - destruct (selection_spec sys _ f Hsel) as [_ Hprogs].
    assert (autoload f (program_of l1) = true /\ autoload f (program_of l2) = true) as [H1 H2].
    { rewrite list.Forall_app, list.Forall_cons, list.Forall_app, list.Forall_singleton in Hall. tauto. }
    case_match; [by rewrite <- !Hprogs|]. destruct Hprogs as (p & q & Hp & Hq & Hpq).
    apply Hpq in H1, H2.
    assert (In q release_progs) as Hqr.
    { destruct Hq as [[Hq _]|[_ ->]]; [done|]. unfold misfit. case_match; vm_compute; tauto. }
    split.
    + destruct H1 as [->|H1]; [done|]. exfalso. rewrite <- H1 in Hqr. by eapply start_no_release.
    + destruct H2 as [H2| ->]; [|by destruct Hq as [?|[? ->]]; [left|right]].
      exfalso. destruct Hp as [Hp _]. rewrite <- H2 in Hp. by eapply end_no_alloc.
Qed.
End CommandLine.

(** ** The theorem at a concrete command line *)

(** [smbslower -m 20 -c 5,6] on RHEL 8.10: a CREATE that takes 20 milliseconds. *)
Definition demo_args : args := [(KeyMin, bytes "20"); (KeyInclude, bytes "5,6")].

Definition demo_options : options :=
  match parse_args 20 true true demo_args (initial_options 20) with
  | Next o => o
  | _ => initial_options 20
  end.
Definition demo_rodata : rodata := Rodata 20000000 0.
Definition demo_state : st :=
  SmbslowerTrace.boot (smbslower_update_denylist_map demo_options (map_create 20)).2.

Lemma smbslower_command_line_witness :
  launch true demo_args rhel_8_10 (Outcomes true 0 0) = Some (selected rhel_8_10, demo_rodata, demo_state) /\
  aodrb (exec demo_rodata demo_layout
    [Alloc AllocRhel810 (entries_hold 5 42) (at_ns 7 1000) mid_a; Release ReleaseRhel810 (at_ns 9 20001000) mid_a]
    demo_state) =
  [(Event 9 5 SMBSLOWER 0 20001000 42 20000000 (pad 16 (bytes "demo")), 0)].
Proof.
  assert (launch true demo_args rhel_8_10 (Outcomes true 0 0) = Some (selected rhel_8_10, demo_rodata, demo_state)) as Hl.
  { apply (smb_launch_eq true demo_args rhel_8_10 demo_options); vm_compute; reflexivity. }
  split; [exact Hl|].
  destruct (smbslower_command_line true demo_args rhel_8_10 (Outcomes true 0 0) (selected rhel_8_10) demo_rodata
    demo_state demo_layout
    [] (Alloc AllocRhel810 (entries_hold 5 42) (at_ns 7 1000) mid_a) [] (Release ReleaseRhel810 (at_ns 9 20001000) mid_a)
    5 42 slot0) as [H _];
    [exact Hl| |vm_compute; reflexivity|reflexivity|reflexivity|constructor|vm_compute; reflexivity
    |apply smb_boot_space|vm_compute; congruence|vm_compute; reflexivity|].
  - cbn [app]. apply Forall_cons_2; [|apply Forall_singleton];
      (split; [first [apply alloc_ok|apply entry_ok]; split; vm_compute; congruence|]);
      vm_compute; reflexivity.
  - cbn [app] in H. rewrite H. vm_compute. reflexivity.
Defined.
