(* ===== verification/SmbslowerMicro.v ===== *)
(** * smbslower: programs that interleave at every helper call

    The programs as sequences of their helper calls, as Interleave wants them.
    A completion takes its record out of the map first and sends its event
    afterwards from a copy, so other programs run between the two.  The place of
    an event in the ring is that of its reservation, which other programs may
    submit before.  The theorem: whatever the interleaving, the maps and the events
    are those of the programs one after the other.  Programs that work on the
    same command or entry do not overlap: a command enters before it is sent, and
    an entry is given away again only after its release program has returned. *)

From S2P Require Import Prelude Bpf BpfModel AodEvent SmbslowerBpf SmbslowerTrace SmbslowerEnd Interleave.

Section Micro.
Context {RT : BpfRuntime}.
Variable ro : rodata.
Variable ly : cifs_layout.

Abbreviation env := (kenv event).

(** ** Programs as sequences of helper calls *)

(** A key of the one or the other map stands for both, as in SmbslowerEnd.
    [Copy] reads the element through the pointer that the lookup returned, which
    held [pe].  After the record is deleted only [Reserve] and [Submit] remain:
    the reservation gives the event its place in the ring, if there is room, and
    the program fills it from data of its own, so its contents are those of the
    place from then on; the submission lets the consumer read it. *)
Inductive calls :=
| Return
| Read (k : calls)
| Denied (c : Z) (k : bool -> calls)
| Lookup (key : op_key) (k : option smb_partial_event -> calls)
| Copy (key : op_key) (pe : smb_partial_event) (k : smb_partial_event -> calls)
| Update (key : op_key) (pe : smb_partial_event)
| Delete (key : op_key) (k : calls)
| Reserve (o : option (event * Z))
| Submit.

(** The commands replace what is in flight under their key, the entries do not. *)
Definition update_key (key : op_key) (pe : smb_partial_event) (s : st) : st :=
  match key with
  | inl k => set_trace_temp s (update_elem (trace_temp s) k pe BPF_ANY)
  | inr m => set_temp s (update_elem (temp s) m pe BPF_NOEXIST)
  end.
Definition delete_key (key : op_key) (s : st) : st :=
  match key with
  | inl k => set_trace_temp s (delete_elem (trace_temp s) k)
  | inr m => set_temp s (delete_elem (temp s) m)
  end.

Definition copy_of (key : op_key) (pe : smb_partial_event) (s : st) : smb_partial_event :=
  default pe (in_flight key s).
Definition is_denied (c : Z) (s : st) : bool :=
  match bpf_map_lookup_elem (denylist s) c with Some _ => true | None => false end.

(** One helper call. *)
Definition one (p : calls) (s : st) : calls * st :=
  match p with
  | Return => (Return, s)
  | Read k => (k, s)
  | Denied c k => (k (is_denied c s), s)
  | Lookup key k => (k (in_flight key s), s)
  | Copy key pe k => (k (copy_of key pe s), s)
  | Update key pe => (Return, update_key key pe s)
  | Delete key k => (k, delete_key key s)
  | Reserve None => (Return, s)
  | Reserve (Some x) => (Submit, submit s x.1 x.2)
  | Submit => (Return, s)
  end.

(** All of them, undisturbed. *)
Fixpoint run_calls (p : calls) (s : st) : st :=
  match p with
  | Return => s
  | Read k => run_calls k s
  | Denied c k => run_calls (k (is_denied c s)) s
  | Lookup key k => run_calls (k (in_flight key s)) s
  | Copy key pe k => run_calls (k (copy_of key pe s)) s
  | Update key pe => update_key key pe s
  | Delete key k => run_calls k (delete_key key s)
  | Reserve None => s
  | Reserve (Some x) => submit s x.1 x.2
  | Submit => s
  end.

(** [complete_trace_event] and [probe_exit]. *)
Definition completion_calls (e : env) (key : op_key) : calls :=
  Lookup key (fun o =>
    match o with
    | None => Return
    | Some pe =>
        Copy key pe (fun partial =>
          let now := ktime e 0 in
          let latency := u64 (now - metric partial) in
          Delete key
            (if latency <? min_lat_ns ro then Return
             else
               Reserve
                 match reserve e 0 with
                 | None => None
                 | Some slot =>
                     Some (Event (u32 (Z.shiftr (pid_tgid e) 32)) (smbcommand partial) SMBSLOWER
                             (ev_pad slot) now (mid partial) latency (comm e), get_flags ro e)
                 end))
    end).

Definition start_calls (c : Z) (key : op_key) (pe : smb_partial_event) : calls :=
  Denied c (fun denied => if denied then Return else Update key pe).

(** A return probe gets a null pointer when the allocation failed. *)
Definition alloc_calls (p : alloc_prog) (km : cifs_mem) (e : env) (mid_struct : Z) : calls :=
  let go :=
    start_calls (alloc_command ly p km mid_struct) (inr mid_struct)
      (SmbPartial (alloc_command ly p km mid_struct) (ktime e 0) (alloc_mid ly p km mid_struct)) in
  match p with
  | AllocFexit => go
  | _ => if mid_struct =? 0 then Return else go
  end.

(** The entry that a release program computes from its argument. *)
Definition released (p : release_prog) (arg : Z) : Z :=
  match p with
  | ReleaseKrefFentry | ReleaseKrefKprobe | ReleaseLegacyFentry | ReleaseLegacyKprobe =>
      u64 (arg - off_refcount ly)
  | ReleaseRhel810 | ReleaseRhel810_553_134 => u64 (arg - RHEL_810_REFCOUNT_OFFSET)
  | _ => arg
  end.

Definition label_calls (l : label) : calls :=
  Read match l with
       | CmdEnter e ctx =>
           start_calls (cmd ctx) (inl (trace_key_of e (tid ctx) (sesid ctx) (ctx_mid ctx)))
             (SmbPartial (cmd ctx) (ktime e 0) (ctx_mid ctx))
       | CmdDone e ctx => completion_calls e (inl (trace_key_of e (tid ctx) (sesid ctx) (ctx_mid ctx)))
       | CmdErr e ctx =>
           completion_calls e (inl (trace_key_of e (err_tid ctx) (err_sesid ctx) (err_mid ctx)))
       | Alloc p km e m => alloc_calls p km e m
       | Release p e m => completion_calls e (inr (released p (release_arg ly p m)))
       end.

(** ** Undisturbed, the calls are the program *)

Abbreviation step := (SmbslowerTrace.step ro ly).
Abbreviation label_ok := SmbslowerTrace.label_ok.

Lemma smb_calls_one p s : run_calls (one p s).1 (one p s).2 = run_calls p s.
Proof. by destruct p as [| | | | | | |[]|]. Qed.

Lemma smb_run_start c key pe s :
  run_calls (start_calls c key pe) s =
  match bpf_map_lookup_elem (denylist s) c with Some _ => s | None => update_key key pe s end.
Proof.
  unfold start_calls. cbn [run_calls]. unfold is_denied.
  by destruct (bpf_map_lookup_elem (denylist s) c).
Qed.

Lemma smb_run_completion e key s :
  run_calls (completion_calls e key) s =
  match key with inl k => complete_trace ro e k s | inr m => complete_mid ro e m s end.
Proof.
  unfold completion_calls, complete_trace, complete_mid, reported. cbn [run_calls].
  destruct (in_flight key s) as [pe|] eqn:Hf.
  - cbn [run_calls]. unfold copy_of. rewrite Hf. cbn [default].
    destruct key as [k|m]; cbn [in_flight] in Hf; rewrite Hf, Z.leb_antisym;
      destruct (_ <? _); cbn [negb run_calls delete_key]; destruct (reserve e 0); cbn; by rewrite ?app_nil_r.
  - destruct key as [k|m]; cbn [in_flight] in Hf; by rewrite Hf.
Qed.

Lemma released_entry p m : fits_u 64 m -> released p (release_arg ly p m) = m.
Proof. intros Hm. destruct p; cbn; try done; by apply container_of. Qed.

Lemma smb_run_label l s : label_ok l -> run_calls (label_calls l) s = step s l.
Proof.
  destruct l as [e x|e x|e x|p km e m|p e m]; intros Hl; cbn [label_calls run_calls SmbslowerTrace.step].
  - rewrite smb_run_start. done.
  - rewrite smb_run_completion. symmetry. apply complete_trace_event_spec.
  - rewrite smb_run_completion. symmetry. apply complete_trace_event_spec.
  - destruct Hl as (_ & Hm & _). rewrite run_alloc_spec by lia.
    transitivity (run_calls (start_calls (alloc_command ly p km m) (inr m)
      (SmbPartial (alloc_command ly p km m) (ktime e 0) (alloc_mid ly p km m))) s);
      [|by rewrite smb_run_start].
    assert (m =? 0 = false) as Hz by lia. unfold alloc_calls. destruct p; by rewrite ?Hz.
  - destruct Hl as (_ & Hm). assert (fits_u 64 m) by (unfold fits_u; lia).
    by rewrite run_release_spec, smb_run_completion, released_entry.
Qed.

(** ** What the calls of a program touch *)

Definition is_return (p : calls) : bool := match p with Return => true | _ => false end.
Definition is_committed (p : calls) : bool :=
  match p with Return | Reserve _ | Submit => true | _ => false end.

(** The events that a program sends after its commit. *)
Definition tail (p : calls) : list (event * Z) :=
  match p with Reserve (Some x) => [x] | _ => [] end.

Fixpoint touches (key : op_key) (p : calls) : Prop :=
  match p with
  | Return | Reserve _ | Submit => True
  | Read k => touches key k
  | Denied _ k => forall b, touches key (k b)
  | Lookup key' k => key' = key /\ forall o, touches key (k o)
  | Copy key' _ k => key' = key /\ forall pe, touches key (k pe)
  | Update key' _ => key' = key
  | Delete key' k => key' = key /\ is_committed k = true
  end.

Lemma smb_start_within key c pe : touches key (start_calls c key pe).
Proof. by intros []. Qed.

Lemma smb_completion_within key e : touches key (completion_calls e key).
Proof.
  split; [done|]. intros [pe|]; [|done]. split; [done|]. intros pe'. split; [done|].
  by destruct (_ <? _).
Qed.

Lemma smb_label_within l : label_ok l -> touches (label_key l) (label_calls l).
Proof.
  destruct l as [e x|e x|e x|p km e m|p e m]; intros Hl; cbn [label_calls label_key touches];
    try apply smb_start_within; try apply smb_completion_within.
  - unfold alloc_calls. destruct p; try destruct (m =? 0); first [done|apply smb_start_within].
  - destruct Hl as (_ & Hm). rewrite released_entry by (unfold fits_u; lia).
    apply smb_completion_within.
Qed.

Lemma smb_committed_touches key p : is_committed p = true -> touches key p.
Proof. by destruct p. Qed.

Lemma smb_one_within key p s : touches key p -> touches key (one p s).1.
Proof.
  destruct p as [| | | | | | |[]|]; cbn; try done; try naive_solver.
  intros [_ Hc]. by apply smb_committed_touches.
Qed.

(** ** The programs as Interleave wants them *)

(** No two programs work on the same command or entry at a time; a program
    commits when it stores or deletes its record. *)
#[export] Instance smb_probes : Probes st calls label op_key := {|
  start := label_calls; Interleave.one := one; returned := is_return; committed := is_committed;
  run_all := run_calls; Interleave.step := step; thread := label_key; uses := fun _ => None |}.

(** The three maps, and what a firing reads of them. *)
Definition core (s : st) := (denylist s, temp s, trace_temp s).
Definition view (l : label) (c : hmap Z Z * hmap Z smb_partial_event * hmap smb_trace_key smb_partial_event) :=
  (c.1.1, in_flight (label_key l) (St c.1.1 c.1.2 c.2 [])).

Lemma in_flight_core key s : in_flight key (St (denylist s) (temp s) (trace_temp s) []) = in_flight key s.
Proof. by destruct key. Qed.

Lemma smb_one_core key p s :
  touches key p -> is_committed p = false -> is_committed (one p s).1 = false ->
  core (one p s).2 = core s.
Proof. destruct p; try done. cbn. intros [_ Hc] _. congruence. Qed.

Lemma smb_one_agrees key p x y :
  touches key p -> denylist x = denylist y -> in_flight key x = in_flight key y ->
  (one p x).1 = (one p y).1 /\
  (exists ev, aodrb (one p x).2 = aodrb x ++ ev /\ aodrb (one p y).2 = aodrb y ++ ev) /\
  (core x = core y -> core (one p x).2 = core (one p y).2).
Proof.
  intros Hw Hd Hf.
  assert (exists ev, aodrb x = aodrb x ++ ev /\ aodrb y = aodrb y ++ ev) as Hnil
    by (exists []; by rewrite !app_nil_r).
  destruct p as [|k|c k|key' k|key' pe k|key' pe|key' k|[[ev fl]|]|]; cbn in Hw |- *; try done.
  - unfold is_denied. by rewrite Hd.
  - destruct Hw as [-> _]. by rewrite Hf.
  - destruct Hw as [-> _]. unfold copy_of. by rewrite Hf.
  - subst key'. split_and!; [done|by destruct key|]. intros [= H1 H2 H3].
    destruct key; unfold core; cbn; by rewrite H1, H2, H3.
  - destruct Hw as [-> _]. split_and!; [done|by destruct key|]. intros [= H1 H2 H3].
    destruct key; unfold core; cbn; by rewrite H1, H2, H3.
  - split_and!; [done|by exists [(ev, fl)]|]. intros [= H1 H2 H3]. unfold core, submit. cbn. by rewrite H1, H2, H3.
Qed.

Context {RL : BpfRuntimeLaws RT}.

#[export] Instance smb_probes_laws :
  ProbesLaws smb_probes aodrb core view (fun _ _ => tt) (fun l => touches (label_key l)) tail
    (fun _ _ => True) label_ok.
Proof.
  split; cbn [start Interleave.one returned committed run_all Interleave.step thread uses smb_probes].
  - apply smb_label_within.
  - done.
  - intros l s. apply smb_run_label.
  - apply smb_calls_one.
  - intros l p s. apply smb_one_within.
  - intros l p s. apply smb_one_core.
  - done.
  - done.
  - intros l p x y U _ Ht _ _ _ [= Hd Hf] _. rewrite !in_flight_core in Hf.
    destruct (smb_one_agrees _ p x y Ht Hd Hf) as (H1 & H2 & H3). done.
  - intros l [| | | | | | |[[ev fl]|]|] s _ Hp; try done; cbn; split_and!; try done;
      first [by exists [(ev, fl)]|exists []; by rewrite app_nil_r].
  - intros l [| | | | | | |[[ev fl]|]|] s _ _ Hp; try done; cbn; split_and!; try done; by rewrite app_nil_r.
  - by intros [].
  - intros l u s Hl Hne. unfold view, core. cbn [fst snd]. rewrite !in_flight_core.
    by rewrite (smb_step_denylist ro ly), (in_flight_other ly ro).
Qed.

(** Atomicity: whatever the order in which the helper calls of concurrent
    programs happen, once all that started have finished, the maps are those, and
    the events those in some order, of the same programs one after the other as
    they stored or deleted their records. *)
Theorem smb_run_atomic acts s0 s hist :
  Forall label_ok (begun acts) -> run acts (Config s0 ∅ []) = Some (Config s ∅ hist) ->
  (forall k, of_thread k hist = of_thread k (begun acts)) /\
  let a := SmbslowerTrace.exec ro ly hist s0 in
  core s = core a /\ aodrb s ≡ₚ aodrb a.
Proof.
  intros Hok Hr. destruct (run_linear _ _ _ _ _ _ _ _ acts s0 s hist Hok
    (calm_no_cells (PR := smb_probes) _ acts _ (fun _ => eq_refl) (fun _ _ => I)) Hr) as (Ho & H1 & _ & H3).
  done.
Qed.
End Micro.
