(* ===== verification/SmbslowerHistory.v ===== *)
(** * smbslower: what a whole run reports

    The reports of smbslower as a function of its command line and of what
    happened, without maps: [reports] looks back, from every completion and
    release, for the operation that it ends.  The theorem: that is what the
    ring holds after any run that its maps are large enough for. *)

From S2P Require Import Prelude Bpf BpfModel History CLib AodEvent LowerFilter LowerOptions.
From S2P Require Import SmbslowerMain SmbslowerBpf SmbslowerTrace SmbslowerEnd.
From S2P Require Import Interleave SmbslowerMicro.

Section Reports.
Context {RT : BpfRuntime}.
Variable ro : rodata.
Variable ly : cifs_layout.
Variable traced : Z -> Prop.
Context `{!forall c, Decision (traced c)}.

(** A command that is not traced starts nothing; the entry of the tracepoint
    replaces what was in flight under its key, an allocation does not. *)
Definition label_effect (l : label) : effect smb_partial_event :=
  match starts ly l with
  | None => Close
  | Some (c, i) =>
      if decide (traced c) then
        let pe := SmbPartial c (ktime (label_env l) 0) i in
        match label_key l with inl _ => Open pe | inr _ => OpenNew pe end
      else Keep
  end.

(** The effects of a run, newest first, on commands and on entries. *)
Definition commands (ls : list label) : list (smb_trace_key * effect smb_partial_event) :=
  omap (fun l => match label_key l with inl k => Some (k, label_effect l) | inr _ => None end) ls.
Definition entries (ls : list label) : list (Z * effect smb_partial_event) :=
  omap (fun l => match label_key l with inl _ => None | inr m => Some (m, label_effect l) end) ls.

Definition ended (l : label) (ls : list label) : option smb_partial_event :=
  match label_key l with
  | inl k => pending k (commands ls)
  | inr m => pending m (entries ls)
  end.

(** The reports of a run, given newest first. *)
Fixpoint reports (ls : list label) : list (event * Z) :=
  match ls with
  | [] => []
  | l :: ls =>
      reports ls ++
      match starts ly l, ended l ls with
      | None, Some pe => reported ro (label_env l) pe
      | _, _ => []
      end
  end.

Context {RL : BpfRuntimeLaws RT}.

Record tells (s : st) (n : nat) (ls : list label) : Prop := {
  tells_commands : follows (trace_temp s) n (commands ls);
  tells_entries : follows (temp s) n (entries ls);
  tells_reports : aodrb s = reports ls;
  tells_denylist : forall c, 0 <= c -> bpf_map_lookup_elem (denylist s) c = None <-> traced c;
}.

(** Both maps had room whenever something happened. *)
Definition roomy (n : nat) (ls : list label) : Prop :=
  within n (commands ls) /\ within n (entries ls).

Lemma smb_roomy_app n ls1 ls2 : roomy n (ls1 ++ ls2) -> roomy n ls2.
Proof.
  unfold roomy, commands, entries. rewrite !omap_app. intros [H1 H2].
  split; by eapply within_app.
Qed.

(** The denylist decides what is traced. *)
Lemma denied_traced s n ls c {A} (x y : A) :
  tells s n ls -> 0 <= c ->
  match bpf_map_lookup_elem (denylist s) c with Some _ => x | None => y end =
  if decide (traced c) then y else x.
Proof.
  intros Ht Hc. pose proof (tells_denylist _ _ _ Ht c Hc).
  destruct (bpf_map_lookup_elem (denylist s) c), (decide (traced c)); naive_solver.
Qed.

Lemma tells_complete_mid e m s n ls l :
  tells s n ls -> starts ly l = None -> label_key l = inr m -> label_env l = e ->
  tells (complete_mid ro e m s) n (l :: ls).
Proof.
  intros [Hc He Hr Hd] Hs Hk <-.
  assert (commands (l :: ls) = commands ls) as Hcs by (cbn; by rewrite Hk).
  assert (entries (l :: ls) = (m, Close) :: entries ls) as Hes.
  { cbn. rewrite Hk. unfold label_effect. by rewrite Hs. }
  unfold complete_mid. destruct (bpf_map_lookup_elem (temp s) m) as [pe|] eqn:Hl;
    split; cbn [trace_temp temp aodrb denylist]; rewrite ?Hcs, ?Hes; try done.
  - by apply follows_close.
  - cbn [reports]. unfold ended. rewrite Hs, Hk, <- (follows_lookup _ _ _ He), Hl. by rewrite Hr.
  - apply follows_absent; [done|]. by rewrite <- (follows_lookup _ _ _ He).
  - cbn [reports]. unfold ended. rewrite Hs, Hk, <- (follows_lookup _ _ _ He), Hl.
    by rewrite app_nil_r.
Qed.

Lemma tells_complete_trace e k s n ls l :
  tells s n ls -> starts ly l = None -> label_key l = inl k -> label_env l = e ->
  tells (complete_trace ro e k s) n (l :: ls).
Proof.
  intros [Hc He Hr Hd] Hs Hk <-.
  assert (entries (l :: ls) = entries ls) as Hes by (cbn; by rewrite Hk).
  assert (commands (l :: ls) = (k, Close) :: commands ls) as Hcs.
  { cbn. rewrite Hk. unfold label_effect. by rewrite Hs. }
  unfold complete_trace. destruct (bpf_map_lookup_elem (trace_temp s) k) as [pe|] eqn:Hl;
    split; cbn [trace_temp temp aodrb denylist]; rewrite ?Hcs, ?Hes; try done.
  - by apply follows_close.
  - cbn [reports]. unfold ended. rewrite Hs, Hk, <- (follows_lookup _ _ _ Hc), Hl. by rewrite Hr.
  - apply follows_absent; [done|]. by rewrite <- (follows_lookup _ _ _ Hc).
  - cbn [reports]. unfold ended. rewrite Hs, Hk, <- (follows_lookup _ _ _ Hc), Hl.
    by rewrite app_nil_r.
Qed.

Lemma smb_tells_step s n ls l :
  tells s n ls -> SmbslowerTrace.label_ok l -> roomy n (l :: ls) ->
  tells (SmbslowerTrace.step ro ly s l) n (l :: ls).
Proof.
  intros Ht Hl [Hn1 Hn2].
  destruct l as [e x|e x|e x|p km e m|p e m]; cbn [SmbslowerTrace.step].
  - unfold trace_smb3_cmd_enter. rewrite (denied_traced s n ls) by (done || apply Hl).
    destruct Ht as [Hc He Hr Hd].
    split; cbn [commands entries reports omap list_omap label_key starts] in *;
      fold (commands ls) (entries ls) in *; unfold label_effect in *;
      cbn [starts label_key label_env] in *;
      case_decide; cbn [trace_temp temp aodrb denylist set_trace_temp]; rewrite ?app_nil_r; try done.
    + by apply follows_open.
    + by apply follows_keep.
  - unfold trace_smb3_cmd_done. rewrite complete_trace_event_spec. by apply tells_complete_trace.
  - unfold trace_smb3_cmd_err. rewrite complete_trace_event_spec. by apply tells_complete_trace.
  - destruct Hl as (_ & Hm & Hcmd & _). rewrite run_alloc_spec by lia.
    rewrite (denied_traced s n ls) by (done || apply Hcmd).
    destruct Ht as [Hc He Hr Hd].
    split; cbn [commands entries reports omap list_omap label_key starts] in *;
      fold (commands ls) (entries ls) in *; unfold label_effect in *;
      cbn [starts label_key label_env] in *;
      case_decide; cbn [trace_temp temp aodrb denylist set_temp]; rewrite ?app_nil_r; try done.
    + by apply follows_open_new.
    + by apply follows_keep.
  - destruct Hl as (_ & Hm). rewrite run_release_spec by (unfold fits_u; lia).
    by apply tells_complete_mid.
Qed.

Lemma smb_tells_exec ls s n past :
  tells s n past -> Forall SmbslowerTrace.label_ok ls -> roomy n (rev ls ++ past) ->
  tells (SmbslowerTrace.exec ro ly ls s) n (rev ls ++ past).
Proof.
  intros Ht Hok. revert s past Ht. induction Hok as [|l ls Hl Hok IH]; intros s past Ht; [done|].
  cbn [rev]. rewrite <- app_assoc. intros Hn. apply (IH _ (l :: past)); [|done].
  apply smb_tells_step; [done|done|by eapply smb_roomy_app].
Qed.

(** A run that is not longer than the maps has room. *)
Lemma smb_roomy_length n ls : (length ls <= n)%nat -> roomy n ls.
Proof.
  intros Hn. split; apply within_length; (etransitivity; [apply omap_length_le|exact Hn]).
Qed.
End Reports.

Section CommandLine.
Context {RT : BpfRuntime} {RL : BpfRuntimeLaws RT}.

(** The commands that a command line traces. *)
Definition traced_by (a : args) (c : Z) : Prop := c < 20 -> allowed 20 a (Z.to_nat c).

#[export] Instance traced_by_decision a c : Decision (traced_by a c).
Proof. unfold traced_by. apply _. Defined.

(** After the launch, the ring holds what the history says. *)
Lemma smb_exec_reports ok a sys lib f ro s0 ly ls :
  launch ok a sys lib = Some (f, ro, s0) ->
  Forall label_ok ls -> roomy ly (traced_by a) (Z.to_nat (MAX_ENTRIES * 24)) (rev ls) ->
  aodrb (exec ro ly ls s0) =
  reports (Rodata (limit_ns a) (wakeup a)) ly (traced_by a) (rev ls).
Proof.
  intros (_ & <- & m & -> & Hm)%smb_launch_spec Hok Hn.
  assert (tells ro ly (traced_by a) (boot m) (Z.to_nat (MAX_ENTRIES * 24)) []) as H0.
  { split; [apply follows_create|apply follows_create|done|exact Hm]. }
  destruct (smb_tells_exec ro ly (traced_by a) ls _ _ [] H0 Hok) as [_ _ Hr _]; [by rewrite app_nil_r|].
  by rewrite app_nil_r in Hr.
Qed.

(** C3. smbslower as a function of the history: after the loader has set up a
    kernel for a command line, the ring holds, after any run of the programs
    on any number of sessions and entries in which less than 49152 of each are
    in flight at a time, exactly the reports of the operations that the run ends, in
    the order in which they end: for each completion or release, the operation
    that the history has open under its key, with the command and the message id
    that its start read and with its latency, when the command is traced and the
    latency reaches -m.  What the kernel's memory holds may change with every
    firing: the address of a released entry is used again for other commands.
    The key of a command is its tree, session and message id and the padding of
    the key. *)
Theorem smbslower_history ok a sys lib f ro s0 ly ls :
  launch ok a sys lib = Some (f, ro, s0) ->
  Forall label_ok ls -> roomy ly (traced_by a) (Z.to_nat (MAX_ENTRIES * 24)) (rev ls) ->
  aodrb (exec ro ly ls s0) =
  reports (Rodata (limit_ns a) (wakeup a)) ly (traced_by a) (rev ls).
Proof. apply smb_exec_reports. Qed.

(** C7. Concurrent programs of smbslower as a function of the history: when the
    helper calls of the programs of any number of commands and entries interleave
    as they like, those of one command or entry one program after the other
    (the kernel completes a command after it has started it, and frees an entry
    after the release program has run), then once all have finished there is an order of them such that the ring
    holds, in some order, exactly the reports that the history has in that order:
    a completion reserves its place in the ring and sends its event after it has
    deleted its record, while the programs of other commands and entries run, and
    an address that was released is used again for entries with other commands
    and message ids; still no event is lost, reported twice or given the data of
    another operation. *)
Theorem smb_concurrent_history ok a sys lib f ro s0 ly acts s hist :
  launch ok a sys lib = Some (f, ro, s0) ->
  Forall label_ok (begun acts) ->
  run (PR := smb_probes ro ly) acts (Config s0 ∅ []) = Some (Config s ∅ hist) ->
  roomy ly (traced_by a) (Z.to_nat (MAX_ENTRIES * 24)) (rev hist) ->
  (forall k, of_thread (PR := smb_probes ro ly) k hist = of_thread (PR := smb_probes ro ly) k (begun acts)) /\
  aodrb s ≡ₚ reports (Rodata (limit_ns a) (wakeup a)) ly (traced_by a) (rev hist).
Proof.
  intros Hl Hok Hr Hn. destruct (smb_run_atomic ro ly acts s0 s hist Hok Hr) as (Ho & _ & Hev).
  split; [done|]. rewrite Hev. rewrite (smb_exec_reports ok a sys lib f); [done|done| |done].
  by eapply (in_order_ok (PR := smb_probes ro ly)).
Qed.
End CommandLine.

(** [smbslower -m 20 -c 5,6] with two entries in flight: one release comes after
    20 milliseconds, the other after 10.  The address of the first is used again
    for a command 6. *)
Definition mid_b : Z := 0xffff888000002000.
Definition demo_labels : list label :=
  [Alloc AllocRhel810 (entries_hold 5 42) (at_ns 7 1000) mid_a; Alloc AllocRhel810 (entries_hold 5 42) (at_ns 7 10001000) mid_b;
   Release ReleaseRhel810 (at_ns 9 20001000) mid_b; Release ReleaseRhel810 (at_ns 9 20001000) mid_a;
   Alloc AllocRhel810 (entries_hold 6 43) (at_ns 7 21001000) mid_a;
   Release ReleaseRhel810 (at_ns 9 51001000) mid_a].

Lemma smbslower_history_witness :
  aodrb (exec demo_rodata demo_layout demo_labels demo_state) =
  [(Event 9 5 SMBSLOWER 0 20001000 42 20000000 (pad 16 (bytes "demo")), 0);
   (Event 9 6 SMBSLOWER 0 51001000 43 30000000 (pad 16 (bytes "demo")), 0)].
Proof.
  rewrite (smbslower_history true demo_args rhel_8_10 (Outcomes true 0 0) (selected rhel_8_10)
    demo_rodata demo_state demo_layout demo_labels).
  - vm_compute. reflexivity.
  - apply (smb_launch_eq true demo_args rhel_8_10 demo_options); vm_compute; reflexivity.
  - unfold demo_labels. repeat apply Forall_cons_2; try apply Forall_nil_2;
      first [apply alloc_ok|apply entry_ok]; split; vm_compute; congruence.
  - apply smb_roomy_length; [exact gmap_runtime_laws|]. unfold MAX_ENTRIES. cbn [rev demo_labels length app]. lia.
Defined.

(** Two entries whose programs overlap: the release of the second deletes its
    record, the one of the first runs through, and the second sends its event
    after it. *)
Definition demo_acts : list (action label op_key) :=
  let alloc_a := Alloc AllocRhel810 (entries_hold 5 42) (at_ns 7 1000) mid_a in
  let alloc_b := Alloc AllocRhel810 (entries_hold 5 42) (at_ns 7 10001000) mid_b in
  let release_a := Release ReleaseRhel810 (at_ns 9 20001000) mid_a in
  let release_b := Release ReleaseRhel810 (at_ns 8 40001000) mid_b in
  let a := Go (inr mid_a) in
  let b := Go (inr mid_b) in
  [Begin alloc_a; a; Begin alloc_b; a; b; b; a; b; Begin release_b; b; Begin release_a; b; a; b; b;
   a; a; a; a; b; a; b].

Definition demo_end : config st calls label op_key :=
  end_of (PR := smb_probes demo_rodata demo_layout) demo_acts (Config demo_state ∅ []).

Lemma smb_concurrent_history_witness :
  map (fun x => ev_pid x.1) (aodrb (machine demo_end)) = [9; 8] /\
  aodrb (machine demo_end) ≡ₚ
    reports (Rodata 20000000 0) demo_layout (traced_by demo_args) (rev (finished demo_end)) /\
  map (fun x => ev_pid x.1)
    (reports (Rodata 20000000 0) demo_layout (traced_by demo_args) (rev (finished demo_end))) = [8; 9].
Proof.
  split; [vm_compute; reflexivity|]. split; [|vm_compute; reflexivity].
  destruct (smb_concurrent_history true demo_args rhel_8_10 (Outcomes true 0 0) (selected rhel_8_10)
    demo_rodata demo_state demo_layout demo_acts (machine demo_end) (finished demo_end)) as [_ H].
  - apply (smb_launch_eq true demo_args rhel_8_10 demo_options); vm_compute; reflexivity.
  - cbn [begun omap list_omap demo_acts]. repeat apply Forall_cons_2; try apply Forall_nil_2;
      first [apply alloc_ok|apply entry_ok]; split; vm_compute; congruence.
  - apply run_ends. vm_compute. reflexivity.
  - apply smb_roomy_length; [exact gmap_runtime_laws|].
    assert (length (rev (finished demo_end)) = 4%nat) as -> by (vm_compute; reflexivity).
    unfold MAX_ENTRIES. lia.
  - exact H.
Defined.
