(* ===== verification/NfsslowerEnd.v ===== *)
(** * nfsslower from the command line to the ring

    The loader (LowerFilter, LowerOptions, NfsslowerMain) and the kernel program
    (NfsslowerBpf) together: [launch] is what a command line sets up on a
    kernel, and the theorem says which tasks are reported when they exit. *)

From S2P Require Import Prelude Bpf BpfModel CLib AodEvent NfsiosnoopBpf NfsslowerBpf.
From S2P Require Import NfsslowerMain LowerFilter LowerOptions.

Section Launch.
Context {RT : BpfRuntime}.

(** The kernel program's maps after the load, with the denylist [m]. *)
Definition boot (m : hmap Z Z) : st := St m (map_create (Z.to_nat (MAX_ENTRIES * 24))) [].

(** [main] up to its wait, with what opening, loading and attaching return: the
    programs, the constants and the maps of the kernel program when the
    programs are attached; [None] when the loader stops before. *)
Definition launch (strdup_ok : bool) (a : args) (setup_attaches exit_attaches opened_ok : bool)
    (load attach : Z) : option (programs * NfsslowerBpf.rodata * st) :=
  match parse_args 70 false strdup_ok a (initial_options 70) with
  | Next o =>
      match NfsslowerMain.main opened_ok load attach o (map_create 70) with
      | (_, Some m) =>
          Some (NfsslowerMain.select_programs setup_attaches exit_attaches,
            NfsslowerBpf.Rodata (rodata_of o).1 (rodata_of o).2, boot m)
      | (_, None) => None
      end
  | _ => None
  end.

Context {RL : BpfRuntimeLaws RT}.

Lemma nfs_launch_spec ok a se ee opened load attach p ro s :
  launch ok a se ee opened load attach = Some (p, ro, s) ->
  p = NfsslowerMain.select_programs se ee /\
  ro = NfsslowerBpf.Rodata (limit_ns a) (wakeup a) /\
  exists m, s = boot m /\ forall c, 0 <= c ->
    bpf_map_lookup_elem m c = None <-> (c < 70 -> allowed 70 a (Z.to_nat c)).
Proof.
  unfold launch, main, nfsslower_update_denylist_map.
  destruct (parse_args 70 false ok a (initial_options 70)) as [o| |] eqn:Hp; [|done..].
  destruct (denylist_allowed 70 false ok a o Hp) as (m & -> & Hm).
  pose proof (rodata_command_line 70 false ok a o Hp) as ->.
  destruct opened, (load =? 0); cbn; try done.
  destruct (attach =? 0); cbn; [|done]. intros [= <- <- <-].
  split_and!; [done|done|]. exists m. split; [done|exact Hm].
Qed.

Lemma nfs_launch_eq ok a se ee o :
  parse_args 70 false ok a (initial_options 70) = Next o ->
  (nfsslower_update_denylist_map o (map_create 70)).1 = 0 ->
  launch ok a se ee true 0 0 = Some (NfsslowerMain.select_programs se ee,
    NfsslowerBpf.Rodata (rodata_of o).1 (rodata_of o).2,
    boot (nfsslower_update_denylist_map o (map_create 70)).2).
Proof.
  intros Hp Hd. unfold launch, main. rewrite Hp.
  destruct (nfsslower_update_denylist_map o (map_create 70)) as [r m]. cbn in *. by rewrite Hd.
Qed.

Lemma nfs_boot_space m : (size (map_view (temp (boot m))) < map_max (temp (boot m)))%nat.
Proof. cbn [boot temp]. rewrite view_create, max_create, map_size_empty. unfold MAX_ENTRIES. lia. Qed.
End Launch.

(** ** A task from its first setup to its exit *)

Section Task.
Context {RT : BpfRuntime} {RL : BpfRuntimeLaws RT}.
Variable ro : NfsslowerBpf.rodata.

Abbreviation step := (NfsslowerBpf.step ro).
Abbreviation exec := (NfsslowerBpf.exec ro).

(** The procedure of a task, and its setups between its first and its exit,
    which are for the same procedure. *)
Definition procedure (rm : rpc_mem) (t : Z) : Z := u16 (p_statidx rm t).

Definition only_retries (rm : rpc_mem) (t : Z) (l : label) : Prop :=
  label_task l = t -> exists rm' e, l = Setup rm' e t /\ procedure rm' t = procedure rm t.

Lemma only_retries_setups rm t ls :
  Forall (only_retries rm t) ls -> Forall (fun l => label_task l = t -> exists rm e, l = Setup rm e t) ls.
Proof. apply Forall_impl. intros l Hl Ht. destruct (Hl Ht) as (rm' & e & -> & _). eauto. Qed.

Lemma nfs_step_denylist s l : denylist (step s l) = denylist s.
Proof.
  destruct l as [rm e t|rm r e t]; cbn [NfsslowerBpf.step].
  - unfold NfsslowerBpf.nfs4_setup_sequence_entry, probe_entry. by case_match.
  - unfold NfsslowerBpf.rpc_done_entry. rewrite nfs_probe_exit_spec. by case_match.
Qed.

Lemma nfs_exec_denylist ls s : denylist (exec ls s) = denylist s.
Proof.
  revert s. induction ls as [|l ls IH]; intros s; [done|].
  change (exec (l :: ls) s) with (exec ls (step s l)). rewrite IH. apply nfs_step_denylist.
Qed.

(** The setups of a task with a denied procedure leave no record. *)
Lemma nfs_exec_denied rm ls s t :
  bpf_map_lookup_elem (denylist s) (procedure rm t) <> None ->
  Forall (only_retries rm t) ls -> bpf_map_lookup_elem (temp s) t = None ->
  bpf_map_lookup_elem (temp (exec ls s)) t = None.
Proof.
  intros Hd Hls. revert s Hd. induction Hls as [|l ls Hl Hls IH]; intros s Hd Hs; [done|].
  change (exec (l :: ls) s) with (exec ls (step s l)). apply IH.
  { by rewrite nfs_step_denylist. }
  destruct (Z.eq_dec (label_task l) t) as [Ht|Ht]; [|by rewrite nfs_step_other].
  destruct (Hl Ht) as (rm' & e & -> & Hp). cbn [NfsslowerBpf.step].
  unfold NfsslowerBpf.nfs4_setup_sequence_entry, probe_entry.
  change (u16 (p_statidx rm' t)) with (procedure rm' t). rewrite Hp. by case_match.
Qed.

(** What the map holds for a task that did not exit yet. *)
Lemma nfs_in_flight rm e t mids s :
  map_view (temp s) !! t = None -> (size (map_view (temp s)) < map_max (temp s))%nat ->
  Forall (only_retries rm t) mids ->
  bpf_map_lookup_elem (temp (exec (Setup rm e t :: mids) s)) t =
  match bpf_map_lookup_elem (denylist s) (procedure rm t) with
  | Some _ => None
  | None => Some (NfsPartial (procedure rm t) (ktime e 0))
  end.
Proof.
  intros Habs Hroom Hmids.
  destruct (bpf_map_lookup_elem (denylist s) (procedure rm t)) as [v|] eqn:Hd.
  - apply (nfs_exec_denied rm); [by rewrite Hd| |by rewrite lookup_view].
    apply Forall_cons_2; [by intros _; eauto|done].
  - change (exec (Setup rm e t :: mids) s) with (exec mids (step s (Setup rm e t))).
    apply (nfs_exec_keeps ro); [by eapply only_retries_setups|]. cbn [NfsslowerBpf.step].
    unfold NfsslowerBpf.nfs4_setup_sequence_entry, probe_entry. change (u16 (p_statidx rm t)) with (procedure rm t).
    rewrite Hd. cbn [NfsslowerBpf.set_temp temp].
    rewrite lookup_view, update_noexist_view by done. apply lookup_insert_eq.
Qed.
End Task.

(** ** From the command line to the ring *)

Section CommandLine.
Context {RT : BpfRuntime} {RL : BpfRuntimeLaws RT}.

(** C12. nfsslower, from its command line to the ring: when the loader has set
    up a kernel for a command line, then a task for which nothing was in
    flight and there was room, that sets up its sequence once or more often, each
    time for the same procedure, and then exits, whatever the other tasks do, is reported at its exit
    exactly when -c and -x allow its procedure and it took, since its first
    setup, as long as -m says; whether it is reported or not, nothing of it
    is left; and the probes that ran are the fentry programs for the functions
    they can attach to and the kprobes for the others. *)
Theorem nfsslower_command_line ok a se ee opened load attach p ro s0 ls rm e mids rm' reused e' t slot :
  launch ok a se ee opened load attach = Some (p, ro, s0) ->
  env_ok e -> env_ok e' ->
  let s := exec ro ls s0 in
  bpf_map_lookup_elem (temp s) t = None -> (size (map_view (temp s)) < map_max (temp s))%nat ->
  Forall (only_retries rm t) mids ->
  ktime e 0 <= ktime e' 0 -> reserve e' 0 = Some slot -> (forall pe, reused pe = pe) ->
  let latency := ktime e' 0 - ktime e 0 in
  let s1 := exec ro (ls ++ Setup rm e t :: mids) s0 in
  let s2 := exec ro (ls ++ Setup rm e t :: mids ++ [Exit rm' reused e' t]) s0 in
  aodrb s2 = aodrb s1 ++
    (if decide ((procedure rm t < 70 -> allowed 70 a (Z.to_nat (procedure rm t))) /\
                limit_ns a <= latency) then
       [(Event (u32 (Z.shiftr (pid_tgid e') 32)) (procedure rm t) NFSSLOWER (ev_pad slot)
           (ktime e' 0) (bpf_ntohl (rq_xid rm' t)) latency (comm e'), get_flags ro e')]
     else []) /\
  bpf_map_lookup_elem (temp s2) t = None /\
  nfs4_setup_sequence_entry p = se /\ nfs4_setup_sequence_kprobe p = negb se /\
  rpc_done_entry p = ee /\ rpc_done_kprobe p = negb ee.
Proof.
  intros (-> & Hro & m & -> & Hm)%nfs_launch_spec He He' s Hf Hroom Hmids Hle Hslot Hreused
    latency s1 s2.
  assert (s2 = step ro s1 (Exit rm' reused e' t)) as ->.
  { unfold s2, s1, exec. by rewrite app_comm_cons, app_assoc, fold_left_app. }
  assert (s1 = exec ro (Setup rm e t :: mids) s) as Hs1.
  { unfold s1, s, exec. by rewrite fold_left_app. }
  pose proof (nfs_in_flight ro rm e t mids s ltac:(by rewrite <- lookup_view) Hroom Hmids) as Hl.
  rewrite <- Hs1 in Hl. unfold s in Hl. rewrite nfs_exec_denylist in Hl. cbn [boot denylist] in Hl.
  assert (0 <= procedure rm t) as Hc by (apply (wrapu_range 16); lia).
  split; [|split; [|apply nfsslower_selection]].
  - cbn [step]. unfold NfsslowerBpf.rpc_done_entry. rewrite nfs_probe_exit_spec, Hl.
    destruct (bpf_map_lookup_elem m (procedure rm t)) as [v|] eqn:Hd.
    { rewrite decide_False; [by rewrite app_nil_r|]. intros [H _]. by apply Hm in H; [rewrite Hd in H|]. }
    cbn [aodrb]. f_equal. unfold reported. rewrite Hslot, Hreused. cbn [metric nfscommand].
    pose proof (ktime_u64 e He 0). pose proof (ktime_u64 e' He' 0). unfold fits_u in *.
    rewrite wrapu_small by (unfold fits_u; lia). fold latency.
    rewrite Hro. cbn [min_lat_ns].
    rewrite (decide_ext _ (limit_ns a <= latency)) by (rewrite <- Hm by done; tauto).
    case_match eqn:Hcmp; [apply Z.leb_le in Hcmp; by rewrite decide_True|].
    apply Z.leb_gt in Hcmp. rewrite decide_False; [done|lia].
  - cbn [step]. unfold NfsslowerBpf.rpc_done_entry. rewrite nfs_probe_exit_spec.
    destruct (bpf_map_lookup_elem (temp s1) t) as [pe|] eqn:Hx; [|exact Hx]. cbn [temp]. rewrite lookup_delete_elem. by rewrite decide_True.
Qed.
End CommandLine.

(** ** The theorem at a concrete command line *)

(** [nfsslower -m 20 -x 5,6] where only the second function can be attached
    with fentry: a task of procedure 3 that sets up its sequence twice and
    takes 20 milliseconds. *)
Definition demo_args : args := [(KeyMin, bytes "20"); (KeyExclude, bytes "5,6")].
Definition demo_options : options :=
  match parse_args 70 false true demo_args (initial_options 70) with
  | Next o => o
  | _ => initial_options 70
  end.
Definition demo_rodata : NfsslowerBpf.rodata := NfsslowerBpf.Rodata 20000000 0.
Definition demo_state : st := boot (nfsslower_update_denylist_map demo_options (map_create 70)).2.
Definition demo_programs : programs := NfsslowerMain.select_programs false true.

Lemma nfsslower_command_line_witness :
  launch true demo_args false true true 0 0 = Some (demo_programs, demo_rodata, demo_state) /\
  aodrb (exec demo_rodata
    [Setup demo_rm (at_ns 7 1000) 0x9000; Setup demo_rm (at_ns 7 9000) 0x9000; Exit demo_rm id (at_ns 8 20001000) 0x9000]
    demo_state) =
  [(Event 8 3 NFSSLOWER 0 20001000 0x01020304 20000000 (pad 16 (bytes "demo")), 0)].
Proof.
  assert (launch true demo_args false true true 0 0 = Some (demo_programs, demo_rodata, demo_state)) as Hl.
  { apply (nfs_launch_eq true demo_args false true demo_options); vm_compute; reflexivity. }
  split; [exact Hl|].
  destruct (nfsslower_command_line true demo_args false true true 0 0 demo_programs demo_rodata
    demo_state [] demo_rm (at_ns 7 1000) [Setup demo_rm (at_ns 7 9000) 0x9000] demo_rm id (at_ns 8 20001000) 0x9000
    slot0) as [H _];
    [exact Hl|apply demo_env_ok, demo_mem_ok|apply demo_env_ok, demo_mem_ok|vm_compute; reflexivity
    |apply nfs_boot_space|apply Forall_singleton; by intros _; eauto|vm_compute; congruence|vm_compute; reflexivity
    |reflexivity|].
  cbn [app] in H. rewrite H. vm_compute. reflexivity.
Defined.
