(* ===== verification/NfsslowerHistory.v ===== *)
(** * nfsslower: what a whole run reports

    The reports of nfsslower as a function of its command line and of what
    happened, without maps: [reports] looks back, from every exit of a task,
    for its first sequence setup since it last exited. *)

From S2P Require Import Prelude Bpf BpfModel History CLib AodEvent NfsiosnoopBpf NfsslowerBpf.
From S2P Require Import NfsslowerMain LowerFilter LowerOptions NfsslowerEnd.

Section Reports.
Context {RT : BpfRuntime}.
Variable ro : NfsslowerBpf.rodata.
Variable traced : Z -> Prop.
Context `{!forall c, Decision (traced c)}.

(** The first setup of a task counts, if its procedure is traced. *)
Definition label_effect (l : label) : effect nfs_partial_event :=
  match l with
  | Setup rm e t =>
      if decide (traced (procedure rm t)) then OpenNew (NfsPartial (procedure rm t) (ktime e 0))
      else Keep
  | Exit _ _ _ _ => Close
  end.

Definition tasks (ls : list label) : list (Z * effect nfs_partial_event) :=
  map (fun l => (label_task l, label_effect l)) ls.

(** The reports of a run, given newest first. *)
Fixpoint reports (ls : list label) : list (event * Z) :=
  match ls with
  | [] => []
  | l :: ls =>
      reports ls ++
      match l with
      | Exit rm reused e t =>
          match pending t (tasks ls) with
          | Some pe => reported ro rm reused e t pe
          | None => []
          end
      | Setup _ _ _ => []
      end
  end.

Context {RL : BpfRuntimeLaws RT}.

Record tells (s : st) (n : nat) (ls : list label) : Prop := {
  tells_tasks : follows (temp s) n (tasks ls);
  tells_reports : aodrb s = reports ls;
  tells_denylist : forall c, 0 <= c -> bpf_map_lookup_elem (denylist s) c = None <-> traced c;
}.

Lemma nfs_tells_step s n ls l :
  tells s n ls -> within n (tasks (l :: ls)) -> tells (NfsslowerBpf.step ro s l) n (l :: ls).
Proof.
  intros [Ht Hr Hd] Hn. destruct l as [rm e t|rm reused e t]; cbn [NfsslowerBpf.step].
  - unfold NfsslowerBpf.nfs4_setup_sequence_entry, NfsslowerBpf.probe_entry.
    change (u16 (p_statidx rm t)) with (procedure rm t).
    assert (0 <= procedure rm t) as Hc by (apply (wrapu_range 16); lia).
    specialize (Hd (procedure rm t) Hc) as Hdt.
    split; cbn [tasks map label_task label_effect reports] in *; fold (tasks ls) in *;
      rewrite ?app_nil_r;
      destruct (bpf_map_lookup_elem (denylist s) (procedure rm t)), (decide (traced (procedure rm t)));
      try naive_solver; cbn [NfsslowerBpf.set_temp temp].
    + by apply follows_keep.
    + by apply follows_open_new.
  - unfold NfsslowerBpf.rpc_done_entry. rewrite nfs_probe_exit_spec.
    rewrite (follows_lookup _ _ _ Ht).
    split; cbn [tasks map label_task label_effect reports]; fold (tasks ls);
      destruct (pending t (tasks ls)) as [pe|] eqn:Hp; cbn [temp aodrb denylist];
      rewrite ?app_nil_r; try done.
    + by apply follows_close.
    + by apply follows_absent.
    + by rewrite Hr.
Qed.

Lemma nfs_tells_exec ls s n past :
  tells s n past -> within n (tasks (rev ls ++ past)) ->
  tells (NfsslowerBpf.exec ro ls s) n (rev ls ++ past).
Proof.
  revert s past. induction ls as [|l ls IH]; intros s past Ht; [done|].
  cbn [rev]. rewrite <- app_assoc. intros Hn. apply (IH _ (l :: past)); [|done].
  apply nfs_tells_step; [done|]. unfold tasks in *. rewrite map_app in Hn. by eapply within_app.
Qed.
End Reports.

Section CommandLine.
Context {RT : BpfRuntime} {RL : BpfRuntimeLaws RT}.

(** The procedures that a command line traces. *)
Definition traced_by (a : args) (c : Z) : Prop := c < 70 -> LowerOptions.allowed 70 a (Z.to_nat c).

#[export] Instance traced_by_decision a c : Decision (traced_by a c).
Proof. unfold traced_by. apply _. Defined.

(** C4. nfsslower as a function of the history: after the loader has set up a
    kernel for a command line, the ring holds, after any run of its programs
    in which less than 49152 tasks are in flight at a time, exactly the reports of
    the tasks that exit in it, in the order in which they exit: for each exit, the
    procedure that was read, and the latency since, the first traced setup of the
    task after its previous exit, when the latency reaches -m, and the request
    that is read at the exit.  What the kernel's memory holds may change with
    every firing: the address of a task is used again for other procedures and
    requests. *)
Theorem nfsslower_history ok a se ee opened load attach p ro s0 ls :
  launch ok a se ee opened load attach = Some (p, ro, s0) ->
  within (Z.to_nat (MAX_ENTRIES * 24)) (tasks (traced_by a) (rev ls)) ->
  aodrb (exec ro ls s0) =
  reports (NfsslowerBpf.Rodata (limit_ns a) (wakeup a)) (traced_by a) (rev ls).
Proof.
  intros (_ & <- & m & -> & Hm)%nfs_launch_spec Hn.
  assert (tells ro (traced_by a) (boot m) (Z.to_nat (MAX_ENTRIES * 24)) []) as H0.
  { split; [apply follows_create|done|exact Hm]. }
  destruct (nfs_tells_exec ro (traced_by a) ls _ _ [] H0) as [_ Hr _]; [by rewrite app_nil_r|].
  by rewrite app_nil_r in Hr.
Qed.
End CommandLine.

(** [nfsslower -m 20 -x 5,6]: a task that sets up its sequence twice, exits
    after 20 milliseconds and sets up again; a second exit is too early.  Then its
    address is used for a task of procedure 4. *)
Definition other_rm : rpc_mem := RpcMem (fun _ => 0) (fun _ => 4) (fun _ => 0x01000000).
Definition demo_labels : list label :=
  [Setup demo_rm (at_ns 7 1000) 0x9000; Setup demo_rm (at_ns 7 9000) 0x9000; Exit demo_rm id (at_ns 8 20001000) 0x9000;
   Setup demo_rm (at_ns 7 20002000) 0x9000; Exit demo_rm id (at_ns 8 20003000) 0x9000;
   Setup other_rm (at_ns 7 30000000) 0x9000; Exit other_rm id (at_ns 8 60000000) 0x9000].

Lemma nfsslower_history_witness :
  aodrb (exec demo_rodata demo_labels demo_state) =
  [(Event 8 3 NFSSLOWER 0 20001000 0x01020304 20000000 (pad 16 (bytes "demo")), 0);
   (Event 8 4 NFSSLOWER 0 60000000 1 30000000 (pad 16 (bytes "demo")), 0)].
Proof.
  rewrite (nfsslower_history true demo_args false true true 0 0 demo_programs demo_rodata
    demo_state demo_labels).
  - vm_compute. reflexivity.
  - apply (nfs_launch_eq true demo_args false true demo_options); vm_compute; reflexivity.
  - apply within_length. unfold MAX_ENTRIES. cbn [rev demo_labels tasks map length app]. lia.
Defined.
