(* ===== verification/ModuleHost.v ===== *)
(** * The function probes of the module tools on a running kernel

    SmbslowerMain, NfsslowerMain and NfsiosnoopUser choose programs by what
    the helpers answer, TraceHelpers says what the helpers answer on a kernel
    whose BTF and trial loads are given.  Here they are put together: what the
    loader of smbslower puts on a function takes the parameters that the function
    has. *)

From S2P Require Import Prelude CLib TraceHelpers SmbslowerMain NfsslowerMain.

(** ** What smbslower reads of the system *)

(** [readable] is access(2) with R_OK. *)
Record module_host := ModuleHost {
  readable : list Z -> bool;
  host_release : option string;
  host_srcversion : option (list Z);
  btfs : host_btf;
}.

Definition cifs : list Z := bytes "cifs".

(** A process with its three standard descriptors, to which every call
    returns ([fentry_can_attach_eq]). *)
Definition standard : res := Res [0; 1; 2] 0.

Definition can_attach (h : host_btf) (func : string) (module : list Z) : bool :=
  match TraceHelpers.fentry_can_attach h (bytes func) (Some module) standard with
  | Some (can, _) => can
  | None => false
  end.
Definition param_count (h : host_btf) (func : string) (module : list Z) : Z :=
  match TraceHelpers.get_func_param_count h (bytes func) (Some module) standard with
  | Some (n, _) => n
  | None => 0
  end.

Definition system_of (h : module_host) : SmbslowerMain.system :=
  SmbslowerMain.System
    (fun name => TraceHelpers.tracepoint_exists (readable h) cifs (bytes name))
    (readable h (bytes "/sys/kernel/btf/cifs"))
    (host_release h) (host_srcversion h)
    (fun func => can_attach (btfs h) func cifs)
    (fun func => param_count (btfs h) func cifs).

(** The two answers that nfsslower asks for. *)
Definition nfs_programs_on (h : host_btf) : programs :=
  NfsslowerMain.select_programs (can_attach h "nfs4_setup_sequence" (bytes "nfsv4"))
    (can_attach h "rpc_exit_task" (bytes "sunrpc")).

(** ** What the answers mean *)

(** The standard input is open, the errors of libbpf are negative, and no
    prototype has a negative number of parameters. *)
Record host_ok (h : host_btf) (m : list Z) : Prop := {
  ok_stdin : stdin_open h;
  ok_error : match vmlinux h with inr err => err < 0 | inl _ => True end;
  ok_vlen : forall fd b id n,
    target h (Some m) = Some (fd, b) -> proto_vlen b id = Some n -> 0 <= n;
}.

Lemma can_attach_spec h func m :
  stdin_open h -> can_attach h func m = true <-> attaches h (bytes func) (Some m).
Proof.
  intros Hin. unfold can_attach.
  by destruct (fentry_can_attach_eq h (bytes func) (Some m) standard Hin) as (can & -> & Hcan).
Qed.

(** A positive count is the one of the BTF of the module, and the error
    ENOENT means that there is none. *)
Lemma param_count_spec h func m :
  host_ok h m ->
  (forall n, 0 < n -> param_count h func m = n -> parameters h (bytes func) (Some m) = Some n) /\
  (param_count h func m = - ENOENT -> parameters h (bytes func) (Some m) = None).
Proof.
  intros [_ He Hv]. unfold param_count. rewrite get_func_param_count_answer.
  unfold count_answer, parameters, ENOENT, TraceHelpers.ENOENT, EINVAL.
  destruct (vmlinux h) as [v|err] eqn:Hvm.
  - destruct (target h (Some m)) as [[fd b]|] eqn:Ht; [|split; intros; [lia|done]]. cbn.
    case_decide as Hf; [rewrite (proj2 (Z.leb_gt _ _)) by done|].
    + destruct (proto_vlen b (find_func b (bytes func))) as [n|] eqn:Hn; [|split; intros; [lia|done]].
      pose proof (Hv fd b _ n eq_refl Hn). split; intros; [by subst|lia].
    + rewrite (proj2 (Z.leb_le _ _)) by lia. split; [|done]. intros n Hpos.
      destruct (Z.ltb_spec (find_func b (bytes func)) 0); lia.
  - unfold target. rewrite Hvm. split; [lia|done].
Qed.

Lemma alloc_hooked sys a : alloc_fits sys a -> hooked a = Some "smb2_mid_entry_alloc"%string.
Proof. intros [Ha _]. revert Ha. destruct a; vm_compute; intuition congruence. Qed.

Lemma release_reads p : In p release_progs -> 0 < reads p.
Proof. destruct p; vm_compute; intuition congruence. Qed.

(** C23. The function probes of smbslower on a running kernel with BTF for
    cifs.ko and without its tracepoints: exactly one allocation and one release
    program are loaded; the release program declares as many parameters as
    the release function of the module has by its BTF, whichever of the three
    functions and prototypes that is; and each of the two is a fentry program
    exactly when the kernel accepts one there that reads every parameter.  The
    release program hooks that function, but for a [release_mid] with two
    parameters: then it hooks a function that the module does not have. *)
Theorem cifs_probes_fit h skip f :
  host_ok (btfs h) cifs ->
  SmbslowerMain.select_programs (system_of h) skip = inl f ->
  use_tracepoints (system_of h) skip = false -> btf_readable (system_of h) = true ->
  exists a r func,
    (forall p, autoload f p = true <-> p = a \/ p = r) /\
    hooked a = Some "smb2_mid_entry_alloc"%string /\
    (is_fentry a = true <-> attaches (btfs h) (bytes "smb2_mid_entry_alloc") (Some cifs)) /\
    parameters (btfs h) (bytes func) (Some cifs) = Some (reads r) /\
    (is_fentry r = true <-> attaches (btfs h) (bytes func) (Some cifs)) /\
    (hooked r = Some func \/
     func = "release_mid"%string /\ reads r = 2 /\ hooked r = Some "__release_mid"%string /\
     parameters (btfs h) (bytes "__release_mid") (Some cifs) = None).
Proof.
  intros Hok [_ Hsel]%selection_spec Htp Hbtf. rewrite Htp in Hsel.
  destruct Hsel as (a & r & Ha & Hr & Hp).
  assert (forall g n, 0 < n -> get_func_param_count (system_of h) g = n ->
    parameters (btfs h) (bytes g) (Some cifs) = Some n) as Hcount
    by (intros g; apply (param_count_spec (btfs h) g cifs Hok)).
  assert (forall g, get_func_param_count (system_of h) g = - ENOENT ->
    parameters (btfs h) (bytes g) (Some cifs) = None) as Habsent
    by (intros g; apply (param_count_spec (btfs h) g cifs Hok)).
  assert (forall g b, fentry_can_attach (system_of h) g = b ->
    (b = true <-> attaches (btfs h) (bytes g) (Some cifs))) as Hattach
    by (intros g b <-; apply can_attach_spec, Hok).
  exists a, r.
  assert (is_fentry a = true <-> attaches (btfs h) (bytes "smb2_mid_entry_alloc") (Some cifs)) as Hfa.
  { apply Hattach. destruct Ha as [_ Ha]. rewrite Hbtf in Ha. by destruct Ha. }
  assert (exists func, parameters (btfs h) (bytes func) (Some cifs) = Some (reads r) /\
    (is_fentry r = true <-> attaches (btfs h) (bytes func) (Some cifs)) /\
    (hooked r = Some func \/ func = "release_mid"%string /\ reads r = 2 /\
     hooked r = Some "__release_mid"%string /\
     parameters (btfs h) (bytes "__release_mid") (Some cifs) = None)) as (func & Hf).
  { destruct Hr as [[Hin Hr]|[(_ & Hf & Hn) ->]].
    - rewrite Hbtf in Hr. destruct Hr as (g & _ & Hh & Hn & Hf & _). exists g.
      split; [apply Hcount; [by apply release_reads|done]|]. split; [by apply Hattach|by left].
    - exists "release_mid"%string. unfold misfit.
      assert (get_func_param_count (system_of h) "__release_mid" = - ENOENT) as H0.
      { revert Hf. unfold release_function. cbn [find release_functions].
        by destruct (Z.eqb_spec (get_func_param_count (system_of h) "__release_mid") (- ENOENT)). }
      destruct (fentry_can_attach (system_of h) "release_mid") eqn:Hc;
        (split; [by apply Hcount|]); (split; [by apply Hattach|]); right; auto. }
  exists func. split_and!; [done|by eapply alloc_hooked|done|apply Hf..].
Qed.

(** nfsslower attaches with fentry where the kernel accepts a program that
    reads every parameter, and with a kprobe elsewhere. *)
Lemma nfs_programs_fit h :
  stdin_open h ->
  let p := nfs_programs_on h in
  (nfs4_setup_sequence_entry p = true <->
     attaches h (bytes "nfs4_setup_sequence") (Some (bytes "nfsv4"))) /\
  nfs4_setup_sequence_kprobe p = negb (nfs4_setup_sequence_entry p) /\
  (rpc_done_entry p = true <-> attaches h (bytes "rpc_exit_task") (Some (bytes "sunrpc"))) /\
  rpc_done_kprobe p = negb (rpc_done_entry p).
Proof.
  intros Hin p. unfold p, nfs_programs_on.
  destruct (nfsslower_selection (can_attach h "nfs4_setup_sequence" (bytes "nfsv4"))
    (can_attach h "rpc_exit_task" (bytes "sunrpc"))) as (-> & -> & -> & ->).
  by rewrite !can_attach_spec.
Qed.

(** ** The theorem at a concrete kernel *)

(** A kernel with BTF for cifs.ko where every function has two parameters and
    a program that reads two loads. *)
Definition demo_module_host : module_host :=
  ModuleHost (fun path => bool_decide (path = bytes "/sys/kernel/btf/cifs"))
    (Some "6.19.0"%string) None (demo_host 6).

Definition demo_flags : flags :=
  match SmbslowerMain.select_programs (system_of demo_module_host) false with
  | inl f => f
  | inr _ => opened
  end.

Lemma cifs_probes_fit_witness :
  autoload demo_flags mid_release_direct_fentry = true /\
  exists r func, parameters (demo_host 6) (bytes func) (Some cifs) = Some (reads r) /\
    (is_fentry r = true <-> attaches (demo_host 6) (bytes func) (Some cifs)).
Proof.
  split; [vm_compute; reflexivity|].
  destruct (cifs_probes_fit demo_module_host false demo_flags)
    as (a & r & func & _ & _ & _ & Hp & Hf & _).
  - split; [repeat constructor; done|done|]. intros fd b id n.
    vm_compute. intros [= <- <-] [= <-]. done.
  - reflexivity.
  - vm_compute. reflexivity.
  - vm_compute. reflexivity.
  - exists r, func. split; [exact Hp|exact Hf].
Defined.
