(* ===== verification/StopLoop.v ===== *)
(** * Waiting for a signal

    The loaders of smbslower, nfsslower, smbiosnoop and nfsiosnoop attach their
    programs and then wait: [while (!exiting) pause();], where the handler of
    SIGINT and SIGTERM sets [exiting].  A signal can arrive between any two
    steps of the loop; [pause] returns only for one that arrives during the
    call.  The theorem says which signals end the loop. *)

From S2P Require Import Prelude.

(** Where the loop is: before the test of the flag, between the test and the
    call, in the call, or behind the loop. *)
Inductive pc := AtTest | AtPause | InPause | Stopped.

#[export] Instance pc_eq_dec : EqDecision pc.
Proof. solve_decision. Defined.















