(* ===== verification/Allowlist.v ===== *)
(** * Filling an allow list

    The loop of [update_allowlist_cmds] and [update_allowlist_errors], the
    same in src/user/smbiosnoop.c and src/user/nfsiosnoop.c: one update for
    each value of the filter, stopped by the first that fails. *)

From S2P Require Import Prelude Bpf.

Section Allow.
Context {RT : BpfRuntime}.

Fixpoint update_allowlist (values : list Z) (m : hmap Z Z) : Z * hmap Z Z :=
  match values with
  | [] => (0, m)
  | v :: values =>
      let '(r, m) := bpf_map_update_elem m v 1 BPF_ANY in
      if r <? 0 then (-1, m) else update_allowlist values m
  end.

Context {RL : BpfRuntimeLaws RT}.

(** With room for all values, the list then holds them and what it held. *)
Lemma update_allowlist_spec values (m : hmap Z Z) :
  (size (map_view m) + length values <= map_max m)%nat ->
  let '(r, m') := update_allowlist values m in
  r = 0 /\ forall k, is_Some (bpf_map_lookup_elem m' k) <->
    In k values \/ is_Some (bpf_map_lookup_elem m k).
Proof.
  revert m. induction values as [|v values IH]; intros m Hroom; cbn [update_allowlist].
  - split; [done|]. intros k. simpl. tauto.
  - cbn [length] in Hroom.
    pose proof (update_cases Z Z m v 1 BPF_ANY) as Hc.
    pose proof (update_any_ok Z Z m v 1 ltac:(right; lia)) as H0.
    destruct (bpf_map_update_elem m v 1 BPF_ANY) as [r m']. cbn [fst] in H0. subst r.
    destruct Hc as [Hmax [[_ Hv]|[? _]]]; [|lia]. cbn [Z.ltb Z.compare].
    specialize (IH m'). destruct (update_allowlist values m') as [r m2].
    destruct IH as [-> IH].
    + rewrite Hv, Hmax, map_size_insert. case_match; unfold id; lia.
    + split; [done|]. intros k. rewrite IH, !lookup_view, Hv, lookup_insert_is_Some'.
      cbn [In]. tauto.
Qed.

(** Into an empty list of [n] elements. *)
Lemma update_allowlist_create values n :
  (length values <= n)%nat ->
  let '(r, m) := update_allowlist values (map_create n) in
  r = 0 /\ forall k, is_Some (bpf_map_lookup_elem m k) <-> In k values.
Proof.
  intros Hn. pose proof (update_allowlist_spec values (map_create n)) as H.
  destruct (update_allowlist values (map_create n)) as [r m]. destruct H as [-> H].
  - rewrite view_create, max_create, map_size_empty. lia.
  - split; [done|]. intros k. rewrite H, lookup_create. split; [|by left]. by intros [?|[? ?]].
Qed.
End Allow.
