(* ===== verification/SmbiosnoopUser.v ===== *)
(** * smbiosnoop: the loader

    Models src/user/smbiosnoop.c: the strict parsers of the two lists, the
    option parser, the filling of the allow lists and [main].  The theorems:
    what the accepted lists hold, which errors the kernel program reports once
    the loader has run (with SmbiosnoopBpf), and the exit status. *)

From S2P Require Import Prelude Bpf BpfModel CLib Allowlist AodEvent SmbiosnoopBpf.

Definition MAX_SMB_COMMANDS : Z := 20.
Definition MAX_SMB_STATUS : Z := 256.

(** The options; [KeyOther] is any other key. *)
Inductive key := KeyWakeup | KeyCmds | KeyErrors | KeyHelp | KeyVerbose | KeyOther.

(** The arrays are the lists of their first [cmd_filter_count] and
    [err_filter_count] elements. *)
Record options := Options {
  verbose : bool; wakeup_size : Z;
  cmd_filter : list Z; cmd_filter_set : bool;
  err_filter : list Z; err_filter_set : bool;
}.

Definition initial_options : options := Options false 0 [] false [] false.

(** argp_usage and the help exit. *)
Inductive outcome := Next (o : options) | Usage | Unknown.

(** ** Parsing *)

(** The loops return the new count, or -1 at the first bad token. *)
Fixpoint parse_cmd_loop (ts : list (list Z)) (cmd_filter : list Z) : Z * list Z :=
  match ts with
  | [] => (Z.of_nat (length cmd_filter), cmd_filter)
  | token :: ts =>
      let '(command, end_, errno) := strtol token 0 in
      if negb (errno =? 0) || negb (bool_decide (end_ = [])) || (command <? 0) ||
         (MAX_SMB_COMMANDS <=? command)
      then (-1, cmd_filter)
      else if MAX_SMB_COMMANDS <=? Z.of_nat (length cmd_filter) then (-1, cmd_filter)
      else parse_cmd_loop ts (cmd_filter ++ [u16 command])
  end.

Definition parse_cmd_list (strdup_ok : bool) (arg : list Z) (cmd_filter : list Z)
  : Z * list Z :=
  if negb strdup_ok then (-1, cmd_filter) else parse_cmd_loop (strtok_all 44 arg) cmd_filter.

Fixpoint parse_err_loop (ts : list (list Z)) (err_filter : list Z) : Z * list Z :=
  match ts with
  | [] => (Z.of_nat (length err_filter), err_filter)
  | token :: ts =>
      let '(status, end_, errno) := strtoull token 0 in
      if negb (errno =? 0) || negb (bool_decide (end_ = [])) || (status =? 0) ||
         (UINT32_MAX <? status)
      then (-1, err_filter)
      else if MAX_SMB_STATUS <=? Z.of_nat (length err_filter) then (-1, err_filter)
      else parse_err_loop ts (err_filter ++ [u32 status])
  end.

Definition parse_err_list (strdup_ok : bool) (arg : list Z) (err_filter : list Z)
  : Z * list Z :=
  if negb strdup_ok then (-1, err_filter) else parse_err_loop (strtok_all 44 arg) err_filter.

Definition parse_arg (strdup_ok : bool) (k : key) (arg : list Z) (o : options) : outcome :=
  match k with
  | KeyWakeup =>
      let '(v, _, errno) := strtoull arg 10 in
      if negb (errno =? 0) then Usage
      else Next (Options (verbose o) v (cmd_filter o) (cmd_filter_set o)
                   (err_filter o) (err_filter_set o))
  | KeyCmds =>
      let '(count, filter) := parse_cmd_list strdup_ok arg (cmd_filter o) in
      if count <=? 0 then Usage
      else Next (Options (verbose o) (wakeup_size o) filter true
                   (err_filter o) (err_filter_set o))
  | KeyErrors =>
      let '(count, filter) := parse_err_list strdup_ok arg (err_filter o) in
      if count <=? 0 then Usage
      else Next (Options (verbose o) (wakeup_size o) (cmd_filter o) (cmd_filter_set o)
                   filter true)
  | KeyHelp => Usage
  | KeyVerbose =>
      Next (Options true (wakeup_size o) (cmd_filter o) (cmd_filter_set o)
              (err_filter o) (err_filter_set o))
  | KeyOther => Unknown
  end.

(** argp_parse on the options of the command line, in their order. *)
Fixpoint parse_args (strdup_ok : bool) (args : list (key * list Z)) (o : options) : outcome :=
  match args with
  | [] => Next o
  | (k, arg) :: args =>
      match parse_arg strdup_ok k arg o with
      | Next o => parse_args strdup_ok args o
      | r => r
      end
  end.

(** ** Running the kernel program *)

(** The constants written to the opened object. *)
Definition rodata_of (o : options) : rodata :=
  Rodata (s32 (wakeup_size o)) (Z.b2z (err_filter_set o)) (Z.b2z (cmd_filter_set o)).

Section Main.
Context {RT : BpfRuntime}.

Definition update_allowlist_cmds (o : options) (m : hmap Z Z) : Z * hmap Z Z :=
  update_allowlist (cmd_filter o) m.
Definition update_allowlist_errors (o : options) (m : hmap Z Z) : Z * hmap Z Z :=
  update_allowlist (err_filter o) m.

Definition loaded : st := St (map_create 256) (map_create 20) [].

(** The two updates of [main]; the second is not tried when the first fails. *)
Definition fill (o : options) (s : st) : Z * st :=
  let '(r1, cmds) := update_allowlist_cmds o (allowlist_cmds s) in
  if r1 <? 0 then (-1, St (allowlist_errors s) cmds (aodrb s))
  else
    let '(r2, errors) := update_allowlist_errors o (allowlist_errors s) in
    if r2 <? 0 then (-1, St errors cmds (aodrb s)) else (0, St errors cmds (aodrb s)).

(** [main] after a successful argp_parse: the exit status, and the state of
    the kernel program when it was attached. *)
Definition main (opened_ok : bool) (load attach : Z) (o : options) : Z * option st :=
  if negb (cmd_filter_set o) && negb (err_filter_set o) then (1, None)
  else if negb opened_ok then (1, None)
  else
    let '(err, s) :=
      if negb (load =? 0) then (load, None)
      else
        let '(r, s) := fill o loaded in
        if r <? 0 then (-1, None)
        else if negb (attach =? 0) then (attach, None) else (attach, Some s) in
    (if err <? 0 then - err else 0, s).
End Main.

(** ** What the lists hold *)

(** A token denotes a value: it is a number with nothing after it, in range. *)
Definition denotes_cmd (token : list Z) (c : Z) : Prop :=
  strtol token 0 = (c, [], 0) /\ 0 <= c < MAX_SMB_COMMANDS.
Definition denotes_status (token : list Z) (c : Z) : Prop :=
  strtoull token 0 = (c, [], 0) /\ 0 < c <= UINT32_MAX.

Lemma denotes_cmd_fun t c c' : denotes_cmd t c -> denotes_cmd t c' -> c = c'.
Proof. intros [? _] [? _]. congruence. Qed.
Lemma denotes_status_fun t c c' : denotes_status t c -> denotes_status t c' -> c = c'.
Proof. intros [? _] [? _]. congruence. Qed.

Lemma smb_parse_cmd_loop_spec ts filter n filter' :
  parse_cmd_loop ts filter = (n, filter') -> 0 <= n ->
  exists vs, Forall2 denotes_cmd ts vs /\ filter' = filter ++ vs /\
    n = Z.of_nat (length filter') /\ (Z.of_nat (length filter) <= 20 -> n <= 20).
Proof.
  revert filter. induction ts as [|t ts IH]; intros filter; cbn [parse_cmd_loop].
  - intros [= <- <-] _. exists []. rewrite app_nil_r. repeat split; [constructor|lia].
  - destruct (strtol t 0) as [[c rest] errno] eqn:Ht. case_match eqn:Hv; [intros; simplify_eq; lia|].
    case_match eqn:Hlen; [intros; simplify_eq; lia|]. intros Hp Hn.
    rewrite !orb_false_iff, !negb_false_iff, Z.eqb_eq, bool_decide_eq_true in Hv.
    destruct Hv as [[[-> ->] H1%Z.ltb_ge] H2%Z.leb_gt]. apply Z.leb_gt in Hlen.
    assert (u16 c = c) as Hc by (apply wrapu_small; unfold fits_u, MAX_SMB_COMMANDS in *; lia).
    rewrite Hc in Hp. destruct (IH _ Hp Hn) as (vs & Hvs & -> & -> & Hle).
    exists (c :: vs). rewrite <- !app_assoc. cbn [app]. split_and!; [|done|done|].
    + constructor; [by split|done].
    + intros _. unfold MAX_SMB_COMMANDS in Hlen. rewrite <- app_assoc in Hle. cbn [app] in Hle.
      apply Hle. rewrite length_app. cbn [length]. lia.
Qed.

Lemma smb_parse_err_loop_spec ts filter n filter' :
  parse_err_loop ts filter = (n, filter') -> 0 <= n ->
  exists vs, Forall2 denotes_status ts vs /\ filter' = filter ++ vs /\
    n = Z.of_nat (length filter') /\ (Z.of_nat (length filter) <= 256 -> n <= 256).
Proof.
  revert filter. induction ts as [|t ts IH]; intros filter; cbn [parse_err_loop].
  - intros [= <- <-] _. exists []. rewrite app_nil_r. repeat split; [constructor|lia].
  - destruct (strtoull t 0) as [[c rest] errno] eqn:Ht.
    case_match eqn:Hv; [intros; simplify_eq; lia|].
    case_match eqn:Hlen; [intros; simplify_eq; lia|]. intros Hp Hn.
    rewrite !orb_false_iff, !negb_false_iff, Z.eqb_eq, bool_decide_eq_true in Hv.
    destruct Hv as [[[-> ->] H1%Z.eqb_neq] H2%Z.ltb_ge]. apply Z.leb_gt in Hlen.
    assert (0 <= c) as H0.
    { pose proof (strtoull_range t 0) as Hr. rewrite Ht in Hr. by apply Hr. }
    assert (u32 c = c) as Hc by (apply wrapu_small; unfold fits_u, UINT32_MAX in *; lia).
    rewrite Hc in Hp. destruct (IH _ Hp Hn) as (vs & Hvs & -> & -> & Hle).
    exists (c :: vs). rewrite <- !app_assoc. cbn [app]. split_and!; [|done|done|].
    + constructor; [split; [done|lia]|done].
    + intros _. unfold MAX_SMB_STATUS in Hlen. rewrite <- app_assoc in Hle. cbn [app] in Hle.
      apply Hle. rewrite length_app. cbn [length]. lia.
Qed.

#[export] Instance key_eq_dec : EqDecision key.
Proof. solve_decision. Defined.

(** The tokens that the options [k] of a command line give, in order. *)
Definition tokens (k : key) (args : list (key * list Z)) : list (list Z) :=
  flat_map (fun a => if decide (fst a = k) then strtok_all 44 (snd a) else []) args.

Definition given (k : key) (args : list (key * list Z)) : bool :=
  existsb (fun a => bool_decide (fst a = k)) args.

Record accepted (args : list (key * list Z)) (o o' : options) : Prop := {
  acc_cmds : exists cs, Forall2 denotes_cmd (tokens KeyCmds args) cs /\
    cmd_filter o' = cmd_filter o ++ cs;
  acc_errs : exists es, Forall2 denotes_status (tokens KeyErrors args) es /\
    err_filter o' = err_filter o ++ es;
  acc_cmds_set : cmd_filter_set o' = cmd_filter_set o || given KeyCmds args;
  acc_errs_set : err_filter_set o' = err_filter_set o || given KeyErrors args;
  acc_bounds : (length (cmd_filter o) <= 20)%nat -> (length (err_filter o) <= 256)%nat ->
    (length (cmd_filter o') <= 20)%nat /\ (length (err_filter o') <= 256)%nat;
}.

Lemma smb_accepted_refl o : accepted [] o o.
Proof.
  split; try (by rewrite orb_false_r); [| |done];
    exists []; (split; [constructor|by rewrite app_nil_r]).
Qed.

Lemma smb_accepted_cons a args o o1 o2 :
  accepted [a] o o1 -> accepted args o1 o2 -> accepted (a :: args) o o2.
Proof.
  intros [(c1 & Hc1 & Ec1) (e1 & He1 & Ee1) Hs1 Ht1 Hb1]
    [(c2 & Hc2 & Ec2) (e2 & He2 & Ee2) Hs2 Ht2 Hb2].
  unfold tokens, given in *. cbn [flat_map existsb] in *.
  rewrite app_nil_r in Hc1, He1. rewrite orb_false_r in Hs1, Ht1.
  split; unfold tokens, given; cbn [flat_map existsb].
  - exists (c1 ++ c2). split; [by apply Forall2_app|by rewrite Ec2, Ec1, app_assoc].
  - exists (e1 ++ e2). split; [by apply Forall2_app|by rewrite Ee2, Ee1, app_assoc].
  - by rewrite Hs2, Hs1, orb_assoc.
  - by rewrite Ht2, Ht1, orb_assoc.
  - naive_solver.
Qed.

Lemma smb_parse_arg_accepted ok k arg o o' :
  parse_arg ok k arg o = Next o' -> accepted [(k, arg)] o o'.
Proof.
  assert (forall X (l : list X), l ++ [] = l) as Hnil by (intros; apply app_nil_r).
  destruct k; cbn [parse_arg]; intros Hp; try done.
  - destruct (strtoull arg 10) as [[v r] e]. case_match; [done|]. simplify_eq.
    split; cbn; rewrite ?orb_false_r; try done; exists []; by rewrite Hnil.
  - unfold parse_cmd_list in Hp. destruct ok; cbn [negb] in Hp; [|done].
    destruct (parse_cmd_loop _ _) as [n f] eqn:Hl.
    destruct (Z.leb_spec n 0) as [|Hn]; [done|]. simplify_eq.
    destruct (smb_parse_cmd_loop_spec _ _ _ _ Hl ltac:(lia)) as (vs & Hvs & -> & -> & Hle).
    split; unfold tokens, given; cbn; rewrite ?orb_false_r, ?orb_true_r, ?Hnil; try done.
    + by exists vs.
    + exists []. by rewrite Hnil.
    + intros. split; [lia|done].
  - unfold parse_err_list in Hp. destruct ok; cbn [negb] in Hp; [|done].
    destruct (parse_err_loop _ _) as [n f] eqn:Hl.
    destruct (Z.leb_spec n 0) as [|Hn]; [done|]. simplify_eq.
    destruct (smb_parse_err_loop_spec _ _ _ _ Hl ltac:(lia)) as (vs & Hvs & -> & -> & Hle).
    split; unfold tokens, given; cbn; rewrite ?orb_false_r, ?orb_true_r, ?Hnil; try done.
    + exists []. by rewrite Hnil.
    + by exists vs.
    + intros. split; [done|lia].
  - simplify_eq. split; cbn; rewrite ?orb_false_r; try done; exists []; by rewrite Hnil.
Qed.

Lemma smb_parse_args_accepted ok args o o' : parse_args ok args o = Next o' -> accepted args o o'.
Proof.
  revert o. induction args as [|[k arg] args IH]; intros o; cbn [parse_args].
  - intros [= ->]. apply smb_accepted_refl.
  - destruct (parse_arg ok k arg o) as [o1| |] eqn:Hp; [|done..]. intros Ha.
    apply smb_accepted_cons with o1; [by apply smb_parse_arg_accepted with ok|by apply IH].
Qed.

Section MainLemmas.
Context {RT : BpfRuntime} {RL : BpfRuntimeLaws RT}.

Lemma smb_fill_spec o :
  (length (cmd_filter o) <= 20)%nat -> (length (err_filter o) <= 256)%nat ->
  let '(r, s) := fill o loaded in
  r = 0 /\ aodrb s = [] /\
  (forall c, is_Some (bpf_map_lookup_elem (allowlist_cmds s) c) <-> In c (cmd_filter o)) /\
  (forall c, is_Some (bpf_map_lookup_elem (allowlist_errors s) c) <-> In c (err_filter o)).
Proof.
  intros Hc He. unfold fill, loaded, update_allowlist_cmds, update_allowlist_errors.
  cbn [allowlist_cmds allowlist_errors aodrb].
  pose proof (update_allowlist_create (cmd_filter o) 20 Hc) as H1.
  destruct (update_allowlist (cmd_filter o) _) as [r1 cmds]. destruct H1 as [-> H1].
  pose proof (update_allowlist_create (err_filter o) 256 He) as H2.
  destruct (update_allowlist (err_filter o) _) as [r2 errs]. destruct H2 as [-> H2].
  done.
Qed.

Lemma smb_main_runs attach o s :
  (length (cmd_filter o) <= 20)%nat -> (length (err_filter o) <= 256)%nat ->
  main true 0 attach o = (0, Some s) ->
  aodrb s = [] /\
  (forall c, is_Some (bpf_map_lookup_elem (allowlist_cmds s) c) <-> In c (cmd_filter o)) /\
  (forall c, is_Some (bpf_map_lookup_elem (allowlist_errors s) c) <-> In c (err_filter o)).
Proof.
  intros Hc He. unfold main. pose proof (smb_fill_spec o Hc He) as Hf.
  destruct (fill o loaded) as [r s']. destruct Hf as (-> & Hf). case_match; [done|].
  cbn. destruct (Z.eqb_spec attach 0) as [->|]; cbn; intros Hm; [|congruence].
  by injection Hm as <-.
Qed.

(** What [main] and the options make the kernel program let through. *)
Lemma smb_allowed_command_line args o s ctx :
  accepted args initial_options o ->
  (forall c, is_Some (bpf_map_lookup_elem (allowlist_cmds s) c) <-> In c (cmd_filter o)) ->
  (forall c, is_Some (bpf_map_lookup_elem (allowlist_errors s) c) <-> In c (err_filter o)) ->
  allowed (rodata_of o) s ctx <->
  (given KeyErrors args = true ->
    exists t, In t (tokens KeyErrors args) /\ denotes_status t (status ctx)) /\
  (given KeyCmds args = true ->
    exists t, In t (tokens KeyCmds args) /\ denotes_cmd t (cmd ctx)).
Proof.
  intros [(cs & Hcs & Ec) (es & Hes & Ee) Hcset Heset _] Hc He. cbn in Ec, Ee, Hcset, Heset.
  unfold allowed, rodata_of. cbn [filter_errors filter_cmds].
  rewrite Hc, He, Ec, Ee, Hcset, Heset, (Forall2_In_iff _ _ _ _ denotes_cmd_fun Hcs),
    (Forall2_In_iff _ _ _ _ denotes_status_fun Hes).
  destruct (given KeyErrors args), (given KeyCmds args); cbn; intuition congruence.
Qed.

(** C15. From the command line to the ring: when smbiosnoop runs on a command
    line without a wakeup size, its kernel program reports an error exactly
    when the status is not 0, is one that -e denotes if -e is given, and its
    command is one that -c denotes if -c is given; the report names both. *)
Theorem smbiosnoop_command_line ok args o attach s (e : kenv event) ctx slot :
  parse_args ok args initial_options = Next o -> s32 (wakeup_size o) = 0 ->
  main true 0 attach o = (0, Some s) -> reserve e 0 = Some slot ->
  let selected :=
    status ctx <> 0 /\
    (given KeyErrors args = true ->
      exists t, In t (tokens KeyErrors args) /\ denotes_status t (status ctx)) /\
    (given KeyCmds args = true ->
      exists t, In t (tokens KeyCmds args) /\ denotes_cmd t (cmd ctx)) in
  let ring := aodrb (trace_smb3_cmd_err (rodata_of o) e ctx s) in
  (selected /\ exists ev, ring = [(ev, 0)] /\ ev_command ev = cmd ctx /\
     ev_metric ev = set_retval (ev_metric slot) (s32 (status ctx))) \/
  (~ selected /\ ring = []).
Proof.
  intros Hp Hw Hm Hs selected ring. apply smb_parse_args_accepted in Hp.
  destruct (acc_bounds _ _ _ Hp) as [Hb1 Hb2]; [cbn; lia..|].
  destruct (smb_main_runs attach o s Hb1 Hb2 Hm) as (Hring & Hc & He).
  pose proof (smb_allowed_command_line args o s ctx Hp Hc He) as Ha.
  assert (forall n, get_flags (rodata_of o) e n = 0) as Hf.
  { intros n. unfold get_flags, rodata_of. cbn [wakeup_data_size]. by rewrite Hw. }
  subst selected ring. destruct (Z.eq_dec (status ctx) 0) as [H0|H0];
    [|destruct (smb_allowed_dec (rodata_of o) s ctx) as [Hd|Hd]].
  - right. split; [tauto|]. rewrite smb_err_rejected; [done|by left].
  - left. split; [tauto|]. rewrite (smb_err_allowed _ _ _ _ slot); [|done|done|by rewrite Hf].
    eexists. cbn. rewrite Hring, Hf. done.
  - right. split; [tauto|]. rewrite smb_err_rejected; [done|by right].
Qed.

(** The exit status is 0 only if the program was told what to filter and
    its kernel program was loaded, filled and attached. *)
Theorem smbiosnoop_exit_status ok args o opened_ok load attach :
  parse_args ok args initial_options = Next o -> load <= 0 -> attach <= 0 ->
  fst (main opened_ok load attach o) = 0 <->
  (given KeyCmds args = true \/ given KeyErrors args = true) /\
  opened_ok = true /\ load = 0 /\ attach = 0.
Proof.
  intros Hp%smb_parse_args_accepted Hl Hat.
  destruct (acc_bounds _ _ _ Hp) as [Hb1 Hb2]; [cbn; lia..|].
  pose proof (acc_cmds_set _ _ _ Hp) as Hc. pose proof (acc_errs_set _ _ _ Hp) as He.
  cbn in Hc, He. unfold main. pose proof (smb_fill_spec o Hb1 Hb2) as Hf.
  destruct (fill o loaded) as [r s']. destruct Hf as (-> & _). rewrite Hc, He. cbn [Z.ltb Z.compare].
  assert (fst (let '(err, s0) := if negb (load =? 0) then (load, None)
      else if negb (attach =? 0) then (attach, None) else (attach, Some s') in
      (if err <? 0 then - err else 0, s0)) = 0 <-> load = 0 /\ attach = 0) as Hrun.
  { destruct (Z.eqb_spec load 0), (Z.eqb_spec attach 0); cbn [negb fst];
      case_match eqn:Hlt; cbn [fst]; rewrite ?Z.ltb_lt, ?Z.ltb_ge in Hlt; lia. }
  destruct (given KeyCmds args), (given KeyErrors args), opened_ok; cbn [negb andb orb fst];
    rewrite ?Hrun; intuition congruence.
Qed.
End MainLemmas.

(** ** The theorems at a concrete command line *)

(** "-e 0xc0000022,0xc0000034 -c 5,0x6". *)
Definition demo_args : list (key * list Z) :=
  [(KeyErrors, bytes "0xc0000022,0xc0000034"); (KeyCmds, bytes "5,0x6")].
Definition demo_options : options :=
  Options false 0 [5; 6] true [0xc0000022; 0xc0000034] true.

Example demo_args_parse : parse_args true demo_args initial_options = Next demo_options.
Proof. vm_compute. reflexivity. Qed.

(** The parser is strict: neither a name, nor a trailing byte, nor a command
    out of range passes. *)
Example bad_cmds :
  map (fun a => fst (parse_cmd_list true (bytes a) []))
    ["read"; "5x"; "20"; "-1"; "5,read"]%string = [-1; -1; -1; -1; -1].
Proof. vm_compute. reflexivity. Qed.

Lemma smbiosnoop_command_line_witness :
  exists ev, aodrb (trace_smb3_cmd_err (rodata_of demo_options) (at_ns 7 1000) denied_ctx
    (snd (fill demo_options loaded))) = [(ev, 0)] /\ ev_command ev = 5.
Proof.
  destruct (smbiosnoop_command_line true demo_args demo_options 0
    (snd (fill demo_options loaded)) (at_ns 7 1000) denied_ctx slot0)
    as [(_ & ev & H1 & H2 & _)|[Hn _]];
    [vm_compute; reflexivity|vm_compute; reflexivity|vm_compute; reflexivity
    |vm_compute; reflexivity|exists ev; split; [exact H1|exact H2]|].
  exfalso. apply Hn. split; [vm_compute; congruence|]. split; intros _.
  - exists (bytes "0xc0000022"). split; [vm_compute; tauto|]. split; [vm_compute; reflexivity|].
    split; vm_compute; congruence.
  - exists (bytes "5"). split; [vm_compute; tauto|]. split; [vm_compute; reflexivity|].
    split; vm_compute; congruence.
Defined.

Lemma smbiosnoop_exit_status_witness : fst (main true 0 (-22) demo_options) <> 0.
Proof.
  intros H. apply (smbiosnoop_exit_status true demo_args demo_options true 0 (-22)) in H;
    [|vm_compute; reflexivity|lia|lia]. lia.
Defined.
