(* ===== verification/NfsiosnoopUser.v ===== *)
(** * nfsiosnoop: the loader

    Models src/user/nfsiosnoop.c: the parsers of the two lists with their
    binary search in the table of NFSv4 errors, the option parser, the filling
    of the allow lists, the detection of the tracepoint's layout, the choice
    of the kernel program and [main].  The theorems: which codes the search
    accepts, what a command line lets the kernel program report (with
    NfsiosnoopBpf), which program is chosen, and the exit status. *)

From Stdlib Require Import Sorting.Sorted.
From S2P Require Import Prelude Bpf BpfModel CLib Allowlist AodEvent NfsiosnoopBpf.

(** The error codes that nfs_diag.h lists. *)
Definition nfs4_errors : list Z :=
  [1; 2; 5; 6; 13; 17; 18; 20; 21; 22; 27; 28; 30; 31; 63; 66;
   69; 70; 10001; 10003; 10004; 10005; 10006; 10007; 10008; 10009; 10010; 10011;
   10012; 10013; 10014; 10015; 10016; 10017; 10018; 10019; 10020; 10021; 10022;
   10023; 10024; 10025; 10026; 10027; 10028; 10029; 10030; 10031; 10032; 10033;
   10034; 10035; 10036; 10037; 10038; 10039; 10040; 10041; 10042; 10043; 10044;
   10045; 10046; 10047; 10048; 10049; 10050; 10051; 10052; 10053; 10054; 10055;
   10056; 10057; 10058; 10059; 10060; 10061; 10062; 10063; 10064; 10065; 10066;
   10067; 10068; 10069; 10070; 10071; 10072; 10074; 10075; 10076; 10077; 10078;
   10079; 10080; 10081; 10082; 10083; 10084; 10085; 10086; 10087; 10088; 10089;
   10090; 10091; 10092; 10093; 10094; 10095; 10096; 10097].

Inductive key := KeyWakeup | KeyCmds | KeyErrors | KeyHelp | KeyVerbose | KeyOther.

(** The arrays are the lists of their first [cmd_filter_count] and
    [err_filter_count] elements. *)
Record options := Options {
  verbose : bool; wakeup_size : Z;
  cmd_filter : list Z; cmd_filter_set : bool;
  err_filter : list Z; err_filter_set : bool;
}.

Definition initial_options : options := Options false 0 [] false [] false.

(** argp_usage and the help exit. *)
Inductive outcome := Next (o : options) | Usage | Unknown.

(** ** Parsing *)

(** A token that is not a command, or for which the array is full, is passed
    over. *)
Fixpoint parse_cmd_loop (ts : list (list Z)) (cmd_filter : list Z) : Z * list Z :=
  match ts with
  | [] => (Z.of_nat (length cmd_filter), cmd_filter)
  | token :: ts =>
      let cmd := atoi token in
      if (0 <=? cmd) && (cmd <? Z.of_nat MAX_NFS_COMMANDS) &&
         (length cmd_filter <? MAX_NFS_COMMANDS)%nat
      then parse_cmd_loop ts (cmd_filter ++ [u16 cmd])
      else parse_cmd_loop ts cmd_filter
  end.

Definition parse_cmd_list (strdup_ok : bool) (arg : list Z) (cmd_filter : list Z)
  : Z * list Z :=
  if negb strdup_ok then (-1, cmd_filter) else parse_cmd_loop (strtok_all 44 arg) cmd_filter.

Definition compare_ints (val_a val_b : Z) : Z :=
  if val_a <? val_b then -1 else if val_b <? val_a then 1 else 0.

Definition validate_err_code (code : Z) : bool :=
  match bsearch (compare_ints code) nfs4_errors MAX_ERROR_CODES with
  | Some _ => true
  | None => false
  end.

(** The loop returns -1 at a token that is not a positive number; the code is
    cut to an [int] before it is looked up and stored. *)
Fixpoint parse_err_loop (ts : list (list Z)) (err_filter : list Z) : Z * list Z :=
  match ts with
  | [] => (Z.of_nat (length err_filter), err_filter)
  | token :: ts =>
      let '(code, endptr, errno) := strtol token 10 in
      if negb (bool_decide (endptr = [])) || negb (errno =? 0) || (code <=? 0)
      then (-1, err_filter)
      else if validate_err_code (s32 code) && (length err_filter <? MAX_ERROR_CODES)%nat
      then parse_err_loop ts (err_filter ++ [s32 code])
      else parse_err_loop ts err_filter
  end.

Definition parse_err_list (strdup_ok : bool) (arg : list Z) (err_filter : list Z)
  : Z * list Z :=
  if negb strdup_ok then (-1, err_filter) else parse_err_loop (strtok_all 44 arg) err_filter.

Definition parse_arg (strdup_ok : bool) (k : key) (arg : list Z) (o : options) : outcome :=
  match k with
  | KeyWakeup =>
      let '(v, _, errno) := strtol arg 10 in
      if negb (errno =? 0) then Usage
      else Next (Options (verbose o) (u64 v) (cmd_filter o) (cmd_filter_set o)
                   (err_filter o) (err_filter_set o))
  | KeyCmds =>
      let '(err, filter) := parse_cmd_list strdup_ok arg (cmd_filter o) in
      if err <=? 0 then Usage
      else Next (Options (verbose o) (wakeup_size o) filter true
                   (err_filter o) (err_filter_set o))
  | KeyErrors =>
      let '(err, filter) := parse_err_list strdup_ok arg (err_filter o) in
      if err <=? 0 then Usage
      else Next (Options (verbose o) (wakeup_size o) (cmd_filter o) (cmd_filter_set o)
                   filter true)
  | KeyHelp => Usage
  | KeyVerbose =>
      Next (Options true (wakeup_size o) (cmd_filter o) (cmd_filter_set o)
              (err_filter o) (err_filter_set o))
  | KeyOther => Unknown
  end.

(** argp_parse on the options of the command line, in their order. *)
Fixpoint parse_args (strdup_ok : bool) (args : list (key * list Z)) (o : options) : outcome :=
  match args with
  | [] => Next o
  | (k, arg) :: args =>
      match parse_arg strdup_ok k arg o with
      | Next o => parse_args strdup_ok args o
      | r => r
      end
  end.

(** ** Choosing the kernel program *)

Definition lazy_field : list Z := bytes "common_preempt_lazy_count".

(** The format files that can be opened, in the order of the two paths. *)
Fixpoint has_lazy_loop (files : list (option (list Z))) : bool :=
  match files with
  | [] => false
  | None :: files => has_lazy_loop files
  | Some file :: files =>
      if existsb (fun line => strstr (cstr line) lazy_field)
           (fgets_lines (length file) 255 file)
      then true else has_lazy_loop files
  end.
Definition tracepoint_has_lazy_preempt (tracing debug : option (list Z)) : bool :=
  has_lazy_loop [tracing; debug].

(** What the helpers report of the running kernel. *)
Record system := System {
  tracepoint_exists : bool;           (* nfs4:nfs4_xdr_status *)
  fentry_can_attach : bool;           (* rpc_exit_task of sunrpc *)
  format_tracing : option (list Z);
  format_debug : option (list Z);
}.

Record programs := Programs {
  prog_xdr_status : bool; prog_xdr_status_lazy : bool;
  prog_rpc_done_exit : bool; prog_rpc_done_kprobe : bool;
}.

(** The programs that stay loaded and attached: all are in an open skeleton,
    and the two flags of a program are cleared together. *)
Definition select_programs (sys : system) : programs :=
  if tracepoint_exists sys then
    let lazy_preempt := tracepoint_has_lazy_preempt (format_tracing sys) (format_debug sys) in
    Programs (negb lazy_preempt) lazy_preempt false false
  else if fentry_can_attach sys then Programs false false true false
  else Programs false false false true.

(** ** Running the kernel program *)

Definition rodata_of (o : options) : rodata :=
  Rodata (s32 (wakeup_size o)) (Z.b2z (err_filter_set o)) (Z.b2z (cmd_filter_set o)).

Section Main.
Context {RT : BpfRuntime}.

Definition update_allowlist_cmds (o : options) (m : hmap Z Z) : Z * hmap Z Z :=
  if cmd_filter_set o then update_allowlist (cmd_filter o) m else (0, m).
Definition update_allowlist_errors (o : options) (m : hmap Z Z) : Z * hmap Z Z :=
  if err_filter_set o then update_allowlist (err_filter o) m else (0, m).

Definition loaded : st := St (map_create MAX_ERROR_CODES) (map_create MAX_NFS_COMMANDS) [].

(** The two updates of [main]; the second is not tried when the first fails. *)
Definition fill (o : options) (s : st) : Z * st :=
  let '(r1, cmds) := update_allowlist_cmds o (allowlist_cmds s) in
  if r1 <? 0 then (r1, St (allowlist_errors s) cmds (aodrb s))
  else
    let '(r2, errors) := update_allowlist_errors o (allowlist_errors s) in
    (r2, St errors cmds (aodrb s)).

(** [main] after a successful argp_parse: the exit status, and the state of
    the kernel program when it was attached.  When the lists cannot be filled
    [err] is still the 0 of the successful load. *)
Definition main (opened_ok : bool) (load attach : Z) (o : options) : Z * option st :=
  if negb (cmd_filter_set o) && negb (err_filter_set o) then (1, None)
  else if negb opened_ok then (1, None)
  else
    let '(err, s) :=
      if negb (load =? 0) then (load, None)
      else
        let '(r, s) := fill o loaded in
        if r <? 0 then (load, None)
        else if negb (attach =? 0) then (attach, None) else (attach, Some s) in
    (if err <? 0 then - err else 0, s).
End Main.

(** ** Which codes are accepted *)

Lemma nfs4_errors_ascending : ascending nfs4_errors.
Proof. apply ascending_Sorted. repeat (constructor; try lia). Qed.

Lemma compare_ints_spec code x :
  (compare_ints code x < 0 <-> code < x) /\ (0 < compare_ints code x <-> x < code).
Proof. unfold compare_ints. repeat case_match; lia. Qed.

Lemma validate_In code : validate_err_code code = true <-> In code nfs4_errors.
Proof.
  unfold validate_err_code. change MAX_ERROR_CODES with (length nfs4_errors).
  rewrite <- (bsearch_spec (compare_ints code) code nfs4_errors (compare_ints_spec code)
    nfs4_errors_ascending).
  destruct (bsearch _ _ _); split; done.
Qed.

(** C36. The binary search of the loader over [MAX_ERROR_CODES] elements accepts
    exactly the codes of the table, although the table is only searched where
    its order says. *)
Theorem validate_err_code_spec code :
  validate_err_code code = bool_decide (code ∈ nfs4_errors).
Proof.
  apply eq_true_iff_eq. rewrite validate_In, bool_decide_eq_true. by rewrite list_elem_of_In.
Qed.

(** A number beyond the width of an [int] passes as what is left of it. *)
Example err_code_truncated :
  parse_err_list true (bytes "4294967297") [] = (1, [1]).
Proof. vm_compute. reflexivity. Qed.

(** ** What the lists hold *)

Definition cmd_value (t : list Z) : option Z :=
  if (0 <=? atoi t) && (atoi t <? Z.of_nat MAX_NFS_COMMANDS) then Some (u16 (atoi t)) else None.
Definition err_value (t : list Z) : option Z :=
  let '(code, _, _) := strtol t 10 in
  if validate_err_code (s32 code) then Some (s32 code) else None.

Definition is_code (t : list Z) : Prop :=
  exists code, strtol t 10 = (code, [], 0) /\ 0 < code.

(** Appending to an array of [n] elements, of which [f] are in use. *)
Definition fill_array (n : nat) (f vs : list Z) : list Z := f ++ take (n - length f) vs.

Lemma fill_array_app n f v1 v2 :
  fill_array n (fill_array n f v1) v2 = fill_array n f (v1 ++ v2).
Proof.
  unfold fill_array. rewrite <- app_assoc. f_equal.
  rewrite length_app, length_take, take_app. f_equal. f_equal. lia.
Qed.

Lemma fill_array_nil n f : fill_array n f [] = f.
Proof. unfold fill_array. by rewrite firstn_nil, app_nil_r. Qed.

Lemma fill_array_cons n f v vs :
  (length f < n)%nat -> fill_array n f (v :: vs) = fill_array n (f ++ [v]) vs.
Proof.
  intros Hlt. change (v :: vs) with ([v] ++ vs). rewrite <- fill_array_app. f_equal.
  unfold fill_array. f_equal. apply take_ge. cbn [length]. lia.
Qed.

Lemma fill_array_full n f vs : (n <= length f)%nat -> fill_array n f vs = f.
Proof.
  intros Hge. unfold fill_array. replace (n - length f)%nat with O by lia. apply app_nil_r.
Qed.

Lemma nfs_parse_cmd_loop_spec ts filter :
  let filter' := fill_array MAX_NFS_COMMANDS filter (omap cmd_value ts) in
  parse_cmd_loop ts filter = (Z.of_nat (length filter'), filter').
Proof.
  revert filter. induction ts as [|t ts IH]; intros filter; cbn [parse_cmd_loop].
  - cbn [omap list_omap]. by rewrite fill_array_nil.
  - cbn [omap list_omap]. destruct ((0 <=? atoi t) && (atoi t <? Z.of_nat MAX_NFS_COMMANDS)) eqn:Hv.
    2: { assert (cmd_value t = None) as -> by (unfold cmd_value; by rewrite Hv). apply IH. }
    assert (cmd_value t = Some (u16 (atoi t))) as -> by (unfold cmd_value; by rewrite Hv).
    cbn [andb].
    destruct (Nat.ltb_spec (length filter) MAX_NFS_COMMANDS) as [Hlt|Hge].
    + by rewrite IH, fill_array_cons.
    + by rewrite IH, !fill_array_full.
Qed.

Lemma nfs_parse_err_loop_spec ts filter n filter' :
  parse_err_loop ts filter = (n, filter') -> 0 <= n ->
  Forall is_code ts /\ n = Z.of_nat (length filter') /\
  filter' = fill_array MAX_ERROR_CODES filter (omap err_value ts).
Proof.
  revert filter. induction ts as [|t ts IH]; intros filter; cbn [parse_err_loop].
  - intros [= <- <-] _. cbn [omap list_omap]. by rewrite fill_array_nil.
  - cbn [omap list_omap]. destruct (strtol t 10) as [[code rest] errno] eqn:Ht.
    assert (err_value t = if validate_err_code (s32 code) then Some (s32 code) else None) as ->
      by (unfold err_value; by rewrite Ht).
    case_match eqn:Hbad; [intros; simplify_eq; lia|].
    rewrite !orb_false_iff, !negb_false_iff, Z.eqb_eq, bool_decide_eq_true in Hbad.
    destruct Hbad as [[-> ->] Hpos%Z.leb_gt].
    assert (is_code t) as Hcode by (by exists code).
    destruct (validate_err_code (s32 code)); cbn [andb].
    2: { intros Hp Hn. destruct (IH _ Hp Hn) as (? & ? & ?). split; [by constructor|done]. }
    destruct (Nat.ltb_spec (length filter) MAX_ERROR_CODES) as [Hlt|Hge]; intros Hp Hn;
      destruct (IH _ Hp Hn) as (Hok & -> & ->); (split; [by constructor|split; [done|]]).
    + by rewrite fill_array_cons.
    + by rewrite !fill_array_full.
Qed.

#[export] Instance key_eq_dec : EqDecision key.
Proof. solve_decision. Defined.

(** The tokens that the options [k] of a command line give, in order. *)
Definition tokens (k : key) (args : list (key * list Z)) : list (list Z) :=
  flat_map (fun a => if decide (fst a = k) then strtok_all 44 (snd a) else []) args.

Definition given (k : key) (args : list (key * list Z)) : bool :=
  existsb (fun a => bool_decide (fst a = k)) args.

Record accepted (args : list (key * list Z)) (o o' : options) : Prop := {
  acc_cmds : cmd_filter o' =
    fill_array MAX_NFS_COMMANDS (cmd_filter o) (omap cmd_value (tokens KeyCmds args));
  acc_errs : err_filter o' =
    fill_array MAX_ERROR_CODES (err_filter o) (omap err_value (tokens KeyErrors args));
  acc_cmds_set : cmd_filter_set o' = cmd_filter_set o || given KeyCmds args;
  acc_errs_set : err_filter_set o' = err_filter_set o || given KeyErrors args;
}.

Lemma nfs_accepted_refl o : accepted [] o o.
Proof. by split; rewrite ?orb_false_r; cbn; rewrite ?fill_array_nil. Qed.

Lemma nfs_accepted_cons a args o o1 o2 :
  accepted [a] o o1 -> accepted args o1 o2 -> accepted (a :: args) o o2.
Proof.
  intros [Ec1 Ee1 Hs1 Ht1] [Ec2 Ee2 Hs2 Ht2].
  unfold tokens, given in *. cbn [flat_map existsb] in *.
  rewrite app_nil_r in Ec1, Ee1. rewrite orb_false_r in Hs1, Ht1.
  split; unfold tokens, given; cbn [flat_map existsb].
  - by rewrite Ec2, Ec1, fill_array_app, omap_app.
  - by rewrite Ee2, Ee1, fill_array_app, omap_app.
  - by rewrite Hs2, Hs1, orb_assoc.
  - by rewrite Ht2, Ht1, orb_assoc.
Qed.

Lemma nfs_parse_arg_accepted ok k arg o o' :
  parse_arg ok k arg o = Next o' -> accepted [(k, arg)] o o'.
Proof.
  destruct k; cbn [parse_arg]; intros Hp; try done.
  - destruct (strtol arg 10) as [[v r] e]. case_match; [done|]. simplify_eq.
    by split; cbn; rewrite ?orb_false_r, ?fill_array_nil.
  - unfold parse_cmd_list in Hp. destruct ok; cbn [negb] in Hp; [|done].
    rewrite nfs_parse_cmd_loop_spec in Hp. case_match; [done|]. simplify_eq.
    by split; unfold tokens, given; cbn; rewrite ?app_nil_r, ?orb_false_r, ?orb_true_r,
      ?fill_array_nil.
  - unfold parse_err_list in Hp. destruct ok; cbn [negb] in Hp; [|done].
    destruct (parse_err_loop _ _) as [n f] eqn:Hl.
    destruct (Z.leb_spec n 0) as [|Hn]; [done|]. simplify_eq.
    destruct (nfs_parse_err_loop_spec _ _ _ _ Hl ltac:(lia)) as (_ & _ & ->).
    by split; unfold tokens, given; cbn; rewrite ?app_nil_r, ?orb_false_r, ?orb_true_r,
      ?fill_array_nil.
  - simplify_eq. by split; cbn; rewrite ?orb_false_r, ?fill_array_nil.
Qed.

Lemma nfs_parse_args_accepted ok args o o' : parse_args ok args o = Next o' -> accepted args o o'.
Proof.
  revert o. induction args as [|[k arg] args IH]; intros o; cbn [parse_args].
  - intros [= ->]. apply nfs_accepted_refl.
  - destruct (parse_arg ok k arg o) as [o1| |] eqn:Hp; [|done..]. intros Ha.
    apply nfs_accepted_cons with o1; [by apply nfs_parse_arg_accepted with ok|by apply IH].
Qed.

(** The commands and the error codes that a command line lists. *)
Definition listed_cmds (args : list (key * list Z)) : list Z :=
  take MAX_NFS_COMMANDS (omap cmd_value (tokens KeyCmds args)).
Definition listed_errors (args : list (key * list Z)) : list Z :=
  take MAX_ERROR_CODES (omap err_value (tokens KeyErrors args)).

Lemma accepted_listed args o :
  accepted args initial_options o ->
  cmd_filter o = listed_cmds args /\ err_filter o = listed_errors args /\
  cmd_filter_set o = given KeyCmds args /\ err_filter_set o = given KeyErrors args.
Proof.
  intros [Hc He Hcs Hes]. unfold fill_array in Hc, He.
  cbn [initial_options cmd_filter err_filter cmd_filter_set err_filter_set length app orb] in *.
  by rewrite Nat.sub_0_r in Hc, He.
Qed.

Section MainLemmas.
Context {RT : BpfRuntime} {RL : BpfRuntimeLaws RT}.

Lemma nfs_fill_spec o :
  (length (cmd_filter o) <= MAX_NFS_COMMANDS)%nat ->
  (length (err_filter o) <= MAX_ERROR_CODES)%nat ->
  let '(r, s) := fill o loaded in
  r = 0 /\ aodrb s = [] /\
  (cmd_filter_set o = true -> forall c,
    is_Some (bpf_map_lookup_elem (allowlist_cmds s) c) <-> In c (cmd_filter o)) /\
  (err_filter_set o = true -> forall c,
    is_Some (bpf_map_lookup_elem (allowlist_errors s) c) <-> In c (err_filter o)).
Proof.
  intros Hc He. unfold fill, loaded, update_allowlist_cmds, update_allowlist_errors.
  cbn [allowlist_cmds allowlist_errors aodrb].
  pose proof (update_allowlist_create (cmd_filter o) MAX_NFS_COMMANDS Hc) as H1.
  pose proof (update_allowlist_create (err_filter o) MAX_ERROR_CODES He) as H2.
  destruct (update_allowlist (cmd_filter o) _) as [r1 cmds].
  destruct (update_allowlist (err_filter o) _) as [r2 errs].
  destruct H1 as [-> H1], H2 as [-> H2].
  destruct (cmd_filter_set o), (err_filter_set o); done.
Qed.

Lemma nfs_main_runs attach o s :
  (length (cmd_filter o) <= MAX_NFS_COMMANDS)%nat ->
  (length (err_filter o) <= MAX_ERROR_CODES)%nat ->
  main true 0 attach o = (0, Some s) ->
  aodrb s = [] /\
  (cmd_filter_set o = true -> forall c,
    is_Some (bpf_map_lookup_elem (allowlist_cmds s) c) <-> In c (cmd_filter o)) /\
  (err_filter_set o = true -> forall c,
    is_Some (bpf_map_lookup_elem (allowlist_errors s) c) <-> In c (err_filter o)).
Proof.
  intros Hc He. unfold main. pose proof (nfs_fill_spec o Hc He) as Hf.
  destruct (fill o loaded) as [r s']. destruct Hf as (-> & Hf). case_match; [done|].
  cbn. destruct (Z.eqb_spec attach 0) as [->|]; cbn; intros Hm; [|congruence].
  by injection Hm as <-.
Qed.

Lemma nfs_allowed_command_line args o s err command :
  accepted args initial_options o ->
  (cmd_filter_set o = true -> forall c,
    is_Some (bpf_map_lookup_elem (allowlist_cmds s) c) <-> In c (cmd_filter o)) ->
  (err_filter_set o = true -> forall c,
    is_Some (bpf_map_lookup_elem (allowlist_errors s) c) <-> In c (err_filter o)) ->
  allowed (rodata_of o) s err command <->
  (given KeyErrors args = true -> In err (listed_errors args)) /\
  (given KeyCmds args = true -> In command (listed_cmds args)).
Proof.
  intros (Ec & Ee & Hcs & Hes)%accepted_listed Hc He.
  unfold allowed, rodata_of. cbn [filter_errors filter_cmds].
  rewrite Ec, Hcs in Hc. rewrite Ee, Hes in He. rewrite Hcs, Hes.
  destruct (given KeyErrors args), (given KeyCmds args); cbn;
    rewrite ?Hc, ?He by done; intuition congruence.
Qed.

(** C16. From the command line to the ring: when nfsiosnoop runs on a command
    line without a wakeup size, its task probe reports a task exactly when it
    failed, the magnitude of its status is among the known codes that -e lists
    if -e is given, and its procedure among the commands that -c lists if -c
    is given; its tracepoint does so for the status word. *)
Theorem nfsiosnoop_command_line ok args o attach s (e : kenv event) rm slot :
  parse_args ok args initial_options = Next o -> s32 (wakeup_size o) = 0 ->
  main true 0 attach o = (0, Some s) -> reserve e 0 = Some slot ->
  let passes (err command : Z) :=
    (given KeyErrors args = true -> In err (listed_errors args)) /\
    (given KeyCmds args = true -> In command (listed_cmds args)) in
  let reported (f : st -> st) err command :=
    exists ev, aodrb (f s) = [(ev, 0)] /\ ev_command ev = command /\
      ev_metric ev = set_retval (ev_metric slot) err in
  (forall task, - 2 ^ 31 < tk_status rm task < 2 ^ 31 ->
    let err := Z.abs (tk_status rm task) in
    let command := u16 (p_statidx rm task) in
    (tk_status rm task <> 0 /\ passes err command /\
     reported (rpc_done_exit (rodata_of o) rm e task) err command) \/
    (~ (tk_status rm task <> 0 /\ passes err command) /\
     rpc_done_exit (rodata_of o) rm e task s = s)) /\
  (forall rec, let ctx := nfs4_xdr_status rec in
    (error ctx <> 0 /\ passes (s32 (error ctx)) (u16 (op ctx)) /\
     reported (trace_nfs4_xdr_status (rodata_of o) e rec) (s32 (error ctx)) (u16 (op ctx))) \/
    (~ (error ctx <> 0 /\ passes (s32 (error ctx)) (u16 (op ctx))) /\
     trace_nfs4_xdr_status (rodata_of o) e rec s = s)).
Proof.
  intros Hp Hw Hm Hs passes reported. apply nfs_parse_args_accepted in Hp.
  destruct (accepted_listed _ _ Hp) as (Ec & Ee & _).
  destruct (nfs_main_runs attach o s) as (Hring & Hc & He); [| |done|];
    [rewrite Ec; unfold listed_cmds; rewrite length_take; lia
    |rewrite Ee; unfold listed_errors; rewrite length_take; lia|].
  pose proof (fun x c => nfs_allowed_command_line args o s x c Hp Hc He) as Ha.
  split.
  - intros task Hr err command. subst passes.
    destruct (probe_entry_cases (rodata_of o) rm e task s slot Hw Hs Hr) as [[[H0 Hal] Hrep]|[Hn Heq]].
    + left. apply Ha in Hal. split; [done|]. split; [done|]. unfold reported, rpc_done_exit.
      rewrite Hrep. cbn [submit aodrb]. rewrite Hring. by eexists.
    + right. split; [|done]. intros [H0 Hal%Ha]. by apply Hn.
  - intros rec ctx. subst passes. unfold trace_nfs4_xdr_status. fold ctx.
    destruct (emit_cases (rodata_of o) e (xid ctx) (u16 (op ctx)) (error ctx) s slot Hw Hs)
      as [[[H0 Hal] Hrep]|[Hn Heq]].
    + left. apply Ha in Hal. split; [done|]. split; [done|]. unfold reported.
      fold ctx. rewrite Hrep. cbn [submit aodrb]. rewrite Hring. by eexists.
    + right. split; [|done]. intros [H0 Hal%Ha]. by apply Hn.
Qed.
End MainLemmas.

(** The exit status 0 means that the program was told what to filter, and
    its kernel program was loaded and attached, or that its lists could not be
    filled: that failure is not reported. *)
Theorem nfsiosnoop_exit_status `{BpfRuntime} ok args o opened_ok load attach :
  parse_args ok args initial_options = Next o -> load <= 0 -> attach <= 0 ->
  fst (main opened_ok load attach o) = 0 <->
  (given KeyCmds args = true \/ given KeyErrors args = true) /\
  opened_ok = true /\ load = 0 /\ (attach = 0 \/ fst (fill o loaded) < 0).
Proof.
  intros (_ & _ & Hc & He)%nfs_parse_args_accepted%accepted_listed Hl Hat.
  unfold main. rewrite Hc, He. destruct (fill o loaded) as [r s']. cbn [fst].
  assert (fst (let '(err, s0) := if negb (load =? 0) then (load, None)
      else if r <? 0 then (load, None)
      else if negb (attach =? 0) then (attach, None) else (attach, Some s') in
      (if err <? 0 then - err else 0, s0)) = 0 <-> load = 0 /\ (attach = 0 \/ r < 0)) as Hrun.
  { destruct (Z.eqb_spec load 0), (Z.ltb_spec r 0), (Z.eqb_spec attach 0); cbn [negb fst];
      case_match eqn:Hlt; cbn [fst]; rewrite ?Z.ltb_lt, ?Z.ltb_ge in Hlt; lia. }
  destruct (given KeyCmds args), (given KeyErrors args), opened_ok; cbn [negb andb orb fst];
    rewrite ?Hrun; intuition congruence.
Qed.

(** ** The choice of the kernel program *)

Definition option_list {A} (o : option A) : list A := match o with Some x => [x] | None => [] end.

(** A text file whose lines fit the buffer. *)
Definition text_file (s : list Z) : Prop := no_nul s /\ short_lines 255 s.

Lemma no_nul_line fuel n s line : no_nul s -> In line (fgets_lines fuel n s) -> no_nul line.
Proof.
  revert s. induction fuel as [|fuel IH]; intros s Hs; [by intros []|].
  destruct s as [|c s]; [by intros []|]. cbn [fgets_lines].
  pose proof (fgets_spec n (c :: s)) as Hg. destruct (fgets n (c :: s)) as [l rest].
  destruct Hg as [Heq _]. rewrite Heq in Hs. apply no_nul_app in Hs as [H1 H2].
  intros [<-|Hin]; [done|by apply (IH rest)].
Qed.

Lemma file_has_lazy s :
  text_file s ->
  existsb (fun line => strstr (cstr line) lazy_field) (fgets_lines (length s) 255 s) =
  strstr s lazy_field.
Proof.
  intros [Hn Hs]. rewrite <- (fgets_lines_strstr (length s) 255 s lazy_field);
    [|by vm_compute; intuition congruence|done|done|done].
  pose proof (fun l => no_nul_line (length s) 255 s l Hn) as Hall.
  induction (fgets_lines (length s) 255 s) as [|l ls IH]; [done|]. cbn [existsb].
  rewrite (cstr_all l) by (apply Hall; by left). f_equal. apply IH. intros l' ?. apply Hall. by right.
Qed.

(** Exactly one kernel program stays loaded: a tracepoint program when the
    kernel has the tracepoint, and then the one for the lazy layout exactly
    when a format file that can be read names the extra header field; else the
    fexit program where it attaches, and the kprobe program where not. *)
Theorem nfsiosnoop_program_choice sys :
  Forall text_file (option_list (format_tracing sys) ++ option_list (format_debug sys)) ->
  let lazy := existsb (fun f => strstr f lazy_field)
    (option_list (format_tracing sys) ++ option_list (format_debug sys)) in
  let p := select_programs sys in
  (prog_xdr_status_lazy p = tracepoint_exists sys && lazy) /\
  (prog_xdr_status p = tracepoint_exists sys && negb lazy) /\
  (prog_rpc_done_exit p = negb (tracepoint_exists sys) && fentry_can_attach sys) /\
  (prog_rpc_done_kprobe p = negb (tracepoint_exists sys) && negb (fentry_can_attach sys)).
Proof.
  intros Hfiles lazy p.
  assert (tracepoint_has_lazy_preempt (format_tracing sys) (format_debug sys) = lazy) as Hl.
  { subst lazy. unfold tracepoint_has_lazy_preempt.
    apply Forall_app in Hfiles as [H1 H2].
    destruct (format_tracing sys) as [f1|], (format_debug sys) as [f2|];
      cbn [option_list has_lazy_loop app existsb] in *;
      repeat match goal with H : Forall text_file (_ :: _) |- _ =>
        apply Forall_cons_1 in H as [? ?] end;
      rewrite ?file_has_lazy by done; repeat case_match; done. }
  subst p. unfold select_programs. rewrite Hl.
  destruct (tracepoint_exists sys), (fentry_can_attach sys), lazy; done.
Qed.

(** ** The theorems at concrete inputs *)

(** "-e 13,10008,4242 -c 3,70": the unknown code and the command out of range
    are passed over. *)
Definition demo_args : list (key * list Z) :=
  [(KeyErrors, bytes "13,10008,4242"); (KeyCmds, bytes "3,70")].
Definition demo_options : options := Options false 0 [3] true [13; 10008] true.

Lemma nfsiosnoop_command_line_witness :
  exists ev, aodrb (rpc_done_exit (rodata_of demo_options) demo_rm (at_ns 7 1000) 0x9000
    (snd (fill demo_options loaded))) = [(ev, 0)] /\ ev_command ev = 3.
Proof.
  destruct (nfsiosnoop_command_line true demo_args demo_options 0
    (snd (fill demo_options loaded)) (at_ns 7 1000) demo_rm slot0) as [H _];
    [vm_compute; reflexivity|vm_compute; reflexivity|vm_compute; reflexivity
    |vm_compute; reflexivity|].
  destruct (H 0x9000) as [(_ & _ & ev & H1 & H2 & _)|[Hn _]]; [split; vm_compute; congruence| |].
  - exists ev. split; [exact H1|exact H2].
  - exfalso. apply Hn. split; [vm_compute; congruence|]. split; intros _; vm_compute; tauto.
Defined.

Lemma nfsiosnoop_exit_status_witness : fst (main true 0 (-22) demo_options) <> 0.
Proof.
  intros H. apply (nfsiosnoop_exit_status true demo_args demo_options true 0 (-22)) in H;
    [|vm_compute; reflexivity|lia|lia].
  destruct H as (_ & _ & _ & [H|H]); [lia|]. revert H. vm_compute. congruence.
Defined.

(** The format of a kernel with the extra field, cut to three lines. *)
Definition demo_format : list Z :=
  bytes "name: nfs4_xdr_status" ++ [10] ++
  bytes "field:unsigned char common_preempt_lazy_count;" ++ [10] ++ bytes "print fmt:" ++ [10].

Lemma nfsiosnoop_program_choice_witness :
  prog_xdr_status_lazy (select_programs (System true true (Some demo_format) None)) = true.
Proof.
  destruct (nfsiosnoop_program_choice (System true true (Some demo_format) None)) as [H _].
  - apply Forall_singleton. split.
    + apply (bool_decide_unpack _). vm_compute. exact I.
    + intros a l b Heq _. apply (f_equal length) in Heq. rewrite !length_app in Heq.
      assert (length demo_format = 80%nat) as Hlen by (vm_compute; reflexivity). cbn in Heq. lia.
  - rewrite H. vm_compute. reflexivity.
Defined.
