(* ===== verification/RingbufShim.v ===== *)
(** * The ring buffer shim

    Models src/ringbuf_shim.c, through which the consumers read the pinned ring
    in batches: the callback [_copy_event] with its copy into the caller's
    buffer, [rb_poll_into], and [rb_open] and [rb_close] with what they hold.
    libbpf's ring buffer is a parameter ([RingBuffer]).  The theorems: a batch
    that is read back field by field is the next events of the ring, what a
    full buffer costs, and what opening and closing leave behind. *)

From S2P Require Import Prelude Bpf AodEvent.

(** ** The callback *)

(** The caller's buffer is [ext_buf]. *)
Record rb_context := Ctx { ext_buf : list Z; ext_capacity : Z; count : Z }.

(** memcpy into a buffer: [None] when the bytes do not fit. *)
Definition memcpy_at (buf : list Z) (off : Z) (data : list Z) : option (list Z) :=
  if bool_decide (0 <= off /\ off + Z.of_nat (length data) <= Z.of_nat (length buf))
  then Some (take (Z.to_nat off) buf ++ data ++ drop (Z.to_nat off + length data) buf)
  else None.

Definition copy_event (data : list Z) (c : rb_context) : option (Z * rb_context) :=
  if (length data <? sizeof_event)%nat then Some (0, c)
  else if ext_capacity c <=? count c then Some (-1, c)
  else
    match memcpy_at (ext_buf c) (count c * Z.of_nat sizeof_event) (take sizeof_event data) with
    | None => None
    | Some buf => Some (0, Ctx buf (ext_capacity c) (count c + 1))
    end.

(** ** libbpf *)

(** Consuming records with a callback: in order, until one returns a negative
    number; that record is consumed. *)
Fixpoint drain {C} (cb : list Z -> C -> option (Z * C)) (records : list (list Z)) (c : C)
  : option (Z * C * list (list Z)) :=
  match records with
  | [] => Some (0, c, [])
  | r :: records =>
      match cb r c with
      | None => None
      | Some (e, c) => if e <? 0 then Some (e, c, records) else drain cb records c
      end
  end.

(** [ring_buffer__poll] of a ring that holds [records]: the number of records
    consumed or an error, the new context and the records left.  Its documented
    behaviour: the wait fails or times out and nothing is consumed, or the
    records are drained and the callback's error is returned. *)
Class RingBuffer := {
  ring_buffer__poll : forall C, (list Z -> C -> option (Z * C)) -> list (list Z) -> Z -> C ->
    option (Z * C * list (list Z));
  poll_cases : forall C cb records timeout (c : C),
    (exists e, e <= 0 /\ ring_buffer__poll C cb records timeout c = Some (e, c, records)) \/
    ring_buffer__poll C cb records timeout c =
      match drain cb records c with
      | None => None
      | Some (e, c', rest) =>
          Some (if e <? 0 then e else Z.min (Z.of_nat (length records)) (2 ^ 31 - 1), c', rest)
      end;
}.

Definition rb_poll_into `{RingBuffer} (buf : list Z) (capacity timeout_ms : Z)
    (records : list (list Z)) : option (Z * list Z * list (list Z)) :=
  match ring_buffer__poll _ copy_event records timeout_ms (Ctx buf capacity 0) with
  | None => None
  | Some (err, ctx, rest) =>
      Some (if 0 <? count ctx then count ctx
            else if (err <? 0) && negb (err =? -4) then err else 0,
            ext_buf ctx, rest)
  end.

(** ** Opening and closing *)

(** The file descriptors and the memory blocks that the process holds. *)
Record process := Process { fds : list Z; blocks : nat }.

(** A handle: the descriptor of the map, which the ring buffer keeps. *)
Record handle := Handle { map_fd : Z }.

(** [fd] is the result of bpf_obj_get; the ring buffer of libbpf has no
    descriptor of the caller's and is released with [ring_buffer__free]. *)
Definition rb_open (fd : Z) (calloc_ok new_ok : bool) (p : process)
  : option handle * process :=
  if fd <? 0 then (None, p)
  else
    let p := Process (fd :: fds p) (blocks p) in
    if negb calloc_ok then (None, p)
    else
      let p := Process (fds p) (S (blocks p)) in
      if negb new_ok then (None, Process (fds p) (pred (blocks p)))
      else (Some (Handle fd), p).

Definition rb_close (h : option handle) (p : process) : process :=
  match h with
  | None => p
  | Some _ => Process (fds p) (pred (blocks p))
  end.

(** The descriptor that the shim opens outlives it: after closing the
    handle, or after opening failed with a descriptor in hand, the memory is
    released and the descriptor is still open. *)
Theorem shim_leaks_descriptor fd calloc_ok new_ok p :
  0 <= fd ->
  let '(h, p') := rb_open fd calloc_ok new_ok p in
  rb_close h p' = Process (fd :: fds p) (blocks p).
Proof.
  intros Hfd. unfold rb_open. destruct (Z.ltb_spec fd 0); [lia|].
  by destruct calloc_ok, new_ok, p.
Qed.

(** ** Batches *)

(** Reading a buffer as an array of [n] events. *)
Fixpoint decode_stream (n : nat) (buf : list Z) : list event :=
  match n with
  | O => []
  | S n => decode (take sizeof_event buf) :: decode_stream n (drop sizeof_event buf)
  end.

Definition encode_all (es : list event) : list Z := concat (map encode es).

Lemma encode_all_length es :
  Forall event_ok es -> length (encode_all es) = (sizeof_event * length es)%nat.
Proof.
  unfold encode_all. induction 1 as [|e es He Hes IH]; [done|]. cbn [map concat length].
  rewrite length_app, IH, encode_length by apply He. lia.
Qed.

Lemma decode_stream_encode es tail :
  Forall event_ok es -> decode_stream (length es) (encode_all es ++ tail) = es.
Proof.
  unfold encode_all. induction 1 as [|e es He Hes IH]; [done|]. cbn [map concat length decode_stream].
  assert (length (encode e) = sizeof_event) as Hl by apply encode_length, He.
  rewrite <- app_assoc, <- Hl, take_app_length, drop_app_length, decode_encode_ok by done.
  by rewrite IH.
Qed.

(** The context after [done] events were copied into a buffer of [cap]. *)
Definition copied (done : list event) (cap : nat) (c : rb_context) : Prop :=
  exists tail, ext_buf c = encode_all done ++ tail /\
    length tail = (sizeof_event * (cap - length done))%nat /\
    ext_capacity c = Z.of_nat cap /\ count c = Z.of_nat (length done).

Lemma copy_event_step done cap c e :
  Forall event_ok done -> event_ok e -> copied done cap c -> (length done < cap)%nat ->
  exists c', copy_event (encode e) c = Some (0, c') /\ copied (done ++ [e]) cap c'.
Proof.
  intros Hd He (tail & Hb & Ht & Hcap & Hcount) Hlt. unfold copy_event.
  assert (length (encode e) = sizeof_event) as Hl by apply encode_length, He.
  rewrite Hl, Nat.ltb_irrefl, Hcap, Hcount.
  destruct (Z.leb_spec (Z.of_nat cap) (Z.of_nat (length done))); [lia|].
  rewrite (take_ge (encode e)) by lia. unfold memcpy_at.
  pose proof (encode_all_length done Hd) as Hdl.
  rewrite bool_decide_eq_true_2 by (rewrite Hb, length_app, Hdl, Ht, Hl; unfold sizeof_event; lia).
  replace (Z.to_nat (Z.of_nat (length done) * Z.of_nat sizeof_event))
    with (length (encode_all done)) by (rewrite Hdl; lia).
  rewrite Hb, take_app_length, Hl, drop_app_add.
  eexists. split; [done|]. exists (drop sizeof_event tail). cbn [ext_buf ext_capacity count].
  split_and!; [|rewrite length_drop, length_app, Ht; unfold sizeof_event; cbn [length]; lia|done
    |rewrite length_app; cbn [length]; lia].
  unfold encode_all. rewrite map_app, concat_app, <- app_assoc. cbn [map concat].
  by rewrite app_nil_r.
Qed.

Lemma copy_event_full done cap c e :
  event_ok e -> copied done cap c -> length done = cap -> copy_event (encode e) c = Some (-1, c).
Proof.
  intros He (tail & _ & _ & Hcap & Hcount) Hfull. unfold copy_event.
  rewrite encode_length by apply He. rewrite Nat.ltb_irrefl, Hcap, Hcount, Hfull.
  by rewrite Z.leb_refl.
Qed.

(** Draining events: all of them while they fit; else one more than fits is
    consumed. *)
Lemma drain_events es done cap c :
  Forall event_ok done -> Forall event_ok es -> copied done cap c -> (length done <= cap)%nat ->
  let room := (cap - length done)%nat in
  exists c', copied (done ++ take room es) cap c' /\
    drain copy_event (map encode es) c =
      Some (if (length es <=? room)%nat then 0 else -1, c', map encode (drop (S room) es)).
Proof.
  intros Hd Hes. revert done c Hd. induction Hes as [|e es He Hes IH]; intros done c Hd Hc Hle.
  - exists c. rewrite firstn_nil, app_nil_r, drop_nil. by split.
  - cbn [map drain]. destruct (Nat.eq_dec (length done) cap) as [Hfull|Hroom].
    + rewrite (copy_event_full done cap c e He Hc Hfull). exists c.
      replace (cap - length done)%nat with O by lia. cbn. by rewrite app_nil_r, drop_0.
    + destruct (copy_event_step done cap c e Hd He Hc ltac:(lia)) as (c1 & -> & Hc1).
      cbn [Z.ltb Z.compare].
      destruct (IH (done ++ [e]) c1) as (c2 & Hc2 & ->); [by apply Forall_app; split; [|constructor]
        |done|rewrite length_app; cbn; lia|].
      exists c2. rewrite length_app in *. cbn [length] in *.
      replace (cap - length done)%nat with (S (cap - (length done + 1))) by lia.
      cbn [firstn drop length Nat.leb]. split; [by rewrite <- app_assoc in Hc2|done].
Qed.

(** One poll of a ring that holds events. *)
Lemma shim_poll `{RingBuffer} es buf cap timeout :
  Forall event_ok es -> length buf = (sizeof_event * cap)%nat ->
  exists r buf' rest,
    rb_poll_into buf (Z.of_nat cap) timeout (map encode es) = Some (r, buf', rest) /\
    length buf' = length buf /\
    ((r <= 0 /\ buf' = buf /\ rest = map encode es) \/
     (rest = map encode (drop (S cap) es) /\
      decode_stream (Nat.min cap (length es)) buf' = take cap es /\
      Z.to_nat r = Nat.min cap (length es))).
Proof.
  intros Hes Hbuf.
  assert (copied [] cap (Ctx buf (Z.of_nat cap) 0)) as H0.
  { exists buf. cbn [length]. rewrite Nat.sub_0_r. done. }
  destruct (drain_events es [] cap _ (Forall_nil_2 _) Hes H0 ltac:(cbn; lia)) as (c' & Hc' & Hd).
  cbn [length app] in Hc', Hd. rewrite Nat.sub_0_r in Hc', Hd.
  destruct Hc' as (tail & Hb & Ht & _ & Hcount).
  unfold rb_poll_into.
  destruct (poll_cases _ copy_event (map encode es) timeout (Ctx buf (Z.of_nat cap) 0))
    as [(err & Herr & ->)|Hpoll].
  - eexists _, _, _. split; [done|]. cbn [count ext_buf]. split; [done|]. left.
    split; [|done]. cbn [count]. by destruct ((err <? 0) && negb (err =? -4)).
  - rewrite Hpoll, Hd. eexists _, _, _. split; [done|].
    assert (Forall event_ok (take cap es)) as Htake by by apply Forall_take.
    split.
    { rewrite Hb, length_app, encode_all_length, Ht, Hbuf, length_take by done.
      unfold sizeof_event. lia. }
    right. split; [done|]. rewrite Hcount, length_take, Hb. split.
    + rewrite <- length_take. by apply decode_stream_encode.
    + destruct (Z.ltb_spec 0 (Z.of_nat (Nat.min cap (length es)))); [lia|].
      destruct (_ && _) eqn:Herr; [|lia]. apply andb_true_iff in Herr as [Herr%Z.ltb_lt _]. lia.
Qed.

(** A poll never writes outside the caller's buffer, and either delivers
    nothing and leaves the ring and the buffer as they were, or delivers the
    next events: the caller reads them back field by field from the buffer,
    as many as there are or as fit, and their number is the result.  When the
    ring holds more than fit, one event more is gone from the ring. *)
Theorem shim_batch `{RingBuffer} es buf cap timeout :
  Forall event_ok es -> length buf = (sizeof_event * cap)%nat ->
  exists r buf' rest,
    rb_poll_into buf (Z.of_nat cap) timeout (map encode es) = Some (r, buf', rest) /\
    length buf' = length buf /\
    ((r <= 0 /\ buf' = buf /\ rest = map encode es) \/
     (rest = map encode (drop (S cap) es) /\
      decode_stream (Nat.min cap (length es)) buf' = take cap es /\
      (0 < Nat.min cap (length es) -> r = Z.of_nat (Nat.min cap (length es)))%nat)).
Proof.
  intros Hes Hbuf. destruct (shim_poll es buf cap timeout Hes Hbuf) as (r & b & rest & Hp & Hl & Hc).
  exists r, b, rest. split_and!; [done|done|].
  destruct Hc as [Hc|(H1 & H2 & H3)]; [by left|right]. split_and!; [done|done|lia].
Qed.

(** ** The theorems at concrete inputs *)

(** A ring buffer whose wait always succeeds. *)
#[export] Instance ready_ring : RingBuffer.
Proof.
  refine {| ring_buffer__poll C cb records timeout c :=
    match drain cb records c with
    | None => None
    | Some (e, c', rest) =>
        Some (if e <? 0 then e else Z.min (Z.of_nat (length records)) (2 ^ 31 - 1), c', rest)
    end |}.
  intros. by right.
Defined.

Definition demo_event (cmd : Z) : event :=
  Event 7 cmd NFSSLOWER 0 1000000 77 12345 (pad 16 (bytes "cp")).

(** Three events and a buffer of two: the third is lost, and two come back. *)
Lemma shim_batch_witness :
  exists buf rest, rb_poll_into (replicate 96 0) 2 0 (map encode (map demo_event [1; 2; 3])) =
    Some (2, buf, rest) /\ decode_stream 2 buf = [demo_event 1; demo_event 2] /\ rest = [].
Proof.
  destruct (shim_batch (map demo_event [1; 2; 3]) (replicate 96 0) 2 0)
    as (r & buf & rest & Hp & _ & [(Hr & _ & Hrest)|(Hrest & Hdec & Hr)]).
  - repeat constructor; vm_compute; intuition congruence.
  - reflexivity.
  - exfalso. revert Hr. change (Z.of_nat 2) with 2 in Hp.
    assert (fst <$> (fst <$> rb_poll_into (replicate 96 0) 2 0
      (map encode (map demo_event [1; 2; 3]))) = Some 2) as H2 by (vm_compute; reflexivity).
    rewrite Hp in H2. cbn in H2. injection H2 as ->. lia.
  - exists buf, rest. rewrite Hr in Hp by (cbn; lia). split; [exact Hp|].
    split; [exact Hdec|exact Hrest].
Defined.

Lemma shim_leaks_descriptor_witness :
  rb_close (fst (rb_open 5 true true (Process [] 0)))
    (snd (rb_open 5 true true (Process [] 0))) = Process [5] 0.
Proof. exact (shim_leaks_descriptor 5 true true (Process [] 0) ltac:(lia)). Defined.
