(* ===== verification/ShimStream.v ===== *)
(** * What a consumer of the shim receives

    The loop of src/common/shim_consumer.py ([session]): it calls
    [rb_poll_into] (RingbufShim) with a fresh buffer each time and reads as many
    events from it as the result says, while the kernel programs add events to
    the ring between two calls.  The theorem says which events the consumer
    receives.  An event that arrives while a poll drains the ring counts as
    arriving before that poll or after it. *)

From S2P Require Import Prelude Bpf AodEvent RingbufShim.

(** Of a whole session: the events that the consumer read, those that had
    arrived when it ended, the number of polls that found more in the ring than
    the buffer holds, what is left in the ring, and the error that ended the
    loop early, if any. *)
Record transcript := Transcript {
  received : list event;
  arrived : list event;
  overfull : nat;
  left_over : list (list Z);
  failure : option Z;
}.

(** Each round is the events that arrive and the buffer, with any contents, of
    the poll that follows; the loop ends when the rounds do ([exiting]). *)
Fixpoint session `{RingBuffer} (cap : nat) (timeout : Z) (rounds : list (list event * list Z))
    (ring : list (list Z)) : option transcript :=
  match rounds with
  | [] => Some (Transcript [] [] 0 ring None)
  | (es, buf) :: rounds =>
      let ring := ring ++ map encode es in
      let more := if (cap <? length ring)%nat then 1%nat else 0%nat in
      match rb_poll_into buf (Z.of_nat cap) timeout ring with
      | None => None
      | Some (count, buf, rest) =>
          if (count <? 0) && negb (count =? -4)
          then Some (Transcript [] es more rest (Some count))
          else
            match session cap timeout rounds rest with
            | None => None
            | Some t =>
                Some (Transcript (decode_stream (Z.to_nat count) buf ++ received t)
                  (es ++ arrived t) (more + overfull t) (left_over t) (failure t))
            end
      end
  end.

Lemma sublist_eq_length {A} (l k : list A) : sublist l k -> (length k <= length l)%nat -> l = k.
Proof.
  induction 1 as [|x l k Hs IH|x l k Hs IH]; cbn; intros Hl; [done|f_equal; apply IH; lia|].
  apply sublist_length in Hs. lia.
Qed.

(** One poll: what it delivers and leaves is a part of the ring in order, and
    one event is missing at most, and only from an overfull ring. *)
Lemma poll_loses_one `{RingBuffer} es buf cap timeout :
  Forall event_ok es -> length buf = (sizeof_event * cap)%nat ->
  exists r buf' pending,
    rb_poll_into buf (Z.of_nat cap) timeout (map encode es) = Some (r, buf', map encode pending) /\
    length buf' = length buf /\ Forall event_ok pending /\
    let got := decode_stream (Z.to_nat r) buf' ++ pending in
    sublist got es /\
    (length es <= length got + (if cap <? length es then 1 else 0))%nat.
Proof.
  intros Hes Hbuf.
  destruct (shim_poll es buf cap timeout Hes Hbuf) as (r & buf' & rest & -> & Hl & [(Hr & -> & ->)|Hcase]).
  - exists r, buf, es. replace (Z.to_nat r) with O by lia. cbn [decode_stream app].
    split_and!; try done. cbn zeta. lia.
  - destruct Hcase as (-> & Hd & Hr). exists r, buf', (drop (S cap) es).
    split_and!; [done|done|by apply Forall_drop|]. cbn zeta. rewrite Hr, Hd.
    assert (es = take cap es ++ drop cap es) as He by by rewrite take_drop.
    split.
    + rewrite He at 3. apply sublist_app; [done|].
      rewrite <- Nat.add_1_r, <- drop_drop. apply sublist_drop.
    + rewrite length_app, length_take, length_drop.
      destruct (Nat.ltb_spec cap (length es)); lia.
Qed.

(** The arrivals of the rounds. *)
Definition arrivals (rounds : list (list event * list Z)) : list event := concat (map fst rounds).

Definition round_ok (cap : nat) (x : list event * list Z) : Prop :=
  Forall event_ok x.1 /\ length x.2 = (sizeof_event * cap)%nat.

Lemma session_spec `{RingBuffer} cap timeout rounds ring :
  Forall event_ok ring -> Forall (round_ok cap) rounds ->
  exists t pending,
    session cap timeout rounds (map encode ring) = Some t /\
    left_over t = map encode pending /\
    sublist (received t ++ pending) (ring ++ arrived t) /\
    (length (ring ++ arrived t) <= length (received t ++ pending) + overfull t)%nat /\
    (exists later, arrivals rounds = arrived t ++ later) /\
    (failure t = None -> arrived t = arrivals rounds).
Proof.
  intros Hring Hrounds. revert ring Hring.
  induction Hrounds as [|[es buf] rounds [Hes Hbuf] Hrounds IH]; intros ring Hring;
    cbn [session].
  - eexists _, ring. split_and!; [done|done| | |by exists []|done]; cbn; rewrite app_nil_r; [done|lia].
  - rewrite <- map_app. rewrite length_map.
    destruct (poll_loses_one (ring ++ es) buf cap timeout)
      as (r & buf' & mid & -> & _ & Hmid & Hs & Hn); [by apply Forall_app|done|].
    change (arrivals ((es, buf) :: rounds)) with (es ++ arrivals rounds).
    destruct ((r <? 0) && negb (r =? -4)) eqn:Hr.
    + apply andb_true_iff in Hr as [Hr%Z.ltb_lt _]. replace (Z.to_nat r) with O in * by lia.
      eexists _, mid. split; [done|]. cbn [received arrived overfull left_over failure].
      cbn [decode_stream app] in *. split_and!; [done|done|exact Hn|by eexists|done].
    + destruct (IH mid Hmid) as (t & pending & -> & Hp & Hs' & Hn' & [later Hl] & Hf).
      eexists _, pending. split; [done|]. cbn [received arrived overfull left_over failure].
      split; [done|]. rewrite <- !app_assoc. split_and!.
      * etransitivity; [by apply sublist_app; [done|exact Hs']|].
        rewrite !app_assoc. by apply sublist_app.
      * rewrite !length_app in *. lia.
      * exists later. by rewrite Hl, app_assoc.
      * intros Hnone. by rewrite Hf.
Qed.

(** C24. A consumer that polls in a loop while events arrive receives events
    that arrived, in the order in which they arrived and each at most once,
    with the fields with which they were sent; together with what is still in
    the ring they are all that arrived but one for each poll that found more in
    the ring than its buffer holds.  So when the backlog never exceeds the
    buffer every event is received or waits.  Unless a poll fails, all the
    events of the rounds have arrived. *)
Theorem shim_stream `{RingBuffer} cap timeout rounds :
  Forall (round_ok cap) rounds ->
  exists t pending,
    session cap timeout rounds [] = Some t /\ left_over t = map encode pending /\
    sublist (received t ++ pending) (arrived t) /\
    (length (arrived t) <= length (received t ++ pending) + overfull t)%nat /\
    (overfull t = 0%nat -> received t ++ pending = arrived t) /\
    (exists later, arrivals rounds = arrived t ++ later) /\
    (failure t = None -> arrived t = arrivals rounds).
Proof.
  intros Hrounds.
  destruct (session_spec cap timeout rounds [] (Forall_nil_2 _) Hrounds)
    as (t & pending & Ht & Hp & Hs & Hn & Hl & Hf).
  exists t, pending. split_and!; [done|done|done|done| |done|done]. intros H0.
  cbn [app] in Hs, Hn. apply sublist_eq_length; [done|]. apply sublist_length in Hs. lia.
Qed.

(** Two events, then three more, through buffers of two, then a last poll:
    the fifth is lost. *)
Definition demo_rounds : list (list event * list Z) :=
  [(map demo_event [1; 2], replicate 96 0); (map demo_event [3; 4; 5], replicate 96 255);
   ([], replicate 96 0)].

Lemma shim_stream_witness :
  exists t pending,
    session 2 0 demo_rounds [] = Some t /\
    received t = map demo_event [1; 2; 3; 4] /\ overfull t = 1%nat /\
    sublist (received t ++ pending) (map demo_event [1; 2; 3; 4; 5]).
Proof.
  destruct (shim_stream 2 0 demo_rounds) as (t & pending & Ht & _ & Hs & _ & _ & _ & Hall).
  - repeat (constructor || split); vm_compute; intuition congruence.
  - assert ((fun t => (received t, overfull t, failure t)) <$> session 2 0 demo_rounds [] =
      Some (map demo_event [1; 2; 3; 4], 1%nat, None)) as Hv by (vm_compute; reflexivity).
    rewrite Ht in Hv. injection Hv as Hr Ho Hf. rewrite (Hall Hf) in Hs. exists t, pending.
    split; [exact Ht|]. split; [exact Hr|]. split; [exact Ho|]. exact Hs.
Defined.
