(* ===== verification/PyText.v ===== *)
(** * What the consumers use of Python to print

    The consumers of src/common print numbers, byte strings and a quotient with
    format strings.  Here is what they use of the language and its library: the
    decoding of UTF-8 with replacement characters, hexadecimal and padded
    numbers, the quotient of two integers as a 64-bit float and its text with
    two decimals.  A text is the list of its code points. *)

From S2P Require Import Prelude CLib IosnoopFmt.

(** ** Decoding *)

Definition REPLACEMENT : Z := 0xFFFD.

(** [bytes.decode(errors="replace")]: [need] bytes are missing of a sequence
    whose bits so far are [cp], and the next byte must lie between [lo] and
    [hi].  A byte that does not fit ends the sequence with a replacement
    character and is read again as the first of the next. *)
Fixpoint utf8_from (need : nat) (lo hi cp : Z) (bs : list Z) : list Z :=
  match bs with
  | [] => match need with O => [] | _ => [REPLACEMENT] end
  | b :: bs =>
      let lead :=
        if b <? 0x80 then b :: utf8_from 0 0 0 0 bs
        else if (0xC2 <=? b) && (b <=? 0xDF) then utf8_from 1 0x80 0xBF (b - 0xC0) bs
        else if b =? 0xE0 then utf8_from 2 0xA0 0xBF 0 bs
        else if b =? 0xED then utf8_from 2 0x80 0x9F 13 bs
        else if (0xE1 <=? b) && (b <=? 0xEF) then utf8_from 2 0x80 0xBF (b - 0xE0) bs
        else if b =? 0xF0 then utf8_from 3 0x90 0xBF 0 bs
        else if (0xF1 <=? b) && (b <=? 0xF3) then utf8_from 3 0x80 0xBF (b - 0xF0) bs
        else if b =? 0xF4 then utf8_from 3 0x80 0x8F 4 bs
        else REPLACEMENT :: utf8_from 0 0 0 0 bs in
      match need with
      | O => lead
      | S n =>
          if (lo <=? b) && (b <=? hi) then
            let cp := cp * 64 + (b - 0x80) in
            match n with
            | O => cp :: utf8_from 0 0 0 0 bs
            | _ => utf8_from n 0x80 0xBF cp bs
            end
          else REPLACEMENT :: lead
      end
  end.

Definition utf8_decode (bs : list Z) : list Z := utf8_from 0 0 0 0 bs.

(** Code points: not beyond 0x10FFFF and no surrogates. *)
Definition is_scalar (c : Z) : Prop := 0 <= c < 0xD800 \/ 0xE000 <= c < 0x110000.

(** The bytes of a code point. *)
Definition utf8_encode (c : Z) : list Z :=
  if c <? 0x80 then [c]
  else if c <? 0x800 then [0xC0 + c / 64; 0x80 + c mod 64]
  else if c <? 0x10000 then [0xE0 + c / 4096; 0x80 + c / 64 mod 64; 0x80 + c mod 64]
  else [0xF0 + c / 262144; 0x80 + c / 4096 mod 64; 0x80 + c / 64 mod 64; 0x80 + c mod 64].

Lemma utf8_ascii bs : Forall (fun b => 0 <= b < 0x80) bs -> utf8_decode bs = bs.
Proof.
  unfold utf8_decode. induction 1 as [|b bs Hb Hbs IH]; [done|]. cbn [utf8_from].
  destruct (Z.ltb_spec b 0x80); [by rewrite IH|lia].
Qed.

(** Evaluates the decoder on a byte of known range, test by test. *)
Ltac decide_test t :=
  match t with
  | (?a && ?b)%bool => decide_test a; decide_test b
  | ?a <? ?b => destruct (Z.ltb_spec a b); try lia
  | ?a <=? ?b => destruct (Z.leb_spec a b); try lia
  | ?a =? ?b => destruct (Z.eqb_spec a b); try lia
  end.
Ltac decode_byte :=
  match goal with |- utf8_from ?n ?lo ?hi ?cp (?b :: ?bs) = _ =>
    let t := eval cbn [utf8_from] in (fun tl => utf8_from n lo hi cp (b :: tl)) in
    let t := eval cbv beta in (t bs) in
    match goal with |- _ = ?r => change (t = r) end
  end;
  repeat (match goal with |- (if ?t then _ else _) = _ => decide_test t end; cbn [andb]).

Lemma utf8_two x y rest :
  2 <= y < 32 -> 0 <= x < 64 ->
  utf8_from 0 0 0 0 (0xC0 + y :: 0x80 + x :: rest) = y * 64 + x :: utf8_from 0 0 0 0 rest.
Proof. intros. repeat decode_byte; f_equal; lia. Qed.

Lemma utf8_three x y z rest :
  0 <= z < 16 -> 0 <= y < 64 -> 0 <= x < 64 -> 32 <= z * 64 + y -> ~ (54 * 16 <= z * 64 + y < 56 * 16) ->
  utf8_from 0 0 0 0 (0xE0 + z :: 0x80 + y :: 0x80 + x :: rest) =
  (z * 64 + y) * 64 + x :: utf8_from 0 0 0 0 rest.
Proof. intros. repeat decode_byte; f_equal; lia. Qed.

Lemma utf8_four x y z d rest :
  0 <= d < 5 -> 0 <= z < 64 -> 0 <= y < 64 -> 0 <= x < 64 -> 16 <= d * 64 + z < 272 ->
  utf8_from 0 0 0 0 (0xF0 + d :: 0x80 + z :: 0x80 + y :: 0x80 + x :: rest) =
  ((d * 64 + z) * 64 + y) * 64 + x :: utf8_from 0 0 0 0 rest.
Proof. intros. repeat decode_byte; f_equal; lia. Qed.

Lemma utf8_char c rest : is_scalar c -> utf8_from 0 0 0 0 (utf8_encode c ++ rest) = c :: utf8_from 0 0 0 0 rest.
Proof.
  unfold is_scalar, utf8_encode. intros Hc.
  assert (c / 4096 = c / 64 / 64) as -> by by rewrite Z.div_div.
  assert (c / 262144 = c / 64 / 64 / 64) as -> by by rewrite !Z.div_div.
  pose proof (Z.div_mod c 64). pose proof (Z.mod_pos_bound c 64).
  pose proof (Z.div_mod (c / 64) 64). pose proof (Z.mod_pos_bound (c / 64) 64).
  pose proof (Z.div_mod (c / 64 / 64) 64). pose proof (Z.mod_pos_bound (c / 64 / 64) 64).
  destruct (Z.ltb_spec c 0x80).
  { cbn [app utf8_from]. by rewrite (proj2 (Z.ltb_lt c 0x80)). }
  destruct (Z.ltb_spec c 0x800); [|destruct (Z.ltb_spec c 0x10000)]; cbn [app].
  - rewrite utf8_two by lia. f_equal. lia.
  - rewrite utf8_three by lia. f_equal. lia.
  - rewrite utf8_four by lia. f_equal. lia.
Qed.

(** A name that is the UTF-8 encoding of a text decodes to that text. *)
Theorem utf8_roundtrip cs : Forall is_scalar cs -> utf8_decode (concat (map utf8_encode cs)) = cs.
Proof.
  induction 1 as [|c cs Hc Hcs IH]; [done|]. cbn [map concat].
  unfold utf8_decode in *. rewrite utf8_char by done. by rewrite IH.
Qed.

(** ** Numbers *)

(** [{x:08x}] of a 32-bit number. *)
Definition hex_digit (d : Z) : Z := if d <? 10 then 48 + d else 87 + d.
Fixpoint hex_digits (n : nat) (v : Z) : list Z :=
  match n with
  | O => []
  | S n => hex_digits n (v / 16) ++ [hex_digit (v mod 16)]
  end.
Definition hex08 (v : Z) : list Z := hex_digits 8 v.

Definition unhex (t : list Z) : Z :=
  fold_left (fun a c => 16 * a + (if c <? 58 then c - 48 else c - 87)) t 0.

Lemma hex_digits_length n v : length (hex_digits n v) = n.
Proof.
  revert v. induction n as [|n IH]; intros v; [done|]. cbn [hex_digits].
  rewrite length_app, IH. cbn [length]. lia.
Qed.

Lemma unhex_digits n v : fits_u (4 * Z.of_nat n) v -> unhex (hex_digits n v) = v.
Proof.
  unfold fits_u, unhex. revert v. induction n as [|n IH]; intros v Hv; [cbn in *; lia|].
  cbn [hex_digits]. rewrite fold_left_app. cbn [fold_left].
  replace (4 * Z.of_nat (S n)) with (4 + 4 * Z.of_nat n) in Hv by lia.
  rewrite Z.pow_add_r in Hv by lia. rewrite IH.
  - pose proof (Z.div_mod v 16). pose proof (Z.mod_pos_bound v 16). unfold hex_digit.
    destruct (Z.ltb_spec (v mod 16) 10).
    + destruct (Z.ltb_spec (48 + v mod 16) 58); lia.
    + destruct (Z.ltb_spec (87 + v mod 16) 58); lia.
  - split; [apply Z.div_pos; lia|apply Z.div_lt_upper_bound; lia].
Qed.

(** The integer nearest to [n / d]; of two the even one. *)
Definition rne (n d : Z) : Z :=
  let q := n / d in
  let r := n mod d in
  if 2 * r <? d then q
  else if d <? 2 * r then q + 1
  else if Z.even q then q else q + 1.

Lemma rne_near n d : 0 < d -> Z.abs (2 * (rne n d * d - n)) <= d.
Proof.
  intros Hd. unfold rne. pose proof (Z.div_mod n d). pose proof (Z.mod_pos_bound n d).
  destruct (Z.ltb_spec (2 * (n mod d)) d); [nia|].
  destruct (Z.ltb_spec d (2 * (n mod d))); [nia|]. destruct (Z.even _); nia.
Qed.

(** The 64-bit float nearest to [n / d]: [m / 2 ^ q] with a mantissa [m] of 53
    bits.  The numbers here are below [2 ^ 64] and the divisor is 1000000 or 1,
    so [q] is not negative for the former, and no quotient but 0 is subnormal. *)
Definition float_div (n d : Z) : Z * Z :=
  if n =? 0 then (0, 0)
  else
    let k := Z.log2 n - Z.log2 d in
    let q := if d * 2 ^ 52 <=? n * 2 ^ (52 - k) then 52 - k else 53 - k in
    (rne (n * 2 ^ q) d, q).

(** [float(n)] of an integer below [2 ^ 64]. *)
Definition float_of (n : Z) : Z :=
  let e := Z.max 0 (Z.log2 n - 52) in rne n (2 ^ e) * 2 ^ e.

(** [{x:.2f}]: the exact value of the float, rounded to hundredths. *)
Definition hundredths (x : Z * Z) : Z := rne (100 * x.1) (2 ^ x.2).

Definition fixed2 (h : Z) : list Z := dec (h / 100) ++ [46] ++ pad_zero 2 (dec (h mod 100)).

Lemma float_of_small n : 0 <= n < 2 ^ 53 -> float_of n = n.
Proof.
  intros Hn. unfold float_of.
  assert (Z.max 0 (Z.log2 n - 52) = 0) as ->.
  { destruct (Z.eq_dec n 0) as [->|]; [done|]. assert (Z.log2 n < 53) by (apply Z.log2_lt_pow2; lia). lia. }
  unfold rne. rewrite Z.pow_0_r, Z.div_1_r, Z.mod_1_r. change (2 * 0 <? 1) with true. cbn iota. lia.
Qed.

Lemma float_div_exponent n d :
  0 < n < 2 ^ 64 -> 2 ^ 19 <= d < 2 ^ 20 ->
  let '(m, q) := float_div n d in
  0 <= q /\ d * 2 ^ 52 <= n * 2 ^ q /\ m = rne (n * 2 ^ q) d.
Proof.
  intros Hn Hd. unfold float_div. destruct (Z.eqb_spec n 0); [lia|].
  assert (Z.log2 d = 19) as -> by (apply Z.log2_unique; [lia|]; change (Z.succ 19) with 20; lia).
  assert (0 <= Z.log2 n < 64) as Hlog by (split; [apply Z.log2_nonneg|apply Z.log2_lt_pow2; lia]).
  destruct (Z.leb_spec (d * 2 ^ 52) (n * 2 ^ (52 - (Z.log2 n - 19)))); split_and!; try done; try lia.
  pose proof (Z.log2_spec n ltac:(lia)) as [Hlo _].
  assert (2 ^ Z.log2 n * 2 ^ (53 - (Z.log2 n - 19)) = 2 ^ 72) as Hp
    by (rewrite <- Z.pow_add_r by lia; f_equal; lia).
  assert (0 < 2 ^ (53 - (Z.log2 n - 19))) by (apply Z.pow_pos_nonneg; lia). nia.
Qed.

Lemma rne_nonneg n d : 0 <= n -> 0 < d -> 0 <= rne n d.
Proof.
  intros Hn Hd. pose proof (Z.div_pos n d Hn Hd). unfold rne.
  destruct (_ <? d); [lia|]. destruct (d <? _); [lia|]. destruct (Z.even _); lia.
Qed.

Lemma hundredths_nonneg n : 0 <= n < 2 ^ 64 -> 0 <= hundredths (float_div n 1000000).
Proof.
  intros Hn. destruct (Z.eq_dec n 0) as [->|Hz]; [vm_compute; congruence|].
  pose proof (float_div_exponent n 1000000 ltac:(lia) ltac:(lia)) as Hf.
  destruct (float_div n 1000000) as [m q]. destruct Hf as (Hq & _ & ->).
  pose proof (Z.pow_pos_nonneg 2 q ltac:(lia) Hq).
  unfold hundredths. cbn [fst snd]. apply rne_nonneg; [|done].
  pose proof (rne_nonneg (n * 2 ^ q) 1000000 ltac:(nia) ltac:(lia)). lia.
Qed.

(** The two decimals of the quotient of a number of at most 53 bits by a
    million: the value of the text is not further from the quotient than half a
    hundredth and the ten-thousandth part of it. *)
Theorem hundredths_near n :
  0 <= n < 2 ^ 53 -> Z.abs (hundredths (float_div n 1000000) * 1000000 - 100 * n) <= 500100.
Proof.
  intros Hn. destruct (Z.eq_dec n 0) as [->|Hz]; [vm_compute; congruence|].
  pose proof (float_div_exponent n 1000000 ltac:(lia) ltac:(lia)) as Hf.
  destruct (float_div n 1000000) as [m q]. destruct Hf as (Hq & Hp & ->).
  unfold hundredths. cbn [fst snd].
  pose proof (rne_near (n * 2 ^ q) 1000000 ltac:(lia)) as H1.
  assert (0 < 2 ^ q) as Hq0 by (apply Z.pow_pos_nonneg; lia).
  pose proof (rne_near (100 * rne (n * 2 ^ q) 1000000) (2 ^ q) Hq0) as H2.
  set (p := 2 ^ q) in *. set (m := rne (n * p) 1000000) in *. set (h := rne (100 * m) p) in *.
  assert (500000 <= p) by nia. nia.
Qed.
