(* ===== verification/Consumer.v ===== *)
(** * The Python consumers

    Models src/common/sample_consumer.py, which lets libbpf call it for every
    event of the pinned ring, and src/common/shim_consumer.py, which reads
    batches through the shim: how each views the bytes of an event (ctypes and
    numpy lay the fields out themselves), the line that it prints, and its loop.
    [detach] and [main] of both are in PyMain. *)

From S2P Require Import Prelude Bpf AodEvent CLib IosnoopFmt PyText RingbufShim ShimStream.

(** ** Layouts *)

(** The fields of a ctypes.Structure and of a numpy dtype with align=True are
    placed as those of a C struct. *)
Definition c_uint := Member 4 4.
Definition c_ushort := Member 2 2.
Definition c_char := Member 1 1.
Definition c_ulonglong := Member 8 8.
Definition c_char_array (n : nat) := Member n 1.

(** The union is as large and as aligned as its largest member. *)
Definition Metrics := Member 8 8.
Definition Event_fields : list member :=
  [c_uint; c_ushort; c_char; c_char; c_ulonglong; c_ulonglong; Metrics; c_char_array TASK_COMM_LEN].

(** np.int32, np.uint16, S1, S1, np.uint64 three times, S16. *)
Definition event_dtype : list member :=
  [Member 4 4; Member 2 2; Member 1 1; Member 1 1; Member 8 8; Member 8 8; Member 8 8;
   Member TASK_COMM_LEN 1].

(** The bytes of field [i]. *)
Definition raw (fs : list member) (i : nat) (bs : list Z) : list Z :=
  take (msize (nth i fs c_char)) (drop (nth i (offsets fs) 0%nat) bs).

(** A numpy byte string drops the NULs at its end. *)
Definition np_bytes (bs : list Z) : list Z :=
  foldr (fun b t => match t with [] => if b =? 0 then [] else [b] | _ => b :: t end) [] bs.

(** The values of the attributes of an [Event] of sample_consumer.  A [c_char] is
    one byte, a [c_char] array reads up to its first NUL. *)
Record sample_event := SampleEvent {
  pid : Z; command : Z; tool : list Z; cmd_end_time_ns : Z; rqst_id : Z;
  metric_latency_ns : Z; metric_retval : Z; task : list Z;
}.

Definition sample_view (data : list Z) : sample_event :=
  let f i := raw Event_fields i data in
  SampleEvent (le_int (f 0%nat)) (le_int (f 1%nat)) (f 2%nat) (le_int (f 4%nat)) (le_int (f 5%nat))
    (le_int (f 6%nat)) (s32 (le_int (take 4 (f 6%nat)))) (cstr (f 7%nat)).

(** Those of an element of the array of shim_consumer. *)
Record shim_event := ShimEvent {
  np_pid : Z; np_command : Z; np_tool : list Z; np_cmd_end_time_ns : Z; np_rqst_id : Z;
  np_metric_latency_ns : Z; np_task : list Z;
}.

Definition shim_view (data : list Z) : shim_event :=
  let f i := raw event_dtype i data in
  ShimEvent (s32 (le_int (f 0%nat))) (le_int (f 1%nat)) (np_bytes (f 2%nat)) (le_int (f 4%nat))
    (le_int (f 5%nat)) (le_int (f 6%nat)) (np_bytes (f 7%nat)).

(** ** Lines *)

Definition prefix (pid : Z) (task : list Z) (rqst_id command : Z) : list Z :=
  bytes "pid=" ++ pad_right 7 (sdec pid) ++ bytes " task=" ++ pad_right 16 task ++
  bytes " rqst_id=" ++ pad_right 12 (dec rqst_id) ++ bytes " cmd=" ++ pad_right 30 (dec command).

(** What [_handle_event] of sample_consumer prints. *)
Definition sample_line (data : list Z) : list Z :=
  let e := sample_view data in
  let task := utf8_decode (cstr (task e)) in
  let prefix := prefix (pid e) task (rqst_id e) (command e) in
  if bool_decide (tool e = [1]) then
    let status := u32 (metric_retval e) in
    prefix ++ bytes " ntstatus=0x" ++ hex08 status
  else if bool_decide (tool e = [11]) then prefix ++ bytes " error=" ++ sdec (metric_retval e)
  else
    let lat_ms := float_div (metric_latency_ns e) 1000000 in
    prefix ++ bytes " latency=" ++ fixed2 (hundredths lat_ms) ++ bytes "ms".

(** The body of the loop of shim_consumer over a batch. numpy divides floats. *)
Definition shim_line (data : list Z) : list Z :=
  let e := shim_view data in
  let task := utf8_decode (cstr (np_task e)) in
  let prefix := prefix (np_pid e) task (np_rqst_id e) (np_command e) in
  if bool_decide (np_tool e = [1]) then
    let status := Z.land (np_metric_latency_ns e) 0xffffffff in
    prefix ++ bytes " ntstatus=0x" ++ hex08 status
  else if bool_decide (np_tool e = [11]) then
    let error := Z.land (np_metric_latency_ns e) 0xffffffff in
    prefix ++ bytes " error=" ++ dec error
  else
    let lat_ms := float_div (float_of (np_metric_latency_ns e)) 1000000 in
    prefix ++ bytes " latency=" ++ fixed2 (hundredths lat_ms) ++ bytes "ms".

(** ** Loops *)

(** [_handle_event]: called with a record of the ring; prints, returns 0. *)
Definition handle_event (data : list Z) (out : list (list Z)) : option (Z * list (list Z)) :=
  if (length data <? sizeof Event_fields)%nat then Some (0, out)
  else Some (0, out ++ [sample_line data]).

Section Loops.
Context `{RingBuffer}.

(** The loop of sample_consumer: each round is what arrives before a poll, and
    [exiting] is set when the rounds are over.  The result is the lines, what is
    left in the ring and the error that ended the loop early. *)
Fixpoint sample_loop (rounds : list (list event)) (ring : list (list Z)) (out : list (list Z))
  : option (list (list Z) * list (list Z) * option Z) :=
  match rounds with
  | [] => Some (out, ring, None)
  | es :: rounds =>
      '(err, out, ring) ← ring_buffer__poll _ handle_event (ring ++ map encode es) 100 out;
      if (err <? 0) && negb (err =? -4) then Some (out, ring, Some err)
      else sample_loop rounds ring out
  end.

Definition MAX_BATCH : nat := 2048.

(** The lines of a batch of [count] events. *)
Fixpoint batch_lines (count : nat) (buf : list Z) : list (list Z) :=
  match count with
  | O => []
  | S n => shim_line (take (sizeof event_dtype) buf) :: batch_lines n (drop (sizeof event_dtype) buf)
  end.

(** The loop of shim_consumer; each round comes with what the new array of the
    poll happens to hold. *)
Fixpoint shim_loop (cap : nat) (rounds : list (list event * list Z)) (ring out : list (list Z))
  : option (list (list Z) * list (list Z) * option Z) :=
  match rounds with
  | [] => Some (out, ring, None)
  | (es, buf) :: rounds =>
      '(count, buf, ring) ← rb_poll_into buf (Z.of_nat cap) 100 (ring ++ map encode es);
      if (count <? 0) && negb (count =? -4) then Some (out, ring, Some count)
      else shim_loop cap rounds ring (out ++ batch_lines (Z.to_nat count) buf)
  end.
End Loops.

(** ** What the lines say *)

Definition line_prefix (pid : Z) (e : event) : list Z :=
  prefix pid (utf8_decode (cstr (ev_task e))) (ev_rqst_id e) (ev_command e).

Definition latency_text (x : Z * Z) : list Z := bytes " latency=" ++ fixed2 (hundredths x) ++ bytes "ms".

Definition sample_shows (e : event) : list Z :=
  line_prefix (ev_pid e) e ++
  if ev_tool e =? SMBIOSNOOP then bytes " ntstatus=0x" ++ hex08 (u32 (ev_metric e))
  else if ev_tool e =? NFSIOSNOOP then bytes " error=" ++ sdec (retval (ev_metric e))
  else latency_text (float_div (latency_ns (ev_metric e)) 1000000).

(** A process id as a signed number, an error as an unsigned one. *)
Definition shim_shows (e : event) : list Z :=
  line_prefix (s32 (ev_pid e)) e ++
  if ev_tool e =? SMBIOSNOOP then bytes " ntstatus=0x" ++ hex08 (u32 (ev_metric e))
  else if ev_tool e =? NFSIOSNOOP then bytes " error=" ++ dec (u32 (ev_metric e))
  else latency_text (float_div (float_of (latency_ns (ev_metric e))) 1000000).

(** Both lay the fields out as the C compiler does. *)
Lemma layouts_match :
  offsets struct_event = [0; 4; 6; 8; 16; 24; 32]%nat /\
  offsets Event_fields = [0; 4; 6; 7; 8; 16; 24; 32]%nat /\ sizeof Event_fields = sizeof_event /\
  offsets event_dtype = offsets Event_fields /\ sizeof event_dtype = sizeof_event.
Proof. by vm_compute. Qed.

Lemma cstr_idem t : cstr (cstr t) = cstr t.
Proof. apply cstr_all, cstr_no_nul. Qed.

Lemma cstr_np_bytes t : cstr (np_bytes t) = cstr t.
Proof.
  induction t as [|b t IH]; [done|]. cbn [np_bytes foldr cstr]. fold (np_bytes t).
  destruct (np_bytes t) as [|x y] eqn:Hn.
  - rewrite <- IH. destruct (b =? 0) eqn:Hb; cbn [cstr]; by rewrite ?Hb.
  - cbn [cstr]. by rewrite <- IH.
Qed.

Lemma le_int_app a b : le_int (a ++ b) = le_int a + 2 ^ (8 * Z.of_nat (length a)) * le_int b.
Proof.
  induction a as [|x a IH]; cbn [app le_int length]; [lia|]. rewrite IH.
  replace (8 * Z.of_nat (S (length a))) with (8 + 8 * Z.of_nat (length a)) by lia.
  rewrite Z.pow_add_r by lia. lia.
Qed.

(** The [int] of the union is in its first bytes. *)
Lemma retval_first m : s32 (le_int (take 4 m)) = retval (le_int m).
Proof.
  destruct (decide (length m <= 4)%nat) as [Hl|Hl]; [by rewrite take_ge|].
  unfold retval. rewrite <- (take_drop 4 m) at 2. rewrite le_int_app, length_take.
  replace (Z.of_nat (4 `min` length m)) with 4 by lia. unfold wraps. f_equal.
  rewrite (Z.mul_comm (2 ^ (8 * 4))), Z.add_shuffle0. symmetry. by apply Z.mod_add.
Qed.

(** A field of one byte. *)
Lemma one_byte off bs v :
  v <> 0 -> bool_decide (take 1 (drop off bs) = [v]) = (field bs off 1 =? v).
Proof.
  intros Hv. unfold field. destruct (drop off bs) as [|b t]; cbn [firstn le_int].
  - rewrite bool_decide_eq_false_2 by done. destruct (Z.eqb_spec 0 v); [congruence|done].
  - change (take 0 t) with (@nil Z). cbn [le_int]. replace (b + 256 * 0) with b by lia.
    destruct (Z.eqb_spec b v) as [->|]; [by rewrite bool_decide_eq_true_2|].
    rewrite bool_decide_eq_false_2; [done|congruence].
Qed.

Lemma np_one_byte off bs v :
  v <> 0 -> bool_decide (np_bytes (take 1 (drop off bs)) = [v]) = (field bs off 1 =? v).
Proof.
  intros Hv. rewrite <- one_byte by done. destruct (drop off bs) as [|b t]; [done|]. cbn.
  destruct (Z.eqb_spec b 0) as [->|]; [|done].
  rewrite !bool_decide_eq_false_2; [done|intros [=]; lia|done].
Qed.

Lemma land_u32 v : Z.land v 0xffffffff = u32 v.
Proof. change 0xffffffff with (Z.ones 32). by apply Z.land_ones. Qed.

Lemma tool_byte e : take 1 (drop 6 (encode e)) = [ev_tool e mod 256].
Proof. by rewrite encode_bytes. Qed.

Lemma sample_view_decode bs :
  let e := decode bs in
  sample_view bs =
    SampleEvent (ev_pid e) (ev_command e) (take 1 (drop 6 bs)) (ev_cmd_end_time_ns e) (ev_rqst_id e)
      (latency_ns (ev_metric e)) (retval (ev_metric e)) (cstr (ev_task e)).
Proof. unfold sample_view. rewrite retval_first. reflexivity. Qed.

Lemma shim_view_decode bs :
  let e := decode bs in
  shim_view bs =
    ShimEvent (s32 (ev_pid e)) (ev_command e) (np_bytes (take 1 (drop 6 bs))) (ev_cmd_end_time_ns e)
      (ev_rqst_id e) (latency_ns (ev_metric e)) (np_bytes (ev_task e)).
Proof. reflexivity. Qed.

Lemma sample_line_shows bs : sample_line bs = sample_shows (decode bs).
Proof.
  unfold sample_line, sample_shows, line_prefix, latency_text. rewrite sample_view_decode. cbn zeta.
  cbn [pid command tool rqst_id metric_latency_ns metric_retval task].
  rewrite !one_byte, cstr_idem by done. unfold retval at 1. rewrite wrapu_wraps by lia.
  change (field bs 6 1) with (ev_tool (decode bs)). unfold SMBIOSNOOP, NFSIOSNOOP.
  by destruct (ev_tool (decode bs) =? 1), (ev_tool (decode bs) =? 11).
Qed.

Lemma shim_line_shows bs : shim_line bs = shim_shows (decode bs).
Proof.
  unfold shim_line, shim_shows, line_prefix, latency_text. rewrite shim_view_decode. cbn zeta.
  cbn [np_pid np_command np_tool np_rqst_id np_metric_latency_ns np_task].
  rewrite !np_one_byte, cstr_np_bytes, land_u32 by done.
  change (field bs 6 1) with (ev_tool (decode bs)). unfold SMBIOSNOOP, NFSIOSNOOP, latency_ns.
  by destruct (ev_tool (decode bs) =? 1), (ev_tool (decode bs) =? 11).
Qed.

(** C26. What the consumers print: from the bytes of an event either prints one
    line with its process, task, request, command and, by its tool, its status,
    error or latency.  The two lines are the same when the process id is one of
    Linux, the error is not negative and the latency has less than 54 bits; and
    a negative error is printed as itself by the one and, because the other
    reads the eight bytes of the union, as the number 2^32 larger by the other. *)
Theorem consumers_print e :
  event_ok e -> ev_pid e < 2 ^ 31 ->
  sample_line (encode e) = sample_shows e /\ shim_line (encode e) = shim_shows e /\
  (ev_tool e = NFSIOSNOOP -> retval (ev_metric e) < 0 ->
     sample_shows e = line_prefix (ev_pid e) e ++ bytes " error=" ++ sdec (retval (ev_metric e)) /\
     shim_shows e = line_prefix (ev_pid e) e ++ bytes " error=" ++ dec (retval (ev_metric e) + 2 ^ 32)) /\
  ((ev_tool e = NFSIOSNOOP -> 0 <= retval (ev_metric e)) ->
   (ev_tool e <> SMBIOSNOOP -> ev_tool e <> NFSIOSNOOP -> ev_metric e < 2 ^ 53) ->
     shim_shows e = sample_shows e).
Proof.
  intros He Hpid. pose proof (decode_encode_ok e He) as Hd.
  assert (s32 (ev_pid e) = ev_pid e) as Hp.
  { apply wraps_small; [lia|]. destruct (pid_ok e He). unfold fits_s. lia. }
  assert (u32 (ev_metric e) = u32 (retval (ev_metric e))) as Hu by (unfold retval; by rewrite wrapu_wraps).
  pose proof (wraps_range 32 (ev_metric e) ltac:(lia)) as Hr. fold (retval (ev_metric e)) in Hr.
  unfold fits_s in Hr. split_and!.
  - by rewrite sample_line_shows, Hd.
  - by rewrite shim_line_shows, Hd.
  - intros Ht Hneg. unfold sample_shows, shim_shows. rewrite Hp, Ht, Hu. cbn [Z.eqb Pos.eqb NFSIOSNOOP SMBIOSNOOP].
    split; [done|]. do 4 f_equal. unfold wrapu. symmetry. apply Z.mod_unique_pos with (-1); lia.
  - intros Herr Hlat. unfold sample_shows, shim_shows. rewrite Hp. f_equal.
    destruct (Z.eqb_spec (ev_tool e) SMBIOSNOOP); [done|].
    destruct (Z.eqb_spec (ev_tool e) NFSIOSNOOP) as [Ht|].
    + specialize (Herr Ht). f_equal. rewrite Hu, wrapu_small by (unfold fits_u; lia).
      unfold sdec. destruct (Z.ltb_spec (retval (ev_metric e)) 0); [lia|done].
    + f_equal. f_equal. unfold latency_ns. apply float_of_small.
      destruct (metric_ok e He). split; [done|auto].
Qed.

(** The text of a latency. *)
Lemma latency_text_near l :
  0 <= l < 2 ^ 53 ->
  exists whole decimals,
    latency_text (float_div l 1000000) = bytes " latency=" ++ whole ++ [46] ++ decimals ++ bytes "ms" /\
    Forall is_digit whole /\ Forall is_digit decimals /\ length decimals = 2%nat /\
    Z.abs ((100 * undec whole + undec decimals) * 1000000 - 100 * l) <= 500100.
Proof.
  intros Hl. pose proof (hundredths_near l Hl) as Hh. pose proof (hundredths_nonneg l ltac:(lia)) as Hh0.
  unfold latency_text, fixed2, pad_zero. set (h := hundredths (float_div l 1000000)) in *.
  pose proof (Z.mod_pos_bound h 100 ltac:(lia)) as Hm. pose proof (Z.div_pos h 100 Hh0 ltac:(lia)) as Hq.
  assert (h / 100 < 2 ^ 64) as Hq2 by (apply Z.div_lt_upper_bound; lia).
  exists (dec (h / 100)), (replicate (2 - length (dec (h mod 100))) 48 ++ dec (h mod 100)).
  split; [by rewrite <- !app_assoc|]. split; [by apply dec_digits|]. split_and!.
  - apply Forall_app. split; [apply Forall_replicate; unfold is_digit; lia|apply dec_digits; lia].
  - rewrite length_app, length_replicate. pose proof (dec_length_pow 2 (h mod 100) ltac:(lia) Hm). lia.
  - rewrite undec_zeros, !undec_dec by (unfold fits_u; lia).
    replace (100 * (h / 100) + h mod 100) with h by (apply Z.div_mod; lia). exact Hh.
Qed.

(** C27. The latency that the consumers print: for an event of smbslower or
    nfsslower both print its process, task, request and command, and then a text
    with two decimals that reads back as a number of milliseconds which differs
    from the latency by no more than half a hundredth and its five-thousandth
    part, when the latency is less than 2^53 nanoseconds (104 days). *)
Theorem latency_printed e :
  event_ok e -> ev_pid e < 2 ^ 31 -> ev_tool e <> SMBIOSNOOP -> ev_tool e <> NFSIOSNOOP ->
  latency_ns (ev_metric e) < 2 ^ 53 ->
  exists whole decimals,
    let line := line_prefix (ev_pid e) e ++ bytes " latency=" ++ whole ++ [46] ++ decimals ++ bytes "ms" in
    sample_line (encode e) = line /\ shim_line (encode e) = line /\
    Forall is_digit whole /\ Forall is_digit decimals /\ length decimals = 2%nat /\
    Z.abs ((100 * undec whole + undec decimals) * 10000 - latency_ns (ev_metric e)) <= 5001.
Proof.
  intros He Hpid H1 H2 Hl. pose proof (metric_ok e He) as [Hm _].
  destruct (latency_text_near (latency_ns (ev_metric e)) (conj Hm Hl)) as (w & d & Ht & Hw & Hd & Hlen & Hn).
  exists w, d. cbn zeta.
  assert (s32 (ev_pid e) = ev_pid e) as Hp.
  { apply wraps_small; [lia|]. destruct (pid_ok e He). unfold fits_s. lia. }
  rewrite sample_line_shows, shim_line_shows, decode_encode_ok by done. unfold sample_shows, shim_shows.
  rewrite Hp, float_of_small by done. apply Z.eqb_neq in H1 as ->. apply Z.eqb_neq in H2 as ->.
  rewrite Ht. split_and!; try done. lia.
Qed.

(** C29. The consumers read what the kernel programs write: the bytes of an event,
    laid out by the C compiler with any byte in its padding, are as many as both
    consumers expect, and every attribute of an event that a consumer uses has the
    value of the member of that name; the arrays of characters end at their NULs
    as ctypes and numpy have it, and the process id is signed for numpy. *)
Theorem consumers_read e :
  event_ok e ->
  length (encode e) = sizeof struct_event /\
  sizeof Event_fields = sizeof struct_event /\ sizeof event_dtype = sizeof struct_event /\
  sample_view (encode e) =
    SampleEvent (ev_pid e) (ev_command e) [ev_tool e] (ev_cmd_end_time_ns e) (ev_rqst_id e)
      (latency_ns (ev_metric e)) (retval (ev_metric e)) (cstr (ev_task e)) /\
  shim_view (encode e) =
    ShimEvent (s32 (ev_pid e)) (ev_command e) (np_bytes [ev_tool e]) (ev_cmd_end_time_ns e)
      (ev_rqst_id e) (latency_ns (ev_metric e)) (np_bytes (ev_task e)).
Proof.
  intros He. split; [apply encode_length, He|]. split; [reflexivity|]. split; [reflexivity|].
  rewrite sample_view_decode, shim_view_decode, tool_byte, decode_encode_ok by done.
  pose proof (tool_ok e He) as Ht. unfold fits_u in Ht. by rewrite Z.mod_small by lia.
Qed.

(** ** The loops *)

Section LoopSpecs.
Context `{RingBuffer}.

(** The callback never stops libbpf and takes every event. *)
Lemma drain_prints es out :
  Forall event_ok es -> drain handle_event (map encode es) out = Some (0, out ++ map sample_shows es, []).
Proof.
  intros Hes. revert out. induction Hes as [|e es He Hes IH]; intros out; cbn [map drain].
  - by rewrite app_nil_r.
  - unfold handle_event at 1. rewrite encode_length by apply He.
    change (sizeof_event <? sizeof Event_fields)%nat with false. cbn iota. cbn [Z.ltb Z.compare].
    rewrite IH, sample_line_shows, decode_encode_ok, <- app_assoc by done. done.
Qed.

Lemma poll_prints es out :
  Forall event_ok es ->
  exists err n, ring_buffer__poll _ handle_event (map encode es) 100 out =
    Some (err, out ++ map sample_shows (take n es), map encode (drop n es)).
Proof.
  intros Hes. destruct (poll_cases _ handle_event (map encode es) 100 out) as [(err & _ & ->)| ->].
  - exists err, O. by rewrite app_nil_r.
  - rewrite drain_prints by done. eexists _, (length es). by rewrite firstn_all, drop_all.
Qed.

Lemma sample_loop_spec rounds ring out :
  Forall event_ok ring -> Forall (Forall event_ok) rounds ->
  exists shown left f arrived later,
    sample_loop rounds (map encode ring) out = Some (out ++ map sample_shows shown, map encode left, f) /\
    shown ++ left = ring ++ arrived /\ concat rounds = arrived ++ later /\ (f = None -> later = []).
Proof.
  intros Hring Hrounds. revert ring out Hring.
  induction Hrounds as [|es rounds Hes Hrounds IH]; intros ring out Hring; cbn [sample_loop].
  - exists [], ring, None, [], []. by rewrite !app_nil_r.
  - rewrite <- map_app. destruct (poll_prints (ring ++ es) out) as (err & n & ->); [by apply Forall_app|].
    cbn [mbind option_bind]. destruct (_ && _).
    + exists (take n (ring ++ es)), (drop n (ring ++ es)), (Some err), es, (concat rounds).
      by rewrite take_drop.
    + destruct (IH (drop n (ring ++ es)) (out ++ map sample_shows (take n (ring ++ es))))
        as (shown & left & f & arrived & later & -> & Hs & Hc & Hf).
      { apply Forall_drop. by apply Forall_app. }
      exists (take n (ring ++ es) ++ shown), left, f, (es ++ arrived), later.
      rewrite map_app, <- !app_assoc, Hs. split_and!; [done| |by cbn; rewrite Hc, app_assoc|done].
      by rewrite (app_assoc (take n _)), take_drop, <- app_assoc.
Qed.

(** C25. sample_consumer loses nothing: the lines that it prints are those of the
    events that arrived, in their order, without those that still wait in the
    ring; unless a poll fails, all the events have arrived. *)
Theorem sample_stream rounds :
  Forall (Forall event_ok) rounds ->
  exists shown left f arrived later,
    sample_loop rounds [] [] = Some (map sample_shows shown, map encode left, f) /\
    shown ++ left = arrived /\ concat rounds = arrived ++ later /\ (f = None -> later = []).
Proof.
  intros Hr. destruct (sample_loop_spec rounds [] [] (Forall_nil_2 _) Hr) as (shown & left & f & a & l & H1 & H2).
  by exists shown, left, f, a, l.
Qed.

Lemma batch_lines_shows n buf : batch_lines n buf = map shim_shows (decode_stream n buf).
Proof.
  revert buf. induction n as [|n IH]; intros buf; [done|]. cbn [batch_lines decode_stream map].
  change (sizeof event_dtype) with sizeof_event. by rewrite shim_line_shows, IH.
Qed.

(** shim_consumer prints the events that its session receives. *)
Theorem shim_prints cap rounds ring out :
  shim_loop cap rounds ring out =
  match session cap 100 rounds ring with
  | Some t => Some (out ++ map shim_shows (received t), left_over t, failure t)
  | None => None
  end.
Proof.
  revert ring out. induction rounds as [|[es buf] rounds IH]; intros ring out; cbn [shim_loop session].
  - cbn. by rewrite app_nil_r.
  - destruct (rb_poll_into _ _ _ _) as [[[count buf'] rest]|]; [|done]. cbn [mbind option_bind].
    destruct (_ && _); [cbn; by rewrite app_nil_r|]. rewrite IH, batch_lines_shows.
    destruct (session cap 100 rounds rest) as [t|]; [|done]. cbn [received left_over failure].
    by rewrite map_app, app_assoc.
Qed.
End LoopSpecs.

(** ** The theorems at concrete inputs *)

(** An open that failed on an NFS server, with the status -5. *)
Definition demo_error : event := Event 4242 18 NFSIOSNOOP 0 1000000 77 (2 ^ 32 - 5) (pad 16 (bytes "cp")).

Lemma consumers_print_witness :
  sample_line (encode demo_error) =
    bytes "pid=4242    task=cp               rqst_id=77           cmd=18                             error=-5" /\
  shim_line (encode demo_error) =
    bytes "pid=4242    task=cp               rqst_id=77           cmd=18                             error=4294967291".
Proof.
  destruct (consumers_print demo_error) as (-> & -> & H & _).
  - split; vm_compute; intuition congruence.
  - vm_compute. reflexivity.
  - destruct H as [-> ->]; [reflexivity|vm_compute; reflexivity|]. vm_compute. split; reflexivity.
Defined.

(** Two events before the first poll and one before the second. *)
Lemma sample_stream_witness :
  exists lines, sample_loop [map demo_event [1; 2]; map demo_event [3]] [] [] = Some (lines, [], None) /\
    hd [] lines =
      bytes "pid=7       task=cp               rqst_id=77           cmd=1                              latency=0.01ms".
Proof.
  destruct (sample_stream [map demo_event [1; 2]; map demo_event [3]])
    as (shown & left & f & arrived & later & H & Hs & Hc & Hf).
  - repeat constructor; vm_compute; intuition congruence.
  - assert (sample_loop [map demo_event [1; 2]; map demo_event [3]] [] [] =
      Some (map sample_shows (map demo_event [1; 2; 3]), [], None)) as Hv by (vm_compute; reflexivity).
    rewrite H in Hv. injection Hv as H1 H2 H3. exists (map sample_shows shown).
    split; [by rewrite H, H2, H3|]. rewrite H1. vm_compute. reflexivity.
Defined.

(** A command of 20.004999 milliseconds. *)
Definition demo_slow : event := Event 4242 5 SMBSLOWER 7 1000000 77 20004999 (pad 16 (bytes "cp")).

Lemma demo_slow_ok : event_ok demo_slow.
Proof. split; vm_compute; intuition congruence. Qed.

Lemma latency_printed_witness :
  exists whole decimals,
    bytes "pid=4242    task=cp               rqst_id=77           cmd=5                              latency=20.00ms" =
      line_prefix 4242 demo_slow ++ bytes " latency=" ++ whole ++ [46] ++ decimals ++ bytes "ms" /\
    Z.abs ((100 * undec whole + undec decimals) * 10000 - 20004999) <= 5001.
Proof.
  destruct (latency_printed demo_slow) as (w & d & H & _ & _ & _ & _ & Hn);
    [exact demo_slow_ok|vm_compute; reflexivity|vm_compute; congruence|vm_compute; congruence
    |vm_compute; reflexivity|].
  exists w, d. split; [|exact Hn]. etransitivity; [|exact H]. vm_compute. reflexivity.
Defined.

Lemma consumers_read_witness :
  sample_view (encode demo_slow) =
    SampleEvent 4242 5 [0] 1000000 77 20004999 20004999 (bytes "cp") /\
  shim_view (encode demo_slow) = ShimEvent 4242 5 [] 1000000 77 20004999 (bytes "cp").
Proof.
  destruct (consumers_read demo_slow demo_slow_ok) as (_ & _ & _ & H1 & H2).
  rewrite H1, H2. vm_compute. split; reflexivity.
Defined.
