(* ===== verification/PyMain.v ===== *)
(** * The command lines of the Python consumers

    [detach] and [main], which src/common/sample_consumer.py and
    shim_consumer.py have in common but for the loop that [main] runs.  The
    pinned objects of the BPF file system are a set of paths, and which of them
    cannot be unlinked is a parameter. *)

From S2P Require Import Prelude Bpf AodEvent RingbufShim ShimStream Consumer.

Abbreviation path := (list Z).

Definition RINGBUF_PINNED : path := bytes "/sys/fs/bpf/aodrb".

(** The dictionary of the pinned links, in its order. *)
Definition TOOL_LINKS : list (list Z * list path) :=
  [(bytes "smb", [bytes "/sys/fs/bpf/aod_smb_mid_alloc"; bytes "/sys/fs/bpf/aod_smb_mid_release"]);
   (bytes "nfs", [bytes "/sys/fs/bpf/aod_nfs_seq_setup"; bytes "/sys/fs/bpf/aod_nfs_rpc_exit"])].

Definition links_of (tool : list Z) : option (list path) :=
  snd <$> List.find (fun x => bool_decide (x.1 = tool)) TOOL_LINKS.

(** ** detach *)

Inductive message :=
| UnknownTool (t : list Z) | UnpinnedPath (p : path) | FailedUnpin (p : path) | RingKept.

(** The paths that exist, the errors so far and what was printed. *)
Record detaching := Detaching { present : gset path; errors : nat; printed : list message }.

Section Detach.
(** Unlinking a path fails for another reason than that it is missing. *)
Variable locked : path -> bool.

Definition unlink (p : path) (s : detaching) : detaching :=
  if locked p then Detaching (present s) (S (errors s)) (printed s ++ [FailedUnpin p])
  else if bool_decide (p ∈ present s)
  then Detaching (present s ∖ {[p]}) (errors s) (printed s ++ [UnpinnedPath p])
  else s.

Definition detach_tool (s : detaching) (tool : list Z) : detaching :=
  match links_of tool with
  | None => Detaching (present s) (S (errors s)) (printed s ++ [UnknownTool tool])
  | Some links => fold_left (fun s p => unlink p s) links s
  end.

Definition targets_of (tools : option (list (list Z))) : list (list Z) :=
  match tools with
  | Some (t :: ts) => t :: ts
  | _ => map fst TOOL_LINKS
  end.

(** The links of the tools that are not to be detached. *)
Definition remaining (targets : list (list Z)) : list path :=
  concat (map snd (List.filter (fun x => negb (bool_decide (x.1 ∈ targets))) TOOL_LINKS)).

Definition detach (tools : option (list (list Z))) (fs : gset path) : Z * detaching :=
  let targets := targets_of tools in
  let s := fold_left detach_tool targets (Detaching fs 0 []) in
  let s :=
    if existsb (fun p => bool_decide (p ∈ present s)) (remaining targets)
    then Detaching (present s) (errors s) (printed s ++ [RingKept])
    else unlink RINGBUF_PINNED s in
  (if (0 <? errors s)%nat then 1 else 0, s).

(** ** What detach leaves *)

(** A link of one of the tools. *)
Definition is_link_of (tools : list (list Z)) (p : path) : Prop :=
  exists t links, In t tools /\ links_of t = Some links /\ In p links.

Lemma unlink_spec p s :
  (forall q, q ∈ present (unlink p s) <-> q ∈ present s /\ (q = p -> locked p = true)) /\
  errors (unlink p s) = (errors s + if locked p then 1 else 0)%nat.
Proof.
  unfold unlink. destruct (locked p); cbn [present errors].
  - split; [naive_solver|lia].
  - case_bool_decide as Hp; cbn [present errors]; (split; [|lia]); intros q.
    + rewrite elem_of_difference, not_elem_of_singleton. naive_solver.
    + split; [|naive_solver]. intros Hq. split; [done|]. by intros ->.
Qed.

Lemma unlink_all_spec ps s :
  let s' := fold_left (fun s p => unlink p s) ps s in
  (forall q, q ∈ present s' <-> q ∈ present s /\ (In q ps -> locked q = true)) /\
  ((errors s' = 0)%nat <-> (errors s = 0)%nat /\ forall q, In q ps -> locked q = false).
Proof.
  revert s. induction ps as [|p ps IH]; intros s; cbn [fold_left In]; [split; [tauto|firstorder]|].
  destruct (unlink_spec p s) as [H1 H2]. destruct (IH (unlink p s)) as [H3 H4]. split.
  - intros q. rewrite H3, H1. split.
    + intros [[Hq Hp] Hr]. split; [done|]. intros [->|]; auto.
    + intros [Hq Hr]. split_and!; [done|intros ->; auto|auto].
  - rewrite H4, H2. destruct (locked p) eqn:Hp; split; intros [He Hr]; try lia.
    + specialize (Hr p (or_introl eq_refl)). congruence.
    + split; [lia|]. intros q [<-|]; auto.
    + split; [lia|auto].
Qed.

Lemma is_link_cons t ts links p :
  links_of t = Some links -> is_link_of (t :: ts) p <-> In p links \/ is_link_of ts p.
Proof.
  intros Ht. unfold is_link_of. cbn [In]. split.
  - intros (t' & l & [<-|Hin] & Hl & Hp); [left; congruence|right; eauto].
  - intros [Hp|(t' & l & Hin & Hl & Hp)]; eauto 6.
Qed.

Lemma is_link_unknown t ts p : links_of t = None -> is_link_of (t :: ts) p <-> is_link_of ts p.
Proof.
  intros Ht. unfold is_link_of. cbn [In]. split.
  - intros (t' & l & [<-|Hin] & Hl & Hp); [congruence|eauto].
  - intros (t' & l & Hin & Hl & Hp). eauto 6.
Qed.

Lemma detach_tools_spec targets s :
  let s' := fold_left detach_tool targets s in
  (forall q, q ∈ present s' <-> q ∈ present s /\ (is_link_of targets q -> locked q = true)) /\
  ((errors s' = 0)%nat <->
     (errors s = 0)%nat /\ (forall t, In t targets -> is_Some (links_of t)) /\
     forall q, is_link_of targets q -> locked q = false).
Proof.
  revert s. induction targets as [|t targets IH]; intros s; cbn [fold_left].
  { split; [|split; [|by intros (? & _)]]; [|by intros He; split_and!; [done|done|intros q (t & l & [] & _)]].
    intros q. split; [|by intros []]. intros Hq. split; [done|]. by intros (t & l & [] & _). }
  destruct (IH (detach_tool s t)) as [H1 H2]. unfold detach_tool in *.
  destruct (links_of t) as [links|] eqn:Ht.
  - destruct (unlink_all_spec links s) as [H3 H4]. split.
    + intros q. rewrite H1, H3, (is_link_cons t targets links q Ht). tauto.
    + rewrite H2, H4. setoid_rewrite (fun q => is_link_cons t targets links q Ht). cbn [In].
      split.
      * intros ([He Hl] & Hk & Hr). split_and!; [done| |intros q []; auto].
        intros t' [<-|Ht']; [by eexists|by apply Hk].
      * intros (He & Hk & Hr). auto 8.
  - split.
    + intros q. rewrite H1. cbn [present]. rewrite is_link_unknown by done. done.
    + rewrite H2. cbn [errors]. split; [intros [? _]; lia|]. intros (_ & Hk & _).
      destruct (Hk t) as [x Hx]; [by left|congruence].
Qed.
(** No link belongs to two tools. *)
Lemma link_owner t t' l l' p :
  In (t, l) TOOL_LINKS -> In (t', l') TOOL_LINKS -> In p l -> In p l' -> t = t'.
Proof.
  intros [[= <- <-]|[[= <- <-]|[]]] [[= <- <-]|[[= <- <-]|[]]]; try done;
    intros [<-|[<-|[]]] [H|[H|[]]]; vm_compute in H; discriminate.
Qed.

Lemma links_of_In t links : links_of t = Some links -> In (t, links) TOOL_LINKS.
Proof.
  unfold links_of. destruct (List.find _ TOOL_LINKS) as [[t' l]|] eqn:Hf; [|done].
  apply List.find_some in Hf as [Hin Ht%bool_decide_eq_true]. cbn in *. by intros [= ->]; subst.
Qed.

Lemma remaining_not_link targets p : In p (remaining targets) -> ~ is_link_of targets p.
Proof.
  unfold remaining. intros (l & Hl & Hp)%in_concat (t & links & Ht & Hlinks & Hp').
  apply in_map_iff in Hl as ([t' l'] & <- & [Hin Hno]%List.filter_In). cbn in *.
  apply negb_true_iff, bool_decide_eq_false in Hno. apply Hno.
  rewrite (link_owner t' t l' links p); [by apply list_elem_of_In| | | |]; try done.
  by apply links_of_In.
Qed.

(** A link of a tool that is not to be detached is there. *)
Definition in_use (targets : list (list Z)) (fs : gset path) : Prop :=
  exists p, In p (remaining targets) /\ p ∈ fs.

Lemma detach_outcome tools fs :
  let targets := targets_of tools in
  let '(status, s) := detach tools fs in
  (forall q, q ∈ present s <->
     q ∈ fs /\ (is_link_of targets q -> locked q = true) /\
     (q = RINGBUF_PINNED -> in_use targets fs \/ locked q = true)) /\
  (status = 0 <->
     (forall t, In t targets -> is_Some (links_of t)) /\
     (forall q, is_link_of targets q -> locked q = false) /\
     (in_use targets fs \/ locked RINGBUF_PINNED = false)).
Proof.
  intros targets. unfold detach. fold targets.
  destruct (detach_tools_spec targets (Detaching fs 0 [])) as [H1 H2].
  set (s := fold_left detach_tool targets _) in *. cbn [present errors] in H1, H2.
  assert (existsb (fun p => bool_decide (p ∈ present s)) (remaining targets) = true <-> in_use targets fs)
    as Huse.
  { rewrite existsb_exists. unfold in_use. split.
    - intros (p & Hp & Hin%bool_decide_eq_true). exists p. split; [done|]. by apply H1.
    - intros (p & Hp & Hin). exists p. split; [done|]. apply bool_decide_eq_true, H1.
      split; [done|]. by intros ?%remaining_not_link. }
  assert (forall n, (if (0 <? n)%nat then 1 else 0) = 0 <-> n = 0%nat) as Hstatus
    by (intros n; destruct (Nat.ltb_spec 0 n); lia).
  destruct (existsb _ _); rewrite Hstatus; cbn [present errors].
  - assert (in_use targets fs) by by apply Huse. split; [|tauto]. intros q. rewrite H1. tauto.
  - assert (~ in_use targets fs) as Hno by by rewrite <- Huse.
    destruct (unlink_spec RINGBUF_PINNED s) as [H3 H4]. split.
    + intros q. rewrite H3, H1. split.
      * intros [[Hq Hl] Hr]. split_and!; [done|done|]. intros ->. right. by apply Hr.
      * intros (Hq & Hl & Hr). split; [done|]. intros ->. by destruct (Hr eq_refl).
    + rewrite H4. destruct (locked RINGBUF_PINNED); [|rewrite Nat.add_0_r, H2; tauto].
      split; [lia|]. intros (_ & _ & [?|?]); done.
Qed.

(** C28. What detaching does: the links of the given tools go, but for those
    that cannot be unlinked; the ring goes unless a link of another tool is
    there; nothing else changes; and the status is 0 exactly when every tool was
    known and nothing that had to go could not be unlinked. *)
Theorem detach_spec tools fs :
  let targets := targets_of tools in
  let '(status, s) := detach tools fs in
  (forall q, q ∈ present s <->
     q ∈ fs /\ (is_link_of targets q -> locked q = true) /\
     (q = RINGBUF_PINNED -> in_use targets fs \/ locked q = true)) /\
  (status = 0 <->
     (forall t, In t targets -> is_Some (links_of t)) /\
     (forall q, is_link_of targets q -> locked q = false) /\
     (in_use targets fs \/ locked RINGBUF_PINNED = false)).
Proof.
  apply detach_outcome.
Qed.

(** A link that cannot be unlinked stays while the ring goes, although the
    comment says that the ring is removed only when no links remain. *)
Theorem detach_removes_ring_in_use tools fs p :
  let targets := targets_of tools in
  is_link_of targets p -> p ∈ fs -> locked p = true ->
  ~ in_use targets fs -> locked RINGBUF_PINNED = false ->
  let '(status, s) := detach tools fs in
  status = 1 /\ p ∈ present s /\ RINGBUF_PINNED ∉ present s.
Proof.
  intros targets Hp Hin Hl Hno Hring. pose proof (detach_outcome tools fs) as Ho. cbn zeta in Ho.
  fold targets in Ho. destruct (detach tools fs) as [status s] eqn:Hd. destruct Ho as [H1 H2]. split_and!.
  - assert (status <> 0) by (rewrite H2; intros (_ & Hlinks & _); rewrite Hlinks in Hl; done).
    unfold detach in Hd. injection Hd as <- _. by destruct (0 <? _)%nat.
  - apply H1. split_and!; [done|done|]. intros ->. by right.
  - rewrite H1. intros (_ & _ & H). destruct H as [?|?]; [done|done|congruence].
Qed.
End Detach.

(** ** main *)

(** The arguments behind the first "--detach". *)
Fixpoint detach_args (argv : list (list Z)) : option (list (list Z)) :=
  match argv with
  | [] => None
  | a :: argv => if bool_decide (a = bytes "--detach") then Some argv else detach_args argv
  end.

(** What ends a run: the status, the lines and the paths that are left. *)
Record ended := Ended { status : Z; lines : list (list Z); paths : gset path }.

Definition run_detach (locked : path -> bool) (tools : list (list Z)) (fs : gset path) : ended :=
  let '(r, s) := detach locked (match tools with [] => None | _ => Some tools end) fs in
  Ended r [] (present s).

Section Main.
Context `{RingBuffer}.

(** [map_fd] is the result of bpf_obj_get, [new_ok] whether ring_buffer__new
    succeeds; a poll that fails ends the loop and not the status. *)
Definition sample_main (argv : list (list Z)) (locked : path -> bool) (fs : gset path)
    (map_fd : Z) (new_ok : bool) (rounds : list (list event)) : option ended :=
  match detach_args argv with
  | Some tools => Some (run_detach locked tools fs)
  | None =>
      if map_fd <? 0 then Some (Ended 1 [] fs)
      else if negb new_ok then Some (Ended 1 [] fs)
      else '(out, _, _) ← sample_loop rounds [] []; Some (Ended 0 out fs)
  end.

(** The shim opens the ring, and closes it whatever ends the loop; the process
    that is left is part of the result. *)
Definition shim_main (argv : list (list Z)) (locked : path -> bool) (fs : gset path)
    (fd : Z) (calloc_ok new_ok : bool) (rounds : list (list event * list Z)) (p : process)
  : option (ended * process) :=
  match detach_args argv with
  | Some tools => Some (run_detach locked tools fs, p)
  | None =>
      let '(h, p) := rb_open fd calloc_ok new_ok p in
      match h with
      | None => Some (Ended 1 [] fs, p)
      | Some _ => '(out, _, _) ← shim_loop MAX_BATCH rounds [] []; Some (Ended 0 out fs, rb_close h p)
      end
  end.

Lemma sample_main_result argv locked fs map_fd new_ok rounds :
  Forall (Forall event_ok) rounds ->
  exists r, sample_main argv locked fs map_fd new_ok rounds = Some r /\
    match detach_args argv with
    | Some tools => r = run_detach locked tools fs
    | None =>
        paths r = fs /\
        if (map_fd <? 0) || negb new_ok then status r = 1 /\ lines r = []
        else status r = 0 /\
          exists shown waiting later, lines r = map sample_shows shown /\
            concat rounds = shown ++ waiting ++ later
    end.
Proof.
  intros Hr. unfold sample_main. destruct (detach_args argv); [by eexists|].
  destruct (map_fd <? 0); [by eexists|]. destruct new_ok; [|by eexists]. cbn [negb orb].
  destruct (sample_loop_spec rounds [] [] (Forall_nil_2 _) Hr)
    as (shown & left & f & arrived & later & Hl & Hs & Hc & _).
  cbn [map] in Hl. rewrite Hl. cbn [mbind option_bind app] in *. eexists. split; [done|]. cbn [paths status lines].
  split_and!; try done. exists shown, left, later. split; [done|]. by rewrite app_assoc, Hs.
Qed.

(** The result of shim_consumer, and that a run that gets a descriptor leaves it
    open, whatever happens then. *)
Theorem shim_main_result argv locked fs fd calloc_ok new_ok rounds p :
  Forall (round_ok MAX_BATCH) rounds -> detach_args argv = None ->
  exists r, shim_main argv locked fs fd calloc_ok new_ok rounds p =
      Some (r, if fd <? 0 then p else Process (fd :: fds p) (blocks p)) /\
    paths r = fs /\
    if (fd <? 0) || negb (calloc_ok && new_ok) then status r = 1 /\ lines r = []
    else status r = 0 /\
      exists shown, lines r = map shim_shows shown /\ sublist shown (arrivals rounds).
Proof.
  intros Hr Hargs. unfold shim_main, rb_open. rewrite Hargs.
  destruct (fd <? 0); [by eexists|]. destruct p as [fds0 blocks0], calloc_ok, new_ok; cbn; try by eexists.
  rewrite shim_prints.
  destruct (session_spec MAX_BATCH 100 rounds [] (Forall_nil_2 _) Hr)
    as (t & pending & Ht & _ & Hs & _ & [later Hl] & _).
  cbn [map] in Ht. rewrite Ht. cbn [mbind option_bind]. eexists. split; [done|]. cbn [paths status lines].
  split_and!; try done. exists (received t). split; [done|]. rewrite Hl.
  apply sublist_inserts_r. etransitivity; [|exact Hs]. by apply sublist_inserts_r.
Qed.
End Main.

(** ** The theorems at concrete inputs *)

Definition smb_alloc : path := bytes "/sys/fs/bpf/aod_smb_mid_alloc".
Definition nfs_setup : path := bytes "/sys/fs/bpf/aod_nfs_seq_setup".

(** Detaching smb while nfs is in use keeps the ring. *)
Lemma detach_spec_witness :
  let '(r, s) :=
    detach (fun _ => false) (Some [bytes "smb"]) {[smb_alloc; nfs_setup; RINGBUF_PINNED]} in
  (r = 0) /\ smb_alloc ∉ present s /\ RINGBUF_PINNED ∈ present s.
Proof.
  pose proof (detach_spec (fun _ => false) (Some [bytes "smb"]) {[smb_alloc; nfs_setup; RINGBUF_PINNED]})
    as H. cbn zeta in H. destruct (detach _ _ _) as [r s]. destruct H as [H1 H2].
  assert (in_use (targets_of (Some [bytes "smb"])) {[smb_alloc; nfs_setup; RINGBUF_PINNED]}) as Huse.
  { exists nfs_setup. split; [vm_compute; auto|set_solver]. }
  split; [|split].
  - apply H2. split; [|split; [done|by left]].
    intros t [<-|[]]. vm_compute. by eexists.
  - rewrite H1. intros (_ & Hl & _). discriminate Hl. exists (bytes "smb"). eexists.
    split; [by left|]. split; [vm_compute; reflexivity|vm_compute; auto].
  - apply H1. split; [set_solver|]. split; [|intros _; by left].
    intros (t & l & [<-|[]] & Hl & Hp). vm_compute in Hl. injection Hl as <-.
    destruct Hp as [Hp|[Hp|[]]]; vm_compute in Hp; discriminate.
Defined.
