(* ===== verification/Pipeline.v ===== *)
(** * From a command line to printed lines

    The loader of smbslower, its kernel program, the ring and the consumer that
    prints its events, put together: the lines that a user sees as a function of
    the command line and of what happened in the kernel. *)

From S2P Require Import Prelude Bpf BpfModel History CLib AodEvent LowerFilter LowerOptions.
From S2P Require Import SmbslowerMain SmbslowerBpf SmbslowerTrace SmbslowerEnd Interleave SmbslowerMicro.
From S2P Require Import SmbslowerHistory RingbufShim ShimStream PyText Consumer.

Section Pipeline.
Context {RT : BpfRuntime} {RL : BpfRuntimeLaws RT} `{RingBuffer}.

Lemma smb_exec_inv ro ly deny ls s :
  Forall label_ok ls -> inv ro deny s -> inv ro deny (SmbslowerTrace.exec ro ly ls s).
Proof.
  intros Hok. revert s. induction Hok as [|l ls Hl Hok IH]; intros s Hi; [done|].
  apply IH. by apply smb_inv_step.
Qed.

Lemma smb_boot_inv ro deny : inv ro deny (boot deny).
Proof. split; [done|intros ? ?; cbn; by rewrite lookup_create..|constructor]. Qed.

(** The events of a run that a launch starts. *)
Lemma smb_events_ok ok a sys lib f ro s0 ly ls :
  launch ok a sys lib = Some (f, ro, s0) -> Forall label_ok ls ->
  Forall event_ok (map fst (aodrb (SmbslowerTrace.exec ro ly ls s0))).
Proof.
  intros (_ & _ & m & -> & _)%smb_launch_spec Hok.
  destruct (smb_exec_inv ro ly m ls _ Hok (smb_boot_inv ro m)) as [_ _ _ Hr].
  apply List.Forall_map. revert Hr. apply List.Forall_impl. intros x Hx. apply Hx.
Qed.

(** C8. From the command line to the printed line: the loader sets up a kernel
    for a command line, the programs of concurrent commands and entries
    interleave as they like, and the events reach sample_consumer in the order of
    their places in the ring and in whatever groups.  Then there is an order of
    the programs, with those of each command or entry in the order in which they
    ran, such that the consumer prints, in some order and without the events
    that still wait, exactly one line for each operation that the history ends in
    that order, whose command the command line allows and whose latency reaches
    its limit. *)
Theorem smb_pipeline ok a sys lib f ro s0 ly acts s hist rounds :
  launch ok a sys lib = Some (f, ro, s0) ->
  Forall label_ok (begun acts) ->
  run (PR := smb_probes ro ly) acts (Config s0 ∅ []) = Some (Config s ∅ hist) ->
  roomy ly (traced_by a) (Z.to_nat (MAX_ENTRIES * 24)) (rev hist) ->
  concat rounds = map fst (aodrb s) ->
  (forall k, of_thread (PR := smb_probes ro ly) k hist = of_thread (PR := smb_probes ro ly) k (begun acts)) /\
  exists shown rest lines left fail,
    sample_loop rounds [] [] = Some (lines, left, fail) /\ lines = map sample_shows shown /\
    shown ++ rest ≡ₚ map fst (reports (Rodata (limit_ns a) (wakeup a)) ly (traced_by a) (rev hist)) /\
    (fail = None -> left = map encode rest).
Proof.
  intros Hl Hok Hr Hn Hrounds.
  destruct (smb_run_atomic ro ly acts s0 s hist Hok Hr) as (Ho & _ & Hev). split; [done|].
  assert (Forall label_ok hist) as Hhist by by eapply (in_order_ok (PR := smb_probes ro ly)).
  pose proof (smb_events_ok ok a sys lib f ro s0 ly hist Hl Hhist) as Hevents.
  assert (Forall event_ok (concat rounds)) as Hall by by rewrite Hrounds, Hev.
  assert (Forall (Forall event_ok) rounds) as Hrounds_ok.
  { clear -Hall. induction rounds as [|es rounds IH]; [done|]. apply Forall_app in Hall as [H1 H2]. auto. }
  destruct (sample_loop_spec rounds [] [] (Forall_nil_2 _) Hrounds_ok)
    as (shown & left & fail & arrived & later & Hloop & Hs & Hc & Hf).
  cbn [map app] in Hloop, Hs. exists shown, (left ++ later), (map sample_shows shown), (map encode left), fail.
  split_and!; [done|done| |by intros ->%Hf; rewrite app_nil_r].
  rewrite app_assoc, Hs, <- Hc, Hrounds, Hev.
  by rewrite (smb_exec_reports ok a sys lib f ro s0 ly hist).
Qed.
End Pipeline.

(** The schedule of SmbslowerHistory; the consumer polls after the first event
    and after the second. *)
Definition demo_rounds : list (list event) := map (fun x => [x.1]) (aodrb (machine demo_end)).

Lemma smb_pipeline_witness :
  exists lines left fail, sample_loop demo_rounds [] [] = Some (lines, left, fail) /\
    lines = [bytes "pid=9       task=demo             rqst_id=42           cmd=5                              latency=20.00ms";
             bytes "pid=8       task=demo             rqst_id=42           cmd=5                              latency=30.00ms"] /\
    lines ≡ₚ map sample_shows
      (map fst (reports (Rodata 20000000 0) demo_layout (traced_by demo_args) (rev (finished demo_end)))).
Proof.
  destruct (smb_pipeline true demo_args rhel_8_10 (Outcomes true 0 0) (selected rhel_8_10)
    demo_rodata demo_state demo_layout demo_acts (machine demo_end) (finished demo_end) demo_rounds)
    as [_ (shown & rest & lines & left & fail & Hloop & -> & Hp & Hleft)].
  - apply (smb_launch_eq true demo_args rhel_8_10 demo_options); vm_compute; reflexivity.
  - cbn [begun omap list_omap demo_acts]. repeat apply Forall_cons_2; try apply Forall_nil_2;
      first [apply alloc_ok|apply entry_ok]; split; vm_compute; congruence.
  - apply run_ends. vm_compute. reflexivity.
  - apply smb_roomy_length; [exact gmap_runtime_laws|].
    assert (length (rev (finished demo_end)) = 4%nat) as -> by (vm_compute; reflexivity).
    unfold MAX_ENTRIES. lia.
  - vm_compute. reflexivity.
  - assert (sample_loop demo_rounds [] [] = Some (
      [bytes "pid=9       task=demo             rqst_id=42           cmd=5                              latency=20.00ms";
       bytes "pid=8       task=demo             rqst_id=42           cmd=5                              latency=30.00ms"],
      [], None)) as Hv by (vm_compute; reflexivity).
    exists (map sample_shows shown), left, fail. split; [exact Hloop|].
    rewrite Hloop in Hv. injection Hv as Hlines Hl Hf. split; [exact Hlines|].
    specialize (Hleft Hf). rewrite Hl in Hleft. symmetry in Hleft. apply map_eq_nil in Hleft as ->.
    by rewrite <- Hp, app_nil_r.
Defined.
