(* ===== verification/IoslowerUser.v ===== *)
(** * ioslower: the event printer of user space

    Models src/user/ioslower.c from its codes to [handle_event], with the local
    time of a timestamp as an argument.  The theorems: a code has a name of its
    own, and every event that the kernel program can emit prints one line whose
    name is known and whose latency reads back as the one of the event. *)

From S2P Require Import Prelude Bpf BpfModel Hooks IosnoopFmt CLib.
From S2P Require Import IoslowerBpf IoslowerProbes IoslowerSpec IoslowerTrace IoslowerDemo.

Definition SC_OPEN : Z := 1.
Definition SC_OPENAT : Z := 2.
Definition SC_READ : Z := 3.
Definition SC_WRITE : Z := 4.
Definition SC_CLOSE : Z := 5.
Definition SC_STAT : Z := 6.
Definition SC_LSTAT : Z := 7.
Definition SC_FSTAT : Z := 8.
Definition SC_MKDIR : Z := 9.
Definition SC_MKDIRAT : Z := 10.
Definition SC_RMDIR : Z := 11.
Definition SC_UNLINK : Z := 12.
Definition SC_UNLINKAT : Z := 13.
Definition SC_RENAME : Z := 14.
Definition SC_RENAMEAT : Z := 15.
Definition SC_RENAMEAT2 : Z := 16.
Definition SC_MOUNT : Z := 17.
Definition SC_UMOUNT2 : Z := 18.
Definition SC_CHMOD : Z := 19.
Definition SC_FCHMOD : Z := 20.
Definition SC_CHOWN : Z := 21.
Definition SC_FCHOWN : Z := 22.
Definition SC_TRUNCATE : Z := 23.
Definition SC_FTRUNCATE : Z := 24.
Definition SC_LINK : Z := 25.
Definition SC_LINKAT : Z := 26.
Definition SC_SYMLINK : Z := 27.
Definition SC_SYMLINKAT : Z := 28.
Definition SC_READLINK : Z := 29.
Definition SC_READLINKAT : Z := 30.
Definition SC_PREAD64 : Z := 31.
Definition SC_PWRITE64 : Z := 32.
Definition SC_READV : Z := 33.
Definition SC_WRITEV : Z := 34.
Definition SC_PREADV : Z := 35.
Definition SC_PWRITEV : Z := 36.
Definition SC_URING_ENTER : Z := 37.
Definition SC_URING_SETUP : Z := 38.
Definition SC_URING_REGISTER : Z := 39.
Definition SC_SETUP : Z := 40.
Definition SC_SUBMIT : Z := 41.
Definition SC_GETEVENTS : Z := 42.
Definition SC_CANCEL : Z := 43.
Definition SC_DESTROY : Z := 44.
Definition SC_MMAP : Z := 45.
Definition SC_MMAP2 : Z := 46.
Definition SC_MUNMAP : Z := 47.
Definition SC_CREATE : Z := 48.
Definition SC_FALLOCATE : Z := 49.
Definition SC_GETDENTS : Z := 50.
Definition SC_LOCK_FCNTL : Z := 51.
Definition SC_LOCK_FLOCK : Z := 52.

(** ** Printing *)

(** The record as user space declares it, without its padding. *)
Record user_event := UserEvent {
  ts : Z; pid : Z; uid : Z; gid : Z; delta_us : Z; type : Z; ret : Z;
  comm : list Z;   (* char[16] *)
  fname : list Z;  (* char[256] *)
}.

Definition sizeof_user_event : Z := 312.

Definition syscall_name (type : Z) : list Z :=
  if type =? SC_OPEN then bytes "open"
  else if type =? SC_OPENAT then bytes "openat"
  else if type =? SC_READ then bytes "read"
  else if type =? SC_WRITE then bytes "write"
  else if type =? SC_CLOSE then bytes "close"
  else if type =? SC_STAT then bytes "stat"
  else if type =? SC_LSTAT then bytes "lstat"
  else if type =? SC_FSTAT then bytes "fstat"
  else if type =? SC_MKDIR then bytes "mkdir"
  else if type =? SC_MKDIRAT then bytes "mkdirat"
  else if type =? SC_RMDIR then bytes "rmdir"
  else if type =? SC_UNLINK then bytes "unlink"
  else if type =? SC_UNLINKAT then bytes "unlinkat"
  else if type =? SC_RENAME then bytes "rename"
  else if type =? SC_RENAMEAT then bytes "renameat"
  else if type =? SC_RENAMEAT2 then bytes "renameat2"
  else if type =? SC_MOUNT then bytes "mount"
  else if type =? SC_UMOUNT2 then bytes "umount2"
  else if type =? SC_CHMOD then bytes "chmod"
  else if type =? SC_FCHMOD then bytes "fchmod"
  else if type =? SC_CHOWN then bytes "chown"
  else if type =? SC_FCHOWN then bytes "fchown"
  else if type =? SC_TRUNCATE then bytes "truncate"
  else if type =? SC_FTRUNCATE then bytes "ftruncate"
  else if type =? SC_LINK then bytes "link"
  else if type =? SC_LINKAT then bytes "linkat"
  else if type =? SC_SYMLINK then bytes "symlink"
  else if type =? SC_SYMLINKAT then bytes "symlinkat"
  else if type =? SC_READLINK then bytes "readlink"
  else if type =? SC_READLINKAT then bytes "readlinkat"
  else if type =? SC_PREAD64 then bytes "pread64"
  else if type =? SC_PWRITE64 then bytes "pwrite64"
  else if type =? SC_READV then bytes "readv"
  else if type =? SC_WRITEV then bytes "writev"
  else if type =? SC_PREADV then bytes "preadv"
  else if type =? SC_PWRITEV then bytes "pwritev"
  else if type =? SC_URING_ENTER then bytes "uring_enter"
  else if type =? SC_URING_SETUP then bytes "uring_setup"
  else if type =? SC_URING_REGISTER then bytes "uring_register"
  else if type =? SC_SETUP then bytes "io_setup"
  else if type =? SC_SUBMIT then bytes "io_submit"
  else if type =? SC_GETEVENTS then bytes "io_getevents"
  else if type =? SC_CANCEL then bytes "io_cancel"
  else if type =? SC_DESTROY then bytes "io_destroy"
  else if type =? SC_MMAP then bytes "mmap"
  else if type =? SC_MMAP2 then bytes "mmap2"
  else if type =? SC_MUNMAP then bytes "munmap"
  else if type =? SC_CREATE then bytes "create"
  else if type =? SC_FALLOCATE then bytes "fallocate"
  else if type =? SC_GETDENTS then bytes "getdents"
  else if type =? SC_LOCK_FCNTL then bytes "lock_fcntl"
  else if type =? SC_LOCK_FLOCK then bytes "lock_flock"
  else bytes "UNKNOWN".


(** The conversions "%u.%03u" of the latency. *)
Definition latency_text (delta_us : Z) : list Z * list Z :=
  (dec (delta_us / 1000), pad_zero 3 (dec (delta_us mod 1000))).

(** [printf("%-8s %-6d %-16s %-12s %9u.%03u %-8s %s")] and a newline. *)
Definition format_line (time : list Z) (e : user_event) : list Z :=
  let '(ms, us) := latency_text (delta_us e) in
  pad_right 8 time ++ [32] ++ pad_right 6 (sdec (s32 (pid e))) ++ [32] ++
  pad_right 16 (cstr (comm e)) ++ [32] ++ pad_right 12 (syscall_name (type e)) ++ [32] ++
  pad_left 9 ms ++ [46] ++ us ++ [32] ++
  pad_right 8 (if 0 <=? ret e then bytes "OK" else bytes "ERR") ++ [32] ++
  cstr (fname e) ++ [10].

Section Printer.
(** [strftime("%H:%M:%S")] of the local time. *)
Variable hms : Z -> list Z.

Definition handle_event (e : user_event) (data_sz : Z) (out : list (list Z))
  : Z * list (list Z) :=
  if data_sz <? sizeof_user_event then (1, out)
  else (0, out ++ [format_line (hms (ts e / 1000000000)) e]).
End Printer.

(** ** Names and numbers *)

Definition codes : list Z := map Z.of_nat (seq 1 52).

Lemma names_distinct :
  forallb (fun c => forallb (fun c' =>
    implb (bool_decide (syscall_name c = syscall_name c')) (bool_decide (c = c'))) codes) codes = true.
Proof. vm_compute. reflexivity. Qed.

Lemma latency_text_spec d :
  fits_u 32 d ->
  let '(ms, us) := latency_text d in
  undec ms * 1000 + undec us = d /\ length us = 3%nat /\ Forall is_digit ms /\ Forall is_digit us.
Proof.
  intros Hd. unfold fits_u in Hd. unfold latency_text, pad_zero.
  pose proof (Z.mod_pos_bound d 1000 ltac:(lia)) as Hm.
  pose proof (Z.div_pos d 1000 ltac:(lia) ltac:(lia)) as Hq.
  assert (d / 1000 < 2 ^ 64) as Hq2 by (apply Z.div_lt_upper_bound; lia).
  rewrite undec_zeros, !undec_dec by (unfold fits_u; lia). split_and!.
  - pose proof (Z.div_mod d 1000). lia.
  - rewrite length_app, length_replicate. pose proof (dec_length_pow 3 (d mod 1000) ltac:(lia) Hm). lia.
  - by apply dec_digits.
  - apply Forall_app. split; [apply Forall_replicate; unfold is_digit; lia|]. apply dec_digits. lia.
Qed.

(** ** From the kernel to the line *)

Definition of_kernel (ev : ioslower_event) : user_event :=
  UserEvent (ev_ts ev) (ev_pid ev) (ev_uid ev) (ev_gid ev) (ev_delta_us ev) (ev_type ev)
    (ev_ret ev) (ev_comm ev) (ev_fname ev).

Section End2End.
Context {RT : BpfRuntime} {RL : BpfRuntimeLaws RT}.

Definition typed (type : Z) : Prop := exists c, type = slow_type c.

Definition printable (s : st) : Prop :=
  (forall id x, bpf_map_lookup_elem (op_start s) id = Some x -> typed (st_type x)) /\
  Forall (fun ev => typed (ev_type ev) /\ fits_u 32 (ev_delta_us ev)) (events s).

Lemma printable_step s l : printable s -> printable (spec_step s l).
Proof.
  intros [Hops Hev]. split.
  - intros id x. destruct l as [e c|e c ret]; cbn [spec_step].
    + intros [Hk|(d & _ & _ & -> & _)]%slow_entry_lookup; [by eapply Hops|by exists c].
    + rewrite slow_exit_lookup. case_decide; [done|]. apply Hops.
  - destruct l as [e c|e c ret]; cbn [spec_step]; [by rewrite slow_entry_events|].
    rewrite slow_exit_events. apply Forall_app. split; [done|]. unfold reported.
    destruct (bpf_map_lookup_elem (op_start s) _) as [x|] eqn:Hk; [|constructor].
    destruct (bpf_map_lookup_elem (threshold_config s) _); [|constructor].
    destruct (reserve e 0) as [slot|]; [|constructor].
    destruct (_ <=? _); [|constructor]. apply Forall_singleton.
    cbn [event_of ev_type ev_delta_us]. split; [by eapply Hops|]. apply wrapu_range. lia.
Qed.

Lemma printable_reachable b th cfg s : reachable b th cfg s -> printable s.
Proof.
  induction 1 as [|s l s' Hs IH Hl Hst].
  - split; [|constructor]. intros id x. cbn. by rewrite lookup_create.
  - rewrite slow_step_refines in Hst by done. injection Hst as <-. by apply printable_step.
Qed.

Lemma typed_known type : typed type -> syscall_name type <> bytes "UNKNOWN".
Proof. intros [c ->]. destruct c; vm_compute; congruence. Qed.

(** C32. End to end: every event that ioslower's kernel program can emit, in any
    execution, prints one line; its call has a name, and the milliseconds and
    the three digits of the fraction give the latency of the event in
    microseconds. *)
Theorem slow_printed_line hms b th cfg s ev out :
  reachable b th cfg s -> In ev (events s) ->
  let line := format_line (hms (ev_ts ev / 1000000000)) (of_kernel ev) in
  let '(ms, us) := latency_text (ev_delta_us ev) in
  handle_event hms (of_kernel ev) sizeof_user_event out = (0, out ++ [line]) /\
  syscall_name (ev_type ev) <> bytes "UNKNOWN" /\
  undec ms * 1000 + undec us = ev_delta_us ev /\ length us = 3%nat.
Proof.
  intros Hs Hin line. apply printable_reachable in Hs as [_ Hev].
  destruct (proj1 (List.Forall_forall _ _) Hev ev Hin) as [Ht Hd].
  pose proof (latency_text_spec (ev_delta_us ev) Hd) as Hl.
  destruct (latency_text (ev_delta_us ev)) as [ms us]. destruct Hl as (H1 & H2 & _).
  split; [done|]. split; [by apply typed_known|done].
Qed.
End End2End.

(** The names of the codes are distinct, and no name is that of another
    code or of an unknown one. *)
Theorem syscall_name_inj c c' :
  1 <= c <= 52 -> 1 <= c' -> syscall_name c = syscall_name c' -> c = c'.
Proof.
  intros Hc Hc' Heq. assert (c' <= 52 \/ 52 < c') as [Hle|Hgt] by lia.
  - assert (forall x, 1 <= x <= 52 -> In x codes) as Hin.
    { intros x Hx. unfold codes. apply in_map_iff. exists (Z.to_nat x).
      split; [lia|]. apply in_seq. lia. }
    pose proof names_distinct as H. rewrite forallb_forall in H.
    specialize (H c (Hin c Hc)). rewrite forallb_forall in H. specialize (H c' (Hin c' ltac:(lia))).
    rewrite bool_decide_eq_true_2 in H by done. by apply bool_decide_eq_true in H.
  - exfalso. assert (syscall_name c' = bytes "UNKNOWN") as Hu.
    { unfold syscall_name. repeat match goal with
      | |- context [c' =? ?k] => rewrite (proj2 (Z.eqb_neq c' k)) by (unfold k; lia)
      end. reflexivity. }
    rewrite Hu in Heq. assert (forallb (fun c => negb (bool_decide (syscall_name c =
      bytes "UNKNOWN"))) codes = true) as Hall by (vm_compute; reflexivity).
    rewrite forallb_forall in Hall. specialize (Hall c). rewrite bool_decide_eq_true_2 in Hall by done.
    discriminate Hall. unfold codes. apply in_map_iff. exists (Z.to_nat c). split; [lia|].
    apply in_seq. lia.
Qed.

(** ** The theorems at concrete inputs *)

Definition demo_s : st := spec_exec slow_run booted.
Definition demo_ev : ioslower_event := hd slot0 (events demo_s).

Lemma slow_printed_line_witness :
  snd (handle_event (fun _ => bytes "00:00:00") (of_kernel demo_ev) sizeof_user_event []) =
  [bytes "00:00:00 8      demo             read                 5.000 OK       a.txt" ++ [10]].
Proof.
  assert (Forall label_ok slow_run) as Hok by slow_labels.
  assert (reachable true th_1ms demo_cfg demo_s) as Hr.
  { apply (slow_reachable_exec true th_1ms demo_cfg booted slow_run); [constructor|done|].
    by apply slow_exec_spec. }
  assert (In demo_ev (events demo_s)) as Hin.
  { unfold demo_ev. destruct (events demo_s) eqn:He; [|by left].
    exfalso. apply (f_equal length) in He. revert He. vm_compute. congruence. }
  pose proof (slow_printed_line (fun _ => bytes "00:00:00") true th_1ms demo_cfg demo_s demo_ev []
    Hr Hin) as H.
  destruct (latency_text (ev_delta_us demo_ev)) as [ms us]. destruct H as (H & _).
  rewrite H. vm_compute. reflexivity.
Defined.

Lemma syscall_name_inj_witness : syscall_name 52 <> syscall_name 53.
Proof. intros H. apply (syscall_name_inj 52 53) in H; lia. Defined.
