(* ===== verification/IoMain.v ===== *)
(** * iosnoop and ioslower: options and main

    Models the option parsers and [main] of src/user/iosnoop.c and
    src/user/ioslower.c, from the command line to the exit status: the mount
    path becomes the filter of the kernel program, the threshold follows after
    attaching, and the polling loop runs until a signal, an error or the
    deadline.  What the system calls and libbpf return is an argument
    ([world]); the polling loop is given the rounds it goes through.  The
    theorems: which devices the configured programs let through, when the loop
    stops, what the exit status says, and what ioslower reports between
    attaching and setting its threshold. *)

From S2P Require Import Prelude Bpf BpfModel Hooks CLib Sysmacros IosnoopUser.
From S2P Require Import IosnoopBpf IosnoopTrace IosnoopFilter IoslowerBpf IoslowerTrace.

(** ** Options *)

Inductive key := KeyVerbose | KeyDuration | KeyThreshold | KeyMount | KeyArg | KeyOther.

Record options := Options {
  verbose : bool; duration : Z; min_us : Z; mount_path : option (list Z);
}.

Definition initial_options : options := Options false 0 10000 None.

Inductive outcome := Next (o : options) | Usage | Unknown.

(** The options of iosnoop are -v, -d and -m (the mount); it has no threshold.
    A failing strdup leaves no path. *)
Definition iosnoop_parse_arg (strdup_ok : bool) (k : key) (arg : list Z) (o : options) : outcome :=
  match k with
  | KeyVerbose => Next (Options true (duration o) (min_us o) (mount_path o))
  | KeyDuration => Next (Options (verbose o) (parse_duration arg) (min_us o) (mount_path o))
  | KeyMount =>
      Next (Options (verbose o) (duration o) (min_us o) (if strdup_ok then Some arg else None))
  | KeyArg => Usage
  | KeyThreshold | KeyOther => Unknown
  end.

(** ioslower has -v, -d, -m (the threshold in milliseconds) and -p (the
    mount); the product is kept modulo 2^64, as the compiled code does. *)
Definition ioslower_parse_arg (strdup_ok : bool) (k : key) (arg : list Z) (o : options) : outcome :=
  match k with
  | KeyVerbose => Next (Options true (duration o) (min_us o) (mount_path o))
  | KeyDuration => Next (Options (verbose o) (parse_duration arg) (min_us o) (mount_path o))
  | KeyThreshold =>
      let '(ms, _, _) := strtol arg 10 in
      Next (Options (verbose o) (duration o) (u64 (ms * 1000)) (mount_path o))
  | KeyMount =>
      Next (Options (verbose o) (duration o) (min_us o) (if strdup_ok then Some arg else None))
  | KeyArg => Usage
  | KeyOther => Unknown
  end.

(** ** The world *)

(** One round of the polling loop: the flag that the signal handler sets, read
    before polling, the result of ring_buffer__poll, and the time after it. *)
Record round := Round { r_exiting : bool; r_poll : Z; r_now : Z }.

Record world := World {
  opened_ok : bool; load : Z;
  realpath_ok : bool; stat_dev : option Z;   (* st_dev, None when stat fails *)
  attach : Z; ring_ok : bool; signal_ok : bool;
  start : Z;                                 (* time(NULL) before the loop *)
  rounds : list round;
}.

Definition EINTR : Z := 4.

Definition exit_status (err : Z) : Z := if err <? 0 then 1 else 0.

(** [None]: still tracing after the rounds. *)
Fixpoint poll_loop (deadline err : Z) (rs : list round) : option Z :=
  match rs with
  | [] => None
  | r :: rs =>
      if r_exiting r then Some err
      else
        let err := r_poll r in
        if (err <? 0) && negb (err =? - EINTR) then Some err
        else if negb (deadline =? 0) && (deadline <=? r_now r) then Some err
        else poll_loop deadline err rs
  end.

(** The result of the last poll. *)
Fixpoint last_poll (err : Z) (rs : list round) : Z :=
  match rs with [] => err | r :: rs => last_poll (r_poll r) rs end.

Definition deadline_of (o : options) (w : world) : Z :=
  if duration o =? 0 then 0 else start w + duration o.

Section Main.
Context {RT : BpfRuntime}.

(** The mount filter: the map after the update, or [err] at a jump to the
    cleanup; when the path cannot be resolved it is still the 0 of the load. *)
Definition setup_filter {C} (mk : Z -> Z -> Z -> C) (o : options) (w : world) (m : hmap Z C)
  : hmap Z C + Z :=
  match mount_path o with
  | None => inl m
  | Some _ =>
      if negb (realpath_ok w) then inr 0
      else
        match stat_dev w with
        | None => inr 0
        | Some dev =>
            let cfg := mk 1 (u32 (gnu_dev_major dev)) (u32 (gnu_dev_minor dev)) in
            let '(err, m) := bpf_map_update_elem m 0 cfg BPF_ANY in
            if err <? 0 then inr err else inl m
        end
  end.

(** The tail of both programs: the ring, the signal handler and the loop. *)
Definition trace_loop (o : options) (w : world) (err : Z) : option Z :=
  if negb (ring_ok w) then Some (exit_status (-1))
  else if negb (signal_ok w) then Some (exit_status 1)
  else exit_status <$> poll_loop (deadline_of o w) err (rounds w).

(** The exit status, [None] while tracing, and the state of the kernel program
    when it was attached; [cfg] is its configuration map, an array of one
    zeroed element. *)
Definition iosnoop_main (o : options) (w : world) (cfg : hmap Z IosnoopBpf.mount_filter_cfg)
  : option Z * option IosnoopBpf.st :=
  if negb (opened_ok w) then (Some 1, None)
  else if negb (load w =? 0) then (Some (exit_status (load w)), None)
  else
    match setup_filter IosnoopBpf.MountFilterCfg o w cfg with
    | inr err => (Some (exit_status err), None)
    | inl cfg =>
        if negb (attach w =? 0) then (Some (exit_status (attach w)), None)
        else (trace_loop o w (attach w), Some (IosnoopTrace.boot cfg))
    end.

(** ioslower also sets the threshold, after attaching: the states of the
    kernel program before and after. *)
Definition ioslower_main (o : options) (w : world) (th : hmap Z Z)
    (cfg : hmap Z IoslowerBpf.mount_filter_cfg)
  : option Z * option (IoslowerBpf.st * IoslowerBpf.st) :=
  if negb (opened_ok w) then (Some 1, None)
  else if negb (load w =? 0) then (Some (exit_status (load w)), None)
  else
    match setup_filter IoslowerBpf.MountFilterCfg o w cfg with
    | inr err => (Some (exit_status err), None)
    | inl cfg =>
        if negb (attach w =? 0) then (Some (exit_status (attach w)), None)
        else
          let s := IoslowerTrace.boot th cfg in
          let '(err, th) := bpf_map_update_elem th 0 (min_us o) BPF_ANY in
          let s' := IoslowerTrace.boot th cfg in
          if err <? 0 then (Some (exit_status err), Some (s, s'))
          else (trace_loop o w err, Some (s, s'))
    end.
End Main.

(** ** When the loop stops *)

(** A round after which the loop is left. *)
Definition stops (deadline : Z) (r : round) : Prop :=
  r_exiting r = true \/ (r_poll r < 0 /\ r_poll r <> - EINTR) \/
  (deadline <> 0 /\ deadline <= r_now r).

#[export] Instance stops_dec deadline r : Decision (stops deadline r).
Proof. unfold stops. apply _. Defined.

(** One round of the loop. *)
Lemma poll_loop_cons deadline err r rs :
  poll_loop deadline err (r :: rs) =
  if decide (stops deadline r) then Some (if r_exiting r then err else r_poll r)
  else poll_loop deadline (r_poll r) rs.
Proof.
  cbn [poll_loop]. case_decide as Hs; unfold stops in Hs; destruct (r_exiting r); try tauto;
    destruct (Z.ltb_spec (r_poll r) 0), (Z.eqb_spec (r_poll r) (- EINTR)),
      (Z.eqb_spec deadline 0), (Z.leb_spec deadline (r_now r)); cbn [negb andb];
    try done; exfalso; intuition (congruence || lia).
Qed.

Lemma poll_loop_ends deadline err rs : poll_loop deadline err rs <> None <-> Exists (stops deadline) rs.
Proof.
  revert err. induction rs as [|r rs IH]; intros err.
  - by rewrite List.Exists_nil.
  - rewrite List.Exists_cons, <- (IH (r_poll r)), poll_loop_cons. case_decide; [|tauto].
    split; [by left|done].
Qed.

(** C33. Tracing stops: once a program has its ring and its signal handler, it
    stops within given rounds exactly when in one of them the signal was seen,
    polling failed for another reason than a signal, or the deadline of -d had
    passed; so a duration bounds the run, and without one only a signal or an
    error ends it. *)
Theorem trace_loop_stops o w err :
  ring_ok w = true -> signal_ok w = true ->
  trace_loop o w err <> None <->
  Exists (fun r => r_exiting r = true \/ (r_poll r < 0 /\ r_poll r <> - EINTR) \/
    (duration o <> 0 /\ start w + duration o <> 0 /\ start w + duration o <= r_now r)) (rounds w).
Proof.
  intros Hr Hs. unfold trace_loop. rewrite Hr, Hs. cbn [negb].
  assert (forall x : option Z, exit_status <$> x <> None <-> x <> None) as ->
    by (intros []; cbn; split; congruence).
  rewrite poll_loop_ends. unfold stops, deadline_of.
  rewrite !List.Exists_exists.
  destruct (Z.eqb_spec (duration o) 0); split; intros (r & Hin & Hst); exists r; tauto.
Qed.

Lemma poll_loop_app deadline err rs rs' :
  ~ Exists (stops deadline) rs ->
  poll_loop deadline err (rs ++ rs') = poll_loop deadline (last_poll err rs) rs'.
Proof.
  revert err. induction rs as [|r rs IH]; intros err Hn; [done|].
  rewrite List.Exists_cons in Hn. cbn [app last_poll]. rewrite poll_loop_cons.
  rewrite decide_False by tauto. apply IH. tauto.
Qed.

(** Stopping a program with a signal that interrupts the polling ends it
    with status 1: the loop takes the interrupted poll for a good one, leaves
    at the flag of the handler, and the status is that of the last poll. *)
Theorem interrupt_status o w err rs now r :
  ring_ok w = true -> signal_ok w = true ->
  rounds w = rs ++ [Round false (- EINTR) now; r] -> r_exiting r = true ->
  ~ Exists (stops (deadline_of o w)) rs -> deadline_of o w = 0 \/ now < deadline_of o w ->
  trace_loop o w err = Some 1.
Proof.
  intros Hr Hs Hrs He Hn Hd. unfold trace_loop. rewrite Hr, Hs, Hrs, poll_loop_app by done.
  cbn [negb poll_loop r_exiting r_poll r_now].
  assert (negb (deadline_of o w =? 0) && (deadline_of o w <=? now) = false) as ->.
  { apply andb_false_iff. rewrite negb_false_iff, Z.eqb_eq, Z.leb_gt. lia. }
  by rewrite He.
Qed.

Section MainLemmas.
Context {RT : BpfRuntime} {RL : BpfRuntimeLaws RT}.

(** ** The mount filter *)

Lemma setup_filter_dev {C} (mk : Z -> Z -> Z -> C) o w p major minor (m m' : hmap Z C) :
  mount_path o = Some p -> stat_dev w = Some (makedev major minor) ->
  fits_u 12 major -> fits_u 20 minor ->
  setup_filter mk o w m = inl m' ->
  bpf_map_lookup_elem m' 0 = Some (mk 1 major minor).
Proof.
  intros Hp Hst Hma Hmi. unfold setup_filter. rewrite Hp, Hst.
  destruct (makedev_split major minor) as [-> ->]; [unfold fits_u in *; lia..|].
  rewrite !wrapu_small by (unfold fits_u in *; lia).
  destruct (realpath_ok w); [|done]. cbn [negb].
  pose proof (update_cases Z C m 0 (mk 1 major minor) BPF_ANY) as Hc.
  destruct (bpf_map_update_elem m 0 (mk 1 major minor) BPF_ANY) as [r m1].
  destruct Hc as [_ [[-> Hv]|[Hr _]]]; cbn [Z.ltb Z.compare]; intros Hm.
  - injection Hm as <-. rewrite lookup_view, Hv. apply lookup_insert_eq.
  - destruct (Z.ltb_spec r 0); [done|lia].
Qed.

Lemma iosnoop_main_state o w cfg st s :
  iosnoop_main o w cfg = (st, Some s) ->
  exists cfg', setup_filter IosnoopBpf.MountFilterCfg o w cfg = inl cfg' /\
    s = IosnoopTrace.boot cfg'.
Proof.
  unfold iosnoop_main. destruct (opened_ok w), (load w =? 0); cbn [negb]; [|done..].
  destruct (setup_filter _ _ _ _) as [cfg'|]; [|done].
  destruct (attach w =? 0); cbn [negb]; [|done]. intros [= <- <-]. by exists cfg'.
Qed.

Lemma ioslower_main_state o w th cfg st s s' :
  ioslower_main o w th cfg = (st, Some (s, s')) ->
  exists cfg', setup_filter IoslowerBpf.MountFilterCfg o w cfg = inl cfg' /\
    s = IoslowerTrace.boot th cfg' /\
    s' = IoslowerTrace.boot (snd (bpf_map_update_elem th 0 (min_us o) BPF_ANY)) cfg'.
Proof.
  unfold ioslower_main. destruct (opened_ok w), (load w =? 0); cbn [negb]; [|done..].
  destruct (setup_filter _ _ _ _) as [cfg'|]; [|done].
  destruct (attach w =? 0); cbn [negb]; [|done].
  destruct (bpf_map_update_elem th 0 (min_us o) BPF_ANY) as [err th'].
  destruct (err <? 0); intros [= <- <- <-]; by exists cfg'.
Qed.

(** C30. The mount path becomes the device filter: when a program attaches with
    a mount path on device [major]:[minor], whose numbers the C library packs
    and unpacks, iosnoop's kernel program lets through the operations on that
    device and on an unknown one, and ioslower's those on that device only. *)
Theorem mount_path_filters o w p major minor th cfg1 cfg2 st1 s1 st2 s2 s2' dev :
  mount_path o = Some p -> stat_dev w = Some (makedev major minor) ->
  fits_u 12 major -> fits_u 20 minor ->
  iosnoop_main o w cfg1 = (st1, Some s1) -> ioslower_main o w th cfg2 = (st2, Some (s2, s2')) ->
  (IosnoopBpf.pass_mount_filter s1 dev = true <-> dev = 0 \/ dev = mkdev major minor) /\
  (IoslowerBpf.pass_mount_filter s2 dev = true <-> dev = mkdev major minor) /\
  IoslowerBpf.pass_mount_filter s2' dev = IoslowerBpf.pass_mount_filter s2 dev.
Proof.
  intros Hp Hst Hma Hmi (c1 & Hf1 & ->)%iosnoop_main_state (c2 & Hf2 & -> & ->)%ioslower_main_state.
  pose proof (setup_filter_dev _ o w p major minor _ _ Hp Hst Hma Hmi Hf1) as H1.
  pose proof (setup_filter_dev _ o w p major minor _ _ Hp Hst Hma Hmi Hf2) as H2.
  pose proof (cfg_match (IosnoopBpf.MountFilterCfg 1 major minor) dev (conj Hma Hmi)) as Hmatch.
  cbn [IosnoopBpf.dev_major IosnoopBpf.dev_minor] in Hmatch.
  unfold IosnoopBpf.pass_mount_filter, IoslowerBpf.pass_mount_filter, IosnoopTrace.boot,
    IoslowerTrace.boot. cbn [IosnoopBpf.cfg_map IoslowerBpf.cfg_map].
  rewrite H1, H2. cbn. rewrite Hmatch. split; [|done].
  destruct (Z.eqb_spec dev 0) as [->|]; [naive_solver|]. rewrite Hmatch. naive_solver.
Qed.

(** A mount path that cannot be resolved, or whose update fails, ends
    neither program with an error of its own: a program ends before attaching
    with status 0 exactly when it loaded and then realpath or stat of its mount
    path failed. *)
Theorem io_exit_before_attach o w (cfg : hmap Z IosnoopBpf.mount_filter_cfg) e :
  load w <= 0 -> attach w <= 0 ->
  iosnoop_main o w cfg = (Some e, None) ->
  e = 0 <->
  opened_ok w = true /\ load w = 0 /\ mount_path o <> None /\
  (realpath_ok w = false \/ stat_dev w = None).
Proof.
  intros Hl Ha. unfold iosnoop_main, exit_status, setup_filter.
  destruct (opened_ok w); cbn [negb]; [|intros [= <-]; naive_solver].
  destruct (Z.eqb_spec (load w) 0) as [->|Hne]; cbn [negb].
  2: { destruct (Z.ltb_spec (load w) 0); [|lia]. intros [= <-]. naive_solver. }
  destruct (mount_path o) as [p|].
  2: { destruct (Z.eqb_spec (attach w) 0); [done|].
       destruct (Z.ltb_spec (attach w) 0); [|lia]. intros [= <-]. naive_solver. }
  destruct (realpath_ok w); [|intros [= <-]; naive_solver].
  destruct (stat_dev w) as [d|]; [|intros [= <-]; naive_solver]. cbn [negb].
  destruct (bpf_map_update_elem _ _ _ _) as [r m]. destruct (Z.ltb_spec r 0).
  - destruct (Z.ltb_spec r 0); [|lia]. intros [= <-]. naive_solver.
  - destruct (Z.eqb_spec (attach w) 0); [done|].
    destruct (Z.ltb_spec (attach w) 0); [|lia]. intros [= <-]. naive_solver.
Qed.

(** ioslower attaches before it sets its threshold: until then its kernel
    program, whose threshold is the zero of the fresh map, reports every
    operation that finishes, however fast; afterwards the threshold is the one
    of the options. *)
Theorem threshold_window o w th cfg st s s' :
  bpf_map_lookup_elem th 0 = Some 0 ->
  ioslower_main o w th cfg = (st, Some (s, s')) ->
  (forall t e id ret start_ slot,
    threshold_config t = threshold_config s -> bpf_map_lookup_elem (op_start t) id = Some start_ ->
    reserve e 0 = Some slot ->
    length (IoslowerBpf.events (IoslowerBpf.finish_event e id ret t)) =
    S (length (IoslowerBpf.events t))) /\
  bpf_map_lookup_elem (threshold_config s') 0 = Some (min_us o).
Proof.
  intros Hth (cfg' & _ & -> & ->)%ioslower_main_state. cbn [threshold_config IoslowerTrace.boot]. split.
  - intros t e id ret start_ slot Ht Hop Hslot.
    unfold IoslowerBpf.finish_event, IoslowerBpf.emit_event. rewrite Hop, Ht, Hth, Hslot.
    pose proof (wrapu_range 64 (ktime e 0 - st_ts start_) ltac:(lia)) as Hr. unfold fits_u in Hr.
    destruct (Z.ltb_spec (u64 (ktime e 0 - st_ts start_) / 1000) 0) as [Hlt|_].
    + pose proof (Z.div_pos (u64 (ktime e 0 - st_ts start_)) 1000). lia.
    + cbn [IoslowerBpf.events set_events set_op_start]. rewrite length_app. cbn [length]. lia.
  - apply (lookup_update_any th 0 (min_us o)). left. rewrite <- lookup_view, Hth. by eexists.
Qed.
End MainLemmas.

(** ** The theorems at concrete inputs *)

Definition demo_options : options := Options false 2 5000 (Some (bytes "/mnt/a")).
Definition demo_rounds : list round := [Round false 0 100; Round false 3 101; Round false 1 102].
Definition demo_world : world :=
  World true 0 true (Some (makedev 8 1)) 0 true true 100 demo_rounds.
Definition zero_cfg1 : hmap Z IosnoopBpf.mount_filter_cfg :=
  update_elem (map_create 1) 0 (IosnoopBpf.MountFilterCfg 0 0 0) BPF_ANY.
Definition zero_cfg2 : hmap Z IoslowerBpf.mount_filter_cfg :=
  update_elem (map_create 1) 0 (IoslowerBpf.MountFilterCfg 0 0 0) BPF_ANY.
Definition zero_threshold : hmap Z Z := update_elem (map_create 1) 0 0 BPF_ANY.

(** The state of a run, or the booted one when it did not get there. *)
Definition iosnoop_state : IosnoopBpf.st :=
  default (IosnoopTrace.boot zero_cfg1) (snd (iosnoop_main demo_options demo_world zero_cfg1)).
Definition ioslower_states : IoslowerBpf.st * IoslowerBpf.st :=
  default (IoslowerTrace.boot zero_threshold zero_cfg2, IoslowerTrace.boot zero_threshold zero_cfg2)
    (snd (ioslower_main demo_options demo_world zero_threshold zero_cfg2)).

Lemma trace_loop_stops_witness : trace_loop demo_options demo_world 0 <> None.
Proof.
  apply (trace_loop_stops demo_options demo_world 0); [reflexivity|reflexivity|].
  apply List.Exists_exists. exists (Round false 1 102). split; [cbn; tauto|]. cbn. lia.
Defined.

Lemma interrupt_status_witness :
  trace_loop (Options false 0 5000 None)
    (World true 0 true None 0 true true 100 (demo_rounds ++ [Round false (-4) 103; Round true 0 103]))
    0 = Some 1.
Proof.
  apply (interrupt_status (Options false 0 5000 None) (World true 0 true None 0 true true 100
    (demo_rounds ++ [Round false (-4) 103; Round true 0 103])) 0 demo_rounds 103 (Round true 0 103));
    try reflexivity; [|by left].
  intros H. apply (poll_loop_ends 0 0) in H. apply H. vm_compute. reflexivity.
Defined.

Lemma mount_path_filters_witness :
  IosnoopBpf.pass_mount_filter iosnoop_state (mkdev 8 1) = true /\
  IoslowerBpf.pass_mount_filter (fst ioslower_states) (mkdev 8 2) = false.
Proof.
  pose proof (fun dev => mount_path_filters demo_options demo_world (bytes "/mnt/a") 8 1
    zero_threshold zero_cfg1 zero_cfg2 (Some 0) iosnoop_state (Some 0) (fst ioslower_states)
    (snd ioslower_states) dev eq_refl eq_refl ltac:(vm_compute; intuition congruence)
    ltac:(vm_compute; intuition congruence) ltac:(vm_compute; reflexivity)
    ltac:(vm_compute; reflexivity)) as H.
  split.
  - apply (proj1 (H (mkdev 8 1))). by right.
  - apply not_true_is_false. intros Ht. apply (proj1 (proj2 (H (mkdev 8 2)))) in Ht. revert Ht. vm_compute. congruence.
Defined.

Lemma io_exit_before_attach_witness :
  fst (iosnoop_main demo_options (World true 0 false None 0 true true 100 []) zero_cfg1) = Some 0.
Proof.
  assert (0 = 0) as _ by reflexivity.
  destruct (iosnoop_main demo_options (World true 0 false None 0 true true 100 []) zero_cfg1)
    as [[e|] [s|]] eqn:H; try (exfalso; revert H; vm_compute; congruence).
  cbn [fst]. f_equal.
  apply (io_exit_before_attach demo_options (World true 0 false None 0 true true 100 []) zero_cfg1 e);
    [cbn; lia|cbn; lia|exact H|].
  split; [reflexivity|]. split; [reflexivity|]. split; [discriminate|by left].
Defined.

Lemma threshold_window_witness :
  bpf_map_lookup_elem (threshold_config (snd ioslower_states)) 0 = Some 5000.
Proof.
  apply (threshold_window demo_options demo_world zero_threshold zero_cfg2 (Some 0)
    (fst ioslower_states) (snd ioslower_states)); vm_compute; reflexivity.
Defined.
